(* ===== verification/_CoqProject ===== *)
-Q . S2P
Prelude.v
GoBytes.v
GoJson.v
GoTime.v
Event.v
GoTimeFacts.v
GoJsonFacts.v
EventFacts.v
Envelope.v
Instances.v
EventProps.v
JsonbProps.v
Runtime.v
RuntimeInfo.v
Persistence.v
PersistenceProps.v
Telemetry.v
GoEncode.v
GoSha256.v
GoPath.v
Publisher.v
PublisherProps.v
QuarantineProps.v
Reader.v
ReaderFacts.v
ReaderProps.v
Delivery.v
Progress.v
Sim.v
GoFloat.v
RateLimit.v
RateLimitConc.v
GoNumber.v
Config.v
Api.v
ApiProps.v
EndToEnd.v
SimApi.v
Service.v
ServiceProps.v
Programs.v
Supervision.v
SimService.v
BenchAccounting.v
BenchProps.v
LoadGen.v
LoadGenProps.v
BenchConnections.v
Deployment.v
RunEnv.v
RunEnvProps.v
RunEnvStart.v
Demo.v
Workload.v
DemoProps.v
BenchMain.v
BenchMainProps.v
BenchStudy.v
BenchStudyProps.v
BenchDatabase.v
BenchDatabaseProps.v
SimDatabase.v
ProgressProbe.v
SimProbe.v
Observer.v
ObserverProps.v
Pipeline.v
PipelineProps.v
Calibration.v
SimPipeline.v
RuntimeMetrics.v
Recovery.v
RecoveryProps.v
SimRecovery.v
SimLoad.v
SimBench.v
SimRunEnv.v
