(* ===== verification/Prelude.v ===== *)
(** * IngestKit: an event-ingestion pipeline and its proofs

    IngestKit accepts batches of events over HTTP, publishes them to a broker
    and stores them in PostgreSQL, at least once on the way and exactly once
    in the table.  This library models its Go code as executable functions and
    proves what makes it correct.

    ** The program

    - [cmd/api] with [internal/api]: an HTTP service.  A request passes request
      identification, measurement, authentication by key, a token bucket per
      tenant, decoding and validation; its events are published and only then
      acknowledged.
    - [internal/messaging]: the publisher, the reader that polls the broker,
      writes to the store, quarantines what it cannot decode and commits
      offsets, and the quarantine itself.
    - [internal/persistence]: the store, one INSERT ... ON CONFLICT DO NOTHING.
    - [cmd/consumer] with [internal/service]: supervision of the reader, its
      health and readiness, bounded diagnostics and shutdown.
    - [internal/event], [internal/config], [internal/telemetry],
      [internal/runtimeinfo]: the event contract, the environments, the
      metrics, the process limits.
    - [internal/runenv], [cmd/demo], [internal/benchmark], [cmd/bench]: stacks
      of containers that a run owns, the demonstration, and the measurements.

    ** How it is modelled

    A Go string or slice of bytes is a list of [Z] ([bytes]); an error is a
    value of [error], as far as [errors.Is], [errors.As] and type assertions
    tell errors apart; a function that fails returns [goerr] or [res].
    Integers are [Z] with their widths where the code parses, bounds or wraps
    them; [float64] is a rational with rounding (GoFloat).  Effectful code is
    written in the monad [M] of Runtime, a state that is threaded and a
    possible divergence; the state is the world [W] with a clock, what the
    program measures and the calls it made.  A context is the instant at which
    it is done and why.

    What is not in the repository is a parameter, a type class of operations
    with a second class of the laws that are relied on: google/uuid
    ([UUIDLib], [UUIDLaws]), PostgreSQL ([Database], [DatabaseLaws]), the
    broker client ([Broker], [BrokerLaws]), the consumer client ([Cluster],
    [ClusterLaws]: it has a position of its own in every partition, which the
    first fetch takes from the committed offset and every fetch moves on,
    committed or not), timers ([Timers], [TimersLaws]),
    fiber's router (an argument of [serve]), Docker and the host ([Host],
    [HostLaws]), transactions ([BenchPool], [BenchPoolLaws]), the broker's
    offsets ([OffsetProbe], [OffsetProbeLaws]), a session with a temporary
    table ([ObserverSession], [ObserverLaws]), the exchanges of a pipeline
    benchmark ([PipelineHost], [PipelineLaws]) and the process of a fault
    scenario ([RecoveryHost], [RecoveryLaws]).
    Components meet at such interfaces too: the reader is verified against
    [BatchStore] and the API against [EventPublisher], and the store and the
    publisher are proved to implement them.  The Sim files give every class a
    concrete instance, in which the theorems are applied to concrete inputs.

    ** Files

    Language and library: Prelude (byte strings, errors, tactics, the hint
    database, lemmas on lists and options), GoBytes ([strings], [strconv],
    [utf8]), GoJson ([encoding/json]), GoTime ([time], RFC 3339), GoEncode
    ([base64], maps and HTML-escaped strings in JSON), GoSha256
    ([crypto/sha256]), GoPath ([path/filepath], [url.QueryEscape]), GoFloat ([float64]), GoNumber
    (integers and durations of a command line), Runtime (contexts, the
    monad); GoJsonFacts and GoTimeFacts prove that printers and parsers
    invert each other.

    - Event, EventFacts, Envelope, EventProps, JsonbProps:
      internal/event/{event,decode,jsonb}.go.
    - Persistence, PersistenceProps: internal/persistence/events.go.
    - Telemetry, RuntimeInfo: internal/telemetry with all that a scrape
      gathers, internal/runtimeinfo.
    - Publisher, PublisherProps, QuarantineProps:
      messaging/{publisher,quarantine}.go; the last has a reader of the
      quarantined documents.
    - Reader, ReaderFacts, ReaderProps: messaging/{reader,process}.go.
    - Delivery: the specification of the consumer, its refinement, and lives
      of readers with crashes; Progress: that the reader catches up.
    - RateLimit, Api, ApiProps: internal/api and its middleware;
      RateLimitConc: the limiter one critical section at a time.
    - Config: internal/config.
    - EndToEnd: the API and the consumer joined by the broker's log.
    - Service, ServiceProps, Programs: internal/service, cmd/consumer, cmd/api;
      Supervision: the consumer's reader under its supervisor.
    - Deployment, RunEnv, RunEnvProps, RunEnvStart:
      internal/runenv/{deployment_config,compose,deployment}.go.
    - Demo, DemoProps: internal/runenv/demo.go, cmd/demo.
    - BenchMain, BenchMainProps: cmd/bench.
    - LoadGen, LoadGenProps: the load generator of
      internal/benchmark/{pipeline,pipeline_observer}.go; Workload: its events.
    - Observer, ObserverProps: the pending observer, observer.go, and how
      [RunPipeline] reconnects it; Pipeline, PipelineProps: [RunPipeline]
      itself, pipeline.go and verification.go; Calibration: calibration.go;
      RuntimeMetrics: runtime.go.
    - Recovery, RecoveryProps: the fault scenarios, recovery.go.
    - BenchDatabase, BenchDatabaseProps: the database benchmark,
      internal/benchmark/{database,copy_reference}.go; ProgressProbe: the wait
      for the consumer, progress.go.
    - BenchAccounting, BenchProps, BenchConnections, BenchStudy,
      BenchStudyProps: the accounting, the connection recorder and the study
      journal of internal/benchmark.
    - Instances, Sim, SimApi, SimService, SimLoad, SimDatabase, SimProbe,
      SimPipeline, SimRecovery, SimBench, SimRunEnv: the concrete instances and the theorems on
      concrete inputs.

    ** What the theorems show

    - The event contract: what the API accepts, the consumer decodes to the
      same event, except for zones of 24 hours and more, which are accepted
      and cannot be published; limits and the JSONB filter are exact.
    - Delivery: a 202 answer means every event was published; every record
      below a committed offset is stored or quarantined, at every point of
      every run, failures and ambiguous outcomes included, and over any
      sequence of runs, supervised attempts and crashes.  This rests on a
      run ending with its first error: a client that went on polling would
      fetch after the records that failed.  So every
      acknowledged event has a row once the consumer has committed it, and a
      reader that keeps running commits all there is.  Batches are atomic,
      retries idempotent, and the document of a quarantined record gives the
      record back.
    - The API: refusals do not reach the broker and say why, every request is
      counted once, valid requests get 202 or 503, a tenant is admitted no
      more than its rate, or twice that when a sweep removes its bucket
      between the two locks of a request.
    - The processes: retries, supervision and diagnostics are bounded;
      readiness is exact and never returns after shutdown; connections are
      released on every way out, or the error says that the shutdown ran out
      of its time; keys and deployment files are checked.
    - Owned stacks: stopping, destroying, controlling and collecting touch no
      container or volume without the run's label, and no command any
      outside the run's project, which is all that holds of [Compose]; a
      failed start leaves nothing or says that it could not; a
      started stack is well formed; the demonstration and the measurement
      report success only of what they verified and removed.
    - The benchmark's claims: a workload is what was asked for; a sample
      accounts for every planned event once, does not block on a channel and
      reconstructs its backlog exactly; an event is observed once, whatever
      happens to the observer's sessions; a benchmark without a fatal error
      has passed every repetition on what the database answered, and leaves
      the rows it found; the outbox scenario passes only on a seen outage
      and exact storage, and always asks for the broker again; a calibration's account
      is complete; the writing methods that are compared do the same work; rows of
      other tenants stay; the wait before a cleanup means what it says;
      percentiles are nearest-rank, connection counts are exact,
      studies resume only on matching evidence.

    ** Loops and fuel

    Structural recursion where the code ranges over data.  Other loops run on
    fuel and their termination is a theorem: [persist] on the attempts that
    fit its retry window ([persist_fuel]); [await_healthy] on 153 rounds of
    100 ms for its 15 s; [reconcile_wait] on 302 for its 30 s; [wait_loop] on
    603 of 50 ms for its 30 s; [stored_loop] and [ready_loop] on the rounds
    of 50 and 100 ms that fit their deadline and three; [find_root] on
    the length of the path, since each parent is shorter; [duration_loop] on
    the length of its text.  [Run] and [Supervise], which only end with their
    context, take a number of rounds; what is claimed of them holds for every
    number, or, for [Supervise], for every number above a bound.  The
    concurrent limiter and the load generator are machines that take the
    events of their goroutines one at a time; what is claimed of them holds
    for every sequence of events.

    ** Not modelled

    Rendering of logs, metrics and printed reports; fiber, franz-go, pgx,
    Prometheus and Docker themselves; the goroutine scheduler, in place of
    which selects and callbacks come in any order an oracle gives them, each
    call of a goroutine at one point of that order;
    another process that changes a stack's resources between the check of
    their labels and the command that follows; of internal/benchmark, the
    capture of artifacts and of counters of pgx and of containers, which are
    copies of what external systems say, the statistics of printed reports,
    and [RunRecoveryCase] as a whole: its controlling goroutine, its hook and
    its loop over the runs are modelled, but share maps under a mutex through
    the hooks of [RunPipeline].  cmd/bench calls the measurements through the
    class [Bench], whose functions are any computations, so that what is
    shown of the program holds whatever the measurements of the other files
    do, and also if they do not return.  The
    schema and the deployment scripts are not Go. *)
From Stdlib Require Export ZArith Lia Bool Btauto Ascii String.
From stdpp Require Export base list gmap strings fin_maps.

#[global] Open Scope Z_scope.

(** ** Byte strings

    A Go string or byte slice is a list of bytes; a byte is a [Z] between 0
    and 255. *)
Abbreviation bytes := (list Z).

Definition is_byte (c : Z) : bool := (0 <=? c) && (c <=? 255).
Definition wf_bytes (s : bytes) : Prop := Forall (fun c => 0 <= c <= 255) s.

(** The bytes of a literal of the source. *)
Definition lit (s : string) : bytes :=
  map (fun a => Z.of_N (N_of_ascii a)) (list_ascii_of_string s).

Definition blen (s : bytes) : Z := Z.of_nat (length s).

(** ** Go errors

    An [error] interface value is [None] (nil) or [Some e].  The constructors
    are the dynamic types the code distinguishes with [errors.Is],
    [errors.As] or a type assertion. *)
Inductive error :=
  | ENew (msg : string)
  | EValidation (msg : string) (tooLarge : bool)
  | EObservation (cause : error)
  | EPg (code : string)
  | ENet (timeout : bool)
  | EDns
  | EWrap (msg : string) (cause : error)
  | EJoin (es : list error).

Abbreviation goerr := (option error).

Inductive res (A : Type) :=
  | Ok (a : A)
  | Err (e : error).
Arguments Ok {A} a.
Arguments Err {A} e.

Definition res_err {A} (r : res A) : goerr :=
  match r with Ok _ => None | Err e => Some e end.
Definition is_ok {A} (r : res A) : bool :=
  match r with Ok _ => true | Err _ => false end.

Definition res_bind {A C} (r : res A) (k : A -> res C) : res C :=
  match r with Ok a => k a | Err e => Err e end.

Declare Scope go_scope.
Delimit Scope go_scope with go.
Notation "'let?' x := r 'in' k" := (res_bind r (fun x => k))
  (at level 10, x pattern, r at level 100, k at level 200) : go_scope.
#[global] Open Scope go_scope.

(** [context.Canceled] and [context.DeadlineExceeded]. *)
Definition context_Canceled : error := ENew "context canceled".
Definition context_DeadlineExceeded : error := ENew "context deadline exceeded".

(** The structural recursion of Rocq's generated principle does not reach the
    elements of a joined error; this one does. *)
Section ErrorInd.
Context (P : error -> Prop).
Context (Hnew : forall m, P (ENew m)) (Hval : forall m t, P (EValidation m t)).
Context (Hobs : forall e, P e -> P (EObservation e)) (Hpg : forall c, P (EPg c)).
Context (Hnet : forall t, P (ENet t)) (Hdns : P EDns).
Context (Hwrap : forall m e, P e -> P (EWrap m e)).
Context (Hjoin : forall es, Forall P es -> P (EJoin es)).

Fixpoint error_nested_ind (e : error) : P e :=
  match e with
  | ENew m => Hnew m
  | EValidation m t => Hval m t
  | EObservation c => Hobs c (error_nested_ind c)
  | EPg c => Hpg c
  | ENet t => Hnet t
  | EDns => Hdns
  | EWrap m c => Hwrap m c (error_nested_ind c)
  | EJoin es =>
      Hjoin es ((fix go (l : list error) : Forall P l :=
                   match l with
                   | [] => Forall_nil_2 _
                   | x :: r => Forall_cons_2 _ _ _ (error_nested_ind x) (go r)
                   end) es)
  end.
End ErrorInd.

#[global] Instance error_eq_dec : EqDecision error.
Proof.
  refine (fix go (a b : error) {struct a} : Decision (a = b) :=
    match a, b with
    | ENew m, ENew m' => cast_if (decide (m = m'))
    | EValidation m t, EValidation m' t' => cast_if_and (decide (m = m')) (decide (t = t'))
    | EObservation c, EObservation c' => cast_if (go c c')
    | EPg c, EPg c' => cast_if (decide (c = c'))
    | ENet t, ENet t' => cast_if (decide (t = t'))
    | EDns, EDns => left eq_refl
    | EWrap m c, EWrap m' c' => cast_if_and (decide (m = m')) (go c c')
    | EJoin es, EJoin es' =>
        cast_if ((fix gol (l l' : list error) {struct l} : Decision (l = l') :=
           match l, l' with
           | [], [] => left eq_refl
           | x :: r, x' :: r' => cast_if_and (go x x') (gol r r')
           | _, _ => right _
           end) es es')
    | _, _ => right _
    end); clear go; abstract congruence.
Defined.

(** [errors.Is]: the target itself, or an error of its [Unwrap] tree. *)
Fixpoint errors_Is (e target : error) : bool :=
  bool_decide (e = target) ||
  match e with
  | EObservation c => errors_Is c target
  | EWrap _ c => errors_Is c target
  | EJoin es => existsb (fun x => errors_Is x target) es
  | _ => false
  end.

(** [errors.Join]: nil members are dropped; nil when nothing is left. *)
Definition errors_Join (es : list goerr) : goerr :=
  match omap id es with
  | [] => None
  | l => Some (EJoin l)
  end.

(** ** Shared lemmas and automation *)

Create HintDb ingest discriminated.
Create Rewrite HintDb blen.

(** Turn boolean arithmetic tests in the context into propositions. *)
Ltac bool_to_prop :=
  repeat match goal with
  | H : _ && _ = true |- _ => apply andb_true_iff in H; destruct H
  | H : _ || _ = false |- _ => apply orb_false_iff in H; destruct H
  | H : negb _ = true |- _ => apply negb_true_iff in H
  | H : negb _ = false |- _ => apply negb_false_iff in H
  | H : (_ =? _) = true |- _ => apply Z.eqb_eq in H
  | H : (_ =? _) = false |- _ => apply Z.eqb_neq in H
  | H : (_ <? _) = true |- _ => apply Z.ltb_lt in H
  | H : (_ <? _) = false |- _ => apply Z.ltb_ge in H
  | H : (_ <=? _) = true |- _ => apply Z.leb_le in H
  | H : (_ <=? _) = false |- _ => apply Z.leb_gt in H
  | H : bool_decide _ = true |- _ => apply bool_decide_eq_true in H
  | H : bool_decide _ = false |- _ => apply bool_decide_eq_false in H
  end.

Lemma Some_eq_inv {A} (x y : A) : Some x = Some y -> x = y.
Proof. congruence. Qed.

(** Rewrite an [if] of the goal whose test is a linear arithmetic fact. *)
Ltac if_true := match goal with |- context [if ?b then _ else _] =>
  replace b with true by (symmetry; first [lia | btauto | reflexivity]) end.
Ltac if_false := match goal with |- context [if ?b then _ else _] =>
  replace b with false by (symmetry; first [lia | btauto | reflexivity]) end.

(** Every element of an explicit list satisfies an arithmetic fact. *)
Ltac forall_lia := repeat (apply Forall_cons; split; [lia|]); apply Forall_nil; exact I.

Lemma blen_nonneg s : 0 <= blen s.
Proof. unfold blen; lia. Qed.

Lemma blen_app a c : blen (a ++ c) = blen a + blen c.
Proof. unfold blen; rewrite length_app; lia. Qed.

Lemma blen_cons x s : blen (x :: s) = 1 + blen s.
Proof. unfold blen; cbn [length]; lia. Qed.

Lemma blen_nil : blen [] = 0.
Proof. reflexivity. Qed.

#[export] Hint Rewrite blen_app blen_cons blen_nil : blen.
#[export] Hint Resolve blen_nonneg : ingest.

Lemma wf_bytes_app a c : wf_bytes (a ++ c) <-> wf_bytes a /\ wf_bytes c.
Proof. apply Forall_app. Qed.

Lemma omap_id_nil {A} (l : list (option A)) :
  omap id l = [] <-> Forall (fun o => o = None) l.
Proof.
  induction l as [|[x|] l IH]; cbn; split; intros H; try done.
  - inv H; done.
  - constructor; [done | by apply IH].
  - inv H; by apply IH.
Qed.

Lemma errors_Join_nil es : errors_Join es = None <-> Forall (fun o => o = None) es.
Proof.
  unfold errors_Join. rewrite <- omap_id_nil. by destruct (omap id es).
Qed.
