(* ===== verification/GoBytes.v ===== *)
(** * Go's [strings], [strconv] and [unicode/utf8] on byte strings

    The part of Go's standard library that the event and configuration
    packages use, on the byte lists of [Prelude].  Nothing here is specific to
    the program. *)
From S2P Require Import Prelude.

(** ** strings *)

Fixpoint HasPrefix (s p : bytes) {struct p} : bool :=
  match p, s with
  | [], _ => true
  | x :: p', y :: s' => (x =? y) && HasPrefix s' p'
  | _, [] => false
  end.

Definition TrimPrefix (s p : bytes) : bytes :=
  if HasPrefix s p then drop (length p) s else s.

(** [strings.IndexFunc]-style search: text before the first byte satisfying
    [f], and the text from it on. *)
Fixpoint break_at (f : Z -> bool) (s : bytes) : bytes * bytes :=
  match s with
  | [] => ([], [])
  | c :: r => if f c then ([], s) else let '(a, z) := break_at f r in (c :: a, z)
  end.

Definition TrimLeft (s : bytes) (f : Z -> bool) : bytes :=
  snd (break_at (fun c => negb (f c)) s).

(** [strings.Cut] at a one-byte separator. *)
Definition Cut (s : bytes) (sep : Z) : bytes * bytes * bool :=
  match break_at (fun c => c =? sep) s with
  | (a, _ :: z) => (a, z, true)
  | (a, []) => (a, [], false)
  end.

(** [strings.Split] at a one-byte separator: never the empty list. *)
Fixpoint Split (s : bytes) (sep : Z) : list bytes :=
  match s with
  | [] => [[]]
  | c :: r =>
      if c =? sep then [] :: Split r sep
      else match Split r sep with
           | [] => [[c]]
           | x :: xs => (c :: x) :: xs
           end
  end.

Fixpoint JoinSep (sep : bytes) (l : list bytes) : bytes :=
  match l with
  | [] => []
  | [x] => x
  | x :: r => x ++ sep ++ JoinSep sep r
  end.

(** ** strconv *)

Definition is_digit (c : Z) : bool := (48 <=? c) && (c <=? 57).
Definition is_hex (c : Z) : bool :=
  is_digit c || ((97 <=? c) && (c <=? 102)) || ((65 <=? c) && (c <=? 70)).

Definition hex_val (c : Z) : Z :=
  if is_digit c then c - 48 else if 97 <=? c then c - 87 else c - 55.

Definition hex_char (v : Z) : Z := if v <? 10 then 48 + v else 87 + v.

(** [strconv.ParseUint(s, 16, 16)]: nonempty, all hexadecimal, at most 65535. *)
Definition ParseUint16_16 (s : bytes) : option Z :=
  match s with
  | [] => None
  | _ => if forallb is_hex s then
           let v := fold_left (fun a c => a * 16 + hex_val c) s 0 in
           if v <=? 65535 then Some v else None
         else None
  end.

Definition dec_val (s : bytes) : Z := fold_left (fun a c => a * 10 + (c - 48)) s 0.

(** [strconv.ParseUint(s, 10, bits)] with [max] = 2^bits - 1. *)
Definition ParseUint10 (s : bytes) (max : Z) : option Z :=
  match s with
  | [] => None
  | _ => if forallb is_digit s then
           let v := dec_val s in if v <=? max then Some v else None
         else None
  end.

(** [strconv.ParseInt(s, 10, bits)]: one optional sign; the bound is checked
    on the magnitude, 2^(bits-1) being allowed for negative numbers only. *)
Definition ParseInt10 (s : bytes) (bits : Z) : option Z :=
  let cutoff := 2 ^ (bits - 1) in
  match s with
  | [] => None
  | c :: r =>
      if c =? 45 then
        match ParseUint10 r cutoff with Some v => Some (- v) | None => None end
      else
        ParseUint10 (if c =? 43 then r else s) (cutoff - 1)
  end.

(** [strconv.Atoi] on a 64-bit platform. *)
Definition Atoi (s : bytes) : option Z := ParseInt10 s 64.

(** ** unicode/utf8

    The well-formed encodings of two, three and four bytes (Unicode table
    3-7: no overlong forms, no surrogates, nothing above U+10FFFF). *)
Definition cont (c : Z) : bool := (128 <=? c) && (c <=? 191).

Definition seq2 (c c1 : Z) : bool := (194 <=? c) && (c <=? 223) && cont c1.

Definition seq3 (c c1 c2 : Z) : bool :=
  cont c2 &&
  (((c =? 224) && (160 <=? c1) && (c1 <=? 191)) ||
   ((c =? 237) && (128 <=? c1) && (c1 <=? 159)) ||
   ((((225 <=? c) && (c <=? 236)) || (c =? 238) || (c =? 239)) && cont c1)).

Definition seq4 (c c1 c2 c3 : Z) : bool :=
  cont c2 && cont c3 &&
  (((c =? 240) && (144 <=? c1) && (c1 <=? 191)) ||
   ((c =? 244) && (128 <=? c1) && (c1 <=? 143)) ||
   ((241 <=? c) && (c <=? 243) && cont c1)).

(** [utf8.Valid] and [utf8.ValidString].  A [Z] outside 0..255 is not a byte
    and never valid text. *)
Fixpoint utf8_Valid (s : bytes) : bool :=
  match s with
  | [] => true
  | c :: r =>
      if (0 <=? c) && (c <? 128) then utf8_Valid r
      else match r with
           | [] => false
           | c1 :: r1 =>
               if seq2 c c1 then utf8_Valid r1
               else match r1 with
                    | [] => false
                    | c2 :: r2 =>
                        if seq3 c c1 c2 then utf8_Valid r2
                        else match r2 with
                             | [] => false
                             | c3 :: r3 => if seq4 c c1 c2 c3 then utf8_Valid r3 else false
                             end
                    end
           end
  end.

(** [utf8.AppendRune] of a rune outside the surrogate range. *)
Definition utf8_enc (r : Z) : bytes :=
  if r <? 128 then [r]
  else if r <? 2048 then [192 + r / 64; 128 + r mod 64]
  else if r <? 65536 then [224 + r / 4096; 128 + (r / 64) mod 64; 128 + r mod 64]
  else [240 + r / 262144; 128 + (r / 4096) mod 64; 128 + (r / 64) mod 64; 128 + r mod 64].

Definition RuneError : bytes := [239; 191; 189].

(** The declarative reading of [utf8_Valid], with the induction that every
    proof about text follows. *)
Inductive utf8 : bytes -> Prop :=
  | utf8_nil : utf8 []
  | utf8_1 c r : 0 <= c < 128 -> utf8 r -> utf8 (c :: r)
  | utf8_2 c c1 r : 128 <= c -> seq2 c c1 = true -> utf8 r -> utf8 (c :: c1 :: r)
  | utf8_3 c c1 c2 r : 128 <= c -> seq3 c c1 c2 = true -> utf8 r -> utf8 (c :: c1 :: c2 :: r)
  | utf8_4 c c1 c2 c3 r : 128 <= c -> seq4 c c1 c2 c3 = true -> utf8 r ->
                          utf8 (c :: c1 :: c2 :: c3 :: r).
#[export] Hint Constructors utf8 : ingest.

Ltac utf8_unfold := unfold seq2, seq3, seq4, cont in *.

Lemma seq2_bounds c c1 : seq2 c c1 = true -> 128 <= c /\ 128 <= c1.
Proof. utf8_unfold. lia. Qed.

Lemma seq3_bounds c c1 c2 :
  seq3 c c1 c2 = true -> 224 <= c /\ 128 <= c1 /\ 128 <= c2.
Proof. utf8_unfold. lia. Qed.

Lemma seq4_bounds c c1 c2 c3 :
  seq4 c c1 c2 c3 = true -> 240 <= c /\ 128 <= c1 /\ 128 <= c2 /\ 128 <= c3.
Proof. utf8_unfold. lia. Qed.

(** A lead byte determines the length of its encoding. *)
Lemma seq3_not2 c c1 c2 d : seq3 c c1 c2 = true -> seq2 c d = false.
Proof. utf8_unfold. lia. Qed.

Lemma seq4_not2 c c1 c2 c3 d : seq4 c c1 c2 c3 = true -> seq2 c d = false.
Proof. utf8_unfold. lia. Qed.

Lemma seq4_not3 c c1 c2 c3 d e : seq4 c c1 c2 c3 = true -> seq3 c d e = false.
Proof. utf8_unfold. lia. Qed.

Lemma utf8_Valid_spec s : utf8_Valid s = true <-> utf8 s.
Proof.
  split.
  - remember (length s) as n eqn:Hn. revert s Hn.
    induction (lt_wf n) as [n _ IH]; intros s -> H.
    destruct s as [|c r]; cbn [utf8_Valid] in H; [constructor|].
    destruct ((0 <=? c) && (c <? 128)) eqn:E.
    { constructor; [lia|]. eapply IH; [|done|done]. cbn; lia. }
    destruct r as [|c1 r1]; [done|]. cbn [utf8_Valid] in H.
    destruct (seq2 c c1) eqn:E2.
    { apply utf8_2; [apply seq2_bounds in E2; lia | done|]. eapply IH; [|done|done]. cbn; lia. }
    destruct r1 as [|c2 r2]; [done|]. cbn [utf8_Valid] in H.
    destruct (seq3 c c1 c2) eqn:E3.
    { apply utf8_3; [apply seq3_bounds in E3; lia | done|]. eapply IH; [|done|done]. cbn; lia. }
    destruct r2 as [|c3 r3]; [done|]. cbn [utf8_Valid] in H.
    destruct (seq4 c c1 c2 c3) eqn:E4; [|done].
    apply utf8_4; [apply seq4_bounds in E4; lia | done|]. eapply IH; [|done|done]. cbn; lia.
  - induction 1 as [|c r Hc _ IH|c c1 r Hc Hs _ IH|c c1 c2 r Hc Hs _ IH|c c1 c2 c3 r Hc Hs _ IH];
      [done|..]; cbn [utf8_Valid].
    + by if_true.
    + if_false. by rewrite Hs.
    + if_false. by rewrite (seq3_not2 _ _ _ _ Hs), Hs.
    + if_false. by rewrite (seq4_not2 _ _ _ _ _ Hs), (seq4_not3 _ _ _ _ _ _ Hs), Hs.
Qed.

Lemma utf8_app a c : utf8 a -> utf8 c -> utf8 (a ++ c).
Proof. induction 1; cbn; eauto with ingest. Qed.

(** An ASCII byte is never part of a longer encoding, so text can be split
    at one. *)
Lemma utf8_split a x c : utf8 (a ++ x :: c) -> x < 128 -> utf8 a /\ utf8 c.
Proof.
  intros H Hx. remember (a ++ x :: c) as s eqn:Hs. revert a Hs.
  induction H as [|y r Hy Hr IH|y y1 r Hy Hq Hr IH|y y1 y2 r Hy Hq Hr IH|y y1 y2 y3 r Hy Hq Hr IH];
    intros a Hs.
  - by destruct a.
  - destruct a as [|z a]; cbn in Hs; injection Hs as -> Hs; [subst; eauto with ingest|].
    destruct (IH a Hs); eauto with ingest.
  - pose proof (seq2_bounds _ _ Hq).
    destruct a as [|z a]; cbn in Hs; injection Hs as -> Hs; [lia|].
    destruct a as [|z1 a]; cbn in Hs; injection Hs as -> Hs; [lia|].
    destruct (IH a Hs); eauto with ingest.
  - pose proof (seq3_bounds _ _ _ Hq).
    destruct a as [|z a]; cbn in Hs; injection Hs as -> Hs; [lia|].
    destruct a as [|z1 a]; cbn in Hs; injection Hs as -> Hs; [lia|].
    destruct a as [|z2 a]; cbn in Hs; injection Hs as -> Hs; [lia|].
    destruct (IH a Hs); eauto with ingest.
  - pose proof (seq4_bounds _ _ _ _ Hq).
    destruct a as [|z a]; cbn in Hs; injection Hs as -> Hs; [lia|].
    destruct a as [|z1 a]; cbn in Hs; injection Hs as -> Hs; [lia|].
    destruct a as [|z2 a]; cbn in Hs; injection Hs as -> Hs; [lia|].
    destruct a as [|z3 a]; cbn in Hs; injection Hs as -> Hs; [lia|].
    destruct (IH a Hs); eauto with ingest.
Qed.

Lemma utf8_ascii s : Forall (fun c => 0 <= c < 128) s -> utf8 s.
Proof. induction 1; eauto with ingest. Qed.

(** ** Searching and splitting *)

Lemma break_at_app f s : fst (break_at f s) ++ snd (break_at f s) = s.
Proof.
  induction s as [|c r IH]; [done|]. cbn. destruct (f c); [done|].
  destruct (break_at f r). cbn in *. by rewrite IH.
Qed.

Lemma break_at_none f s : Forall (fun c => f c = false) (fst (break_at f s)).
Proof.
  induction s as [|c r IH]; [constructor|]. cbn. destruct (f c) eqn:E; [constructor|].
  destruct (break_at f r). cbn in *. by constructor.
Qed.

Lemma HasPrefix_spec s p : HasPrefix s p = true <-> exists r, s = p ++ r.
Proof.
  revert s. induction p as [|x p IH]; intros s; cbn [HasPrefix].
  - split; [eauto | by destruct s].
  - destruct s as [|y s]; [split; [done | by intros [? ?]]|].
    rewrite andb_true_iff, Z.eqb_eq, IH. split.
    + intros [-> [r ->]]. by exists r.
    + intros [r Hr]. injection Hr as -> ->. eauto.
Qed.

Lemma TrimPrefix_app p r : TrimPrefix (p ++ r) p = r.
Proof.
  unfold TrimPrefix. replace (HasPrefix (p ++ r) p) with true.
  - by rewrite drop_app_length.
  - symmetry. apply HasPrefix_spec. eauto.
Qed.
