(* ===== verification/GoJson.v ===== *)
(** * Go's [encoding/json] on byte strings

    The scanner ([scanner.go]), the string literals ([decode.go],
    [encode.go]) and [Compact] ([indent.go]) of Go's standard library, as far
    as the event and configuration packages use them.

    A parsed value keeps the raw text of its number and string literals, so
    that nothing is lost by parsing but the whitespace between tokens. *)
From S2P Require Import Prelude GoBytes.

Definition QUOTE : Z := 34.
Definition BACKSLASH : Z := 92.
Definition COMMA : Z := 44.
Definition COLON : Z := 58.
Definition LBRACE : Z := 123.
Definition RBRACE : Z := 125.
Definition LBRACKET : Z := 91.
Definition RBRACKET : Z := 93.
Definition LOWER_U : Z := 117.

Inductive json :=
  | JNull
  | JBool (v : bool)
  | JNum (raw : bytes)
  | JStr (raw : bytes)
  | JArr (vs : list json)
  | JObj (ms : list (bytes * json)).

Section JsonInd.
Context (P : json -> Prop).
Context (Hnull : P JNull) (Hbool : forall v, P (JBool v)) (Hnum : forall r, P (JNum r))
  (Hstr : forall r, P (JStr r)) (Harr : forall vs, Forall P vs -> P (JArr vs))
  (Hobj : forall ms, Forall (fun kv => P (snd kv)) ms -> P (JObj ms)).

Fixpoint json_nested_ind (j : json) : P j :=
  match j with
  | JNull => Hnull
  | JBool v => Hbool v
  | JNum r => Hnum r
  | JStr r => Hstr r
  | JArr vs =>
      Harr vs ((fix go (l : list json) : Forall P l :=
                  match l with
                  | [] => Forall_nil_2 _
                  | x :: r => Forall_cons_2 _ _ _ (json_nested_ind x) (go r)
                  end) vs)
  | JObj ms =>
      Hobj ms ((fix go (l : list (bytes * json)) : Forall (fun kv => P (snd kv)) l :=
                  match l with
                  | [] => Forall_nil_2 _
                  | x :: r => Forall_cons_2 _ _ _ (json_nested_ind (snd x)) (go r)
                  end) ms)
  end.
End JsonInd.

(** ** The scanner *)

Definition is_ws (c : Z) : bool := (c =? 32) || (c =? 9) || (c =? 13) || (c =? 10).

Fixpoint skip_ws (s : bytes) : bytes :=
  match s with
  | c :: r => if is_ws c then skip_ws r else s
  | [] => []
  end.

(** The text after the next non-space byte, when that byte is [c]. *)
Definition expect (c : Z) (s : bytes) : option bytes :=
  match skip_ws s with
  | x :: r => if x =? c then Some r else None
  | [] => None
  end.

(** The one-character escapes: backslash, quote, slash, b, f, n, r, t. *)
Definition simple_escape (e : Z) : bool :=
  (e =? 92) || (e =? 34) || (e =? 47) || (e =? 98) || (e =? 102) || (e =? 110) ||
  (e =? 114) || (e =? 116).

(** The raw contents of a string literal whose opening quote has been read,
    and the text after its closing quote. *)
Fixpoint scan_str (s : bytes) : option (bytes * bytes) :=
  match s with
  | [] => None
  | c :: r =>
      if c =? QUOTE then Some ([], r)
      else if c =? BACKSLASH then
        match r with
        | [] => None
        | e :: r1 =>
            if simple_escape e then
              match scan_str r1 with Some (t, z) => Some (c :: e :: t, z) | None => None end
            else if e =? LOWER_U then
              match r1 with
              | h1 :: h2 :: h3 :: h4 :: r2 =>
                  if is_hex h1 && is_hex h2 && is_hex h3 && is_hex h4 then
                    match scan_str r2 with
                    | Some (t, z) => Some (c :: e :: h1 :: h2 :: h3 :: h4 :: t, z)
                    | None => None
                    end
                  else None
              | _ => None
              end
            else None
        end
      else if c <? 32 then None
      else match scan_str r with Some (t, z) => Some (c :: t, z) | None => None end
  end.

Definition digits (s : bytes) : bytes * bytes := break_at (fun c => negb (is_digit c)) s.

(** The fraction of a number: a point and at least one digit, or nothing. *)
Definition scan_frac (s : bytes) : option (bytes * bytes) :=
  match s with
  | c :: r =>
      if c =? 46 then
        match digits r with
        | ([], _) => None
        | (d, z) => Some (c :: d, z)
        end
      else Some ([], s)
  | [] => Some ([], [])
  end.

Definition is_exp (c : Z) : bool := (c =? 101) || (c =? 69).
Definition is_sign (c : Z) : bool := (c =? 43) || (c =? 45).

Definition scan_exp (s : bytes) : option (bytes * bytes) :=
  match s with
  | c :: r =>
      if is_exp c then
        let '(sg, r1) := match r with
                         | x :: r' => if is_sign x then ([x], r') else ([], r)
                         | [] => ([], [])
                         end in
        match digits r1 with
        | ([], _) => None
        | (d, z) => Some (c :: sg ++ d, z)
        end
      else Some ([], s)
  | [] => Some ([], [])
  end.

(** The integer part: a single zero, or digits that do not start with one. *)
Definition scan_int (s : bytes) : option (bytes * bytes) :=
  match s with
  | c :: r =>
      if c =? 48 then Some ([c], r)
      else match digits s with
           | ([], _) => None
           | (d, z) => Some (d, z)
           end
  | [] => None
  end.

Definition split_minus (s : bytes) : bytes * bytes :=
  match s with
  | c :: r => if c =? 45 then ([c], r) else ([], s)
  | [] => ([], [])
  end.

Definition scan_num (s : bytes) : option (bytes * bytes) :=
  let '(sg, s1) := split_minus s in
  match scan_int s1 with
  | None => None
  | Some (i, s2) =>
      match scan_frac s2 with
      | None => None
      | Some (f, s3) =>
          match scan_exp s3 with
          | None => None
          | Some (e, s4) => Some (sg ++ i ++ f ++ e, s4)
          end
      end
  end.

(** The elements of an array after its bracket and the members of an object
    after its brace, by a parser [pv] of the values.  The fuel bounds the
    number of elements; the length of the text is always enough. *)
Section Containers.
Context {A : Type} (pv : bytes -> option (A * bytes)).

Fixpoint scan_elems (fuel : nat) (s : bytes) : option (list A * bytes) :=
  match fuel with
  | O => None
  | S f =>
      match pv s with
      | None => None
      | Some (v, r) =>
          match expect COMMA r with
          | Some r1 =>
              match scan_elems f r1 with
              | Some (vs, z) => Some (v :: vs, z)
              | None => None
              end
          | None =>
              match expect RBRACKET r with
              | Some z => Some ([v], z)
              | None => None
              end
          end
      end
  end.

Definition scan_array (s : bytes) : option (list A * bytes) :=
  match expect RBRACKET s with
  | Some z => Some ([], z)
  | None => scan_elems (S (length s)) s
  end.

Definition scan_member (s : bytes) : option (bytes * A * bytes) :=
  match expect QUOTE s with
  | None => None
  | Some r =>
      match scan_str r with
      | None => None
      | Some (k, r1) =>
          match expect COLON r1 with
          | None => None
          | Some r2 => match pv r2 with Some (v, z) => Some (k, v, z) | None => None end
          end
      end
  end.

Fixpoint scan_members (fuel : nat) (s : bytes) : option (list (bytes * A) * bytes) :=
  match fuel with
  | O => None
  | S f =>
      match scan_member s with
      | None => None
      | Some (k, v, r) =>
          match expect COMMA r with
          | Some r1 =>
              match scan_members f r1 with
              | Some (ms, z) => Some ((k, v) :: ms, z)
              | None => None
              end
          | None =>
              match expect RBRACE r with
              | Some z => Some ([(k, v)], z)
              | None => None
              end
          end
      end
  end.

Definition scan_object (s : bytes) : option (list (bytes * A) * bytes) :=
  match expect RBRACE s with
  | Some z => Some ([], z)
  | None => scan_members (S (length s)) s
  end.
End Containers.

Definition scan_scalar (s : bytes) : option (json * bytes) :=
  if HasPrefix s (lit "null") then Some (JNull, drop 4 s)
  else if HasPrefix s (lit "true") then Some (JBool true, drop 4 s)
  else if HasPrefix s (lit "false") then Some (JBool false, drop 5 s)
  else match scan_num s with Some (n, z) => Some (JNum n, z) | None => None end.

(** One value, with at most [d] levels of arrays and objects. *)
Fixpoint parse_value (d : nat) (s : bytes) : option (json * bytes) :=
  match skip_ws s with
  | [] => None
  | c :: r =>
      if c =? QUOTE then
        match scan_str r with Some (t, z) => Some (JStr t, z) | None => None end
      else if c =? LBRACE then
        match d with
        | O => None
        | S d' =>
            match scan_object (parse_value d') r with
            | Some (ms, z) => Some (JObj ms, z)
            | None => None
            end
        end
      else if c =? LBRACKET then
        match d with
        | O => None
        | S d' =>
            match scan_array (parse_value d') r with
            | Some (vs, z) => Some (JArr vs, z)
            | None => None
            end
        end
      else scan_scalar (c :: r)
  end.

(** [maxNestingDepth] of the scanner. *)
Definition maxNestingDepth : nat := Z.to_nat 10000.
#[global] Strategy 1000 [maxNestingDepth].

(** A whole document: one value, nothing but whitespace after it. *)
Definition parse_doc (s : bytes) : option json :=
  match parse_value maxNestingDepth s with
  | Some (j, r) => match skip_ws r with [] => Some j | _ => None end
  | None => None
  end.

Definition json_Valid (s : bytes) : bool :=
  match parse_doc s with Some _ => true | None => false end.

(** A value together with its raw text, as a [RawMessage] keeps it. *)
Definition parse_raw (d : nat) (s : bytes) : option (bytes * json * bytes) :=
  match parse_value d s with
  | Some (j, z) => Some (take (length (skip_ws s) - length z) (skip_ws s), j, z)
  | None => None
  end.

(** ** String literals *)

Definition hex4 (h1 h2 h3 h4 : Z) : Z :=
  ((hex_val h1 * 16 + hex_val h2) * 16 + hex_val h3) * 16 + hex_val h4.

Definition escape_val (e : Z) : Z :=
  if e =? 98 then 8 else if e =? 102 then 12 else if e =? 110 then 10
  else if e =? 114 then 13 else if e =? 116 then 9 else e.

Definition is_surrogate (u : Z) : bool := (55296 <=? u) && (u <? 57344).
Definition is_high (u : Z) : bool := (55296 <=? u) && (u <? 56320).
Definition is_low (u : Z) : bool := (56320 <=? u) && (u <? 57344).

(** [unquoteBytes] on the raw contents of a literal: escapes are decoded,
    surrogate pairs joined, and malformed UTF-8 or an unpaired surrogate is
    replaced by U+FFFD. *)
Fixpoint unquote (s : bytes) : bytes :=
  match s with
  | [] => []
  | c :: r =>
      if c =? BACKSLASH then
        match r with
        | [] => []
        | e :: r1 =>
            if e =? LOWER_U then
              match r1 with
              | h1 :: h2 :: h3 :: h4 :: r2 =>
                  let u := hex4 h1 h2 h3 h4 in
                  if is_surrogate u then
                    match r2 with
                    | b :: v :: l1 :: l2 :: l3 :: l4 :: r3 =>
                        let w := hex4 l1 l2 l3 l4 in
                        if (b =? BACKSLASH) && (v =? LOWER_U) && is_high u && is_low w then
                          utf8_enc ((u - 55296) * 1024 + (w - 56320) + 65536) ++ unquote r3
                        else RuneError ++ unquote r2
                    | _ => RuneError ++ unquote r2
                    end
                  else utf8_enc u ++ unquote r2
              | _ => []
              end
            else escape_val e :: unquote r1
        end
      else if c <? 128 then c :: unquote r
      else match r with
           | [] => RuneError
           | c1 :: r1 =>
               if seq2 c c1 then c :: c1 :: unquote r1
               else match r1 with
                    | [] => RuneError ++ unquote r
                    | c2 :: r2 =>
                        if seq3 c c1 c2 then c :: c1 :: c2 :: unquote r2
                        else match r2 with
                             | [] => RuneError ++ unquote r
                             | c3 :: r3 =>
                                 if seq4 c c1 c2 c3 then c :: c1 :: c2 :: c3 :: unquote r3
                                 else RuneError ++ unquote r
                             end
                    end
           end
  end.

(** [appendString] with [escapeHTML] off: the contents of the literal. *)
Definition escape_ascii (c : Z) : bytes :=
  if (c =? 92) || (c =? 34) then [BACKSLASH; c]
  else if c =? 8 then [BACKSLASH; 98]
  else if c =? 12 then [BACKSLASH; 102]
  else if c =? 10 then [BACKSLASH; 110]
  else if c =? 13 then [BACKSLASH; 114]
  else if c =? 9 then [BACKSLASH; 116]
  else if c <? 32 then [BACKSLASH; LOWER_U; 48; 48; hex_char (c / 16); hex_char (c mod 16)]
  else [c].

(** U+2028 and U+2029 are escaped whatever [escapeHTML] says. *)
Definition escape3 (c c1 c2 : Z) : bytes :=
  if (c =? 226) && (c1 =? 128) && ((c2 =? 168) || (c2 =? 169)) then
    [BACKSLASH; LOWER_U; 50; 48; 50; c2 - 112]
  else [c; c1; c2].

Definition escape_bad : bytes := [BACKSLASH; LOWER_U; 102; 102; 102; 100].

Fixpoint quote (s : bytes) : bytes :=
  match s with
  | [] => []
  | c :: r =>
      if c <? 128 then escape_ascii c ++ quote r
      else match r with
           | [] => escape_bad
           | c1 :: r1 =>
               if seq2 c c1 then c :: c1 :: quote r1
               else match r1 with
                    | [] => escape_bad ++ quote r
                    | c2 :: r2 =>
                        if seq3 c c1 c2 then escape3 c c1 c2 ++ quote r2
                        else match r2 with
                             | [] => escape_bad ++ quote r
                             | c3 :: r3 =>
                                 if seq4 c c1 c2 c3 then c :: c1 :: c2 :: c3 :: quote r3
                                 else escape_bad ++ quote r
                             end
                    end
           end
  end.

(** A literal with its quotes. *)
Definition quoted (raw : bytes) : bytes := QUOTE :: raw ++ [QUOTE].
Definition json_string (s : bytes) : bytes := quoted (quote s).

(** ** Printing and compaction *)

Definition print_scalar (j : json) : bytes :=
  match j with
  | JNull => lit "null"
  | JBool true => lit "true"
  | JBool false => lit "false"
  | JNum r => r
  | JStr r => quoted r
  | _ => []
  end.

(** A value without whitespace between its tokens. *)
Fixpoint print (j : json) : bytes :=
  match j with
  | JArr vs =>
      LBRACKET :: JoinSep [COMMA] (map print vs) ++ [RBRACKET]
  | JObj ms =>
      LBRACE :: JoinSep [COMMA] (map (fun kv => quoted (fst kv) ++ COLON :: print (snd kv)) ms)
        ++ [RBRACE]
  | _ => print_scalar j
  end.

(** [json.Compact], which a [RawMessage] goes through when it is encoded. *)
Definition compact (s : bytes) : option bytes := option_map print (parse_doc s).

(** ** Tokens

    The stream [Decoder.Token] yields on a document. *)
Inductive token :=
  | TDelim (c : Z)
  | TString (s : bytes)
  | TNumber (raw : bytes)
  | TBool (v : bool)
  | TNull.

Fixpoint tokens (j : json) : list token :=
  match j with
  | JNull => [TNull]
  | JBool v => [TBool v]
  | JNum r => [TNumber r]
  | JStr r => [TString (unquote r)]
  | JArr vs => TDelim LBRACKET :: concat (map tokens vs) ++ [TDelim RBRACKET]
  | JObj ms =>
      TDelim LBRACE ::
      concat (map (fun kv => TString (unquote (fst kv)) :: tokens (snd kv)) ms) ++ [TDelim RBRACE]
  end.

(** ** Field names

    A key selects a field by its exact name, else by [foldName]: ASCII upper
    case, with the long s (U+017F) and the Kelvin sign (U+212A), the only
    other runes whose simple folding reaches ASCII. *)
Fixpoint foldName (s : bytes) : bytes :=
  match s with
  | [] => []
  | c :: r =>
      if (97 <=? c) && (c <=? 122) then (c - 32) :: foldName r
      else match r with
           | c1 :: r1 =>
               if (c =? 197) && (c1 =? 191) then 83 :: foldName r1
               else match r1 with
                    | c2 :: r2 =>
                        if (c =? 226) && (c1 =? 132) && (c2 =? 170) then 75 :: foldName r2
                        else c :: foldName r
                    | [] => c :: foldName r
                    end
           | [] => [c]
           end
  end.

Definition field_index (names : list string) (key : bytes) : option nat :=
  match list_find (fun n => lit n = key) names with
  | Some (i, _) => Some i
  | None =>
      match list_find (fun n => foldName (lit n) = foldName key) names with
      | Some (i, _) => Some i
      | None => None
      end
  end.
