(* ===== verification/GoTime.v ===== *)
(** * Go's [time.Time] and its RFC 3339 text

    An instant with the zone offset it is shown in, the calendar
    ([time.Date]), the RFC 3339 layout of [time.Parse] and the strict
    formatting of [Time.MarshalJSON]. *)
From S2P Require Import Prelude GoBytes.

(** Seconds since 1970-01-01T00:00:00Z, nanoseconds within the second, and
    the offset of the location in seconds east of UTC. *)
Record Time := mkTime { t_sec : Z; t_nsec : Z; t_off : Z }.

#[global] Instance Time_eq_dec : EqDecision Time.
Proof. solve_decision. Defined.

(** ** Calendar (proleptic Gregorian, as [time.Date]) *)

Definition is_leap (y : Z) : bool :=
  (y mod 4 =? 0) && (negb (y mod 100 =? 0) || (y mod 400 =? 0)).

Definition daysIn (m y : Z) : Z :=
  if m =? 2 then (if is_leap y then 29 else 28)
  else if (m =? 4) || (m =? 6) || (m =? 9) || (m =? 11) then 30 else 31.

(** Days from 1970-01-01, counting years from March so that the leap day is
    the last of its year. *)
Definition days_from_civil (y m d : Z) : Z :=
  let y' := if m <=? 2 then y - 1 else y in
  let yoe := y' mod 400 in
  let doy := (153 * (if m <=? 2 then m + 9 else m - 3) + 2) / 5 + d - 1 in
  y' / 400 * 146097 + (yoe * 365 + yoe / 4 - yoe / 100 + doy) - 719468.

Definition civil_from_days (days : Z) : Z * Z * Z :=
  let z := days + 719468 in
  let doe := z mod 146097 in
  let yoe := (doe - doe / 1460 + doe / 36524 - doe / 146096) / 365 in
  let doy := doe - (365 * yoe + yoe / 4 - yoe / 100) in
  let mp := (5 * doy + 2) / 153 in
  let d := doy - (153 * mp + 2) / 5 + 1 in
  let m := if mp <? 10 then mp + 3 else mp - 9 in
  (yoe + z / 146097 * 400 + (if m <=? 2 then 1 else 0), m, d).

(** [time.Date(...)] for fields in range, at a fixed offset. *)
Definition Date (y mo d h mi s ns off : Z) : Time :=
  mkTime (days_from_civil y mo d * 86400 + h * 3600 + mi * 60 + s - off) ns off.

(** The zero [time.Time] is 0001-01-01T00:00:00Z. *)
Definition zero_Time : Time := Date 1 1 1 0 0 0 0 0.
Definition IsZero (t : Time) : bool :=
  (t_sec t =? t_sec zero_Time) && (t_nsec t =? 0).
Definition UTC (t : Time) : Time := mkTime (t_sec t) (t_nsec t) 0.

(** Instants as nanoseconds; comparisons and differences ignore the zone. *)
Definition UnixNano (t : Time) : Z := t_sec t * 1000000000 + t_nsec t.
Definition Equal (a c : Time) : bool := UnixNano a =? UnixNano c.
Definition After (a c : Time) : bool := UnixNano c <? UnixNano a.

(** ** Formatting: [appendFormatRFC3339] with nanoseconds *)

Definition pad2 (n : Z) : bytes := [48 + n / 10; 48 + n mod 10].

(** [appendInt(b, year, 4)]: at least four digits; years of five digits and
    negative years are rejected by the caller. *)
Definition pad4 (n : Z) : bytes :=
  [48 + n / 1000; 48 + n / 100 mod 10; 48 + n / 10 mod 10; 48 + n mod 10].

Fixpoint pad_n (k : nat) (n : Z) : bytes :=
  match k with
  | O => []
  | S k' => pad_n k' (n / 10) ++ [48 + n mod 10]
  end.

Fixpoint trim_zeros (s : bytes) : bytes :=
  match s with
  | [] => []
  | c :: r =>
      match trim_zeros r with
      | [] => if c =? 48 then [] else [c]
      | r' => c :: r'
      end
  end.

(** [appendNano]: nine digits without trailing zeros, nothing for zero. *)
Definition append_nano (ns : Z) : bytes :=
  match trim_zeros (pad_n 9 ns) with [] => [] | f => 46 :: f end.

Definition append_zone (off : Z) : bytes :=
  if off =? 0 then [90]
  else let zone := Z.quot off 60 in
       (if zone <? 0 then 45 else 43) ::
       pad2 (Z.abs zone / 60) ++ [58] ++ pad2 (Z.abs zone mod 60).

(** [Time.appendStrictRFC3339]: the year must have four digits and the zone
    at most 23 hours. *)
Definition FormatRFC3339Nano (t : Time) : option bytes :=
  let local := t_sec t + t_off t in
  let '(y, mo, d) := civil_from_days (local / 86400) in
  let sod := local mod 86400 in
  if (y <? 0) || (9999 <? y) then None
  else if negb (t_off t =? 0) && (24 <=? Z.abs (Z.quot (t_off t) 60) / 60) then None
  else Some (pad4 y ++ [45] ++ pad2 mo ++ [45] ++ pad2 d ++ [84] ++
             pad2 (sod / 3600) ++ [58] ++ pad2 (sod / 60 mod 60) ++ [58] ++ pad2 (sod mod 60) ++
             append_nano (t_nsec t) ++ append_zone (t_off t)).

(** ** Parsing: [time.Parse(time.RFC3339, s)]

    The fields of the layout in order.  [Time.UnmarshalJSON] first tries a
    fast path that accepts a subset of these texts with the same result, then
    this one; the strict checks after it are disabled in the library. *)
Definition getnum2 (s : bytes) : option (Z * bytes) :=
  match s with
  | a :: c :: r =>
      if is_digit a && is_digit c then Some ((a - 48) * 10 + (c - 48), r) else None
  | _ => None
  end.

(** [getnum(s, false)]: one or two digits. *)
Definition getnum (s : bytes) : option (Z * bytes) :=
  match s with
  | a :: r =>
      if is_digit a then
        match r with
        | c :: r' => if is_digit c then Some ((a - 48) * 10 + (c - 48), r') else Some (a - 48, r)
        | [] => Some (a - 48, [])
        end
      else None
  | [] => None
  end.

Definition getnum4 (s : bytes) : option (Z * bytes) :=
  match s with
  | a :: c :: d :: e :: r =>
      if is_digit a && is_digit c && is_digit d && is_digit e
      then Some (dec_val [a; c; d; e], r) else None
  | _ => None
  end.

Definition skip1 (c : Z) (s : bytes) : option bytes :=
  match s with x :: r => if x =? c then Some r else None | [] => None end.

(** A fraction after the seconds: a point or comma and at least one digit;
    digits after the ninth are dropped. *)
Definition get_frac (s : bytes) : Z * bytes :=
  match s with
  | c :: r =>
      if (c =? 46) || (c =? 44) then
        match break_at (fun x => negb (is_digit x)) r with
        | ([], _) => (0, s)
        | (d, z) =>
            let d9 := take 9 d in
            (dec_val d9 * 10 ^ (9 - Z.of_nat (length d9)), z)
        end
      else (0, s)
  | [] => (0, [])
  end.

(** The zone: Z, or a sign with hours up to 24 and minutes up to 60. *)
Definition get_zone (s : bytes) : option (Z * bytes) :=
  match s with
  | c :: r =>
      if c =? 90 then Some (0, r)
      else
        match getnum2 r with
        | Some (hr, r1) =>
            match skip1 58 r1 with
            | Some r2 =>
                match getnum2 r2 with
                | Some (mm, r3) =>
                    if (24 <? hr) || (60 <? mm) then None
                    else if c =? 43 then Some ((hr * 60 + mm) * 60, r3)
                    else if c =? 45 then Some (- ((hr * 60 + mm) * 60), r3)
                    else None
                | None => None
                end
            | None => None
            end
        | None => None
        end
  | [] => None
  end.

Definition obind {A C} (o : option A) (k : A -> option C) : option C :=
  match o with Some a => k a | None => None end.

Definition ParseRFC3339 (s : bytes) : option Time :=
  obind (getnum4 s) (fun '(y, s) =>
  obind (skip1 45 s) (fun s =>
  obind (getnum2 s) (fun '(mo, s) =>
  if (mo <=? 0) || (12 <? mo) then None else
  obind (skip1 45 s) (fun s =>
  obind (getnum2 s) (fun '(d, s) =>
  obind (skip1 84 s) (fun s =>
  obind (getnum s) (fun '(h, s) =>
  if 24 <=? h then None else
  obind (skip1 58 s) (fun s =>
  obind (getnum2 s) (fun '(mi, s) =>
  if 60 <=? mi then None else
  obind (skip1 58 s) (fun s =>
  obind (getnum2 s) (fun '(sec, s) =>
  if 60 <=? sec then None else
  let '(ns, s) := get_frac s in
  obind (get_zone s) (fun '(off, s) =>
  match s with
  | [] => if (d <? 1) || (daysIn mo y <? d) then None else Some (Date y mo d h mi sec ns off)
  | _ => None
  end)))))))))))).

(** [Time.MarshalJSON] and [Time.UnmarshalJSON] (the latter on the raw text of
    a value; null leaves the destination alone). *)
Definition Time_MarshalJSON (t : Time) : option bytes :=
  option_map (fun s => 34 :: s ++ [34]) (FormatRFC3339Nano t).

Definition Time_UnmarshalJSON (old : Time) (raw : bytes) : option Time :=
  if bool_decide (raw = lit "null") then Some old
  else match raw with
       | q :: r =>
           match reverse r with
           | q' :: body => if (q =? 34) && (q' =? 34) then ParseRFC3339 (reverse body) else None
           | [] => None
           end
       | [] => None
       end.

Example parse_plain :
  ParseRFC3339 (lit "2026-01-01T00:00:00Z") = Some (mkTime 1767225600 0 0).
Proof. vm_compute. reflexivity. Qed.

Example format_plain :
  FormatRFC3339Nano (mkTime 1767225600 500000000 19800) =
  Some (lit "2026-01-01T05:30:00.5+05:30").
Proof. vm_compute. reflexivity. Qed.
