(* ===== verification/Event.v ===== *)
(** * The event contract: [internal/event]

    [event.go], [decode.go] and [jsonb.go]: the records of the HTTP and broker
    contracts, their validation, decoding and encoding.  UUIDs come from
    github.com/google/uuid and are a parameter ([UUIDLib]). *)
From S2P Require Import Prelude GoBytes GoTime GoJson.

(** The functions of google/uuid that the program calls, and what it relies
    on: the canonical text has 36 characters, all lower-case hexadecimal or
    dashes, and parses back. *)
Class UUIDLib := {
  uuid : Type;
  uuid_eq_dec :: EqDecision uuid;
  uuid_countable :: Countable uuid;
  uuid_Nil : uuid;
  uuid_String : uuid -> bytes;
  uuid_ParseBytes : bytes -> option uuid
}.

Class UUIDLaws (U : UUIDLib) := {
  uuid_parse_string u : uuid_ParseBytes (uuid_String u) = Some u;
  uuid_string_length u : length (uuid_String u) = 36%nat;
  uuid_string_chars u :
    Forall (fun c => c = 45 \/ 48 <= c <= 57 \/ 97 <= c <= 102) (uuid_String u)
}.

Definition MaxEventBytes : Z := Z.shiftl 256 10.
Definition MaxEnvelopeBytes : Z := MaxEventBytes + 4096.
Definition MaxRequestBytes : Z := Z.shiftl 1 20.
Definition MaxBatchEvents : Z := 100.
Definition MaxPayloadDepth : Z := 64.

(** ** jsonb.go *)

Definition validText (s : bytes) : bool :=
  utf8_Valid s && forallb (fun c => negb (c =? 0)) s.

Definition ValidTenant (s : bytes) : bool :=
  (1 <=? blen s) && (blen s <=? 128) && validText s.

(** The loop of [validUnicodeJSON] over the escapes of the raw text. *)
Fixpoint escapes_ok (s : bytes) : bool :=
  match s with
  | [] => true
  | c :: r =>
      if negb (c =? BACKSLASH) then escapes_ok r
      else match r with
      | [] => false
      | e :: r1 =>
          if negb (e =? LOWER_U) then escapes_ok r1
          else match r1 with
          | h1 :: h2 :: h3 :: h4 :: r2 =>
              match ParseUint16_16 [h1; h2; h3; h4] with
              | None => false
              | Some unit =>
                  if unit =? 0 then false
                  else if (56320 <=? unit) && (unit <=? 57343) then false
                  else if (55296 <=? unit) && (unit <=? 56319) then
                    match r2 with
                    | b :: v :: l1 :: l2 :: l3 :: l4 :: r3 =>
                        if negb (b =? BACKSLASH) || negb (v =? LOWER_U) then false
                        else match ParseUint16_16 [l1; l2; l3; l4] with
                             | None => false
                             | Some low =>
                                 if (low <? 56320) || (57343 <? low) then false
                                 else escapes_ok r3
                             end
                    | _ => false
                    end
                  else escapes_ok r2
              end
          | _ => false
          end
      end
  end.

Definition validUnicodeJSON (raw : bytes) : bool := utf8_Valid raw && escapes_ok raw.

Definition representableNumber (number : bytes) : bool :=
  let s := TrimPrefix number [45] in
  let '(mant, tail) := break_at is_exp s in
  match (match tail with
         | [] => Some 0
         | _ :: digits => ParseInt10 digits 32
         end) with
  | None => false
  | Some exponent =>
      if (131072 + blen mant <? exponent) || (exponent <? -16383 - blen mant) then false
      else
        let '(whole_part, frac_part) := break_at (fun c => c =? 46) mant in
        let before := blen whole_part in
        let fraction := match frac_part with [] => 0 | _ :: f => blen f end in
        let digits := List.filter (fun c => negb (c =? 46)) mant in
        let leading := blen digits - blen (TrimLeft digits (fun c => c =? 48)) in
        let whole := if leading =? blen digits then 0 else before + exponent - leading in
        let scale := fraction - exponent in
        (whole <=? 131072) && (scale <=? 16383)
  end.

(** The token loop of [validJSONB], with its depth counter. *)
Fixpoint jsonb_loop (depth : Z) (ts : list token) : bool :=
  match ts with
  | [] => true
  | TDelim c :: r =>
      if (c =? LBRACE) || (c =? LBRACKET) then
        let depth := depth + 1 in
        if MaxPayloadDepth <? depth then false else jsonb_loop depth r
      else jsonb_loop (depth - 1) r
  | TNumber n :: r => if negb (representableNumber n) then false else jsonb_loop depth r
  | _ :: r => jsonb_loop depth r
  end.

Definition validJSONB (raw : bytes) : bool :=
  match parse_doc raw with
  | None => false
  | Some j => if negb (validUnicodeJSON raw) then false else jsonb_loop 0 (tokens j)
  end.

(** [var obj map[string]json.RawMessage; json.Unmarshal(raw, &obj) == nil &&
    obj != nil]: the document is an object. *)
Definition payload_is_object (raw : bytes) : bool :=
  match parse_doc raw with Some (JObj _) => true | _ => false end.

Definition invalid (message : string) : error := EValidation message false.

Definition IsTooLarge (e : error) : bool :=
  match e with EValidation _ tooLarge => tooLarge | _ => false end.

Section Event.
Context {U : UUIDLib}.

Record Input := mkInput {
  EventID : uuid;
  EventType : bytes;
  OccurredAt : Time;
  Payload : bytes
}.

Record Envelope := mkEnvelope {
  env_Input : Input;
  TenantID : bytes;
  ReceivedAt : Time
}.

Definition zero_Input : Input := mkInput uuid_Nil [] zero_Time [].
Definition zero_Envelope : Envelope := mkEnvelope zero_Input [] zero_Time.

(** ** event.go *)

Definition validate (i : Input) : goerr :=
  if bool_decide (EventID i = uuid_Nil) then
    Some (invalid "event_id must be a nonzero UUID")
  else if (blen (EventType i) =? 0) || (128 <? blen (EventType i)) || negb (validText (EventType i))
  then Some (invalid "event_type must contain 1–128 bytes")
  else if IsZero (OccurredAt i) then
    Some (invalid "occurred_at must be an RFC 3339 timestamp")
  else if negb (payload_is_object (Payload i)) then
    Some (invalid "payload must be a JSON object")
  else if negb (validJSONB (Payload i)) then
    Some (invalid "payload must be PostgreSQL-compatible JSON with nesting at most 64")
  else None.

Definition Accept (i : Input) (tenant : bytes) (received : Time) : res Envelope :=
  match validate i with
  | Some e => Err e
  | None =>
      if negb (ValidTenant tenant) || IsZero received
      then Err (ENew "invalid server event identity")
      else Ok (mkEnvelope i tenant (UTC received))
  end.

(** ** decode.go *)

(** The first value of a document: the members of an object with the raw
    text of their values, or another value. *)
Inductive top :=
  | TopObj (ms : list (bytes * (bytes * json)))
  | TopOther (j : json).

Definition member_value (s : bytes) : option (bytes * json * bytes) :=
  parse_raw (Nat.pred maxNestingDepth) s.

Definition parse_top (raw : bytes) : option (top * bytes) :=
  match expect LBRACE raw with
  | Some r =>
      match scan_object member_value r with
      | Some (ms, z) => Some (TopObj ms, z)
      | None => None
      end
  | None =>
      match parse_value maxNestingDepth raw with
      | Some (j, z) => Some (TopOther j, z)
      | None => None
      end
  end.

(** [Decoder.Decode] into a struct with [DisallowUnknownFields]: each member
    sets the field its key selects, a later one overwriting an earlier. *)
Definition decode_member {D} (names : list string) (set : nat -> bytes * json -> D -> option D)
    (d : option D) (m : bytes * (bytes * json)) : option D :=
  match d, field_index names (unquote (fst m)) with
  | Some d, Some i => set i (snd m) d
  | _, _ => None
  end.

Definition decode_struct {D} (names : list string) (set : nat -> bytes * json -> D -> option D)
    (zero : D) (t : top) : option D :=
  match t with
  | TopObj ms => fold_left (decode_member names set) ms (Some zero)
  | TopOther JNull => Some zero
  | TopOther _ => None
  end.

Definition decode {D} (names : list string) (set : nat -> bytes * json -> D -> option D)
    (zero : D) (raw : bytes) (max : Z) : res D :=
  if max <? blen raw then Err (EValidation "event or request exceeds byte limit" true)
  else if negb (validUnicodeJSON raw) then
    Err (invalid "JSON text must be valid Unicode without NUL")
  else match parse_top raw with
       | None => Err (invalid "invalid event JSON or field")
       | Some (t, rest) =>
           match decode_struct names set zero t with
           | None => Err (invalid "invalid event JSON or field")
           | Some d =>
               match skip_ws rest with
               | [] => Ok d
               | _ => Err (invalid "expected one JSON document")
               end
           end
       end.

(** Field setters: null leaves a uuid, string or time alone; a raw message
    takes the text as it stands. *)
Definition set_uuid (v : json) (old : uuid) : option uuid :=
  match v with
  | JNull => Some old
  | JStr r => uuid_ParseBytes (unquote r)
  | _ => None
  end.

Definition set_string (v : json) (old : bytes) : option bytes :=
  match v with
  | JNull => Some old
  | JStr r => Some (unquote r)
  | _ => None
  end.

Definition input_names : list string := ["event_id"; "event_type"; "occurred_at"; "payload"]%string.

Definition set_input (i : nat) (v : bytes * json) (d : Input) : option Input :=
  let '(raw, j) := v in
  match i with
  | 0%nat => option_map (fun x => mkInput x (EventType d) (OccurredAt d) (Payload d)) (set_uuid j (EventID d))
  | 1%nat => option_map (fun x => mkInput (EventID d) x (OccurredAt d) (Payload d)) (set_string j (EventType d))
  | 2%nat => option_map (fun x => mkInput (EventID d) (EventType d) x (Payload d)) (Time_UnmarshalJSON (OccurredAt d) raw)
  | _ => Some (mkInput (EventID d) (EventType d) (OccurredAt d) raw)
  end.

Definition envelope_names : list string :=
  input_names ++ ["tenant_id"; "received_at"]%string.

Definition set_envelope (i : nat) (v : bytes * json) (d : Envelope) : option Envelope :=
  let '(raw, j) := v in
  match i with
  | 4%nat => option_map (fun x => mkEnvelope (env_Input d) x (ReceivedAt d)) (set_string j (TenantID d))
  | 5%nat => option_map (fun x => mkEnvelope (env_Input d) (TenantID d) x) (Time_UnmarshalJSON (ReceivedAt d) raw)
  | _ => option_map (fun x => mkEnvelope x (TenantID d) (ReceivedAt d)) (set_input i v (env_Input d))
  end.

Definition DecodeInput (raw : bytes) : res Input :=
  let? i := decode input_names set_input zero_Input raw MaxEventBytes in
  match validate i with None => Ok i | Some e => Err e end.

(** [Events []json.RawMessage]. *)
Definition set_events (i : nat) (v : bytes * json) (d : list bytes) : option (list bytes) :=
  match snd v with
  | JNull => Some []
  | JArr _ =>
      match expect LBRACKET (fst v) with
      | Some r => option_map (fun x => map fst (fst x))
                    (scan_array (parse_raw (Nat.pred (Nat.pred maxNestingDepth))) r)
      | None => None
      end
  | _ => None
  end.

Fixpoint decode_inputs (raws : list bytes) : res (list Input) :=
  match raws with
  | [] => Ok []
  | r :: rs =>
      let? i := DecodeInput r in
      let? rest := decode_inputs rs in
      Ok (i :: rest)
  end.

Definition DecodeBatch (raw : bytes) : res (list Input) :=
  let? events := decode ["events"%string] set_events [] raw MaxRequestBytes in
  if (Z.of_nat (length events) =? 0) || (MaxBatchEvents <? Z.of_nat (length events))
  then Err (invalid "batch must contain 1–100 events")
  else decode_inputs events.

(** [json.Encoder.Encode] of an [Envelope], HTML escaping off: the fields in
    declaration order, the embedded [Input] first, and a newline. *)
Definition field (name : string) (value : bytes) : bytes :=
  quoted (lit name) ++ COLON :: value.

Definition encode_json (e : Envelope) : option bytes :=
  let i := env_Input e in
  match Time_MarshalJSON (OccurredAt i), compact (Payload i), Time_MarshalJSON (ReceivedAt e) with
  | Some occurred, Some payload, Some received =>
      Some (LBRACE :: JoinSep [COMMA]
              [ field "event_id" (json_string (uuid_String (EventID i)));
                field "event_type" (json_string (EventType i));
                field "occurred_at" occurred;
                field "payload" payload;
                field "tenant_id" (json_string (TenantID e));
                field "received_at" received ] ++ [RBRACE; 10])
  | _, _, _ => None
  end.

Definition EncodeEnvelope (e : Envelope) : res bytes :=
  let? _ := Accept (env_Input e) (TenantID e) (ReceivedAt e) in
  match encode_json e with
  | None => Err (ENew "json: error calling MarshalJSON")
  | Some b =>
      if MaxEnvelopeBytes <? blen b
      then Err (EValidation "broker envelope exceeds byte limit" true)
      else Ok b
  end.

Definition DecodeEnvelope (raw : bytes) : res Envelope :=
  let? e := decode envelope_names set_envelope zero_Envelope raw MaxEnvelopeBytes in
  Accept (env_Input e) (TenantID e) (ReceivedAt e).
End Event.
