(* ===== verification/GoTimeFacts.v ===== *)
(** * The RFC 3339 text of a time reads back

    The calendar inverts on every day, and [ParseRFC3339] inverts
    [FormatRFC3339Nano] on the times it formats. *)
From S2P Require Import Prelude GoBytes GoTime.

#[local] Ltac Zify.zify_post_hook ::= Z.to_euclidean_division_equations.

(** ** The calendar

    Within a 400-year era the year of a day is found by a division that is
    monotone in the day, so its two ends are checked for each year; the month
    and day are checked for each day of a year. *)

Definition year_start (yoe : Z) : Z := 365 * yoe + yoe / 4 - yoe / 100.
Definition year_last (yoe : Z) : Z :=
  year_start yoe + 364 + (if is_leap (yoe + 1) then 1 else 0).
Definition year_of (doe : Z) : Z :=
  (doe - doe / 1460 + doe / 36524 - doe / 146096) / 365.

Fixpoint check_from (f : Z -> bool) (n : nat) (z : Z) : bool :=
  match n with O => true | S n' => f z && check_from f n' (z + 1) end.

Lemma check_from_spec f n z x :
  check_from f n z = true -> z <= x < z + Z.of_nat n -> f x = true.
Proof.
  revert z. induction n as [|n IH]; intros z H Hx; [lia|].
  cbn [check_from] in H. apply andb_true_iff in H as [H1 H2].
  destruct (decide (x = z)) as [->|]; [done|]. eapply IH; [done|lia].
Qed.

Definition year_ok (y : Z) : bool :=
  (year_of (year_start y) =? y) && (year_of (year_last y) =? y) &&
  (if y =? 399 then year_last y =? 146096 else year_last y + 1 =? year_start (y + 1)).

Lemma year_ok_spec y : 0 <= y < 400 -> year_ok y = true.
Proof.
  intros H. apply (check_from_spec year_ok 400 0); [vm_compute; reflexivity | lia].
Qed.

Lemma year_of_step doe : 0 <= doe -> year_of doe <= year_of (doe + 1).
Proof. intros H. unfold year_of. apply Z.div_le_mono; lia. Qed.

Lemma year_of_mono a c : 0 <= a -> a <= c -> year_of a <= year_of c.
Proof.
  intros Ha Hc. replace c with (a + Z.of_nat (Z.to_nat (c - a))) by lia.
  induction (Z.to_nat (c - a)) as [|n IH]; [by rewrite Z.add_0_r|].
  rewrite Nat2Z.inj_succ, <- Z.add_1_r, Z.add_assoc.
  etrans; [exact IH | apply year_of_step; lia].
Qed.

(** The years of an era cover its days. *)
Lemma year_exists doe :
  0 <= doe < 146097 -> exists y, 0 <= y < 400 /\ year_start y <= doe <= year_last y.
Proof.
  intros H.
  assert (Hn : forall n, (n <= 400)%nat ->
            (exists y, 0 <= y < Z.of_nat n /\ year_start y <= doe <= year_last y) \/
            (n < 400)%nat /\ year_start (Z.of_nat n) <= doe).
  { induction n as [|n IH]; intros Hn; [right; unfold year_start; lia|].
    destruct IH as [(y & ? & ?)|[? Hs]]; [lia | left; exists y; lia |].
    pose proof (year_ok_spec (Z.of_nat n) ltac:(lia)) as Hok. unfold year_ok in Hok.
    destruct (decide (doe <= year_last (Z.of_nat n))); [left; exists (Z.of_nat n); lia|].
    destruct (Z.of_nat n =? 399) eqn:E; bool_to_prop; [lia|]. right.
    replace (Z.of_nat (S n)) with (Z.of_nat n + 1) by lia. lia. }
  destruct (Hn 400%nat) as [(y & ? & ?)|]; [lia | exists y; lia | lia].
Qed.

Lemma year_of_spec doe :
  0 <= doe < 146097 ->
  0 <= year_of doe < 400 /\ year_start (year_of doe) <= doe <= year_last (year_of doe).
Proof.
  intros H. destruct (year_exists doe H) as (y & Hy & Hd).
  pose proof (year_ok_spec y Hy) as Hok. unfold year_ok in Hok. bool_to_prop.
  assert (0 <= year_start y) by (unfold year_start; lia).
  pose proof (year_of_mono (year_start y) doe ltac:(lia) ltac:(lia)).
  pose proof (year_of_mono doe (year_last y) ltac:(lia) ltac:(lia)).
  replace (year_of doe) with y by lia. lia.
Qed.

Definition day_ok (leap : bool) (doy : Z) : bool :=
  let mp := (5 * doy + 2) / 153 in
  let d := doy - (153 * mp + 2) / 5 + 1 in
  let m := if mp <? 10 then mp + 3 else mp - 9 in
  (1 <=? m) && (m <=? 12) && (1 <=? d) &&
  (d <=? (if m =? 2 then if leap then 29 else 28
          else if (m =? 4) || (m =? 6) || (m =? 9) || (m =? 11) then 30 else 31)) &&
  ((153 * (if m <=? 2 then m + 9 else m - 3) + 2) / 5 + d - 1 =? doy).

Lemma day_ok_spec (leap : bool) (doy : Z) :
  0 <= doy <= 364 + (if leap then 1 else 0) -> day_ok leap doy = true.
Proof.
  intros H. apply (check_from_spec (day_ok leap) (if leap then 366 else 365) 0).
  - destruct leap; vm_compute; reflexivity.
  - destruct leap; lia.
Qed.

Lemma is_leap_period y k : is_leap (y + k * 400) = is_leap y.
Proof.
  unfold is_leap.
  replace (y + k * 400) with (y + (k * 100) * 4) at 1 by lia.
  replace (y + k * 400) with (y + (k * 4) * 100) at 1 by lia.
  by rewrite !Z.mod_add by lia.
Qed.

Lemma daysIn_period m y k : daysIn m (y + k * 400) = daysIn m y.
Proof. unfold daysIn. by rewrite is_leap_period. Qed.

Lemma civil_days_inv days y m d :
  civil_from_days days = (y, m, d) ->
  days_from_civil y m d = days /\ 1 <= m <= 12 /\ 1 <= d <= daysIn m y.
Proof.
  unfold civil_from_days. cbv zeta.
  set (z := days + 719468). set (doe := z mod 146097). set (era := z / 146097).
  assert (Hdoe : 0 <= doe < 146097) by (apply Z.mod_pos_bound; lia).
  assert (Hz : z = era * 146097 + doe) by (unfold era, doe; lia).
  destruct (year_of_spec doe Hdoe) as [Hyoe Hd]. fold (year_of doe).
  set (yoe := year_of doe) in *. fold (year_start yoe). unfold year_last in Hd.
  set (doy := doe - year_start yoe) in *.
  pose proof (day_ok_spec (is_leap (yoe + 1)) doy ltac:(lia)) as Hok.
  unfold day_ok in Hok. cbv zeta in Hok.
  set (mp := (5 * doy + 2) / 153) in *.
  set (dd := doy - (153 * mp + 2) / 5 + 1) in *.
  set (mm := if mp <? 10 then mp + 3 else mp - 9) in *.
  intros H. injection H as Hy Hm Hdd. bool_to_prop. subst m d.
  assert (Hy' : y = (yoe + (if mm <=? 2 then 1 else 0)) + era * 400) by lia.
  split; [|split; [lia|]].
  - unfold days_from_civil. cbv zeta.
    replace (if mm <=? 2 then y - 1 else y) with (yoe + era * 400)
      by (destruct (mm <=? 2); lia).
    rewrite Z.mod_add, Z.div_add, (Z.mod_small yoe), (Z.div_small yoe) by lia.
    unfold year_start in *. lia.
  - rewrite Hy', daysIn_period. unfold daysIn.
    destruct (mm =? 2) eqn:E2; [|lia]. replace (mm <=? 2) with true by lia. lia.
Qed.

(** ** Fixed-width numbers *)

Lemma digit_ok v : 0 <= v < 10 -> is_digit (48 + v) = true.
Proof. unfold is_digit. lia. Qed.

Lemma getnum2_pad2 n r : 0 <= n < 100 -> getnum2 (pad2 n ++ r) = Some (n, r).
Proof.
  intros H. cbn [pad2 app getnum2].
  rewrite !digit_ok by lia. cbn [andb]. f_equal. f_equal. lia.
Qed.

Lemma getnum_pad2 n r : 0 <= n < 100 -> getnum (pad2 n ++ r) = Some (n, r).
Proof.
  intros H. pose proof (getnum2_pad2 n r H) as E. cbn [pad2 app getnum2 getnum] in *.
  destruct (is_digit (48 + n / 10)), (is_digit (48 + n mod 10)); cbn in *; congruence.
Qed.

Lemma getnum4_pad4 n r : 0 <= n <= 9999 -> getnum4 (pad4 n ++ r) = Some (n, r).
Proof.
  intros H. cbn [pad4 app getnum4]. unfold is_digit, dec_val. cbn [fold_left].
  replace (_ && _) with true by lia. f_equal. f_equal. lia.
Qed.

(** ** Fractions *)

Lemma dec_val_snoc s c : dec_val (s ++ [c]) = dec_val s * 10 + (c - 48).
Proof. unfold dec_val. by rewrite fold_left_app. Qed.

Lemma dec_val_zeros s k : dec_val (s ++ replicate k 48) = dec_val s * 10 ^ Z.of_nat k.
Proof.
  induction k as [|k IH].
  - rewrite app_nil_r. cbn. lia.
  - rewrite replicate_S_end, app_assoc, dec_val_snoc, IH.
    rewrite Nat2Z.inj_succ, Z.pow_succ_r by lia. lia.
Qed.

Lemma trim_zeros_split s : exists k, s = trim_zeros s ++ replicate k 48.
Proof.
  induction s as [|c r [k IH]]; [by exists O|]. cbn.
  destruct (trim_zeros r) as [|x t] eqn:E.
  - destruct (c =? 48) eqn:Ec.
    + exists (S k). apply Z.eqb_eq in Ec. subst c. cbn. by f_equal.
    + exists k. cbn. by f_equal.
  - exists k. cbn in *. by f_equal.
Qed.

Lemma pad_n_length k n : length (pad_n k n) = k.
Proof. revert n. induction k as [|k IH]; intros n; [done|]. cbn. rewrite length_app, IH. cbn. lia. Qed.

Lemma pad_n_digits k n : Forall (fun c => is_digit c = true) (pad_n k n).
Proof.
  revert n. induction k as [|k IH]; intros n; [constructor|]. cbn.
  apply Forall_app. split; [apply IH|]. constructor; [|constructor].
  apply digit_ok. apply Z.mod_pos_bound. lia.
Qed.

Lemma dec_val_pad_n k n : 0 <= n -> dec_val (pad_n k n) = n mod 10 ^ Z.of_nat k.
Proof.
  revert n. induction k as [|k IH]; intros n Hn.
  - cbn. by rewrite Z.mod_1_r.
  - cbn [pad_n]. rewrite dec_val_snoc, IH by (apply Z.div_pos; lia).
    rewrite Nat2Z.inj_succ, Z.pow_succ_r by lia.
    rewrite (Z.rem_mul_r n 10) by lia. lia.
Qed.

Lemma break_at_digits f rest :
  Forall (fun c => is_digit c = true) f ->
  match rest with [] => True | c :: _ => is_digit c = false end ->
  break_at (fun x => negb (is_digit x)) (f ++ rest) = (f, rest).
Proof.
  intros Hf Hr. induction Hf as [|c f Hc Hf IH]; cbn.
  - destruct rest as [|c r]; [done|]. cbn. by rewrite Hr.
  - rewrite Hc. cbn. by rewrite IH.
Qed.

Lemma get_frac_nano ns rest :
  0 <= ns < 1000000000 ->
  match rest with [] => True | c :: _ => is_digit c = false /\ c <> 46 /\ c <> 44 end ->
  get_frac (append_nano ns ++ rest) = (ns, rest).
Proof.
  intros Hns Hr. unfold append_nano.
  pose proof (trim_zeros_split (pad_n 9 ns)) as [k Hk].
  pose proof (dec_val_pad_n 9 ns ltac:(lia)) as Hv.
  rewrite Z.mod_small in Hv by lia. rewrite Hk, dec_val_zeros in Hv.
  pose proof (pad_n_digits 9 ns) as Hd. rewrite Hk in Hd. apply Forall_app in Hd as [Hd _].
  pose proof (pad_n_length 9 ns) as Hl. rewrite Hk, length_app, length_replicate in Hl.
  destruct (trim_zeros (pad_n 9 ns)) as [|x t] eqn:E.
  - cbn in Hv. rewrite <- Hv. cbn [app]. unfold get_frac.
    destruct rest as [|c r]; [done|]. destruct Hr as (_ & ? & ?). by if_false.
  - cbn [app]. unfold get_frac. if_true.
    change (x :: t ++ rest) with ((x :: t) ++ rest).
    rewrite break_at_digits; [|done|by destruct rest as [|? ?]; [|destruct Hr]].
    rewrite take_ge by lia. f_equal. rewrite <- Hv. f_equal. f_equal. lia.
Qed.

(** ** Zones and the whole text *)

Lemma get_zone_append off :
  off mod 60 = 0 -> off = 0 \/ Z.abs (Z.quot off 60) / 60 < 24 ->
  get_zone (append_zone off) = Some (off, []).
Proof.
  intros Hm Hb. unfold append_zone. destruct (off =? 0) eqn:E.
  { apply Z.eqb_eq in E. by subst. }
  apply Z.eqb_neq in E. destruct Hb as [|Hb]; [done|].
  assert (exists q, off = q * 60) as [q ->] by (exists (off / 60); pose proof (Z.div_mod off 60); lia).
  rewrite Z.quot_mul in * by lia. cbv zeta.
  assert (Hh : 0 <= Z.abs q / 60 < 100) by (split; [apply Z.div_pos|]; lia).
  assert (Hmm : 0 <= Z.abs q mod 60 < 60) by (apply Z.mod_pos_bound; lia).
  unfold get_zone. rewrite getnum2_pad2 by lia.
  cbn [app skip1]. replace (58 =? 58) with true by done.
  replace ((if q <? 0 then 45 else 43) =? 90) with false by (by destruct (q <? 0)).
  rewrite <- (app_nil_r (pad2 _)), getnum2_pad2 by lia.
  replace ((24 <? Z.abs q / 60) || (60 <? Z.abs q mod 60)) with false by lia.
  pose proof (Z.div_mod (Z.abs q) 60 ltac:(lia)) as Hq.
  destruct (q <? 0) eqn:Es; cbn [Z.eqb]; f_equal; f_equal; lia.
Qed.

Lemma append_zone_head off rest :
  exists c r, append_zone off ++ rest = c :: r /\ is_digit c = false /\ c <> 46 /\ c <> 44.
Proof.
  unfold append_zone. destruct (off =? 0); [by eexists _, _|].
  destruct (Z.quot off 60 <? 0); cbn; by eexists _, _.
Qed.

(** What [FormatRFC3339Nano] needs of a time to print all of it: whole
    minutes in the offset and nanoseconds in range, as every parsed time
    has. *)
Definition wf_Time (t : Time) : Prop :=
  0 <= t_nsec t < 1000000000 /\ t_off t mod 60 = 0.

Lemma ParseRFC3339_Format t s :
  wf_Time t -> FormatRFC3339Nano t = Some s -> ParseRFC3339 s = Some t.
Proof.
  intros [Hns Hoff] Hf. destruct t as [sec ns off]. unfold FormatRFC3339Nano in Hf.
  cbn [t_sec t_nsec t_off] in *. cbv zeta in Hf.
  destruct (civil_from_days ((sec + off) / 86400)) as [[y mo] d] eqn:Ec.
  apply civil_days_inv in Ec as (Hdays & Hmo & Hd).
  set (sod := (sec + off) mod 86400) in *.
  assert (Hsod : 0 <= sod < 86400) by (apply Z.mod_pos_bound; lia).
  assert (Hloc : sec + off = (sec + off) / 86400 * 86400 + sod)
    by (pose proof (Z.div_mod (sec + off) 86400); lia).
  destruct ((y <? 0) || (9999 <? y)) eqn:Ey; [done|].
  destruct (negb (off =? 0) && (24 <=? Z.abs (Z.quot off 60) / 60)) eqn:Ez; [done|].
  apply Some_eq_inv in Hf as <-.
  assert (daysIn mo y <= 31) by (unfold daysIn; destruct (is_leap y); repeat case_match; lia).
  unfold ParseRFC3339. rewrite getnum4_pad4 by lia. cbn [obind skip1 app Z.eqb Pos.eqb].
  rewrite getnum2_pad2 by lia. cbn [obind]. if_false. cbn [obind skip1 app Z.eqb Pos.eqb].
  rewrite getnum2_pad2 by lia. cbn [obind skip1 app Z.eqb Pos.eqb].
  rewrite getnum_pad2 by lia. cbn [obind]. if_false. cbn [obind skip1 app Z.eqb Pos.eqb].
  rewrite getnum2_pad2 by lia. cbn [obind]. if_false. cbn [obind skip1 app Z.eqb Pos.eqb].
  rewrite getnum2_pad2 by lia. cbn [obind]. if_false.
  rewrite get_frac_nano; [|lia|].
  2:{ destruct (append_zone_head off []) as (c & r & Hc & ?). rewrite app_nil_r in Hc. by rewrite Hc. }
  rewrite get_zone_append by lia. cbn [obind]. if_false.
  f_equal. unfold Date. f_equal. rewrite Hdays. lia.
Qed.

Lemma Time_json_roundtrip t old s :
  wf_Time t -> Time_MarshalJSON t = Some s -> Time_UnmarshalJSON old s = Some t.
Proof.
  unfold Time_MarshalJSON. intros Hw H.
  destruct (FormatRFC3339Nano t) as [b|] eqn:E; [|done]. cbn in H. injection H as <-.
  unfold Time_UnmarshalJSON. rewrite bool_decide_false by done.
  rewrite reverse_snoc, reverse_involutive. cbn [Z.eqb Pos.eqb andb].
  by apply ParseRFC3339_Format.
Qed.

(** Every parsed time can be printed without loss, except that the parser
    also lets through zones of 24 hours that the formatter rejects. *)
Lemma get_frac_bounds s : 0 <= fst (get_frac s) < 1000000000.
Proof.
  unfold get_frac. destruct s as [|c r]; [cbn; lia|].
  destruct ((c =? 46) || (c =? 44)); [|cbn; lia].
  destruct (break_at _ r) as [d z] eqn:E.
  pose proof (break_at_none (fun x => negb (is_digit x)) r) as Hd. rewrite E in Hd. cbn in Hd.
  destruct d as [|x d]; [cbn; lia|].
  set (d9 := take 9 (x :: d)).
  assert (Hall : Forall (fun c => is_digit c = true) d9).
  { apply Forall_take. eapply Forall_impl; [exact Hd|]. cbn. intros ? ?%negb_false_iff. done. }
  assert (Hlen : (length d9 <= 9)%nat) by (unfold d9; rewrite length_take; lia).
  cbn [fst]. clearbody d9. clear -Hall Hlen.
  assert (H : 0 <= dec_val d9 < 10 ^ Z.of_nat (length d9)).
  { induction d9 as [|c s IH] using rev_ind; [cbn; lia|].
    apply Forall_app in Hall as [Hs Hc]. inversion Hc as [|? ? Hc' _]; subst.
    rewrite length_app in *. cbn in Hlen.
    rewrite dec_val_snoc, Nat2Z.inj_add, Z.pow_add_r by lia. unfold is_digit in Hc'.
    cbn [length]. specialize (IH Hs ltac:(lia)). lia. }
  assert (Hp : 10 ^ 9 = 10 ^ Z.of_nat (length d9) * 10 ^ (9 - Z.of_nat (length d9))).
  { rewrite <- Z.pow_add_r by lia. f_equal. lia. }
  assert (0 < 10 ^ (9 - Z.of_nat (length d9))) by (apply Z.pow_pos_nonneg; lia).
  change 1000000000 with (10 ^ 9). rewrite Hp. nia.
Qed.

Lemma get_zone_minutes s off r : get_zone s = Some (off, r) -> off mod 60 = 0.
Proof.
  unfold get_zone. intros H. repeat case_match; simplify_eq; try done;
    rewrite <- ?Z.mul_opp_l; apply Z.mod_mul; lia.
Qed.

Lemma ParseRFC3339_wf s t : ParseRFC3339 s = Some t -> wf_Time t.
Proof.
  unfold ParseRFC3339, obind. intros H. repeat case_match; simplify_eq.
  match goal with Hz : get_zone _ = Some _, Hf : get_frac ?x = _ |- _ =>
    apply get_zone_minutes in Hz; pose proof (get_frac_bounds x) as Hb; rewrite Hf in Hb end.
  by split.
Qed.

(** ** When formatting succeeds, and what it prints *)

Lemma days_year_bounds y m d :
  1 <= m <= 12 -> 1 <= d <= 31 ->
  (0 <= y -> -719528 <= days_from_civil y m d) /\
  (y <= 9999 -> days_from_civil y m d <= 2932896) /\
  (y < 0 -> days_from_civil y m d < -719528) /\
  (9999 < y -> 2932896 < days_from_civil y m d).
Proof.
  intros Hm Hd. unfold days_from_civil. cbv zeta.
  destruct (m <=? 2) eqn:E; [set (y' := y - 1)|set (y' := y)];
    assert (Hy : y' mod 400 = y' - y' / 400 * 400) by lia;
    assert (0 <= y' mod 400 < 400) by lia; repeat split; intros ?; subst y'; lia.
Qed.

Lemma daysIn_le mo y : daysIn mo y <= 31.
Proof. unfold daysIn. destruct (is_leap y); repeat case_match; lia. Qed.

Lemma FormatRFC3339Nano_total t :
  -719528 <= (t_sec t + t_off t) / 86400 <= 2932896 -> Z.abs (t_off t) < 86400 ->
  exists s, FormatRFC3339Nano t = Some s.
Proof.
  intros Hd Ho. unfold FormatRFC3339Nano. cbv zeta.
  destruct (civil_from_days _) as [[y mo] d] eqn:Ec. apply civil_days_inv in Ec as (He & Hm & Hdd).
  pose proof (daysIn_le mo y).
  destruct (days_year_bounds y mo d Hm ltac:(lia)) as (_ & _ & H3 & H4).
  if_false.
  replace (24 <=? Z.abs (Z.quot (t_off t) 60) / 60) with false
    by (symmetry; apply Z.leb_gt, Z.div_lt_upper_bound; lia).
  rewrite andb_false_r. eauto.
Qed.

Lemma getnum2_nonneg s n r : getnum2 s = Some (n, r) -> 0 <= n.
Proof. unfold getnum2, is_digit. intros. repeat case_match; simplify_eq. lia. Qed.

Lemma getnum_nonneg s n r : getnum s = Some (n, r) -> 0 <= n.
Proof. unfold getnum, is_digit. intros. repeat case_match; simplify_eq; lia. Qed.

Lemma getnum4_range s n r : getnum4 s = Some (n, r) -> 0 <= n <= 9999.
Proof.
  unfold getnum4, is_digit. intros. repeat case_match; simplify_eq. unfold dec_val. cbn. lia.
Qed.

(** A parsed time whose zone is under 24 hours can be printed. *)
Lemma ParseRFC3339_format s t :
  ParseRFC3339 s = Some t -> Z.abs (t_off t) < 86400 -> exists s', FormatRFC3339Nano t = Some s'.
Proof.
  unfold ParseRFC3339, obind. intros H Ho. repeat case_match; simplify_eq. bool_to_prop.
  repeat match goal with
  | E : getnum2 _ = Some _ |- _ => apply getnum2_nonneg in E
  | E : getnum _ = Some _ |- _ => apply getnum_nonneg in E
  | E : getnum4 _ = Some _ |- _ => apply getnum4_range in E
  | E : get_frac _ = _ |- _ => clear E
  | E : get_zone _ = _ |- _ => clear E
  | E : skip1 _ _ = _ |- _ => clear E
  end.
  apply FormatRFC3339Nano_total; [|done]. unfold Date. cbn [t_sec t_off].
  match goal with H : _ <= daysIn ?mo ?y |- context [days_from_civil _ _ ?d] =>
    pose proof (daysIn_le mo y);
    destruct (days_year_bounds y mo d ltac:(lia) ltac:(lia)) as (B1 & B2 & _) end.
  specialize (B1 ltac:(lia)). specialize (B2 ltac:(lia)).
  set (dd := days_from_civil _ _ _) in *. clearbody dd. clear Ho. lia.
Qed.

(** The characters of a printed time all lie between "+" and "Z". *)
Definition timechar (c : Z) : Prop := 43 <= c <= 90.

Lemma pad2_timechar n : 0 <= n < 100 -> Forall timechar (pad2 n).
Proof. intros H. unfold pad2, timechar. forall_lia. Qed.

Lemma append_nano_chars ns : Forall timechar (append_nano ns) /\ blen (append_nano ns) <= 10.
Proof.
  unfold append_nano. destruct (trim_zeros_split (pad_n 9 ns)) as [k Hk].
  pose proof (pad_n_digits 9 ns) as Hd. pose proof (pad_n_length 9 ns) as Hl.
  rewrite Hk in Hd, Hl. apply Forall_app in Hd as [Hd _]. rewrite length_app in Hl.
  destruct (trim_zeros _) as [|c r]; [split; [constructor | done]|].
  split; [|unfold blen; cbn in *; lia].
  constructor; [unfold timechar; lia|]. eapply Forall_impl; [exact Hd|].
  unfold is_digit, timechar. cbn. lia.
Qed.

Lemma append_zone_chars off :
  off = 0 \/ Z.abs (Z.quot off 60) / 60 < 24 ->
  Forall timechar (append_zone off) /\ blen (append_zone off) <= 6.
Proof.
  intros H. unfold append_zone. destruct (off =? 0) eqn:E.
  - split; [unfold timechar; forall_lia | done].
  - split; [|by destruct (_ <? 0)].
    set (q := Z.abs (Z.quot off 60)) in *. assert (0 <= q) by lia. clearbody q.
    constructor; [unfold timechar; destruct (_ <? 0); lia|].
    repeat apply Forall_app_2; try (apply pad2_timechar; lia). unfold timechar; forall_lia.
Qed.

Lemma FormatRFC3339Nano_chars t s :
  FormatRFC3339Nano t = Some s -> Forall timechar s /\ blen s <= 35.
Proof.
  unfold FormatRFC3339Nano. cbv zeta. intros H.
  destruct (civil_from_days _) as [[y mo] d] eqn:Ec. apply civil_days_inv in Ec as (_ & Hm & Hd).
  set (sod := (t_sec t + t_off t) mod 86400) in *.
  assert (Hsod : 0 <= sod < 86400) by (apply Z.mod_pos_bound; lia). clearbody sod.
  destruct ((y <? 0) || (9999 <? y)) eqn:Ey; [done|].
  destruct (negb (t_off t =? 0) && _) eqn:Ez; [done|]. apply Some_eq_inv in H as <-.
  pose proof (daysIn_le mo y). destruct (append_nano_chars (t_nsec t)) as [Hn Hnl].
  destruct (append_zone_chars (t_off t) ltac:(lia)) as [Hz Hzl].
  split.
  - repeat apply Forall_app_2; try done; try (apply pad2_timechar; lia);
      unfold pad4, timechar; forall_lia.
  - autorewrite with blen. unfold pad2, pad4. autorewrite with blen. lia.
Qed.
