(* ===== verification/GoJsonFacts.v ===== *)
(** * JSON text: the parser inverts the printer

    Well-formed values, soundness of the scanners, the round trip of
    [parse_value] after [print], and of [unquote] after [quote]. *)
From S2P Require Import Prelude GoBytes GoJson.

(** ** Whitespace and punctuation *)

Lemma skip_ws_nonws c r : is_ws c = false -> skip_ws (c :: r) = c :: r.
Proof. intros H. cbn. by rewrite H. Qed.

Lemma expect_hit c r : is_ws c = false -> expect c (c :: r) = Some r.
Proof. intros H. unfold expect. rewrite skip_ws_nonws by done. by rewrite Z.eqb_refl. Qed.

Lemma expect_miss c x r : is_ws x = false -> x <> c -> expect c (x :: r) = None.
Proof.
  intros H Hx. unfold expect. rewrite skip_ws_nonws by done.
  apply Z.eqb_neq in Hx. by rewrite Hx.
Qed.

Lemma skip_ws_split s : exists w, s = w ++ skip_ws s /\ Forall (fun c => is_ws c = true) w.
Proof.
  induction s as [|c r (w & Hw & Hf)]; [by exists []|]. cbn. destruct (is_ws c) eqn:E.
  - exists (c :: w). cbn. split; [by f_equal | by constructor].
  - by exists [].
Qed.

Lemma skip_ws_idem s : skip_ws (skip_ws s) = skip_ws s.
Proof.
  induction s as [|c r IH]; [done|]. cbn. destruct (is_ws c) eqn:E; [done|]. cbn. by rewrite E.
Qed.

Lemma expect_split c s r :
  expect c s = Some r -> exists w, s = w ++ c :: r /\ Forall (fun c => is_ws c = true) w.
Proof.
  unfold expect. intros H. destruct (skip_ws_split s) as (w & Hw & Hf).
  destruct (skip_ws s) as [|x r']; [done|].
  destruct (x =? c) eqn:E; [|done]. apply Z.eqb_eq in E. simplify_eq. by exists w.
Qed.

(** ** String literals *)

Inductive strbody : bytes -> Prop :=
  | sb_nil : strbody []
  | sb_simple e r : simple_escape e = true -> strbody r -> strbody (BACKSLASH :: e :: r)
  | sb_u h1 h2 h3 h4 r :
      is_hex h1 && is_hex h2 && is_hex h3 && is_hex h4 = true -> strbody r ->
      strbody (BACKSLASH :: LOWER_U :: h1 :: h2 :: h3 :: h4 :: r)
  | sb_char c r : c <> QUOTE -> c <> BACKSLASH -> 32 <= c -> strbody r -> strbody (c :: r).
#[export] Hint Constructors strbody : ingest.

Lemma scan_str_complete r z : strbody r -> scan_str (r ++ QUOTE :: z) = Some (r, z).
Proof.
  induction 1 as [|e r He _ IH|h1 h2 h3 h4 r Hh _ IH|c r H1 H2 H3 _ IH]; cbn [app scan_str].
  - done.
  - cbn [Z.eqb Pos.eqb BACKSLASH QUOTE]. by rewrite He, IH.
  - cbn [Z.eqb Pos.eqb BACKSLASH QUOTE simple_escape LOWER_U orb]. by rewrite Hh, IH.
  - apply Z.eqb_neq in H1, H2. rewrite H1, H2. if_false. by rewrite IH.
Qed.

Lemma scan_str_sound s r z : scan_str s = Some (r, z) -> s = r ++ QUOTE :: z /\ strbody r.
Proof.
  remember (length s) as n eqn:Hn. revert s r z Hn.
  induction (lt_wf n) as [n _ IH]; intros s r z -> H.
  destruct s as [|c s]; [done|]. cbn [scan_str] in H.
  destruct (c =? QUOTE) eqn:E1; [apply Z.eqb_eq in E1; simplify_eq; eauto with ingest|].
  destruct (c =? BACKSLASH) eqn:E2.
  - apply Z.eqb_eq in E2; subst. destruct s as [|e s]; [done|].
    destruct (simple_escape e) eqn:E3.
    + destruct (scan_str s) as [[t z']|] eqn:E; [|done]. simplify_eq.
      eapply (IH (length s)) in E as [-> ?]; [|cbn; lia|done]. eauto with ingest.
    + destruct (e =? LOWER_U) eqn:E4; [|done]. apply Z.eqb_eq in E4; subst.
      destruct s as [|h1 [|h2 [|h3 [|h4 s]]]]; try done.
      destruct (is_hex h1 && is_hex h2 && is_hex h3 && is_hex h4) eqn:E5; [|done].
      destruct (scan_str s) as [[t z']|] eqn:E; [|done]. simplify_eq.
      eapply (IH (length s)) in E as [-> ?]; [|cbn; lia|done]. eauto with ingest.
  - destruct (c <? 32) eqn:E3; [done|].
    destruct (scan_str s) as [[t z']|] eqn:E; [|done]. simplify_eq.
    eapply (IH (length s)) in E as [-> ?]; [|cbn; lia|done]. split; [done|]. constructor; [lia..|done].
Qed.

(** ** Numbers *)

Definition numchar (c : Z) : bool := is_digit c || (c =? 46) || is_exp c || is_sign c.

(** A text that does not continue a number. *)
Definition numend (z : bytes) : Prop :=
  match z with [] => True | c :: _ => numchar c = false end.

Definition wf_num (n : bytes) : Prop :=
  Forall (fun c => numchar c = true) n /\
  (exists c t, n = c :: t /\ (c = 45 \/ is_digit c = true)) /\
  forall z, numend z -> scan_num (n ++ z) = Some (n, z).

Lemma digits_app a z :
  Forall (fun c => is_digit c = true) a ->
  match z with [] => True | c :: _ => is_digit c = false end ->
  digits (a ++ z) = (a, z).
Proof.
  intros Ha Hz. unfold digits. induction Ha as [|c a Hc _ IH]; cbn.
  - destruct z as [|c r]; [done|]. cbn. by rewrite Hz.
  - by rewrite Hc, IH.
Qed.

Lemma digits_sound s d z :
  digits s = (d, z) -> s = d ++ z /\ Forall (fun c => is_digit c = true) d.
Proof.
  unfold digits. intros H.
  pose proof (break_at_app (fun c => negb (is_digit c)) s) as Ha.
  pose proof (break_at_none (fun c => negb (is_digit c)) s) as Hd. rewrite H in Ha, Hd.
  split; [done|]. eapply Forall_impl; [exact Hd|]. by intros ? ?%negb_false_iff.
Qed.

Lemma numend_digit z : numend z -> match z with [] => True | c :: _ => is_digit c = false end.
Proof. destruct z; [done|]. cbn. unfold numchar. intros ?. bool_to_prop. done. Qed.

Lemma digit_numchar d :
  Forall (fun c => is_digit c = true) d -> Forall (fun c => numchar c = true) d.
Proof. intros H. eapply Forall_impl; [exact H|]. cbn. unfold numchar. by intros ? ->. Qed.

(** Each part of a number is rescanned as it was, before any text that does
    not extend it. *)
Lemma scan_exp_sound s e z :
  scan_exp s = Some (e, z) ->
  s = e ++ z /\ Forall (fun c => numchar c = true) e /\
  (match e with [] => True | c :: _ => is_digit c = false /\ c <> 46 end) /\
  forall z', numend z' -> scan_exp (e ++ z') = Some (e, z').
Proof.
  unfold scan_exp. destruct s as [|c r].
  { intros H. simplify_eq. repeat split; [constructor|]. intros [|c z'] Hz; [done|]. cbn in *.
    unfold numchar in Hz. bool_to_prop. by match goal with H : is_exp c = _ |- _ => rewrite H end. }
  destruct (is_exp c) eqn:Ec; intros H.
  - destruct (match r with x :: r' => if is_sign x then ([x], r') else ([], r) | [] => ([], []) end)
      as [sg r1] eqn:Es.
    destruct (digits r1) as [d z1] eqn:Ed. destruct d as [|d0 d]; [done|]. simplify_eq.
    apply digits_sound in Ed as [-> Hd].
    assert (Hsg : r = sg ++ (d0 :: d) ++ z /\ (sg = [] \/ exists x, sg = [x] /\ is_sign x = true)).
    { destruct r as [|x r']; [by simplify_eq|]. destruct (is_sign x) eqn:?; simplify_eq; eauto. }
    destruct Hsg as [-> Hsg]. split; [cbn; by rewrite <- app_assoc|]. split; [|split].
    + constructor; [unfold numchar; rewrite Ec; btauto|]. apply Forall_app. split.
      * destruct Hsg as [->|(x & -> & Hx)]; repeat constructor. unfold numchar. rewrite Hx. btauto.
      * by apply digit_numchar.
    + unfold is_exp, is_digit in *. lia.
    + intros z' Hz'. cbn [app]. rewrite Ec, <- app_assoc.
      destruct Hsg as [->|(x & -> & Hx)]; cbn [app].
      * inversion Hd as [|? ? Hd0 _]; subst.
        replace (is_sign d0) with false by (unfold is_sign, is_digit in *; lia).
        change (d0 :: d ++ z') with ((d0 :: d) ++ z').
        rewrite digits_app by (try done; by apply numend_digit). done.
      * rewrite Hx. change (d0 :: d ++ z') with ((d0 :: d) ++ z').
        rewrite digits_app by (try done; by apply numend_digit). done.
  - simplify_eq. repeat split; [constructor|]. intros [|c' z'] Hz; [done|]. cbn in *.
    unfold numchar in Hz. bool_to_prop. by match goal with H : is_exp c' = _ |- _ => rewrite H end.
Qed.

Lemma scan_frac_sound s f z :
  scan_frac s = Some (f, z) ->
  s = f ++ z /\ Forall (fun c => numchar c = true) f /\
  (match f with [] => True | c :: _ => is_digit c = false end) /\
  forall z', match z' with [] => True | c :: _ => is_digit c = false /\ c <> 46 end ->
             scan_frac (f ++ z') = Some (f, z').
Proof.
  unfold scan_frac. destruct s as [|c r].
  { intros H. simplify_eq. repeat split; [constructor|]. intros [|c z'] Hz; [done|].
    cbn. destruct Hz as [_ Hz%Z.eqb_neq]. by rewrite Hz. }
  destruct (c =? 46) eqn:Ec; intros H.
  - destruct (digits r) as [d z1] eqn:Ed. destruct d as [|d0 d]; [done|]. simplify_eq.
    apply digits_sound in Ed as [-> Hd]. split; [done|]. split; [|split].
    + constructor; [unfold numchar; rewrite Ec; btauto | by apply digit_numchar].
    + unfold is_digit. lia.
    + intros z' Hz'. cbn [app]. rewrite Ec. change (d0 :: d ++ z') with ((d0 :: d) ++ z').
      rewrite digits_app; [done | done | by destruct z' as [|? ?]; [|destruct Hz']].
  - simplify_eq. repeat split; [constructor|]. intros [|c' z'] Hz; [done|].
    cbn. destruct Hz as [_ Hz%Z.eqb_neq]. by rewrite Hz.
Qed.

Lemma scan_int_sound s i z :
  scan_int s = Some (i, z) ->
  s = i ++ z /\ Forall (fun c => is_digit c = true) i /\ i <> [] /\
  forall z', match z' with [] => True | c :: _ => is_digit c = false end ->
             scan_int (i ++ z') = Some (i, z').
Proof.
  unfold scan_int. destruct s as [|c r]; [done|]. destruct (c =? 48) eqn:Ec; intros H.
  - simplify_eq. repeat split; [|done|].
    + repeat constructor. unfold is_digit. lia.
    + intros z' _. cbn [app]. by rewrite Ec.
  - destruct (digits (c :: r)) as [d z1] eqn:Ed. destruct d as [|d0 d]; [done|]. simplify_eq.
    apply digits_sound in Ed as [Hcr Hd]. injection Hcr as -> ->. repeat split; try done.
    intros z' Hz'. cbn [app]. rewrite Ec. change (d0 :: d ++ z') with ((d0 :: d) ++ z').
    by rewrite digits_app.
Qed.

Lemma scan_num_sound s n z : scan_num s = Some (n, z) -> s = n ++ z /\ wf_num n.
Proof.
  unfold scan_num. intros H.
  destruct (split_minus s) as [sg s1] eqn:Es.
  destruct (scan_int s1) as [[i s2]|] eqn:Ei; [|done].
  destruct (scan_frac s2) as [[f s3]|] eqn:Ef; [|done].
  destruct (scan_exp s3) as [[e s4]|] eqn:Ee; [|done]. simplify_eq.
  apply scan_int_sound in Ei as (-> & Hi & Hi0 & Hi').
  apply scan_frac_sound in Ef as (-> & Hf & Hf0 & Hf').
  apply scan_exp_sound in Ee as (-> & He & He0 & He').
  assert (Hsg : s = sg ++ i ++ f ++ e ++ z /\ (sg = [] \/ sg = [45])).
  { unfold split_minus in Es. destruct s as [|c r]; [injection Es as <- <-; eauto|].
    destruct (c =? 45) eqn:E; [apply Z.eqb_eq in E|]; injection Es as <- <-; subst; eauto. }
  destruct Hsg as [-> Hsg]. destruct i as [|i0 i]; [done|].
  split; [by rewrite <- !app_assoc|]. split; [|split].
  - repeat (apply Forall_app; split); try done; [|by apply digit_numchar].
    destruct Hsg as [->| ->]; repeat constructor.
  - inversion Hi; subst. destruct Hsg as [->| ->]; cbn; eauto 6.
  - intros z' Hz'. rewrite <- !app_assoc.
    assert (Hs1 : split_minus (sg ++ (i0 :: i) ++ f ++ e ++ z') = (sg, (i0 :: i) ++ f ++ e ++ z')).
    { destruct Hsg as [->| ->]; [|done]. inversion Hi as [|? ? Hd _]; subst.
      unfold is_digit in Hd. unfold split_minus. cbn [app]. by if_false. }
    unfold scan_num. rewrite Hs1, Hi', Hf', He'; [done|done|..].
    + destruct e; cbn; [|done]. destruct z' as [|c z']; [done|]. cbn in Hz'.
      unfold numchar, is_digit in *. lia.
    + destruct f; cbn; [|done]. destruct e; cbn; [|by destruct He0].
      by apply numend_digit.
Qed.

(** ** Containers, for any value parser that inverts a value printer *)

(** What follows a value inside an array or object. *)
Definition is_sep (c : Z) : Prop := c = COMMA \/ c = RBRACKET \/ c = RBRACE.
Definition sep_tail (z : bytes) : Prop :=
  match z with [] => False | c :: _ => is_sep c end.

(** The first byte of a printed value is not one a container stops at. *)
Definition value_head (t : bytes) : Prop :=
  match t with [] => False | c :: _ => is_ws c = false /\ ~ is_sep c end.

Lemma join_cons sep x (l : list bytes) z :
  JoinSep sep (x :: l) ++ z =
  x ++ (match l with [] => z | _ => sep ++ JoinSep sep l ++ z end).
Proof. destruct l; cbn; [done|]. by rewrite <- !app_assoc. Qed.

Lemma join_length {A} (pr : A -> bytes) (l : list A) :
  Forall (fun a => pr a <> []) l -> (length l <= length (JoinSep [COMMA] (map pr l)))%nat.
Proof.
  induction 1 as [|v l Hv _ IH]; [done|].
  destruct (pr v) as [|c t] eqn:E; [done|]. cbn [map]. rewrite E.
  destruct (map pr l) eqn:El; destruct l; cbn in *; try done; try lia.
  rewrite !length_app. cbn in *. lia.
Qed.

Section Inverse.
Context {A : Type} (pv : bytes -> option (A * bytes)) (pr : A -> bytes) (good : A -> Prop).
Context (Hhead : forall a, good a -> value_head (pr a)).
Context (Hpv : forall a z, good a -> sep_tail z -> pv (pr a ++ z) = Some (a, z)).

Lemma scan_elems_join vs fuel z :
  vs <> [] -> Forall good vs -> (length vs <= fuel)%nat ->
  scan_elems pv fuel (JoinSep [COMMA] (map pr vs) ++ RBRACKET :: z) = Some (vs, z).
Proof.
  revert fuel. induction vs as [|v vs IH]; intros fuel Hne Hg Hf; [done|].
  inversion Hg as [|? ? Hv Hvs]; subst. destruct fuel as [|fuel]; [cbn in Hf; lia|].
  cbn [map]. rewrite join_cons. cbn [scan_elems]. destruct vs as [|w vs].
  - cbn [map]. rewrite Hpv by (try done; cbn; unfold is_sep; eauto).
    by rewrite expect_miss, expect_hit.
  - cbn [map]. rewrite Hpv by (try done; cbn; unfold is_sep; eauto). cbn [app].
    rewrite expect_hit by done. rewrite <- map_cons. rewrite IH; [done|done|done|cbn in *; lia].
Qed.

Lemma scan_array_join vs z :
  Forall good vs ->
  scan_array pv (JoinSep [COMMA] (map pr vs) ++ RBRACKET :: z) = Some (vs, z).
Proof.
  intros Hg. unfold scan_array. destruct vs as [|v vs].
  - done.
  - inversion Hg as [|? ? Hv _]; subst.
    assert (He : expect RBRACKET (JoinSep [COMMA] (map pr (v :: vs)) ++ RBRACKET :: z) = None).
    { cbn [map]. rewrite join_cons. pose proof (Hhead v Hv) as Hh.
      destruct (pr v) as [|c t]; [done|]. destruct Hh as [Hw Hs]. cbn [app].
      apply expect_miss; [done|]. intros ->. apply Hs. unfold is_sep; eauto. }
    rewrite He. apply scan_elems_join; [done|done|].
    assert (Hl : Forall (fun a => pr a <> []) (v :: vs)).
    { eapply Forall_impl; [exact Hg|]. intros a Ha%Hhead. by destruct (pr a). }
    apply join_length in Hl. rewrite length_app. lia.
Qed.

Definition pr_member (kv : bytes * A) : bytes := quoted (fst kv) ++ COLON :: pr (snd kv).
Definition good_member (kv : bytes * A) : Prop := strbody (fst kv) /\ good (snd kv).

Lemma scan_member_print k a z :
  good_member (k, a) -> sep_tail z -> scan_member pv (pr_member (k, a) ++ z) = Some (k, a, z).
Proof.
  intros [Hk Ha] Hz. unfold pr_member, quoted, scan_member. cbn [fst snd app].
  rewrite expect_hit by done. rewrite <- !app_assoc. cbn [app].
  rewrite scan_str_complete by done. rewrite expect_hit by done. by rewrite Hpv.
Qed.

Lemma scan_members_join ms fuel z :
  ms <> [] -> Forall good_member ms -> (length ms <= fuel)%nat ->
  scan_members pv fuel (JoinSep [COMMA] (map pr_member ms) ++ RBRACE :: z) = Some (ms, z).
Proof.
  revert fuel. induction ms as [|[k v] ms IH]; intros fuel Hne Hg Hf; [done|].
  inversion Hg as [|? ? Hv Hvs]; subst. destruct fuel as [|fuel]; [cbn in Hf; lia|].
  cbn [map]. rewrite join_cons. cbn [scan_members]. destruct ms as [|w ms].
  - cbn [map]. rewrite scan_member_print by (try done; cbn; unfold is_sep; eauto).
    by rewrite expect_miss, expect_hit.
  - cbn [map]. rewrite scan_member_print by (try done; cbn; unfold is_sep; eauto). cbn [app].
    rewrite expect_hit by done. rewrite <- map_cons. rewrite IH; [done|done|done|cbn in *; lia].
Qed.

Lemma scan_object_join ms z :
  Forall good_member ms ->
  scan_object pv (JoinSep [COMMA] (map pr_member ms) ++ RBRACE :: z) = Some (ms, z).
Proof.
  intros Hg. unfold scan_object. destruct ms as [|[k v] ms].
  - done.
  - assert (He : expect RBRACE (JoinSep [COMMA] (map pr_member ((k, v) :: ms)) ++ RBRACE :: z) = None).
    { cbn [map]. rewrite join_cons. unfold pr_member at 1, quoted. cbn [app].
      by apply expect_miss. }
    rewrite He. apply scan_members_join; [done|done|].
    assert (Hl : Forall (fun a => pr_member a <> []) ((k, v) :: ms)) by (by apply Forall_true).
    apply join_length in Hl. rewrite length_app. lia.
Qed.
End Inverse.

(** ** Values *)

(** [wfj d j]: the literals of [j] are well formed and it nests at most [d]
    deep. *)
Fixpoint wfj (d : nat) (j : json) {struct j} : Prop :=
  match j with
  | JNull | JBool _ => True
  | JNum n => wf_num n
  | JStr r => strbody r
  | JArr vs => match d with O => False | S d' => foldr and True (map (wfj d') vs) end
  | JObj ms =>
      match d with
      | O => False
      | S d' => foldr and True (map (fun kv => strbody (fst kv) /\ wfj d' (snd kv)) ms)
      end
  end.

Lemma foldr_and_Forall {A} (P : A -> Prop) l : foldr and True (map P l) <-> Forall P l.
Proof.
  induction l as [|x l IH]; cbn; [by split|]. rewrite Forall_cons. by rewrite IH.
Qed.

Lemma wfj_arr d vs : wfj (S d) (JArr vs) <-> Forall (wfj d) vs.
Proof. apply foldr_and_Forall. Qed.

Lemma wfj_obj d ms :
  wfj (S d) (JObj ms) <-> Forall (fun kv => strbody (fst kv) /\ wfj d (snd kv)) ms.
Proof. apply (foldr_and_Forall (fun kv => strbody (fst kv) /\ wfj d (snd kv))). Qed.

Lemma numchar_head n c t :
  n = c :: t -> (c = 45 \/ is_digit c = true) -> is_ws c = false /\ ~ is_sep c /\
  c <> QUOTE /\ c <> LBRACE /\ c <> LBRACKET /\ c <> 110 /\ c <> 116 /\ c <> 102.
Proof.
  intros _ H. unfold is_digit, is_ws, is_sep, COMMA, RBRACKET, RBRACE, QUOTE, LBRACE, LBRACKET in *. lia.
Qed.

Lemma print_head d j : wfj d j -> value_head (print j).
Proof.
  assert (Hc : forall c t, is_ws c = false -> negb ((c =? COMMA) || (c =? RBRACKET) || (c =? RBRACE)) = true ->
                 value_head (c :: t)).
  { intros c t Hw Hs. split; [done|]. unfold is_sep. lia. }
  destruct j as [|[]|n|r|vs|ms]; intros H.
  - by apply (Hc 110 (lit "ull")).
  - by apply (Hc 116 (lit "rue")).
  - by apply (Hc 102 (lit "alse")).
  - destruct H as (_ & (c & t & -> & Hd) & _). pose proof (numchar_head _ c t eq_refl Hd).
    cbn. tauto.
  - by apply Hc.
  - by apply Hc.
  - by apply Hc.
Qed.

Definition tail_ok (j : json) (z : bytes) : Prop :=
  match j with JNum _ => numend z | _ => True end.

Lemma sep_tail_ok j z : sep_tail z -> tail_ok j z.
Proof.
  intros H. destruct j; try done. destruct z as [|c z]; [done|]. cbn in *.
  unfold is_sep, COMMA, RBRACKET, RBRACE in H. unfold numchar, is_digit, is_exp, is_sign. lia.
Qed.

Lemma scan_scalar_num n z :
  wf_num n -> numend z -> scan_scalar (n ++ z) = Some (JNum n, z).
Proof.
  intros (_ & (c & t & -> & Hc) & Hs) Hz. specialize (Hs z Hz).
  pose proof (numchar_head _ c t eq_refl Hc) as (_ & _ & _ & _ & _ & H5 & H6 & H7).
  unfold scan_scalar. rewrite Hs. cbn [app].
  assert (Hp : forall x p, x <> c -> HasPrefix (c :: t ++ z) (x :: p) = false).
  { intros x p Hx. cbn. apply Z.eqb_neq in Hx. by rewrite Hx. }
  change (lit "null") with (110 :: lit "ull"). change (lit "true") with (116 :: lit "rue").
  change (lit "false") with (102 :: lit "alse").
  by rewrite !Hp by congruence.
Qed.

(** Parsing a printed value gives it back and leaves the text after it. *)
Lemma parse_print d j z :
  wfj d j -> tail_ok j z -> parse_value d (print j ++ z) = Some (j, z).
Proof.
  revert j z. induction d as [|d IH]; intros j z Hw Ht.
  all: destruct j as [|[]|n|r|vs|ms]; try done.
  1,3: pose proof Hw as (_ & (c & t & -> & Hc) & _); cbn [print print_scalar] in *;
    pose proof (numchar_head _ c t eq_refl Hc) as (H1 & _ & H2 & H3 & H4 & _);
    cbn [app parse_value]; rewrite skip_ws_nonws by done;
    apply Z.eqb_neq in H2, H3, H4; rewrite H2, H3, H4;
    apply (scan_scalar_num (c :: t)); done.
  1,2: cbn [print print_scalar quoted app parse_value]; rewrite skip_ws_nonws by done;
    cbn [Z.eqb Pos.eqb QUOTE]; rewrite <- app_assoc; cbn [app];
    by rewrite scan_str_complete.
  - apply wfj_arr in Hw. cbn [print app parse_value]. rewrite skip_ws_nonws by done.
    cbn [Z.eqb Pos.eqb QUOTE LBRACKET LBRACE]. rewrite <- app_assoc. cbn [app].
    rewrite (scan_array_join _ print (wfj d)); [done| | |done].
    + intros a Ha. by eapply print_head.
    + intros a z' Ha Hz. apply IH; [done | by apply sep_tail_ok].
  - apply wfj_obj in Hw. cbn [print app parse_value]. rewrite skip_ws_nonws by done.
    cbn [Z.eqb Pos.eqb QUOTE LBRACKET LBRACE]. rewrite <- app_assoc. cbn [app].
    change (fun kv => quoted kv.1 ++ COLON :: print kv.2) with (pr_member print).
    rewrite (scan_object_join _ print (wfj d)); [done| |done].
    intros a z' Ha Hz. apply IH; [done | by apply sep_tail_ok].
Qed.

(** ** The texts of a value

    [textof j t]: [t] is [j] with some whitespace before its tokens. *)
Definition ws (w : bytes) : Prop := Forall (fun c => is_ws c = true) w.

Definition scalar (j : json) : Prop :=
  match j with JArr _ | JObj _ => False | _ => True end.

Inductive textof : json -> bytes -> Prop :=
  | tx_scalar w j : ws w -> scalar j -> textof j (w ++ print_scalar j)
  | tx_arr0 w w' : ws w -> ws w' -> textof (JArr []) (w ++ LBRACKET :: w' ++ [RBRACKET])
  | tx_arr w vs t : ws w -> elems_text vs t -> textof (JArr vs) (w ++ LBRACKET :: t)
  | tx_obj0 w w' : ws w -> ws w' -> textof (JObj []) (w ++ LBRACE :: w' ++ [RBRACE])
  | tx_obj w ms t : ws w -> members_text ms t -> textof (JObj ms) (w ++ LBRACE :: t)
with elems_text : list json -> bytes -> Prop :=
  | el_one v t w : textof v t -> ws w -> elems_text [v] (t ++ w ++ [RBRACKET])
  | el_cons v t w vs r :
      textof v t -> ws w -> elems_text vs r -> elems_text (v :: vs) (t ++ w ++ COMMA :: r)
with members_text : list (bytes * json) -> bytes -> Prop :=
  | mb_one k v t w : member_text k v t -> ws w -> members_text [(k, v)] (t ++ w ++ [RBRACE])
  | mb_cons k v t w ms r :
      member_text k v t -> ws w -> members_text ms r ->
      members_text ((k, v) :: ms) (t ++ w ++ COMMA :: r)
with member_text : bytes -> json -> bytes -> Prop :=
  | mt_intro k v t w w' : ws w -> ws w' -> textof v t ->
      member_text k v (w ++ QUOTE :: k ++ QUOTE :: w' ++ COLON :: t).
#[export] Hint Constructors textof elems_text members_text member_text : ingest.

Scheme textof_mut := Minimality for textof Sort Prop
  with elems_mut := Minimality for elems_text Sort Prop
  with members_mut := Minimality for members_text Sort Prop
  with member_mut := Minimality for member_text Sort Prop.

Lemma HasPrefix_drop s p : HasPrefix s p = true -> s = p ++ drop (length p) s.
Proof. intros [r ->]%HasPrefix_spec. by rewrite drop_app_length. Qed.

Lemma scan_scalar_text s j z :
  scan_scalar s = Some (j, z) -> s = print_scalar j ++ z /\ scalar j /\ forall d, wfj d j.
Proof.
  unfold scan_scalar. intros H.
  destruct (HasPrefix s (lit "null")) eqn:E1; [apply HasPrefix_drop in E1; by simplify_eq|].
  destruct (HasPrefix s (lit "true")) eqn:E2; [apply HasPrefix_drop in E2; by simplify_eq|].
  destruct (HasPrefix s (lit "false")) eqn:E3; [apply HasPrefix_drop in E3; by simplify_eq|].
  destruct (scan_num s) as [[n z']|] eqn:E; [|done]. simplify_eq.
  by apply scan_num_sound in E as [-> Hn].
Qed.

Section ScanText.
Context (d : nat).
Context (IH : forall s j z, parse_value d s = Some (j, z) ->
                exists t, s = t ++ z /\ textof j t /\ wfj d j).

Lemma scan_elems_text fuel s vs z :
  scan_elems (parse_value d) fuel s = Some (vs, z) ->
  exists t, s = t ++ z /\ elems_text vs t /\ Forall (wfj d) vs.
Proof.
  revert s vs z. induction fuel as [|fuel IHf]; intros s vs z H; [done|]. cbn in H.
  destruct (parse_value d s) as [[v r]|] eqn:Ev; [|done].
  apply IH in Ev as (t & -> & Ht & Hv).
  destruct (expect COMMA r) as [r1|] eqn:Ec.
  - apply expect_split in Ec as (w & -> & Hw).
    destruct (scan_elems _ fuel r1) as [[vs' z']|] eqn:Es; [|done]. simplify_eq.
    apply IHf in Es as (t' & -> & Ht' & Hvs).
    exists (t ++ w ++ COMMA :: t'). split; [|eauto with ingest].
    by rewrite <- !app_assoc.
  - destruct (expect RBRACKET r) as [z'|] eqn:Er; [|done]. simplify_eq.
    apply expect_split in Er as (w & -> & Hw).
    exists (t ++ w ++ [RBRACKET]). split; [|eauto with ingest]. by rewrite <- !app_assoc.
Qed.

Lemma scan_member_text s k v z :
  scan_member (parse_value d) s = Some (k, v, z) ->
  exists t, s = t ++ z /\ member_text k v t /\ strbody k /\ wfj d v.
Proof.
  unfold scan_member. intros H.
  destruct (expect QUOTE s) as [r|] eqn:E1; [|done]. apply expect_split in E1 as (w & -> & Hw).
  destruct (scan_str r) as [[k' r1]|] eqn:E2; [|done]. apply scan_str_sound in E2 as [-> Hk].
  destruct (expect COLON r1) as [r2|] eqn:E3; [|done]. apply expect_split in E3 as (w' & -> & Hw').
  destruct (parse_value d r2) as [[v' z']|] eqn:E4; [|done]. simplify_eq.
  apply IH in E4 as (t & -> & Ht & Hv).
  exists (w ++ QUOTE :: k ++ QUOTE :: w' ++ COLON :: t). split; [|eauto with ingest].
  rewrite <- !app_assoc. cbn [app]. rewrite <- !app_assoc. cbn [app]. by rewrite <- !app_assoc.
Qed.

Lemma scan_members_text fuel s ms z :
  scan_members (parse_value d) fuel s = Some (ms, z) ->
  exists t, s = t ++ z /\ members_text ms t /\
            Forall (fun kv => strbody (fst kv) /\ wfj d (snd kv)) ms.
Proof.
  revert s ms z. induction fuel as [|fuel IHf]; intros s ms z H; [done|]. cbn in H.
  destruct (scan_member _ s) as [[[k v] r]|] eqn:Ev; [|done].
  apply scan_member_text in Ev as (t & -> & Ht & Hk & Hv).
  destruct (expect COMMA r) as [r1|] eqn:Ec.
  - apply expect_split in Ec as (w & -> & Hw).
    destruct (scan_members _ fuel r1) as [[ms' z']|] eqn:Es; [|done]. simplify_eq.
    apply IHf in Es as (t' & -> & Ht' & Hms).
    exists (t ++ w ++ COMMA :: t'). split; [|eauto with ingest]. by rewrite <- !app_assoc.
  - destruct (expect RBRACE r) as [z'|] eqn:Er; [|done]. simplify_eq.
    apply expect_split in Er as (w & -> & Hw).
    exists (t ++ w ++ [RBRACE]). split; [|eauto with ingest]. by rewrite <- !app_assoc.
Qed.
End ScanText.

(** A parsed value is well formed and its text is what was consumed. *)
Lemma parse_value_text d s j z :
  parse_value d s = Some (j, z) -> exists t, s = t ++ z /\ textof j t /\ wfj d j.
Proof.
  revert s j z. induction d as [|d IH]; intros s j z H; cbn in H;
    destruct (skip_ws_split s) as (w & Hw & Hws); rewrite Hw;
    destruct (skip_ws s) as [|c r]; try done;
    (destruct (c =? QUOTE) eqn:Eq; [apply Z.eqb_eq in Eq; subst c;
       destruct (scan_str r) as [[t z']|] eqn:E; [|done]; simplify_eq;
       apply scan_str_sound in E as [-> Hb];
       exists (w ++ print_scalar (JStr t)); split;
         [unfold print_scalar, quoted; by rewrite <- !app_assoc; cbn [app]; rewrite <- !app_assoc
         |split; [by constructor | done]]|]).
  all: destruct (c =? LBRACE) eqn:Eb; [apply Z.eqb_eq in Eb; subst c|]; try done.
  all: try (destruct (c =? LBRACKET) eqn:Ek; [apply Z.eqb_eq in Ek; subst c|]; try done).
  all: try (apply scan_scalar_text in H as (-> & Hs & Hwf); exists (w ++ print_scalar j);
            split; [by rewrite <- app_assoc | split; [by constructor | done]]).
  - destruct (scan_object _ r) as [[ms z']|] eqn:E; [|done]. simplify_eq. unfold scan_object in E.
    destruct (expect RBRACE r) as [z'|] eqn:Er.
    + simplify_eq. apply expect_split in Er as (w' & -> & Hw').
      exists (w ++ LBRACE :: w' ++ [RBRACE]). split; [by rewrite <- !app_assoc; cbn [app]; rewrite <- !app_assoc|].
      split; [by constructor | done].
    + apply (scan_members_text d IH) in E as (t & -> & Ht & Hms).
      exists (w ++ LBRACE :: t). split; [by rewrite <- app_assoc|].
      split; [by constructor | by apply wfj_obj].
  - destruct (scan_array _ r) as [[vs z']|] eqn:E; [|done]. simplify_eq. unfold scan_array in E.
    destruct (expect RBRACKET r) as [z'|] eqn:Er.
    + simplify_eq. apply expect_split in Er as (w' & -> & Hw').
      exists (w ++ LBRACKET :: w' ++ [RBRACKET]). split; [by rewrite <- !app_assoc; cbn [app]; rewrite <- !app_assoc|].
      split; [by constructor | done].
    + apply (scan_elems_text d IH) in E as (t & -> & Ht & Hvs).
      exists (w ++ LBRACKET :: t). split; [by rewrite <- app_assoc|].
      split; [by constructor | by apply wfj_arr].
Qed.

Lemma ws_nil : ws [].
Proof. constructor. Qed.
#[export] Hint Resolve ws_nil : ingest.

(** The compact text is one of the texts, and none is shorter. *)
Lemma textof_print j : textof j (print j).
Proof.
  induction j as [| | | |vs IH|ms IH] using json_nested_ind;
    try (apply (tx_scalar []); [constructor | done]).
  - destruct vs as [|v vs]; [apply (tx_arr0 [] []); constructor|].
    apply (tx_arr []); [constructor|]. inversion IH as [|? ? Hv Hvs]; subst. clear IH.
    induction Hvs as [|v' vs Hv' _ IHv] in v, Hv |- *.
    + cbn. apply (el_one v (print v) []); [done|constructor].
    + cbn [map]. rewrite join_cons. apply (el_cons v (print v) []); [done|constructor|].
      by apply IHv.
  - destruct ms as [|[k v] ms]; [apply (tx_obj0 [] []); constructor|].
    apply (tx_obj []); [constructor|]. inversion IH as [|? ? Hv Hms]; subst. clear IH.
    assert (Hm : forall k v, textof v (print v) -> member_text k v (quoted k ++ COLON :: print v)).
    { intros k' v' H. unfold quoted. cbn [app]. rewrite <- app_assoc.
      apply (mt_intro k' v' (print v') [] []); [constructor..|done]. }
    induction Hms as [|[k' v'] ms Hv' _ IHm] in k, v, Hv |- *.
    + cbn [map JoinSep fst snd]. apply (mb_one k v _ []); [by apply Hm | constructor].
    + cbn [map]. rewrite join_cons. apply (mb_cons k v _ []); [by apply Hm | constructor |].
      by apply IHm.
Qed.

Lemma length_join x (l : list bytes) :
  (length (JoinSep [COMMA] (x :: l)) <= length x + S (length (JoinSep [COMMA] l)))%nat.
Proof.
  rewrite <- (app_nil_r (JoinSep _ (x :: l))), join_cons, length_app.
  destruct l; cbn; rewrite ?app_nil_r; lia.
Qed.

Lemma print_shortest j t : textof j t -> (length (print j) <= length t)%nat.
Proof.
  revert j t.
  apply (textof_mut
    (fun j t => (length (print j) <= length t)%nat)
    (fun vs t => (length (JoinSep [COMMA] (map print vs)) < length t)%nat)
    (fun ms t => (length (JoinSep [COMMA] (map (pr_member print) ms)) < length t)%nat)
    (fun k v t => (length (pr_member print (k, v)) <= length t)%nat)).
  - intros w j _ Hs. rewrite length_app. destruct j; try done; cbn [print]; lia.
  - intros w w' _ _. rewrite length_app. cbn. rewrite length_app. cbn. lia.
  - intros w vs t _ _ IH. rewrite length_app. cbn. rewrite length_app. cbn. lia.
  - intros w w' _ _. rewrite length_app. cbn. rewrite length_app. cbn. lia.
  - intros w ms t _ _ IH. change (print (JObj ms)) with
      (LBRACE :: JoinSep [COMMA] (map (pr_member print) ms) ++ [RBRACE]).
    cbn [length]. rewrite !length_app. cbn [length]. lia.
  - intros v t w _ IH _. cbn [map JoinSep]. rewrite !length_app. cbn [length]. lia.
  - intros v t w vs r _ IH _ _ IHr. cbn [map]. pose proof (length_join (print v) (map print vs)).
    rewrite !length_app. cbn [length]. lia.
  - intros k v t w _ IH _. cbn [map JoinSep]. rewrite !length_app. cbn [length] in *. lia.
  - intros k v t w ms r _ IH _ _ IHr. cbn [map].
    pose proof (length_join (pr_member print (k, v)) (map (pr_member print) ms)).
    rewrite !length_app. cbn [length] in *. lia.
  - intros k v t w w' _ _ _ IH. unfold pr_member, quoted. cbn [fst snd app length].
    rewrite !length_app. cbn [length]. rewrite !length_app. cbn [length].
    rewrite !length_app. cbn [length]. lia.
Qed.

(** ** Properties of text that only string literals can break

    [P] ignores the punctuation, whitespace and numbers of JSON and looks at
    each string literal on its own; then it holds of a text exactly when it
    holds of the value's literals, so that all texts of a value agree. *)
Definition plain (c : Z) : Prop := 0 <= c < 128 /\ c <> BACKSLASH.

Fixpoint literals (j : json) : list bytes :=
  match j with
  | JStr r => [r]
  | JArr vs => concat (map literals vs)
  | JObj ms => concat (map (fun kv => fst kv :: literals (snd kv)) ms)
  | _ => []
  end.

Section Compositional.
Context (P : bytes -> Prop) (Hnil : P []).
Context (Hplain : forall c z, plain c -> P (c :: z) <-> P z).
Context (Hstr : forall r z, strbody r -> P (r ++ QUOTE :: z) <-> P r /\ P z).

Lemma P_plain_app a z : Forall plain a -> P (a ++ z) <-> P z.
Proof. induction 1 as [|c a Hc _ IH]; [done|]. cbn. by rewrite Hplain, IH. Qed.

Lemma ws_plain w : ws w -> Forall plain w.
Proof.
  intros H. eapply Forall_impl; [exact H|]. unfold plain, is_ws, BACKSLASH. intros; cbn in *; lia.
Qed.

Lemma num_plain n : wf_num n -> Forall plain n.
Proof.
  intros (H & _). eapply Forall_impl; [exact H|].
  unfold plain, numchar, is_digit, is_exp, is_sign, BACKSLASH. intros; cbn in *; lia.
Qed.

Lemma P_scalar d j z :
  scalar j -> wfj d j -> P (print_scalar j ++ z) <-> Forall P (literals j) /\ P z.
Proof.
  intros Hs Hw. destruct j as [|[]|n|r| |]; try done; cbn [print_scalar literals].
  1-3: rewrite P_plain_app; [by split; [|intros []]|];
       repeat constructor; unfold plain, BACKSLASH; cbn; lia.
  - rewrite P_plain_app by by apply num_plain. by split; [|intros []].
  - unfold quoted. cbn [app]. rewrite Hplain by (unfold plain, QUOTE, BACKSLASH; lia).
    rewrite <- app_assoc. cbn [app]. rewrite Hstr by done. by rewrite Forall_singleton.
Qed.

Ltac plain_step := rewrite ?P_plain_app by (by apply ws_plain);
  rewrite ?Hplain by (unfold plain, LBRACE, LBRACKET, RBRACE, RBRACKET, COMMA, COLON, QUOTE, BACKSLASH; lia).

Lemma P_text j t : textof j t -> forall d z, wfj d j ->
  P (t ++ z) <-> Forall P (literals j) /\ P z.
Proof.
  revert j t.
  apply (textof_mut
    (fun j t => forall d z, wfj d j -> P (t ++ z) <-> Forall P (literals j) /\ P z)
    (fun vs t => forall d z, Forall (wfj d) vs ->
       P (t ++ z) <-> Forall P (concat (map literals vs)) /\ P z)
    (fun ms t => forall d z, Forall (fun kv => strbody (fst kv) /\ wfj d (snd kv)) ms ->
       P (t ++ z) <-> Forall P (concat (map (fun kv => fst kv :: literals (snd kv)) ms)) /\ P z)
    (fun k v t => forall d z, strbody k /\ wfj d v ->
       P (t ++ z) <-> Forall P (k :: literals v) /\ P z)).
  - intros w j Hw Hs d z Hj. rewrite <- app_assoc. plain_step. by eapply P_scalar.
  - intros w w' Hw Hw' d z _. rewrite <- app_assoc. cbn [app]. rewrite <- app_assoc. cbn [app].
    plain_step. plain_step. cbn. split; [done|]. by intros [].
  - intros w vs t Hw _ IH d z Hj. destruct d; [done|]. apply wfj_arr in Hj.
    rewrite <- app_assoc. cbn [app]. plain_step. by apply (IH d).
  - intros w w' Hw Hw' d z _. rewrite <- app_assoc. cbn [app]. rewrite <- app_assoc. cbn [app].
    plain_step. plain_step. cbn. split; [done|]. by intros [].
  - intros w ms t Hw _ IH d z Hj. destruct d; [done|]. apply wfj_obj in Hj.
    rewrite <- app_assoc. cbn [app]. plain_step. by apply (IH d).
  - intros v t w _ IH Hw d z Hv. apply Forall_cons in Hv as [Hv _]. rewrite <- !app_assoc.
    rewrite (IH d _ Hv). cbn [app]. plain_step. plain_step.
    cbn [map concat fst snd]. by rewrite app_nil_r.
  - intros v t w vs r _ IH Hw _ IHr d z Hv. apply Forall_cons in Hv as [Hv Hvs].
    rewrite <- !app_assoc. rewrite (IH d _ Hv). cbn [app]. plain_step.
    rewrite (IHr d _ Hvs). cbn [map concat]. rewrite Forall_app. tauto.
  - intros k v t w _ IH Hw d z Hv. apply Forall_cons in Hv as [Hv _]. rewrite <- !app_assoc.
    rewrite (IH d _ Hv). cbn [app]. plain_step. plain_step.
    cbn [map concat fst snd]. by rewrite app_nil_r.
  - intros k v t w ms r _ IH Hw _ IHr d z Hv. apply Forall_cons in Hv as [Hv Hvs].
    rewrite <- !app_assoc. rewrite (IH d _ Hv). cbn [app]. plain_step.
    rewrite (IHr d _ Hvs). cbn [map concat fst snd app]. rewrite !Forall_cons, Forall_app. tauto.
  - intros k v t w w' Hw Hw' _ IH d z [Hk Hv]. rewrite <- app_assoc. cbn [app].
    rewrite <- app_assoc. cbn [app]. rewrite <- app_assoc. cbn [app]. plain_step.
    rewrite Hstr by done. plain_step. rewrite (IH d _ Hv). rewrite Forall_cons. tauto.
Qed.

(** All texts of a value agree on [P], the compact one in particular. *)
Lemma P_compact d s j z :
  parse_value d s = Some (j, z) -> P s -> P (print j) /\ P z.
Proof.
  intros H Hs. apply parse_value_text in H as (t & -> & Ht & Hw).
  apply (P_text j t Ht d) in Hs as [Hl Hz]; [|done]. split; [|done].
  rewrite <- (app_nil_r (print j)). by apply (P_text j _ (textof_print j) d).
Qed.
End Compositional.

(** ** Quoting *)

#[local] Ltac Zify.zify_post_hook ::= Z.to_euclidean_division_equations.

Lemma escape_ascii_strbody c r : 0 <= c < 128 -> strbody r -> strbody (escape_ascii c ++ r).
Proof.
  intros Hc Hr. unfold escape_ascii.
  repeat match goal with |- strbody ((if ?b then _ else _) ++ _) => destruct b eqn:? end; cbn [app];
    try (apply sb_simple; [unfold simple_escape; lia | done]).
  - apply sb_u; [|done]. unfold hex_char, is_hex, is_digit.
    destruct (c / 16 <? 10) eqn:?, (c mod 16 <? 10) eqn:?; lia.
  - unfold QUOTE, BACKSLASH. constructor; unfold QUOTE, BACKSLASH; lia || done.
Qed.

Lemma quote_strbody s : utf8 s -> strbody (quote s).
Proof.
  assert (Hc : forall c r, 128 <= c -> strbody r -> strbody (c :: r)).
  { intros c r H Hr. constructor; unfold QUOTE, BACKSLASH; lia || done. }
  induction 1 as [|c r H _ IH|c c1 r H Hs _ IH|c c1 c2 r H Hs _ IH|c c1 c2 c3 r H Hs _ IH];
    cbn [quote].
  - constructor.
  - if_true. by apply escape_ascii_strbody.
  - if_false. rewrite Hs. apply seq2_bounds in Hs. apply Hc; [lia|]. apply Hc; [lia|done].
  - if_false. rewrite (seq3_not2 _ _ _ _ Hs), Hs. apply seq3_bounds in Hs. unfold escape3.
    destruct (_ && _) eqn:E; cbn [app]; [|repeat apply Hc; lia || done].
    apply sb_u; [|done]. unfold is_hex, is_digit. lia.
  - if_false. rewrite (seq4_not2 _ _ _ _ _ Hs), (seq4_not3 _ _ _ _ _ _ Hs), Hs.
    apply seq4_bounds in Hs. repeat apply Hc; lia || done.
Qed.

Lemma unquote_escape_ascii c r : 0 <= c < 128 -> unquote (escape_ascii c ++ r) = c :: unquote r.
Proof.
  intros Hc. unfold escape_ascii.
  destruct ((c =? 92) || (c =? 34)) eqn:E1.
  { cbn [app unquote]. cbn [Z.eqb Pos.eqb BACKSLASH]. unfold LOWER_U, escape_val. if_false.
    f_equal. destruct (decide (c = 92)) as [->|]; [done|]. by replace c with 34 by lia. }
  destruct (c =? 8) eqn:E2; [by apply Z.eqb_eq in E2; subst|].
  destruct (c =? 12) eqn:E3; [by apply Z.eqb_eq in E3; subst|].
  destruct (c =? 10) eqn:E4; [by apply Z.eqb_eq in E4; subst|].
  destruct (c =? 13) eqn:E5; [by apply Z.eqb_eq in E5; subst|].
  destruct (c =? 9) eqn:E6; [by apply Z.eqb_eq in E6; subst|].
  destruct (c <? 32) eqn:E7; cbn [app unquote].
  - cbn [Z.eqb Pos.eqb BACKSLASH LOWER_U].
    assert (Hu : hex4 48 48 (hex_char (c / 16)) (hex_char (c mod 16)) = c).
    { unfold hex4, hex_val, hex_char, is_digit.
      destruct (c / 16 <? 10) eqn:?, (c mod 16 <? 10) eqn:?;
      repeat match goal with |- context [if ?b then _ else _] => destruct b eqn:? end; lia. }
    rewrite Hu. unfold is_surrogate, utf8_enc. if_false. by if_true.
  - unfold BACKSLASH. if_false. by if_true.
Qed.

(** Decoding an encoded string literal gives the string back. *)
Lemma unquote_quote s : utf8 s -> unquote (quote s) = s.
Proof.
  induction 1 as [|c r H _ IH|c c1 r H Hs _ IH|c c1 c2 r H Hs _ IH|c c1 c2 c3 r H Hs _ IH];
    cbn [quote].
  - done.
  - if_true. rewrite unquote_escape_ascii by done. by rewrite IH.
  - if_false. rewrite Hs. cbn [unquote]. unfold BACKSLASH. if_false. if_false. rewrite Hs. by rewrite IH.
  - if_false. rewrite (seq3_not2 _ _ _ _ Hs), Hs. unfold escape3. destruct (_ && _) eqn:E.
    + assert (c = 226 /\ c1 = 128 /\ (c2 = 168 \/ c2 = 169)) as (-> & -> & [-> | ->]) by lia;
        cbn [app unquote]; vm_compute (_ - 112); cbn [Z.eqb Pos.eqb BACKSLASH LOWER_U];
        cbn [hex4]; rewrite IH; done.
    + cbn [app unquote]. unfold BACKSLASH. if_false. if_false.
      by rewrite (seq3_not2 _ _ _ _ Hs), Hs, IH.
  - if_false. rewrite (seq4_not2 _ _ _ _ _ Hs), (seq4_not3 _ _ _ _ _ _ Hs), Hs.
    cbn [unquote]. unfold BACKSLASH. if_false. if_false.
    by rewrite (seq4_not2 _ _ _ _ _ Hs), (seq4_not3 _ _ _ _ _ _ Hs), Hs, IH.
Qed.

Lemma quote_length s : utf8 s -> blen (quote s) <= 6 * blen s.
Proof.
  induction 1 as [|c r H _ IH|c c1 r H Hs _ IH|c c1 c2 r H Hs _ IH|c c1 c2 c3 r H Hs _ IH];
    cbn [quote].
  - done.
  - if_true. rewrite blen_app, blen_cons.
    assert (blen (escape_ascii c) <= 6)
      by (unfold escape_ascii; repeat case_match; autorewrite with blen; lia).
    lia.
  - if_false. rewrite Hs. autorewrite with blen. lia.
  - if_false. rewrite (seq3_not2 _ _ _ _ Hs), Hs. unfold escape3.
    case_match; autorewrite with blen; lia.
  - if_false. rewrite (seq4_not2 _ _ _ _ _ Hs), (seq4_not3 _ _ _ _ _ _ Hs), Hs.
    autorewrite with blen. lia.
Qed.
