(* ===== verification/EventFacts.v ===== *)
(** * Facts about the event contract

    The checks of [internal/event] seen on parsed values, and the round trip
    of the broker envelope. *)
From S2P Require Import Prelude GoBytes GoTime GoTimeFacts GoJson GoJsonFacts Event.

(** ** Unicode checks on the raw text *)

Lemma ParseUint16_hex4 h1 h2 h3 h4 :
  is_hex h1 && is_hex h2 && is_hex h3 && is_hex h4 = true ->
  ParseUint16_16 [h1; h2; h3; h4] = Some (hex4 h1 h2 h3 h4).
Proof.
  intros H. unfold ParseUint16_16. cbn [forallb fold_left]. rewrite andb_true_r.
  replace (is_hex h1 && (is_hex h2 && (is_hex h3 && is_hex h4))) with true
    by (rewrite <- H; btauto).
  change (_ * 16 + hex_val h4) with (hex4 h1 h2 h3 h4).
  assert (Hv : forall h, is_hex h = true -> 0 <= hex_val h < 16).
  { intros h Hh. unfold is_hex, is_digit, hex_val, is_digit in *.
    destruct ((48 <=? h) && (h <=? 57)) eqn:?, (97 <=? h) eqn:?; lia. }
  bool_to_prop.
  pose proof (Hv h1 ltac:(done)). pose proof (Hv h2 ltac:(done)).
  pose proof (Hv h3 ltac:(done)). pose proof (Hv h4 ltac:(done)).
  unfold hex4. if_true. done.
Qed.

(** What the escape scan does after a high surrogate. *)
Definition low_half (s : bytes) : bool :=
  match s with
  | b :: v :: l1 :: l2 :: l3 :: l4 :: r =>
      if negb (b =? BACKSLASH) || negb (v =? LOWER_U) then false
      else match ParseUint16_16 [l1; l2; l3; l4] with
           | None => false
           | Some low => if (low <? 56320) || (57343 <? low) then false else escapes_ok r
           end
  | _ => false
  end.

Lemma low_half_miss b v s :
  (b =? BACKSLASH) = false \/ (v =? LOWER_U) = false -> low_half (b :: v :: s) = false.
Proof.
  intros H. unfold low_half. do 4 (destruct s as [|? s]; [done|]).
  destruct H as [-> | ->]; by rewrite ?orb_true_r.
Qed.

(** A string literal is checked on its own: its closing quote is a boundary
    of the escape scan. *)
Lemma escapes_ok_literal r z :
  strbody r -> escapes_ok (r ++ QUOTE :: z) = escapes_ok r && escapes_ok z.
Proof.
  remember (length r) as n eqn:Hn. revert r Hn.
  induction (lt_wf n) as [n _ IH]; intros r -> Hr.
  destruct Hr as [|e r He Hr|h1 h2 h3 h4 r Hh Hr|c r Hq Hb Hc Hr]; cbn [app escapes_ok].
  - done.
  - cbn [Z.eqb Pos.eqb BACKSLASH negb].
    destruct (e =? LOWER_U) eqn:E; [unfold simple_escape, LOWER_U in *; lia|].
    cbn [negb]. apply (IH (length r)); [cbn; lia|done|done].
  - cbn [Z.eqb Pos.eqb BACKSLASH negb LOWER_U]. rewrite ParseUint16_hex4 by done.
    destruct (hex4 h1 h2 h3 h4 =? 0); [done|].
    destruct ((56320 <=? _) && _); [done|].
    destruct ((55296 <=? _) && _) eqn:Eh.
    2:{ apply (IH (length r)); [cbn; lia|done|done]. }
    change (low_half (r ++ QUOTE :: z) = low_half r && escapes_ok z).
    destruct Hr as [|e r He Hr|l1 l2 l3 l4 r Hl Hr|c r Hq Hb Hc Hr].
    + destruct z as [|v z]; [done|]. by apply low_half_miss; left.
    + assert ((e =? LOWER_U) = false) by (unfold simple_escape, LOWER_U in *; lia).
      cbn [app]. rewrite !low_half_miss by (by right). done.
    + cbn [app low_half Z.eqb Pos.eqb BACKSLASH negb LOWER_U orb]. rewrite ParseUint16_hex4 by done.
      destruct ((hex4 l1 l2 l3 l4 <? 56320) || _); [done|].
      apply (IH (length r)); [cbn; lia|done|done].
    + apply Z.eqb_neq in Hb.
      destruct r as [|v r]; cbn [app]; by rewrite !low_half_miss by (by left).
  - apply Z.eqb_neq in Hb. rewrite Hb. cbn [negb]. apply (IH (length r)); [cbn; lia|done|done].
Qed.

(** [validUnicodeJSON] as a property of text. *)
Definition VU (s : bytes) : Prop := utf8 s /\ escapes_ok s = true.

Lemma VU_spec s : validUnicodeJSON s = true <-> VU s.
Proof. unfold validUnicodeJSON, VU. by rewrite andb_true_iff, utf8_Valid_spec. Qed.

Lemma VU_nil : VU [].
Proof. split; [constructor|done]. Qed.

Lemma VU_plain c z : plain c -> VU (c :: z) <-> VU z.
Proof.
  intros [Hc Hb]. unfold VU. cbn [escapes_ok]. apply Z.eqb_neq in Hb. rewrite Hb. cbn [negb].
  split; intros [Hu He]; split; try done; [|by constructor].
  inversion Hu; subst; by (done || lia).
Qed.

Lemma VU_literal r z : strbody r -> VU (r ++ QUOTE :: z) <-> VU r /\ VU z.
Proof.
  intros Hr. unfold VU. rewrite escapes_ok_literal by done. rewrite andb_true_iff. split.
  - intros [Hu [? ?]]. apply utf8_split in Hu as [? ?]; [done | by unfold QUOTE].
  - intros [[? ?] [? ?]]. split; [|done]. apply utf8_app; [done|]. constructor; [by unfold QUOTE|done].
Qed.
#[export] Hint Resolve VU_nil : ingest.

(** Text that needs no escaping. *)
Definition plainchar (c : Z) : Prop := 32 <= c < 128 /\ c <> QUOTE /\ c <> BACKSLASH.

Lemma plainchar_strbody s : Forall plainchar s -> strbody s.
Proof. induction 1 as [|c s (Hc & Hq & Hb) _ IH]; constructor; lia || done. Qed.

Lemma plainchar_plain s : Forall plainchar s -> Forall plain s.
Proof. intros H. eapply Forall_impl; [exact H|]. intros c (? & ? & ?). split; [lia|done]. Qed.

Lemma plainchar_VU s : Forall plainchar s -> VU s.
Proof.
  intros H. rewrite <- (app_nil_r s). apply (P_plain_app VU VU_plain); [|apply VU_nil].
  by apply plainchar_plain.
Qed.

Lemma plainchar_quote s : Forall plainchar s -> quote s = s.
Proof.
  induction 1 as [|c s (Hc & Hq & Hb) _ IH]; [done|]. cbn [quote]. if_true.
  unfold escape_ascii, QUOTE, BACKSLASH in *. rewrite IH.
  repeat match goal with |- context [if ?b then _ else _] => replace b with false by lia end. done.
Qed.

Lemma plainchar_utf8 s : Forall plainchar s -> utf8 s.
Proof. intros H. apply utf8_ascii. eapply Forall_impl; [exact H|]. intros c (? & _). lia. Qed.

(** Quoting valid text without NUL yields text that passes the check. *)
Lemma quote_VU s : utf8 s -> Forall (fun c => c <> 0) s -> VU (quote s).
Proof.
  assert (Hhigh : forall a z, Forall (fun c => 128 <= c) a -> utf8 a -> VU z -> VU (a ++ z)).
  { intros a z Ha Hu [Hz He]. split; [by apply utf8_app|]. clear Hu.
    induction Ha as [|c a Hc _ IH]; [done|]. cbn [app escapes_ok]. unfold BACKSLASH. by if_true. }
  assert (Hesc : forall h1 h2 h3 h4 z, is_hex h1 && is_hex h2 && is_hex h3 && is_hex h4 = true ->
     0 < hex4 h1 h2 h3 h4 < 55296 -> VU z -> VU (BACKSLASH :: LOWER_U :: h1 :: h2 :: h3 :: h4 :: z)).
  { intros h1 h2 h3 h4 z Hh Hv [Hz He]. split.
    - repeat (constructor; [unfold BACKSLASH, LOWER_U, is_hex, is_digit in *; lia|]). done.
    - cbn [escapes_ok]. cbn [Z.eqb Pos.eqb BACKSLASH negb LOWER_U].
      rewrite ParseUint16_hex4 by done. if_false. if_false. by if_false. }
  induction 1 as [|c r H _ IH|c c1 r H Hs _ IH|c c1 c2 r H Hs _ IH|c c1 c2 c3 r H Hs _ IH];
    intros Hn; cbn [quote].
  - apply VU_nil.
  - if_true. inversion Hn as [|? ? Hc0 Hn']; subst. specialize (IH Hn'). unfold escape_ascii.
    assert (Hs2 : forall e z, 0 <= e < 128 -> e <> LOWER_U -> VU z -> VU (BACKSLASH :: e :: z)).
    { intros e z He Hl [Hz Hz']. split; [constructor; [by unfold BACKSLASH|]; by constructor|].
      cbn [escapes_ok]. apply Z.eqb_neq in Hl. cbn [Z.eqb Pos.eqb BACKSLASH negb]. by rewrite Hl. }
    repeat match goal with |- VU ((if ?b then _ else _) ++ _) => destruct b eqn:? end; cbn [app];
      try (apply Hs2; unfold LOWER_U; lia || done).
    + apply Hesc; [| |done]; unfold hex4, hex_val, hex_char, is_hex, is_digit;
        pose proof (Z.div_mod c 16); pose proof (Z.mod_pos_bound c 16);
        destruct (c / 16 <? 10) eqn:?, (c mod 16 <? 10) eqn:?;
        repeat match goal with |- context [if ?b then _ else _] => destruct b eqn:? end; lia.
    + apply VU_plain; [|done]. unfold plain, BACKSLASH. lia.
  - if_false. rewrite Hs. inversion Hn as [|? ? _ Hn1]; subst. inversion Hn1; subst.
    pose proof (seq2_bounds _ _ Hs). apply (Hhigh [c; c1]); [forall_lia | | by apply IH].
    apply utf8_2; [lia|done|constructor].
  - if_false. rewrite (seq3_not2 _ _ _ _ Hs), Hs.
    assert (VU (quote r)) by (apply IH; by do 3 (inversion Hn as [|? ? _ Hn']; subst; clear Hn; rename Hn' into Hn)).
    pose proof (seq3_bounds _ _ _ Hs). unfold escape3. destruct (_ && _) eqn:E; cbn [app].
    + apply Hesc; [| |done]; unfold hex4, hex_val, is_hex, is_digit;
        repeat match goal with |- context [if ?b then _ else _] => destruct b eqn:? end; lia.
    + apply (Hhigh [c; c1; c2]); [forall_lia | | done].
      apply utf8_3; [lia|done|constructor].
  - if_false. rewrite (seq4_not2 _ _ _ _ _ Hs), (seq4_not3 _ _ _ _ _ _ Hs), Hs.
    assert (VU (quote r)) by (apply IH; by do 4 (inversion Hn as [|? ? _ Hn']; subst; clear Hn; rename Hn' into Hn)).
    pose proof (seq4_bounds _ _ _ _ Hs). apply (Hhigh [c; c1; c2; c3]); [forall_lia | | done].
    apply utf8_4; [lia|done|constructor].
Qed.

(** ** The token loop as a property of the parsed value *)

Fixpoint jdepth (j : json) : Z :=
  match j with
  | JArr vs => 1 + foldr Z.max 0 (map jdepth vs)
  | JObj ms => 1 + foldr Z.max 0 (map (fun kv => jdepth (snd kv)) ms)
  | _ => 0
  end.

Fixpoint numbers (j : json) : list bytes :=
  match j with
  | JNum r => [r]
  | JArr vs => concat (map numbers vs)
  | JObj ms => concat (map (fun kv => numbers (snd kv)) ms)
  | _ => []
  end.

Lemma foldr_max_le l b : 0 <= b -> foldr Z.max 0 l <= b <-> Forall (fun x => x <= b) l.
Proof.
  intros Hb. induction l as [|x l IH]; cbn; [by split|]. rewrite Forall_cons, <- IH. lia.
Qed.

Lemma foldr_max_nonneg l : 0 <= foldr Z.max 0 l.
Proof. induction l; cbn; lia. Qed.

(** The test the loop performs on one value at nesting level [d]. *)
Definition jsonb_ok (d : Z) (j : json) : bool :=
  (d + jdepth j <=? MaxPayloadDepth) && forallb representableNumber (numbers j).

Lemma jsonb_loop_list {A} (tok : A -> list token) (dep : A -> Z) (num : A -> list bytes) d (l : list A) r :
  d <= MaxPayloadDepth ->
  Forall (fun a => forall r, jsonb_loop d (tok a ++ r) =
    (d + dep a <=? MaxPayloadDepth) && forallb representableNumber (num a) && jsonb_loop d r) l ->
  jsonb_loop d (concat (map tok l) ++ r) =
    (d + foldr Z.max 0 (map dep l) <=? MaxPayloadDepth) &&
    forallb representableNumber (concat (map num l)) && jsonb_loop d r.
Proof.
  intros Hd. induction 1 as [|a l Ha _ IH]; cbn [map concat foldr forallb app].
  - by replace (d + 0 <=? MaxPayloadDepth) with true by lia.
  - rewrite <- app_assoc, Ha, IH, forallb_app.
    replace (d + Z.max (dep a) _ <=? MaxPayloadDepth) with
      ((d + dep a <=? MaxPayloadDepth) && (d + foldr Z.max 0 (map dep l) <=? MaxPayloadDepth)) by lia.
    btauto.
Qed.

Lemma jdepth_nonneg j : 0 <= jdepth j.
Proof.
  induction j as [| | | |vs IH|ms IH] using json_nested_ind; cbn; try lia.
  - induction IH; cbn; lia.
  - induction IH; cbn; lia.
Qed.

Lemma jsonb_loop_tokens j d r :
  d <= MaxPayloadDepth ->
  jsonb_loop d (tokens j ++ r) = jsonb_ok d j && jsonb_loop d r.
Proof.
  revert d r. unfold jsonb_ok. induction j as [|v|n|s|vs IH|ms IH] using json_nested_ind;
    intros d r Hd; cbn [tokens app jsonb_loop jdepth numbers forallb concat map].
  1,2,4: by replace (d + 0 <=? MaxPayloadDepth) with true by lia.
  - replace (d + 0 <=? MaxPayloadDepth) with true by lia.
    by destruct (representableNumber n).
  - cbn [Z.eqb Pos.eqb LBRACKET LBRACE orb]. rewrite Z.add_assoc.
    destruct (MaxPayloadDepth <? d + 1) eqn:E.
    { replace (d + 1 + _ <=? MaxPayloadDepth) with false; [done|].
      pose proof (foldr_max_nonneg (map jdepth vs)). lia. }
    rewrite <- app_assoc, (jsonb_loop_list tokens jdepth numbers); [|lia|].
    + cbn [app jsonb_loop Z.eqb Pos.eqb LBRACKET RBRACKET LBRACE orb].
      by replace (d + 1 - 1) with d by lia.
    + eapply Forall_impl; [exact IH|]. cbn. intros j Hj r'. apply Hj. lia.
  - cbn [Z.eqb Pos.eqb LBRACKET LBRACE orb]. rewrite Z.add_assoc.
    destruct (MaxPayloadDepth <? d + 1) eqn:E.
    { replace (d + 1 + _ <=? MaxPayloadDepth) with false; [done|].
      pose proof (foldr_max_nonneg (map (fun kv : bytes * json => jdepth (snd kv)) ms)). lia. }
    rewrite <- app_assoc, (jsonb_loop_list (fun kv : bytes * json => TString (unquote (fst kv)) :: tokens (snd kv))
      (fun kv => jdepth (snd kv)) (fun kv => numbers (snd kv))); [|lia|].
    + cbn [app jsonb_loop Z.eqb Pos.eqb LBRACKET RBRACE LBRACE orb].
      by replace (d + 1 - 1) with d by lia.
    + eapply Forall_impl; [exact IH|]. cbn [snd]. intros [k j] Hj r'. cbn. apply Hj. lia.
Qed.

Lemma jsonb_loop_doc j : jsonb_loop 0 (tokens j) = jsonb_ok 0 j.
Proof.
  rewrite <- (app_nil_r (tokens j)), jsonb_loop_tokens by done. by rewrite andb_true_r.
Qed.

(** A value is well formed at any bound above its own depth. *)
Lemma wfj_depth d d' j : wfj d j -> jdepth j <= Z.of_nat d' -> wfj d' j.
Proof.
  revert d d'. induction j as [| | | |vs IH|ms IH] using json_nested_ind; intros d d' Hw Hd; try done.
  - destruct d as [|d]; [done|]. destruct d' as [|d'].
    { cbn [jdepth] in Hd. pose proof (foldr_max_nonneg (map jdepth vs)). lia. }
    apply wfj_arr in Hw. apply wfj_arr. cbn [jdepth] in Hd.
    assert (Hm : Forall (fun x => x <= Z.of_nat d') (map jdepth vs)) by (apply foldr_max_le; lia).
    rewrite Forall_map in Hm. rewrite Forall_forall in *.
    intros v Hv. apply (IH v Hv d d'); [by apply Hw | by apply (Hm v)].
  - destruct d as [|d]; [done|]. destruct d' as [|d'].
    { cbn [jdepth] in Hd.
      pose proof (foldr_max_nonneg (map (fun kv : bytes * json => jdepth (snd kv)) ms)). lia. }
    apply wfj_obj in Hw. apply wfj_obj. cbn [jdepth] in Hd.
    assert (Hm : Forall (fun x => x <= Z.of_nat d') (map (fun kv => jdepth (snd kv)) ms)) by (apply foldr_max_le; lia).
    rewrite Forall_map in Hm. rewrite Forall_forall in *.
    intros v Hv. destruct (Hw v Hv) as [Hk Hv']. split; [done|].
    apply (IH v Hv d d'); [done | by apply (Hm v)].
Qed.

(** ** Documents *)

Lemma parse_doc_value s j : parse_doc s = Some j -> exists z, parse_value maxNestingDepth s = Some (j, z) /\ ws z.
Proof.
  unfold parse_doc. intros H. destruct (parse_value _ s) as [[j' z]|]; [|done].
  destruct (skip_ws_split z) as (w & Hw & Hws). destruct (skip_ws z); [|done].
  rewrite app_nil_r in Hw. simplify_eq. eauto.
Qed.

Lemma parse_doc_text s j :
  parse_doc s = Some j -> exists t z, s = t ++ z /\ textof j t /\ ws z /\ wfj maxNestingDepth j.
Proof.
  intros (z & H & Hz)%parse_doc_value. apply parse_value_text in H as (t & -> & Ht & Hw). eauto 6.
Qed.

Lemma parse_doc_print j : wfj maxNestingDepth j -> parse_doc (print j) = Some j.
Proof.
  intros Hw. unfold parse_doc. rewrite <- (app_nil_r (print j)), parse_print; [done|done|by destruct j].
Qed.

Lemma parse_raw_print d j z :
  wfj d j -> tail_ok j z -> parse_raw d (print j ++ z) = Some (print j, j, z).
Proof.
  intros Hw Ht. unfold parse_raw. rewrite parse_print by done.
  pose proof (print_head d j Hw) as Hh. destruct (print j) as [|c t] eqn:E; [done|].
  destruct Hh as [Hc _]. cbn [app]. rewrite skip_ws_nonws by done.
  change (c :: t ++ z) with ((c :: t) ++ z). rewrite length_app, Nat.add_sub.
  by rewrite take_app_length.
Qed.

(** The Unicode check of a document depends on its literals only. *)
Lemma VU_doc s j : parse_doc s = Some j -> VU s <-> Forall VU (literals j).
Proof.
  intros (t & z & -> & Ht & Hz & Hw)%parse_doc_text.
  rewrite (P_text VU VU_plain VU_literal j t Ht _ z Hw).
  assert (VU z); [|tauto]. rewrite <- (app_nil_r z).
  apply (P_plain_app VU VU_plain); [by apply ws_plain | apply VU_nil].
Qed.

Lemma parse_doc_shortest s j : parse_doc s = Some j -> blen (print j) <= blen s.
Proof.
  intros (t & z & -> & Ht & Hz & Hw)%parse_doc_text. apply print_shortest in Ht.
  rewrite blen_app. unfold blen. lia.
Qed.

Lemma parse_doc_idem s j : parse_doc s = Some j -> parse_doc (print j) = Some j.
Proof. intros (t & z & _ & _ & _ & Hw)%parse_doc_text. by apply parse_doc_print. Qed.

Lemma compact_spec s p : compact s = Some p <-> exists j, parse_doc s = Some j /\ p = print j.
Proof.
  unfold compact. destruct (parse_doc s) as [j|]; cbn; split.
  - intros H%Some_eq_inv. eauto.
  - intros (j' & H & ->). by simplify_eq.
  - done.
  - by intros (? & ? & _).
Qed.

(** ** Payloads *)

Definition good_payload (p : bytes) (j : json) : Prop :=
  parse_doc p = Some j /\ (exists ms, j = JObj ms) /\ Forall VU (literals j) /\ jsonb_ok 0 j = true.

Lemma validJSONB_spec p :
  validJSONB p = true <->
  exists j, parse_doc p = Some j /\ Forall VU (literals j) /\ jsonb_ok 0 j = true.
Proof.
  unfold validJSONB. destruct (parse_doc p) as [j|] eqn:E; [|by split; [|intros (? & ? & _)]].
  rewrite jsonb_loop_doc. pose proof (VU_doc p j E) as HV. rewrite <- VU_spec in HV.
  destruct (validUnicodeJSON p); cbn [negb].
  - split; [intros H; exists j; naive_solver | by intros (? & [= <-] & _ & ?)].
  - split; [done|]. intros (? & [= <-] & H%HV & _). done.
Qed.

Lemma payload_spec p :
  payload_is_object p && validJSONB p = true <-> exists j, good_payload p j.
Proof.
  rewrite andb_true_iff, validJSONB_spec. unfold payload_is_object, good_payload.
  destruct (parse_doc p) as [j|]; [|naive_solver]. split.
  - intros [Ho (? & [= <-] & ? & ?)]. exists j. destruct j; naive_solver.
  - intros (? & [= <-] & [ms ->] & ? & ?). eauto 6.
Qed.

Lemma good_payload_print p j : good_payload p j -> good_payload (print j) j.
Proof. intros (H & ?). split; [by eapply parse_doc_idem | done]. Qed.

Lemma jsonb_ok_depth j : jsonb_ok 0 j = true -> jdepth j <= 64.
Proof. unfold jsonb_ok, MaxPayloadDepth. intros ?. bool_to_prop. lia. Qed.
