(* ===== verification/Envelope.v ===== *)
(** * The broker envelope

    What [EncodeEnvelope] writes, [DecodeEnvelope] reads back: the facts that
    let the publisher and the consumer agree on every event. *)
From S2P Require Import Prelude GoBytes GoTime GoTimeFacts GoJson GoJsonFacts Event EventFacts.

Lemma timechar_plain s : Forall timechar s -> Forall plainchar s.
Proof.
  intros H. eapply Forall_impl; [exact H|]. unfold timechar, plainchar, QUOTE, BACKSLASH. cbn. lia.
Qed.

Lemma validText_spec s : validText s = true <-> utf8 s /\ Forall (fun c => c <> 0) s.
Proof.
  unfold validText. rewrite andb_true_iff, utf8_Valid_spec. f_equiv.
  rewrite forallb_forall, Forall_forall. apply forall_proper. intros c.
  rewrite <- list_elem_of_In, negb_true_iff, Z.eqb_neq. done.
Qed.

Section Envelope.
Context {U : UUIDLib} {UL : UUIDLaws U}.

Lemma uuid_plain u : Forall plainchar (uuid_String u).
Proof.
  eapply Forall_impl; [apply uuid_string_chars|]. unfold plainchar, QUOTE, BACKSLASH. cbn. lia.
Qed.

(** ** Validation, as a proposition *)

Definition valid_input (i : Input) (j : json) : Prop :=
  EventID i <> uuid_Nil /\ 1 <= blen (EventType i) <= 128 /\ validText (EventType i) = true /\
  IsZero (OccurredAt i) = false /\ good_payload (Payload i) j.

Lemma validate_spec i : validate i = None <-> exists j, valid_input i j.
Proof.
  unfold validate, valid_input. split.
  - intros H. repeat (case_match; [done|]). bool_to_prop.
    destruct (proj1 (payload_spec (Payload i))) as [j Hj]; [by apply andb_true_iff|].
    exists j. pose proof (blen_nonneg (EventType i)). split_and!; lia || done.
  - intros (j & Hid & Ht & Htx & Hz & Hp). rewrite bool_decide_false by done.
    rewrite Htx. replace (_ || _ || _) with false by lia. rewrite Hz.
    assert (Hb : payload_is_object (Payload i) && validJSONB (Payload i) = true)
      by (apply payload_spec; eauto).
    apply andb_true_iff in Hb as [-> ->]. done.
Qed.

Definition valid_identity (tenant : bytes) (received : Time) : Prop :=
  ValidTenant tenant = true /\ IsZero received = false.

Lemma Accept_spec i tenant received e :
  Accept i tenant received = Ok e <->
  validate i = None /\ valid_identity tenant received /\ e = mkEnvelope i tenant (UTC received).
Proof.
  unfold Accept, valid_identity. destruct (validate i); [by split; [|intros [? _]]|].
  destruct (ValidTenant tenant), (IsZero received); naive_solver.
Qed.

Lemma ValidTenant_spec s :
  ValidTenant s = true <-> 1 <= blen s <= 128 /\ validText s = true.
Proof. unfold ValidTenant. rewrite !andb_true_iff, !Z.leb_le. tauto. Qed.

(** ** The members of the encoded object *)

Definition good_value (v : bytes * json) : Prop :=
  fst v = print (snd v) /\ wfj (Nat.pred maxNestingDepth) (snd v).

Definition str_value (raw : bytes) : bytes * json := (quoted raw, JStr raw).

Definition members (i : Input) (tenant occ rec : bytes) (j : json) : list (bytes * (bytes * json)) :=
  [ (lit "event_id", str_value (quote (uuid_String (EventID i))));
    (lit "event_type", str_value (quote (EventType i)));
    (lit "occurred_at", str_value occ);
    (lit "payload", (print j, j));
    (lit "tenant_id", str_value (quote tenant));
    (lit "received_at", str_value rec) ].

Definition text_of_members (ms : list (bytes * (bytes * json))) : bytes :=
  LBRACE :: JoinSep [COMMA] (map (pr_member fst) ms) ++ [RBRACE; 10].

Lemma encode_json_members e b :
  encode_json e = Some b <->
  exists occ rec j,
    FormatRFC3339Nano (OccurredAt (env_Input e)) = Some occ /\
    FormatRFC3339Nano (ReceivedAt e) = Some rec /\
    parse_doc (Payload (env_Input e)) = Some j /\
    b = text_of_members (members (env_Input e) (TenantID e) occ rec j).
Proof.
  unfold encode_json, Time_MarshalJSON, compact.
  destruct (FormatRFC3339Nano (OccurredAt _)) as [occ|]; cbn [option_map]; [|naive_solver].
  destruct (parse_doc _) as [j|]; cbn [option_map]; [|naive_solver].
  destruct (FormatRFC3339Nano (ReceivedAt _)) as [rec|]; cbn [option_map]; [|naive_solver].
  split.
  - intros <-%Some_eq_inv. by exists occ, rec, j.
  - by intros (? & ? & ? & [= <-] & [= <-] & [= <-] & ->).
Qed.

Lemma good_str raw : strbody raw -> good_value (str_value raw).
Proof. by split. Qed.

Definition key_ok (m : bytes * (bytes * json)) : Prop := Forall plainchar (fst m).

(** The object text of any list of members with plain keys and compact
    values is parsed back to these members. *)
Lemma parse_top_members ms :
  Forall (good_member good_value) ms -> parse_top (text_of_members ms) = Some (TopObj ms, [10]).
Proof.
  intros H. unfold parse_top, text_of_members. rewrite expect_hit by done.
  rewrite (scan_object_join member_value fst good_value); [done| |done].
  - intros [r j] z [Hr Hw] Hz. cbn in Hr |- *. subst r. apply parse_raw_print; [done|].
    by apply sep_tail_ok.
Qed.

Lemma VU_members ms :
  Forall (good_member good_value) ms -> Forall (fun m => VU (fst m)) ms ->
  Forall (fun m => Forall VU (literals (snd (snd m)))) ms ->
  VU (text_of_members ms).
Proof.
  intros Hg Hk Hl. set (j := JObj (map (fun m => (fst m, snd (snd m))) ms)).
  assert (Ht : text_of_members ms = print j ++ [10]).
  { unfold text_of_members, j. cbn [print]. rewrite map_map. cbn [fst snd].
    cbn [app]. rewrite <- app_assoc. f_equal. f_equal. f_equal. apply map_ext_in.
    intros m Hm%list_elem_of_In. rewrite Forall_forall in Hg. destruct (Hg m Hm) as [_ [Hr _]].
    unfold pr_member. by rewrite Hr. }
  rewrite Ht. assert (Hw : wfj (S (Nat.pred maxNestingDepth)) j).
  { apply wfj_obj. rewrite Forall_map. eapply Forall_impl; [exact Hg|]. intros m [? [_ ?]]. done. }
  apply (P_text VU VU_plain VU_literal j _ (textof_print j) _ _ Hw). split.
  - unfold j. cbn [literals]. rewrite map_map. cbn [fst snd].
    apply Forall_concat. rewrite Forall_map. rewrite Forall_forall in *.
    intros m Hm. constructor; [by apply Hk | by apply Hl].
  - apply VU_plain; [by unfold plain, BACKSLASH | apply VU_nil].
Qed.

Section Members.
Context (i : Input) (tenant : bytes) (occurred received : Time) (occ rec : bytes) (j : json).
Context (Hi : valid_input i j) (Ht : ValidTenant tenant = true).
Context (Hocc : FormatRFC3339Nano occurred = Some occ) (Hrec : FormatRFC3339Nano received = Some rec).

Lemma members_good : Forall (good_member good_value) (members i tenant occ rec j).
Proof.
  destruct Hi as (_ & _ & [Hu _]%validText_spec & _ & (Hp & _ & _ & Hd)).
  apply ValidTenant_spec in Ht as [_ [Hut _]%validText_spec].
  apply FormatRFC3339Nano_chars in Hocc as [Ho%timechar_plain _].
  apply FormatRFC3339Nano_chars in Hrec as [Hr%timechar_plain _].
  apply parse_doc_text in Hp as (_ & _ & _ & _ & _ & Hw). apply jsonb_ok_depth in Hd.
  assert (Hk : forall s, forallb (fun c => (32 <=? c) && (c <? 128) && negb (c =? QUOTE) && negb (c =? BACKSLASH)) s = true ->
                 strbody s).
  { intros s Hs. apply plainchar_strbody. rewrite forallb_forall in Hs. apply Forall_forall.
    intros c Hc%list_elem_of_In%Hs. unfold plainchar. lia. }
  repeat (apply Forall_cons; split; [split; [by apply Hk|]|]); [..|by apply Forall_nil].
  1,2,5: apply good_str; by apply quote_strbody, plainchar_utf8, uuid_plain || by apply quote_strbody.
  1,3: apply good_str; by apply plainchar_strbody.
  split; [done|]. eapply wfj_depth; [exact Hw|].
  pose proof (Nat2Z.is_nonneg (Nat.pred maxNestingDepth)). unfold maxNestingDepth in *. cbn [snd]. lia.
Qed.

Lemma members_VU : VU (text_of_members (members i tenant occ rec j)).
Proof.
  apply VU_members; [apply members_good| |].
  - repeat (apply Forall_cons; split; [apply VU_spec; reflexivity|]). by apply Forall_nil.
  - destruct Hi as (_ & _ & [Hu Hn]%validText_spec & _ & (_ & _ & Hl & _)).
    apply ValidTenant_spec in Ht as [_ [Hut Hnt]%validText_spec].
    apply FormatRFC3339Nano_chars in Hocc as [Ho%timechar_plain _].
    apply FormatRFC3339Nano_chars in Hrec as [Hr%timechar_plain _].
    repeat (apply Forall_cons; split); try (by apply Forall_nil); try done;
      try (by apply quote_VU); try (by apply plainchar_VU).
    rewrite plainchar_quote by apply uuid_plain. apply plainchar_VU, uuid_plain.
Qed.

Lemma members_length :
  blen (text_of_members (members i tenant occ rec j)) <= blen (print j) + 1800.
Proof.
  destruct Hi as (_ & [_ Hl] & [Hu _]%validText_spec & _ & _).
  apply ValidTenant_spec in Ht as [[_ Hlt] [Hut _]%validText_spec].
  apply FormatRFC3339Nano_chars in Hocc as [_ Ho].
  apply FormatRFC3339Nano_chars in Hrec as [_ Hr].
  pose proof (quote_length _ Hu). pose proof (quote_length _ Hut).
  unfold text_of_members, members, pr_member, str_value, quoted. cbn [map fst snd].
  rewrite plainchar_quote by apply uuid_plain.
  assert (blen (uuid_String (EventID i)) = 36) by (unfold blen; by rewrite uuid_string_length).
  cbn [JoinSep]. autorewrite with blen.
  change (blen (lit "event_id")) with 8. change (blen (lit "event_type")) with 10.
  change (blen (lit "occurred_at")) with 11. change (blen (lit "payload")) with 7.
  change (blen (lit "tenant_id")) with 9. change (blen (lit "received_at")) with 11. lia.
Qed.
End Members.

(** ** Decoding what was encoded *)

Lemma fold_member idx k v d d' ms r :
  field_index envelope_names (unquote k) = Some idx -> set_envelope idx v d = Some d' ->
  fold_left (decode_member envelope_names set_envelope) ms (Some d') = r ->
  fold_left (decode_member envelope_names set_envelope) ((k, v) :: ms) (Some d) = r.
Proof. intros Hf Hs Hr. cbn [fold_left]. unfold decode_member at 2. cbn [fst snd]. by rewrite Hf, Hs. Qed.

Lemma decode_members i tenant occurred received occ rec j :
  valid_input i j -> ValidTenant tenant = true ->
  wf_Time occurred -> wf_Time received ->
  FormatRFC3339Nano occurred = Some occ -> FormatRFC3339Nano received = Some rec ->
  decode_struct envelope_names set_envelope zero_Envelope (TopObj (members i tenant occ rec j)) =
  Some (mkEnvelope (mkInput (EventID i) (EventType i) occurred (print j)) tenant received).
Proof.
  intros (_ & _ & [Hu _]%validText_spec & _) [_ [Hut _]%validText_spec]%ValidTenant_spec Hw Hwr Hocc Hrec.
  assert (Ho : Time_UnmarshalJSON zero_Time (quoted occ) = Some occurred).
  { apply Time_json_roundtrip; [done|]. unfold Time_MarshalJSON. by rewrite Hocc. }
  assert (Hr : Time_UnmarshalJSON zero_Time (quoted rec) = Some received).
  { apply Time_json_roundtrip; [done|]. unfold Time_MarshalJSON. by rewrite Hrec. }
  unfold decode_struct, members, str_value.
  eapply (fold_member 0); [reflexivity | cbn; rewrite unquote_quote by (by apply plainchar_utf8, uuid_plain);
    rewrite uuid_parse_string; reflexivity |].
  eapply (fold_member 1); [reflexivity | cbn; rewrite unquote_quote by done; reflexivity |].
  eapply (fold_member 2); [reflexivity | cbn [set_envelope set_input OccurredAt env_Input zero_Envelope zero_Input];
    rewrite Ho; reflexivity |].
  eapply (fold_member 3); [reflexivity | reflexivity |].
  eapply (fold_member 4); [reflexivity | cbn; rewrite unquote_quote by done; reflexivity |].
  eapply (fold_member 5); [reflexivity | cbn [set_envelope ReceivedAt zero_Envelope]; rewrite Hr; reflexivity |].
  reflexivity.
Qed.

(** The content a stored event has in common with the accepted one: the
    payload without the whitespace between its tokens, the receipt time in
    UTC. *)
Definition normal (e : Envelope) (j : json) : Envelope :=
  mkEnvelope (mkInput (EventID (env_Input e)) (EventType (env_Input e)) (OccurredAt (env_Input e)) (print j))
    (TenantID e) (UTC (ReceivedAt e)).

Lemma EncodeEnvelope_spec e raw :
  EncodeEnvelope e = Ok raw <->
  validate (env_Input e) = None /\ valid_identity (TenantID e) (ReceivedAt e) /\
  encode_json e = Some raw /\ blen raw <= MaxEnvelopeBytes.
Proof.
  unfold EncodeEnvelope. destruct (Accept _ _ _) as [e'|er] eqn:E; cbn [res_bind].
  - apply Accept_spec in E as (Hv & Hid & _).
    destruct (encode_json e) as [b|]; [|by split; [|intros (? & ? & ? & _)]].
    destruct (MaxEnvelopeBytes <? blen b) eqn:El; bool_to_prop; split.
    + done.
    + intros (_ & _ & [= <-] & ?). lia.
    + intros [= <-]. done.
    + by intros (_ & _ & [= <-] & _).
  - split; [done|]. intros (Hv & Hid & _).
    assert (Accept (env_Input e) (TenantID e) (ReceivedAt e) = Ok (mkEnvelope (env_Input e) (TenantID e) (UTC (ReceivedAt e))))
      by (by apply Accept_spec). congruence.
Qed.

(** Reading back: nothing but the receipt time and the payload's whitespace
    changes, and the instant of the receipt time does not. *)
Lemma DecodeEnvelope_encoded e raw :
  wf_Time (OccurredAt (env_Input e)) -> wf_Time (ReceivedAt e) ->
  EncodeEnvelope e = Ok raw ->
  exists j, parse_doc (Payload (env_Input e)) = Some j /\ DecodeEnvelope raw = Ok (normal e j).
Proof.
  intros Hwo Hwr (Hv & (Ht & Hz) & Henc & Hlen)%EncodeEnvelope_spec.
  apply encode_json_members in Henc as (occ & rec & j & Hocc & Hrec & Hj & ->).
  apply validate_spec in Hv as [j' Hi]. assert (j' = j) as ->.
  { destruct Hi as (_ & _ & _ & _ & (Hj' & _)). congruence. }
  exists j. split; [done|]. unfold DecodeEnvelope, decode. if_false.
  rewrite (proj2 (VU_spec _) (members_VU _ _ _ _ _ _ _ Hi Ht Hocc Hrec)). cbn [negb].
  rewrite parse_top_members by exact (members_good _ _ _ _ _ _ _ Hi Ht Hocc Hrec).
  rewrite (decode_members _ _ _ _ _ _ _ Hi Ht Hwo Hwr Hocc Hrec). cbn [skip_ws is_ws Z.eqb Pos.eqb orb res_bind].
  apply Accept_spec. cbn [env_Input TenantID ReceivedAt]. split; [|done].
  apply validate_spec. exists j. destruct Hi as (? & ? & ? & ? & Hp).
  do 4 (split; [done|]). by eapply good_payload_print.
Qed.

(** An accepted event fits: an event that came through the API has a
    payload of at most [MaxEventBytes] bytes, and escaping and field names
    stay under the 4096 bytes [MaxEnvelopeBytes] adds. *)
Lemma EncodeEnvelope_total e :
  validate (env_Input e) = None -> valid_identity (TenantID e) (ReceivedAt e) ->
  blen (Payload (env_Input e)) <= MaxEventBytes ->
  (exists s, FormatRFC3339Nano (OccurredAt (env_Input e)) = Some s) ->
  (exists s, FormatRFC3339Nano (ReceivedAt e) = Some s) ->
  exists raw, EncodeEnvelope e = Ok raw.
Proof.
  intros Hv [Ht Hz] Hl [occ Ho] [rec Hr]. pose proof Hv as [j Hi]%validate_spec.
  assert (Hj : parse_doc (Payload (env_Input e)) = Some j) by (by destruct Hi as (_ & _ & _ & _ & (? & _))).
  exists (text_of_members (members (env_Input e) (TenantID e) occ rec j)).
  apply EncodeEnvelope_spec. split; [done|]. split; [done|]. split.
  - apply encode_json_members. eauto 8.
  - pose proof (members_length _ _ _ _ _ _ _ Hi Ht Ho Hr).
    apply parse_doc_shortest in Hj. unfold MaxEnvelopeBytes. lia.
Qed.

(** ** What decoding guarantees *)

Lemma parse_raw_length d s r j z :
  parse_raw d s = Some (r, j, z) -> (length r <= length s)%nat /\ (length z <= length s)%nat.
Proof.
  unfold parse_raw. destruct (parse_value d s) as [[j' z']|] eqn:E; [|done].
  apply parse_value_text in E as (t & -> & _). intros [= <- <- <-].
  destruct (skip_ws_split (t ++ z')) as (w & Hw & _).
  rewrite length_take. assert (length (t ++ z') = length w + length (skip_ws (t ++ z')))%nat
    by (rewrite Hw at 1; apply length_app). rewrite length_app in *. lia.
Qed.

Lemma expect_length c s r : expect c s = Some r -> (length r <= length s)%nat.
Proof. intros (w & -> & _)%expect_split. rewrite length_app. cbn. lia. Qed.

Definition short (n : nat) (m : bytes * (bytes * json)) : Prop := (length (fst (snd m)) <= n)%nat.

Lemma scan_members_short fuel s ms z n :
  (length s <= n)%nat -> scan_members member_value fuel s = Some (ms, z) -> Forall (short n) ms.
Proof.
  revert s ms z. induction fuel as [|fuel IH]; intros s ms z Hn H; [done|]. cbn in H.
  destruct (scan_member member_value s) as [[[k v] r]|] eqn:E; [|done].
  assert (Hm : (length (fst v) <= length s)%nat /\ (length r <= length s)%nat).
  { unfold scan_member in E. destruct (expect QUOTE s) as [r1|] eqn:E1; [|done].
    destruct (scan_str r1) as [[k' r2]|] eqn:E2; [|done].
    destruct (expect COLON r2) as [r3|] eqn:E3; [|done].
    destruct (member_value r3) as [[[rv j] z']|] eqn:E4; [|done]. injection E as <- <- <-.
    apply expect_length in E1, E3. apply scan_str_sound in E2 as [-> _].
    apply parse_raw_length in E4. rewrite length_app in E1. cbn in *. lia. }
  destruct (expect COMMA r) as [r1|] eqn:E1.
  - destruct (scan_members _ fuel r1) as [[ms' z']|] eqn:E2; [|done]. injection H as <- <-.
    apply expect_length in E1. apply Forall_cons. split; [unfold short; cbn; lia|].
    eapply IH; [|exact E2]. lia.
  - destruct (expect RBRACE r); [|done]. injection H as <- <-.
    apply Forall_cons. split; [unfold short; cbn; lia | by apply Forall_nil].
Qed.

Lemma parse_top_short raw t z :
  parse_top raw = Some (t, z) ->
  match t with TopObj ms => Forall (short (length raw)) ms | TopOther _ => True end.
Proof.
  unfold parse_top, scan_object. intros H. destruct (expect LBRACE raw) as [r|] eqn:E.
  - apply expect_length in E. destruct (expect RBRACE r) eqn:E'.
    + injection H as <- <-. by apply Forall_nil.
    + destruct (scan_members _ _ r) as [[ms z']|] eqn:Es; [|done]. injection H as <- <-.
      by eapply scan_members_short.
  - destruct (parse_value _ raw) as [[j z']|]; [|done]. by injection H as <- <-.
Qed.

(** An invariant of the destination that every field setter keeps, for the
    texts that fit into the document, holds of what is decoded. *)
Lemma decode_inv {D} names (set : nat -> bytes * json -> D -> option D) zero raw max d (I : D -> Prop) :
  decode names set zero raw max = Ok d -> I zero ->
  (forall i v d d', blen (fst v) <= blen raw -> set i v d = Some d' -> I d -> I d') ->
  I d /\ blen raw <= max.
Proof.
  unfold decode. intros H Hz Hs. destruct (max <? blen raw) eqn:El; [done|]. bool_to_prop.
  split; [|done]. destruct (validUnicodeJSON raw); [|done]. cbn [negb] in H.
  destruct (parse_top raw) as [[t z]|] eqn:Et; [|done]. apply parse_top_short in Et.
  destruct (decode_struct _ _ _ t) as [d'|] eqn:Ed; [|done].
  destruct (skip_ws z); [|done]. injection H as <-. destruct t as [ms|j]; cbn in Ed.
  - assert (Hf : forall o, (forall x, o = Some x -> I x) ->
              fold_left (decode_member names set) ms o = Some d' -> I d').
    { clear Ed. induction Et as [|m ms Hm _ IH]; intros o Ho H; [by apply Ho|].
      apply (IH _) in H; [done|]. intros x Hx. unfold decode_member in Hx.
      destruct o as [y|]; [|done]. destruct (field_index _ _) as [i|]; [|done].
      eapply Hs; [|exact Hx|by apply Ho]. unfold short, blen in *. lia. }
    apply (Hf (Some zero)); [|done]. by intros x [= <-].
  - destruct j; by simplify_eq.
Qed.

Lemma Time_UnmarshalJSON_wf old raw t :
  Time_UnmarshalJSON old raw = Some t -> wf_Time old -> wf_Time t.
Proof.
  unfold Time_UnmarshalJSON. intros H Ho. repeat case_match; simplify_eq; try done.
  by eapply ParseRFC3339_wf.
Qed.

Definition decoded_time (t : Time) : Prop := t = zero_Time \/ exists s, ParseRFC3339 s = Some t.

Lemma decoded_time_step old raw t :
  Time_UnmarshalJSON old raw = Some t -> decoded_time old -> decoded_time t.
Proof.
  unfold Time_UnmarshalJSON, decoded_time. intros H Ho. repeat case_match; simplify_eq; try done. eauto.
Qed.

Lemma decoded_time_wf t : decoded_time t -> wf_Time t.
Proof. intros [->|[s Hs]]; [done | by eapply ParseRFC3339_wf]. Qed.

Lemma decoded_time_format t :
  decoded_time t -> Z.abs (t_off t) < 86400 -> exists s, FormatRFC3339Nano t = Some s.
Proof. intros [->|[s Hs]] H; [by eexists | by eapply ParseRFC3339_format]. Qed.

Lemma DecodeInput_spec raw i :
  DecodeInput raw = Ok i ->
  validate i = None /\ decoded_time (OccurredAt i) /\ blen (Payload i) <= blen raw <= MaxEventBytes.
Proof.
  unfold DecodeInput. destruct (decode _ _ _ _ _) as [i'|] eqn:E; [|done]. cbn [res_bind].
  destruct (validate i') eqn:Ev; [done|]. intros [= <-]. split; [done|].
  apply (decode_inv _ _ _ _ _ _ (fun i => decoded_time (OccurredAt i) /\ blen (Payload i) <= blen raw)) in E
    as [[Ht Hp] Hl]; [done| |].
  - split; [by left|]. cbn. apply blen_nonneg.
  - intros k [r j] d d' Hr Hs [Ht Hp]. unfold set_input in Hs.
    destruct k as [|[|[|k]]]; [destruct (set_uuid _ _)|destruct (set_string _ _)
      |destruct (Time_UnmarshalJSON _ _) eqn:Et|]; simplify_eq/=; try done.
    split; [by eapply decoded_time_step | done].
Qed.
End Envelope.
