(* ===== verification/Instances.v ===== *)
(** * A concrete UUID library

    Identifiers of 32 hexadecimal digits with the canonical 8-4-4-4-12 text,
    which satisfies what the development assumes of google/uuid; the
    instances below evaluate the model on concrete events. *)
From S2P Require Import Prelude GoBytes GoTime GoJson Event.

Definition nibble (v : Z) : bool := (0 <=? v) && (v <? 16).
Definition is_uuid (l : list Z) : bool := (length l =? 32)%nat && forallb nibble l.

Definition hex_uuid : Type := { l : list Z | is_uuid l = true }.

#[global] Instance hex_uuid_eq_dec : EqDecision hex_uuid.
Proof.
  intros [a Ha] [c Hc]. destruct (decide (a = c)) as [->|Hn].
  - left. f_equal. apply (Eqdep_dec.UIP_dec Bool.bool_dec).
  - right. congruence.
Defined.

Definition to_uuid (l : list Z) : option hex_uuid :=
  match bool_dec (is_uuid l) true with
  | left H => Some (exist _ l H)
  | right _ => None
  end.

Lemma to_uuid_proj (u : hex_uuid) : to_uuid (proj1_sig u) = Some u.
Proof.
  destruct u as [l H]. unfold to_uuid. cbn [proj1_sig]. destruct (bool_dec _ _) as [H'|]; [|done].
  f_equal. f_equal. apply (Eqdep_dec.UIP_dec Bool.bool_dec).
Qed.

#[global] Instance hex_uuid_countable : Countable hex_uuid :=
  inj_countable (@proj1_sig _ _) to_uuid to_uuid_proj.

Definition nil_uuid : hex_uuid := exist _ (replicate 32 0) eq_refl.

Definition hex_String (u : hex_uuid) : bytes :=
  let h := map hex_char (proj1_sig u) in
  take 8 h ++ 45 :: take 4 (drop 8 h) ++ 45 :: take 4 (drop 12 h) ++ 45 :: take 4 (drop 16 h) ++
  45 :: drop 20 h.

Definition dash_at (s : bytes) (i : nat) : bool :=
  match s !! i with Some c => c =? 45 | None => false end.

Definition hex_ParseBytes (s : bytes) : option hex_uuid :=
  let h := take 8 s ++ take 4 (drop 9 s) ++ take 4 (drop 14 s) ++ take 4 (drop 19 s) ++ drop 24 s in
  if forallb (dash_at s) [8; 13; 18; 23]%nat && forallb is_hex h then to_uuid (map hex_val h) else None.

#[global] Instance HexUUID : UUIDLib :=
  {| uuid := hex_uuid; uuid_Nil := nil_uuid; uuid_String := hex_String; uuid_ParseBytes := hex_ParseBytes |}.

Lemma hex_char_spec v :
  nibble v = true ->
  is_hex (hex_char v) = true /\ hex_val (hex_char v) = v /\
  (48 <= hex_char v <= 57 \/ 97 <= hex_char v <= 102).
Proof.
  unfold nibble. intros H. unfold hex_char. destruct (v <? 10) eqn:E;
    unfold is_hex, hex_val, is_digit; bool_to_prop; split_and!; try lia;
    repeat case_match; bool_to_prop; lia.
Qed.

Lemma hex_chars l : forallb nibble l = true ->
  forallb is_hex (map hex_char l) = true /\ map hex_val (map hex_char l) = l /\
  Forall (fun c => c = 45 \/ 48 <= c <= 57 \/ 97 <= c <= 102) (map hex_char l).
Proof.
  induction l as [|v l IH]; cbn; [done|]. intros [Hv Hl]%andb_true_iff.
  destruct (IH Hl) as (-> & -> & Hf). destruct (hex_char_spec v Hv) as (-> & -> & Hc).
  split_and!; [done|done|]. apply Forall_cons. split; [tauto|done].
Qed.

Lemma hex_split (l : list Z) : length l = 32%nat ->
  let s := take 8 l ++ 45 :: take 4 (drop 8 l) ++ 45 :: take 4 (drop 12 l) ++ 45 :: take 4 (drop 16 l) ++
           45 :: drop 20 l in
  take 8 s ++ take 4 (drop 9 s) ++ take 4 (drop 14 s) ++ take 4 (drop 19 s) ++ drop 24 s = l /\
  forallb (dash_at s) [8; 13; 18; 23]%nat = true /\ length s = 36%nat.
Proof.
  intros H. do 32 (destruct l as [|? l]; [done|]). destruct l; [|done]. done.
Qed.

#[global] Instance HexUUIDLaws : UUIDLaws HexUUID.
Proof.
  constructor; cbn; intros [l H]; unfold hex_String, hex_ParseBytes; cbn [proj1_sig];
    pose proof H as [Hl%Nat.eqb_eq Hn]%andb_true_iff; destruct (hex_chars l Hn) as (Hx & Hv & Hf);
    destruct (hex_split (map hex_char l) ltac:(by rewrite length_map)) as (Hs & Hd & Hlen); cbv zeta in *.
  - rewrite Hs, Hd, Hx, Hv. apply (to_uuid_proj (exist _ l H)).
  - done.
  - assert (Hc : (fun c => c = 45 \/ 48 <= c <= 57 \/ 97 <= c <= 102) 45) by (by left).
    repeat (apply Forall_app_2 || (apply Forall_cons; split; [done|]));
      repeat first [apply Forall_take | apply Forall_drop | done].
Qed.

(** The UUID whose last digits are those of a number. *)
Fixpoint nibbles (k : nat) (n : Z) : list Z :=
  match k with O => [] | S k' => nibbles k' (n / 16) ++ [n mod 16] end.
Definition uid (n : Z) : hex_uuid := default nil_uuid (to_uuid (nibbles 32 n)).
