(* ===== verification/EventProps.v ===== *)
(** * Properties of the event contract

    The claims about [internal/event]: the broker round trip, the limits, the
    JSONB filter and the errors of the decoders. *)
From S2P Require Import Prelude GoBytes GoTime GoTimeFacts GoJson GoJsonFacts Event EventFacts Envelope Instances.

Section Props.
Context {U : UUIDLib} {UL : UUIDLaws U}.

Lemma UTC_wf t : wf_Time t -> wf_Time (UTC t).
Proof. intros [H _]. by split. Qed.

Lemma UTC_format t :
  -719528 <= t_sec t / 86400 <= 2932896 -> exists s, FormatRFC3339Nano (UTC t) = Some s.
Proof. intros H. apply FormatRFC3339Nano_total; cbn; [by rewrite Z.add_0_r | lia]. Qed.

(** Errors of the decoders are validation errors, and report "too large"
    exactly for the byte limit. *)
Definition validation_error (e : error) : Prop := exists m t, e = EValidation m t.

Lemma validate_error i e : validate i = Some e -> exists m, e = EValidation m false.
Proof. unfold validate, invalid. intros H. repeat case_match; simplify_eq; eauto. Qed.

Lemma decode_error {D} names (set : nat -> bytes * json -> D -> option D) zero raw max e :
  decode names set zero raw max = Err e -> exists m, e = EValidation m (max <? blen raw).
Proof.
  unfold decode, invalid. intros H. destruct (max <? blen raw); repeat case_match; simplify_eq; eauto.
Qed.

Lemma DecodeInput_error raw e :
  DecodeInput raw = Err e -> exists m, e = EValidation m (MaxEventBytes <? blen raw).
Proof.
  unfold DecodeInput. destruct (decode _ _ _ _ _) as [i|er] eqn:E; cbn [res_bind].
  - intros H. apply (decode_inv _ _ _ _ _ _ (fun _ => True)) in E as [_ El]; [|done|done].
    replace (MaxEventBytes <? blen raw) with false by lia.
    destruct (validate i) eqn:Ev; [|done]. injection H as <-. by apply validate_error in Ev.
  - intros [= <-]. by apply decode_error in E.
Qed.

Lemma decode_inputs_Ok raws ins :
  decode_inputs raws = Ok ins <-> Forall2 (fun r i => DecodeInput r = Ok i) raws ins.
Proof.
  revert ins. induction raws as [|r rs IH]; intros ins; cbn [decode_inputs].
  - split; [by intros [= <-] | by intros ->%Forall2_nil_inv_l].
  - destruct (DecodeInput r) as [i|er] eqn:E; cbn [res_bind].
    + destruct (decode_inputs rs) as [ins'|er] eqn:Es; cbn [res_bind]; split.
      * intros [= <-]. constructor; [done|]. by apply IH.
      * intros (i' & l & Hi & Hl%IH & ->)%Forall2_cons_inv_l. congruence.
      * done.
      * intros (i' & l & Hi & Hl%IH & ->)%Forall2_cons_inv_l. congruence.
    + split; [done|]. intros (i' & l & Hi & _)%Forall2_cons_inv_l. congruence.
Qed.

Lemma decode_inputs_error raws e : decode_inputs raws = Err e -> validation_error e.
Proof.
  induction raws as [|r rs IH]; cbn [decode_inputs]; [done|].
  destruct (DecodeInput r) as [i|er] eqn:E; cbn [res_bind].
  - destruct (decode_inputs rs) eqn:Es; cbn [res_bind]; [done|]. intros [= <-]. by apply IH.
  - intros [= <-]. apply DecodeInput_error in E as [m ->]. by eexists _, _.
Qed.

(** C1: an event the API decodes and accepts, whose occurrence time has a zone
    under 24 hours, while the clock shows a year from 0 to 9999, can be
    published, and the consumer decodes the published message to the same
    event, with the payload compacted and nothing else changed: such an event
    is not quarantined for its text.  What happens to the other zones is
    [zone24_accepted_but_unpublishable]. *)
Theorem accepted_event_survives_broker raw i tenant now e :
  DecodeInput raw = Ok i -> Z.abs (t_off (OccurredAt i)) < 86400 ->
  Accept i tenant now = Ok e -> 0 <= t_nsec now < 1000000000 ->
  -719528 <= t_sec now / 86400 <= 2932896 ->
  exists msg j, EncodeEnvelope e = Ok msg /\ parse_doc (Payload i) = Some j /\
    DecodeEnvelope msg =
      Ok (mkEnvelope (mkInput (EventID i) (EventType i) (OccurredAt i) (print j)) tenant (UTC now)).
Proof.
  intros (Hv & Ht & Hp)%DecodeInput_spec Hoff (_ & [Htn Hz] & ->)%Accept_spec Hns Hnow.
  destruct (EncodeEnvelope_total (mkEnvelope i tenant (UTC now))) as [msg Hm]; cbn [env_Input TenantID ReceivedAt].
  - done.
  - by split.
  - lia.
  - by apply decoded_time_format.
  - by apply UTC_format.
  - exists msg. apply DecodeEnvelope_encoded in Hm as Hd.
    + destruct Hd as (j & Hj & Hd). exists j. split_and!; [done|done|]. exact Hd.
    + by apply decoded_time_wf.
    + by split.
Qed.

(** C10: whatever [EncodeEnvelope] writes, [DecodeEnvelope] accepts and maps
    to the same identity, type, times and tenant, with an equal payload up
    to whitespace; the message never exceeds [MaxEnvelopeBytes]. *)
Theorem envelope_roundtrip e msg :
  wf_Time (OccurredAt (env_Input e)) -> wf_Time (ReceivedAt e) -> EncodeEnvelope e = Ok msg ->
  blen msg <= MaxEnvelopeBytes /\
  exists j, parse_doc (Payload (env_Input e)) = Some j /\ DecodeEnvelope msg = Ok (normal e j).
Proof.
  intros Ho Hr H. split; [|by apply DecodeEnvelope_encoded].
  by apply EncodeEnvelope_spec in H as (_ & _ & _ & ?).
Qed.

(** A decoded batch has 1 to 100 events, each the decoding of its own
    raw text under the single-event limit, all validated; any failure of
    the batch decoder is a validation error, so the API answers 400 or
    413 and publishes nothing. *)
Theorem DecodeBatch_all_or_nothing raw :
  match DecodeBatch raw with
  | Ok ins => 1 <= Z.of_nat (length ins) <= MaxBatchEvents /\ blen raw <= MaxRequestBytes /\
             Forall (fun i => validate i = None) ins /\
             exists raws, Forall2 (fun r i => DecodeInput r = Ok i) raws ins
  | Err e => validation_error e
  end.
Proof.
  unfold DecodeBatch. destruct (decode _ _ _ _ _) as [raws|e] eqn:E; cbn [res_bind].
  2:{ apply decode_error in E as [m ->]. by eexists _, _. }
  apply (decode_inv _ _ _ _ _ _ (fun _ => True)) in E as [_ El]; [|done|done].
  destruct (_ || _) eqn:En; [by eexists _, _|]. bool_to_prop.
  destruct (decode_inputs raws) as [ins|e] eqn:Ei; [|by eapply decode_inputs_error].
  apply decode_inputs_Ok in Ei. pose proof (Forall2_length _ _ _ Ei).
  split; [lia|]. split; [done|]. split; [|eauto].
  clear -Ei. induction Ei as [|r i rs ins Hi _ IH]; constructor; [|done].
  by apply DecodeInput_spec in Hi as (? & _).
Qed.

(** [DecodeInput] fails only with a validation error, and that error
    says "too large" exactly when the text exceeds [MaxEventBytes]. *)
Theorem DecodeInput_errors raw :
  match DecodeInput raw with
  | Ok i => validate i = None /\ blen raw <= MaxEventBytes /\ blen (Payload i) <= blen raw
  | Err e => validation_error e /\ IsTooLarge e = (MaxEventBytes <? blen raw)
  end.
Proof.
  destruct (DecodeInput raw) as [i|e] eqn:E.
  - apply DecodeInput_spec in E as (Hv & _ & Hl). split; [done|lia].
  - apply DecodeInput_error in E as [m ->]. split; [by eexists _, _ | done].
Qed.
End Props.

(** ** Concrete events *)

(** JSON text with single quotes for double quotes. *)
Definition jlit (s : string) : bytes := map (fun c => if c =? 39 then 34 else c) (lit s).

Definition sample_text : bytes :=
  jlit "{'event_id':'00000000-0000-0000-0000-00000000002a', 'event_type':'order.created', 'occurred_at':'2026-01-01T05:30:00.5+05:30', 'payload':{ 'total' : 12.50 }}".

Definition sample_input : Input :=
  mkInput (uid 42) (lit "order.created") (mkTime 1767225600 500000000 19800) (jlit "{ 'total' : 12.50 }").

Definition sample_now : Time := mkTime 1767225601 7 3600.
Definition sample_envelope : Envelope := mkEnvelope sample_input (lit "acme") (UTC sample_now).

Lemma sample_decodes : DecodeInput sample_text = Ok sample_input.
Proof. vm_compute. reflexivity. Qed.

Lemma sample_accepts : Accept sample_input (lit "acme") sample_now = Ok sample_envelope.
Proof. vm_compute. reflexivity. Qed.

Lemma accepted_event_survives_broker_witness :
  exists msg j, EncodeEnvelope sample_envelope = Ok msg /\
    parse_doc (Payload sample_input) = Some j /\
    DecodeEnvelope msg =
      Ok (mkEnvelope (mkInput (uid 42) (lit "order.created") (OccurredAt sample_input) (print j))
            (lit "acme") (UTC sample_now)).
Proof.
  apply (accepted_event_survives_broker sample_text sample_input (lit "acme") sample_now sample_envelope).
  - exact sample_decodes.
  - cbn; lia.
  - exact sample_accepts.
  - cbn; lia.
  - vm_compute; split; discriminate.
Defined.

Definition sample_message : bytes :=
  match EncodeEnvelope sample_envelope with Ok b => b | Err _ => [] end.

Lemma envelope_roundtrip_witness :
  blen sample_message <= MaxEnvelopeBytes /\
  exists j, parse_doc (Payload (env_Input sample_envelope)) = Some j /\
    DecodeEnvelope sample_message = Ok (normal sample_envelope j).
Proof.
  apply envelope_roundtrip.
  - vm_compute; repeat split; discriminate.
  - vm_compute; repeat split; discriminate.
  - vm_compute; reflexivity.
Defined.

Definition zone24_text : bytes :=
  jlit "{'event_id':'00000000-0000-0000-0000-00000000002a','event_type':'t','occurred_at':'2026-01-01T00:00:00+24:00','payload':{}}".

Definition zone24_input : Input := mkInput (uid 42) (lit "t") (mkTime 1767139200 0 86400) (lit "{}").

Lemma zone24_format t : 86400 <= Z.abs (t_off t) -> FormatRFC3339Nano t = None.
Proof.
  intros Ht. unfold FormatRFC3339Nano. destruct (civil_from_days _) as [[y mo] d]. destruct (_ || _); [done|].
  assert (24 <= Z.abs (Z.quot (t_off t) 60) / 60).
  { rewrite <- Z.quot_abs by done. change (Z.abs 60) with 60. rewrite Z.quot_div_nonneg, Z.div_div by lia. apply Z.div_le_lower_bound; lia. }
  assert (t_off t <> 0) by lia. rewrite (proj2 (Z.eqb_neq _ _)), (proj2 (Z.leb_le _ _)) by done. done.
Qed.

Lemma zone24_encode e : 86400 <= Z.abs (t_off (OccurredAt (env_Input e))) -> validate (env_Input e) = None ->
  valid_identity (TenantID e) (ReceivedAt e) -> EncodeEnvelope e = Err (ENew "json: error calling MarshalJSON").
Proof.
  intros Hz Hv Hid. unfold EncodeEnvelope. rewrite (proj2 (Accept_spec _ _ _ _) (conj Hv (conj Hid eq_refl))). cbn [res_bind].
  unfold encode_json, Time_MarshalJSON. by rewrite (zone24_format _ Hz).
Qed.

(** C23: zones of 24 hours are accepted and unpublishable.  [DecodeInput]
    takes a text whose occurrence time carries the zone +24:00; and every
    event it takes whose zone is 24 hours or more, either way, passes [Accept]
    for every valid tenant and clock but never [EncodeEnvelope], because
    [time.Time.MarshalJSON] rejects the zone [time.Parse] let through: the
    API answers such a request with a retryable error for ever. *)
Theorem zone24_accepted_but_unpublishable :
  (exists i, DecodeInput zone24_text = Ok i /\ t_off (OccurredAt i) = 86400) /\
  forall raw i tenant now, DecodeInput raw = Ok i -> 86400 <= Z.abs (t_off (OccurredAt i)) -> valid_identity tenant now ->
    exists e, Accept i tenant now = Ok e /\ OccurredAt (env_Input e) = OccurredAt i /\
      EncodeEnvelope e = Err (ENew "json: error calling MarshalJSON").
Proof.
  split; [exists zone24_input; split; vm_compute; reflexivity|]. intros raw i tenant now (Hv & _)%DecodeInput_spec Hz Hid.
  exists (mkEnvelope i tenant (UTC now)). split; [by apply Accept_spec|]. split; [done|].
  destruct Hid as [Ht Hn]. by apply zone24_encode.
Qed.

Lemma zone24_accepted_but_unpublishable_witness :
  exists i e, DecodeInput zone24_text = Ok i /\ Accept i (lit "acme") sample_now = Ok e /\ is_ok (EncodeEnvelope e) = false.
Proof.
  destruct (proj2 zone24_accepted_but_unpublishable zone24_text zone24_input (lit "acme") sample_now) as (e & Ha & _ & He).
  - vm_compute. reflexivity.
  - vm_compute. discriminate.
  - split; vm_compute; reflexivity.
  - exists zone24_input, e. split; [vm_compute; reflexivity|]. split; [exact Ha|]. by rewrite He.
Defined.
