(* ===== verification/JsonbProps.v ===== *)
(** * The JSONB filter

    [representableNumber] inspects decimal positions; here its answer is
    compared with the number the literal denotes, and [validJSONB] with a
    property of the parsed document. *)
From S2P Require Import Prelude GoBytes GoTimeFacts GoJson GoJsonFacts Event EventFacts.

Definition alldigits (d : bytes) : Prop := Forall (fun c => is_digit c = true) d.

(** The value of an exponent part. *)
Inductive exp_part : bytes -> Z -> Prop :=
  | ep_none : exp_part [] 0
  | ep_bare c d : is_exp c = true -> d <> [] -> alldigits d -> exp_part (c :: d) (dec_val d)
  | ep_plus c d : is_exp c = true -> d <> [] -> alldigits d -> exp_part (c :: 43 :: d) (dec_val d)
  | ep_minus c d : is_exp c = true -> d <> [] -> alldigits d -> exp_part (c :: 45 :: d) (- dec_val d).

(** [decimal n m k]: the literal [n] denotes plus or minus [m * 10 ^ k]. *)
Inductive decimal : bytes -> Z -> Z -> Prop :=
  | decimal_intro sg whole frac f ep e :
      sg = [] \/ sg = [45] -> whole <> [] -> alldigits whole -> alldigits f ->
      frac = 46 :: f \/ (frac = [] /\ f = []) -> exp_part ep e ->
      decimal (sg ++ whole ++ frac ++ ep) (dec_val (whole ++ f)) (e - blen f).

(** ** Every scanned number denotes one *)

Lemma scan_exp_part s e z : scan_exp s = Some (e, z) -> exists v, exp_part e v.
Proof.
  unfold scan_exp. intros H. destruct s as [|c r]; [injection H as <- <-; exists 0; constructor|].
  destruct (is_exp c) eqn:Ec; [|injection H as <- <-; exists 0; constructor].
  destruct (match r with [] => _ | _ => _ end) as [sg r1] eqn:Es.
  destruct (digits r1) as [[|x d] z'] eqn:Ed; [done|]. injection H as <- <-.
  apply digits_sound in Ed as [_ Hd].
  destruct r as [|y r']; [injection Es as <- <-; eexists; by constructor|].
  destruct (is_sign y) eqn:Ey; injection Es as <- <-; [|eexists; by constructor].
  unfold is_sign in Ey. apply orb_true_iff in Ey as [->%Z.eqb_eq | ->%Z.eqb_eq]; eexists;
    by constructor.
Qed.

Lemma scan_num_decimal s n z : scan_num s = Some (n, z) -> exists m k, decimal n m k.
Proof.
  unfold scan_num. intros H. destruct (split_minus s) as [sg s1] eqn:Es.
  destruct (scan_int s1) as [[i s2]|] eqn:Ei; [|done].
  destruct (scan_frac s2) as [[f s3]|] eqn:Ef; [|done].
  destruct (scan_exp s3) as [[e s4]|] eqn:Ee; [|done]. injection H as <- <-.
  apply scan_exp_part in Ee as [v Hv].
  apply scan_int_sound in Ei as (_ & Hi & Hne & _).
  assert (Hsg : sg = [] \/ sg = [45]).
  { unfold split_minus in Es. destruct s as [|c r]; [injection Es as <- <-; by left|].
    destruct (c =? 45) eqn:E; injection Es as <- <-; [apply Z.eqb_eq in E as ->; by right | by left]. }
  unfold scan_frac in Ef. destruct s2 as [|c r].
  { injection Ef as <- <-. do 2 eexists. apply (decimal_intro sg i [] [] e v); try done; [constructor|by right]. }
  destruct (c =? 46) eqn:Ec.
  - apply Z.eqb_eq in Ec as ->. destruct (digits r) as [[|x d] z'] eqn:Ed; [done|].
    injection Ef as <- <-. apply digits_sound in Ed as [_ Hd].
    do 2 eexists. apply (decimal_intro sg i (46 :: x :: d) (x :: d) e v); try done. by left.
  - injection Ef as <- <-. do 2 eexists. apply (decimal_intro sg i [] [] e v); try done; [constructor|by right].
Qed.

(** ** Decimal positions *)

Lemma break_at_stop f a z :
  Forall (fun c => f c = false) a -> match z with [] => True | c :: _ => f c = true end ->
  break_at f (a ++ z) = (a, z).
Proof.
  intros Ha Hz. induction Ha as [|c a Hc _ IH]; cbn.
  - destruct z as [|c r]; [done|]. cbn. by rewrite Hz.
  - by rewrite Hc, IH.
Qed.

Lemma dec_val_cons c d : dec_val (c :: d) = (c - 48) * 10 ^ blen d + dec_val d.
Proof.
  induction d as [|x d IH] using rev_ind; [unfold dec_val, blen; cbn [fold_left length]; change (10 ^ Z.of_nat 0) with 1; lia|].
  change (c :: d ++ [x]) with ((c :: d) ++ [x]). rewrite !dec_val_snoc, IH.
  rewrite blen_app. change (blen [x]) with 1. rewrite Z.pow_add_r by (apply blen_nonneg || lia).
  change (10 ^ 1) with 10. ring.
Qed.

Lemma dec_val_bounds d : alldigits d -> 0 <= dec_val d < 10 ^ blen d.
Proof.
  induction 1 as [|c d Hc _ IH]; [by unfold dec_val|].
  rewrite dec_val_cons, blen_cons, Z.pow_add_r by (apply blen_nonneg || lia).
  change (10 ^ 1) with 10.
  unfold is_digit in Hc. nia.
Qed.

(** The digits after the leading zeros determine the size of the number. *)
Lemma leading_zeros d :
  alldigits d ->
  let r := TrimLeft d (fun c => c =? 48) in
  dec_val d = dec_val r /\ alldigits r /\ blen r <= blen d /\
  (r = [] <-> dec_val d = 0) /\ (r <> [] -> 10 ^ (blen r - 1) <= dec_val d).
Proof.
  induction 1 as [|c d Hc Hd IH]; cbv zeta.
  - unfold TrimLeft. cbn [break_at snd]. split_and!; by try constructor.
  - unfold TrimLeft in *. cbn [break_at]. destruct (c =? 48) eqn:E; cbn [negb].
    + apply Z.eqb_eq in E as ->. destruct (break_at _ d) as [a z]. cbn [snd] in *.
      destruct IH as (H1 & H2 & H3 & H4 & H5). rewrite dec_val_cons, Z.sub_diag, Z.mul_0_l, Z.add_0_l.
      rewrite blen_cons. split_and!; try done; lia.
    + cbn [snd]. pose proof (dec_val_bounds d Hd). rewrite dec_val_cons, blen_cons.
      assert (1 <= c - 48) by (unfold is_digit in Hc; lia).
      assert (0 < 10 ^ blen d) by (apply Z.pow_pos_nonneg; [lia | apply blen_nonneg]).
      split_and!; try done; try lia; [by constructor | split; [done | nia] |].
      intros _. replace (1 + blen d - 1) with (blen d) by lia. nia.
Qed.

Lemma exp_part_parse ep e :
  exp_part ep e ->
  match (match ep with [] => Some 0 | _ :: d => ParseInt10 d 32 end) with
  | Some v => v = e
  | None => e < - 2 ^ 31 \/ 2 ^ 31 <= e
  end.
Proof.
  assert (Hu : forall d max, d <> [] -> alldigits d ->
    ParseUint10 d max = if dec_val d <=? max then Some (dec_val d) else None).
  { intros d max Hd Ha. unfold ParseUint10. destruct d as [|c d]; [done|].
    replace (forallb is_digit (c :: d)) with true; [done|]. symmetry. apply forallb_forall.
    intros x Hx%list_elem_of_In. by eapply Forall_forall in Ha. }
  intros H. destruct H as [|c d Hc Hd Ha|c d Hc Hd Ha|c d Hc Hd Ha]; [done|..];
    unfold ParseInt10; change (2 ^ (32 - 1)) with (2 ^ 31).
  - destruct d as [|x d]; [done|]. pose proof Ha as [Hx _]%Forall_cons. unfold is_digit in Hx.
    replace (x =? 45) with false by lia. replace (x =? 43) with false by lia. rewrite Hu by done.
    clear Hx. destruct (_ <=? _) eqn:E; [reflexivity|]. bool_to_prop. lia.
  - cbn [Z.eqb Pos.eqb]. rewrite Hu by done. destruct (_ <=? _) eqn:E; [reflexivity|]. bool_to_prop. lia.
  - cbn [Z.eqb Pos.eqb]. rewrite Hu by done. destruct (_ <=? _) eqn:E; [reflexivity|]. bool_to_prop. lia.
Qed.

(** Scaled comparison of [m * 10 ^ k] with a power of ten, by the number of
    significant digits [r]. *)
Lemma decimal_window W S m r k :
  0 <= W -> 0 <= S -> 1 <= blen r -> 10 ^ (blen r - 1) <= m -> m < 10 ^ blen r ->
  (- k <= S /\ m * 10 ^ (k + S) < 10 ^ (W + S)) <-> (- k <= S /\ blen r + k <= W).
Proof.
  intros HW HS Hr Hlo Hup. split; intros [Hk H]; (split; [done|]).
  - apply Z.nlt_ge. intros Hc.
    assert (10 ^ (W + S) <= 10 ^ (blen r - 1) * 10 ^ (k + S)).
    { rewrite <- Z.pow_add_r by lia. apply Z.pow_le_mono_r; lia. }
    assert (0 < 10 ^ (k + S)) by (apply Z.pow_pos_nonneg; lia). nia.
  - apply Z.lt_le_trans with (10 ^ blen r * 10 ^ (k + S)).
    + apply Z.mul_lt_mono_pos_r; [|done]. apply Z.pow_pos_nonneg; lia.
    + rewrite <- Z.pow_add_r by lia. apply Z.pow_le_mono_r; lia.
Qed.

(** [representableNumber] in terms of the parts of the literal. *)
Lemma number_parts sg whole frac f ep e :
  sg = [] \/ sg = [45] -> whole <> [] -> alldigits whole -> alldigits f ->
  frac = 46 :: f \/ (frac = [] /\ f = []) -> exp_part ep e ->
  representableNumber (sg ++ whole ++ frac ++ ep) =
  match (match ep with [] => Some 0 | _ :: d => ParseInt10 d 32 end) with
  | None => false
  | Some v =>
      let mant := blen whole + blen frac in
      if (131072 + mant <? v) || (v <? -16383 - mant) then false
      else
        let leading := blen (whole ++ f) - blen (TrimLeft (whole ++ f) (fun c => c =? 48)) in
        ((if leading =? blen (whole ++ f) then 0 else blen whole + v - leading) <=? 131072) &&
        (blen f - v <=? 16383)
  end.
Proof.
  intros Hsg Hne Hw Hf Hfrac Hep. unfold representableNumber.
  assert (Ht : TrimPrefix (sg ++ whole ++ frac ++ ep) [45] = whole ++ frac ++ ep).
  { destruct Hsg as [-> | ->]; [|apply (TrimPrefix_app [45])]. cbn [app].
    destruct whole as [|c whole]; [done|]. apply Forall_cons in Hw as [Hc _]. unfold TrimPrefix.
    cbn [app HasPrefix]. unfold is_digit in Hc. by replace (45 =? c) with false by lia. }
  assert (Hno : forall g : Z -> bool, (forall c, is_digit c = true -> g c = false) ->
            forall d, alldigits d -> Forall (fun c => g c = false) d).
  { intros g Hg d Hd. eapply Forall_impl; [exact Hd|]. exact Hg. }
  rewrite Ht, app_assoc, break_at_stop.
  2:{ apply Forall_app_2; [apply Hno; [|done]; unfold is_digit, is_exp; lia|].
      destruct Hfrac as [-> | [-> _]]; [|by apply Forall_nil]. apply Forall_cons. split; [done|].
      apply Hno; [|done]. unfold is_digit, is_exp; lia. }
  2:{ by destruct Hep. }
  destruct (match ep with [] => _ | _ => _ end) as [v|]; [|done]. cbv zeta. rewrite blen_app.
  destruct (_ || _); [done|].
  rewrite break_at_stop;
    [|apply Hno; [|done]; unfold is_digit; lia | by destruct Hfrac as [-> | [-> _]]].
  assert (Hfilter : forall d, alldigits d -> List.filter (fun c => negb (c =? 46)) d = d).
  { intros d Hd. induction Hd as [|c d Hc _ IH]; [done|]. cbn. unfold is_digit in Hc.
    replace (c =? 46) with false by lia. cbn. by rewrite IH. }
  assert (Hd : List.filter (fun c => negb (c =? 46)) (whole ++ frac) = whole ++ f).
  { rewrite List.filter_app, (Hfilter whole Hw). f_equal.
    destruct Hfrac as [-> | [-> ->]]; [|done]. cbn. by apply Hfilter. }
  rewrite Hd. by destruct Hfrac as [-> | [-> ->]].
Qed.

(** The limits of PostgreSQL's numeric type. *)
Definition numeric_digits : Z := 131072.
Definition numeric_scale : Z := 16383.

(** For a nonzero number literal of a request, [representableNumber] says
    exactly whether PostgreSQL's numeric can hold it: at most 16383 digits
    after the point and fewer than 131073 before it.  (The literal denotes
    m * 10^k; both sides are scaled by 10^16383.) *)
Theorem representableNumber_exact n m k :
  decimal n m k -> m <> 0 -> blen n <= MaxRequestBytes ->
  representableNumber n = true <->
  - k <= numeric_scale /\ m * 10 ^ (k + numeric_scale) < 10 ^ (numeric_digits + numeric_scale).
Proof.
  intros H Hm Hl. destruct H as [sg whole frac f ep e Hsg Hne Hw Hf Hfrac Hep].
  pose proof (exp_part_parse ep e Hep) as Hparse.
  assert (Hlen : blen whole + blen f + blen ep <= MaxRequestBytes).
  { rewrite !blen_app in Hl. pose proof (blen_nonneg sg).
    destruct Hfrac as [-> | [-> ->]]; autorewrite with blen in *; lia. }
  rewrite (number_parts sg whole frac f ep e) by done.
  pose proof (leading_zeros (whole ++ f) (Forall_app_2 _ _ _ Hw Hf)) as Hz. cbv zeta in Hz.
  set (r := TrimLeft (whole ++ f) _) in *. set (D := dec_val (whole ++ f)) in *.
  destruct Hz as (HD & Hr & Hrl & Hnil & Hlow).
  assert (Hrne : r <> []) by tauto. specialize (Hlow Hrne).
  pose proof (dec_val_bounds r Hr) as [_ Hup]. rewrite <- HD in Hup. rewrite blen_app in Hrl.
  pose proof (blen_nonneg whole). pose proof (blen_nonneg f). pose proof (blen_nonneg frac).
  assert (Hfr : blen f <= blen frac <= blen f + 1)
    by (destruct Hfrac as [-> | [-> ->]]; autorewrite with blen; lia).
  assert (1 <= blen r) by (destruct r; [done|]; rewrite blen_cons; pose proof (blen_nonneg r); lia).
  assert (Hep0 : 0 <= blen ep) by apply blen_nonneg.
  unfold MaxRequestBytes in Hlen. change (Z.shiftl 1 20) with 1048576 in Hlen.
  clearbody D. destruct (match ep with [] => _ | _ => _ end) as [v|].
  - subst v. rewrite (decimal_window numeric_digits numeric_scale D r (e - blen f)) by done.
    unfold numeric_digits, numeric_scale. rewrite blen_app.
    replace (blen whole + blen f - blen r =? blen whole + blen f) with false by lia.
    destruct (_ || _) eqn:Eb; lia.
  - rewrite (decimal_window numeric_digits numeric_scale D r (e - blen f)) by done.
    unfold numeric_digits, numeric_scale. lia.
Qed.

(** ** Strings of an accepted payload *)

#[local] Ltac Zify.zify_post_hook ::= Z.to_euclidean_division_equations.

Definition good_text (s : bytes) : Prop := utf8 s /\ Forall (fun c => c <> 0) s.

Lemma good_text_cons c s : 0 < c < 128 -> good_text s -> good_text (c :: s).
Proof. intros Hc [Hu Hn]. split; [constructor; [lia|done] | constructor; [lia|done]]. Qed.

Lemma good_text_app a s : good_text a -> good_text s -> good_text (a ++ s).
Proof. intros [? ?] [? ?]. split; [by apply utf8_app | by apply Forall_app_2]. Qed.

(** A code point that is not a surrogate encodes to well-formed UTF-8. *)
Lemma utf8_enc_good u : 0 < u < 1114112 -> ~ 55296 <= u <= 57343 -> good_text (utf8_enc u).
Proof.
  intros Hu Hs. unfold utf8_enc.
  destruct (u <? 128) eqn:E1; [apply good_text_cons; [lia | split; constructor]|].
  destruct (u <? 2048) eqn:E2.
  { split; [apply utf8_2; [| |exact utf8_nil]|forall_lia]; unfold seq2, cont; lia. }
  destruct (u <? 65536) eqn:E3; bool_to_prop.
  { split; [apply utf8_3; [| |exact utf8_nil]|forall_lia]; unfold seq3, cont; lia. }
  split; [apply utf8_4; [| |exact utf8_nil]|forall_lia]; unfold seq4, cont; lia.
Qed.

Lemma hex_val_range h : is_hex h = true -> 0 <= hex_val h < 16.
Proof. unfold is_hex, hex_val, is_digit. intros H. repeat case_match; bool_to_prop; lia. Qed.

Lemma hex4_range h1 h2 h3 h4 :
  is_hex h1 && is_hex h2 && is_hex h3 && is_hex h4 = true -> 0 <= hex4 h1 h2 h3 h4 < 65536.
Proof.
  rewrite !andb_true_iff. intros [[[H1%hex_val_range H2%hex_val_range] H3%hex_val_range] H4%hex_val_range].
  unfold hex4. lia.
Qed.

Lemma escapes_ok_high a z : Forall (fun c => 128 <= c) a -> escapes_ok (a ++ z) = escapes_ok z.
Proof.
  induction 1 as [|c a Hc _ IH]; [done|]. cbn [app escapes_ok]. unfold BACKSLASH. by if_true.
Qed.

Lemma strbody_high a z : Forall (fun c => 128 <= c) a -> strbody (a ++ z) -> strbody z.
Proof.
  induction 1 as [|c a Hc _ IH]; [done|]. cbn [app]. intros H.
  inversion H; subst; unfold BACKSLASH in *; by (lia || apply IH).
Qed.

Lemma escape_val_good e : simple_escape e = true -> 0 < escape_val e < 128.
Proof. unfold simple_escape, escape_val. intros H. repeat case_match; bool_to_prop; lia. Qed.

(** An escaped code unit: alone, or the first half of a surrogate pair. *)
Lemma unquote_u_good r h1 h2 h3 h4 :
  is_hex h1 && is_hex h2 && is_hex h3 && is_hex h4 = true -> strbody r ->
  escapes_ok (BACKSLASH :: LOWER_U :: h1 :: h2 :: h3 :: h4 :: r) = true -> utf8 r ->
  (forall r', (length r' <= length r)%nat -> strbody r' -> VU r' -> good_text (unquote r')) ->
  good_text (unquote (BACKSLASH :: LOWER_U :: h1 :: h2 :: h3 :: h4 :: r)).
Proof.
  intros Hh Hr He Hu IH. pose proof (hex4_range _ _ _ _ Hh) as Hrange.
  cbn [escapes_ok unquote Z.eqb Pos.eqb BACKSLASH LOWER_U negb] in *. rewrite ParseUint16_hex4 in He by done.
  set (u := hex4 h1 h2 h3 h4) in *. clearbody u.
  destruct (u =? 0) eqn:E0; [done|]. destruct ((56320 <=? u) && (u <=? 57343)) eqn:El; [done|].
  destruct ((55296 <=? u) && (u <=? 56319)) eqn:Eh.
  2:{ replace (is_surrogate u) with false by (unfold is_surrogate; lia).
      apply good_text_app; [apply utf8_enc_good; lia | by apply IH]. }
  replace (is_surrogate u) with true by (unfold is_surrogate; lia).
  change (low_half r = true) in He. destruct Hr as [|e r Hs Hr|l1 l2 l3 l4 r Hl Hr|c r Hq Hb Hc Hr].
  - done.
  - rewrite low_half_miss in He; [done|]. right. unfold simple_escape, LOWER_U in *. lia.
  - cbn [low_half Z.eqb Pos.eqb BACKSLASH LOWER_U negb orb] in He. rewrite ParseUint16_hex4 in He by done.
    set (w := hex4 l1 l2 l3 l4) in *. clearbody w. destruct ((w <? 56320) || (57343 <? w)) eqn:Ew; [done|].
    replace (is_high u) with true by (unfold is_high; lia).
    replace (is_low w) with true by (unfold is_low; lia). cbn [Z.eqb Pos.eqb BACKSLASH LOWER_U andb].
    apply good_text_app; [apply utf8_enc_good; lia|]. apply IH; [cbn; lia|done|]. split; [|done].
    do 6 (apply (utf8_split []) in Hu as [_ Hu]; [|unfold BACKSLASH, LOWER_U, is_hex, is_digit in *; lia]).
    done.
  - apply Z.eqb_neq in Hb. destruct r as [|v r]; [done|]. by rewrite low_half_miss in He by (by left).
Qed.

(** The contents of a literal that passes the Unicode check decode to
    well-formed UTF-8 without NUL. *)
Lemma unquote_good r : strbody r -> VU r -> good_text (unquote r).
Proof.
  remember (length r) as n eqn:Hn. revert r Hn.
  induction (lt_wf n) as [n _ IH]; intros r -> Hr [Hu He].
  assert (IH' : forall r', (length r' < length r)%nat -> strbody r' -> VU r' -> good_text (unquote r'))
    by (intros r' Hl; by apply (IH (length r'))). clear IH.
  destruct Hr as [|e r Hs Hr|h1 h2 h3 h4 r Hh Hr|c r Hq Hb Hc Hr].
  - split; constructor.
  - cbn [escapes_ok unquote Z.eqb Pos.eqb BACKSLASH negb] in *.
    assert ((e =? LOWER_U) = false) as El by (unfold simple_escape, LOWER_U in *; lia). rewrite El in *.
    apply good_text_cons; [by apply escape_val_good|]. apply IH'; [cbn; lia|done|]. split; [|done].
    do 2 (apply (utf8_split []) in Hu as [_ Hu]; [|unfold BACKSLASH, simple_escape in *; lia]). done.
  - apply unquote_u_good; [done|done|done| |].
    + do 6 (apply (utf8_split []) in Hu as [_ Hu]; [|unfold BACKSLASH, LOWER_U, is_hex, is_digit in *; lia]).
      done.
    + intros r' Hl. apply IH'. cbn. lia.
  - cbn [unquote]. apply Z.eqb_neq in Hb as Hb'. rewrite Hb'.
    inversion Hu as [|? ? Hlt Hu'|? c1 r1 Hge Hs Hu'|? c1 c2 r1 Hge Hs Hu'|? c1 c2 c3 r1 Hge Hs Hu']; subst.
    + if_true. apply good_text_cons; [lia|]. apply IH'; [cbn; lia|done|]. split; [done|].
      cbn [escapes_ok] in He. by rewrite Hb' in He.
    + if_false. rewrite Hs. apply seq2_bounds in Hs as Hbd.
      apply (good_text_app [c; c1]); [split; [by apply utf8_2, utf8_nil | forall_lia]|].
      apply IH'; [cbn; lia | apply (strbody_high [c1]); [forall_lia|done] | split; [done|]].
      by rewrite <- (escapes_ok_high [c; c1] r1) by forall_lia.
    + if_false. rewrite (seq3_not2 _ _ _ _ Hs), Hs. apply seq3_bounds in Hs as Hbd.
      apply (good_text_app [c; c1; c2]); [split; [by apply utf8_3, utf8_nil | forall_lia]|].
      apply IH'; [cbn; lia | apply (strbody_high [c1; c2]); [forall_lia|done] | split; [done|]].
      by rewrite <- (escapes_ok_high [c; c1; c2] r1) by forall_lia.
    + if_false. rewrite (seq4_not2 _ _ _ _ _ Hs), (seq4_not3 _ _ _ _ _ _ Hs), Hs. apply seq4_bounds in Hs as Hbd.
      apply (good_text_app [c; c1; c2; c3]); [split; [by apply utf8_4, utf8_nil | forall_lia]|].
      apply IH'; [cbn; lia | apply (strbody_high [c1; c2; c3]); [forall_lia|done] | split; [done|]].
      by rewrite <- (escapes_ok_high [c; c1; c2; c3] r1) by forall_lia.
Qed.

Lemma wfj_literals d j : wfj d j -> Forall strbody (literals j).
Proof.
  revert d. induction j as [| | | |vs IH|ms IH] using json_nested_ind; intros d Hw; cbn [literals]; try by constructor.
  - destruct d as [|d]; [done|]. apply wfj_arr in Hw. apply Forall_concat. rewrite Forall_map.
    rewrite Forall_forall in *. intros v Hv. by eapply IH, Hw.
  - destruct d as [|d]; [done|]. apply wfj_obj in Hw. apply Forall_concat. rewrite Forall_map.
    rewrite Forall_forall in *. intros v Hv. destruct (Hw v Hv) as [Hk Hv']. constructor; [done|].
    by eapply IH.
Qed.

(** C21: [validJSONB] accepts a text exactly when it is one JSON document
    nested at most 64 deep, all of whose numbers are representable and all
    of whose strings and keys pass the Unicode check; every such string
    decodes to well-formed UTF-8 without NUL, which PostgreSQL requires of
    text in JSONB; and compacting the document does not change the answer. *)
Theorem validJSONB_exact raw :
  (validJSONB raw = true <->
   exists j, parse_doc raw = Some j /\ jdepth j <= MaxPayloadDepth /\
     Forall (fun n => representableNumber n = true) (numbers j) /\ Forall VU (literals j)) /\
  (validJSONB raw = true -> forall j, parse_doc raw = Some j ->
     Forall (fun r => validText (unquote r) = true) (literals j) /\ validJSONB (print j) = true).
Proof.
  rewrite validJSONB_spec. unfold jsonb_ok. split.
  - apply exist_proper. intros j. rewrite andb_true_iff, Z.leb_le, forallb_forall, Z.add_0_l.
    assert (Hf : Forall (fun n => representableNumber n = true) (numbers j) <->
                 forall x, In x (numbers j) -> representableNumber x = true).
    { rewrite Forall_forall. by setoid_rewrite list_elem_of_In. }
    rewrite Hf. tauto.
  - intros (j & Hj & Hl & Hok) j' Hj'. assert (j' = j) as -> by congruence. split.
    + apply parse_doc_text in Hj as (_ & _ & _ & _ & _ & Hw%wfj_literals).
      rewrite Forall_forall in *. intros r Hr.
      destruct (unquote_good r (Hw r Hr) (Hl r Hr)) as [Hu Hn].
      unfold validText. apply andb_true_iff. split; [by apply utf8_Valid_spec|].
      apply forallb_forall. intros c Hc%list_elem_of_In. eapply Forall_forall in Hn; [|exact Hc].
      by apply negb_true_iff, Z.eqb_neq.
    + apply validJSONB_spec. exists j. split; [by eapply parse_doc_idem|]. done.
Qed.

Lemma representableNumber_exact_witness :
  representableNumber (lit "-12.50e3") = true <->
  - (3 - 2) <= numeric_scale /\ 1250 * 10 ^ (3 - 2 + numeric_scale) < 10 ^ (numeric_digits + numeric_scale).
Proof.
  apply (representableNumber_exact (lit "-12.50e3") 1250 (3 - 2)).
  - apply (decimal_intro [45] (lit "12") (lit ".50") (lit "50") (lit "e3") 3);
      [by right|done|..]; [by repeat constructor|by repeat constructor|by left|].
    apply (ep_bare 101 (lit "3")); [done|done|by repeat constructor].
  - discriminate.
  - vm_compute. discriminate.
Defined.
