(* ===== verification/Runtime.v ===== *)
(** * Contexts, clocks and effects

    Go's [context] as an instant at which a context becomes done, and the
    monad in which the effectful code is written: a state and a possible
    divergence, for loops that run on fuel. *)
From S2P Require Import Prelude.

(** Durations and instants are in nanoseconds. *)
Definition Millisecond : Z := 1000000.
Definition Second : Z := 1000000000.

(** A context, by when it becomes done and with which error; [None] is a
    context that is never cancelled. *)
Record Context := mkContext { done_at : option (Z * error) }.

Definition Background : Context := mkContext None.

Definition ctx_Err (c : Context) (now : Z) : goerr :=
  match done_at c with
  | Some (t, e) => if t <=? now then Some e else None
  | None => None
  end.

(** [context.WithTimeout]: the earlier of the parent's end and the deadline. *)
Definition WithTimeout (parent : Context) (now d : Z) : Context :=
  match done_at parent with
  | Some (t, e) => if t <=? now + d then parent else mkContext (Some (now + d, context_DeadlineExceeded))
  | None => mkContext (Some (now + d, context_DeadlineExceeded))
  end.

Lemma WithTimeout_expires c now d t : now + d <= t -> exists e, ctx_Err (WithTimeout c now d) t = Some e.
Proof.
  intros H. unfold ctx_Err, WithTimeout. destruct (done_at c) as [[t' e]|] eqn:E; cbn [done_at].
  - destruct (t' <=? now + d) eqn:El.
    + rewrite E. bool_to_prop. exists e. by if_true.
    + cbn [done_at]. eexists. by if_true.
  - eexists. by if_true.
Qed.

(** A child is done whenever its parent is. *)
Lemma WithTimeout_parent c now d t : ctx_Err c t <> None -> ctx_Err (WithTimeout c now d) t <> None.
Proof.
  unfold ctx_Err, WithTimeout. destruct (done_at c) as [[t' e]|] eqn:E; [|done]. intros H.
  destruct (t' <=? now + d) eqn:El; cbn [done_at]; [by rewrite E|].
  destruct (t' <=? t) eqn:Et; [|done]. bool_to_prop. by if_true.
Qed.

Lemma ctx_Err_mono c t t' : t <= t' -> ctx_Err c t <> None -> ctx_Err c t' <> None.
Proof.
  unfold ctx_Err. destruct (done_at c) as [[d e]|]; [|done]. intros H.
  destruct (d <=? t) eqn:E; [|done]. bool_to_prop. by if_true.
Qed.

(** ** The effect monad *)

Definition M (S A : Type) : Type := S -> option (A * S).

Definition ret {S A} (a : A) : M S A := fun s => Some (a, s).
Definition bind {S A C} (m : M S A) (k : A -> M S C) : M S C :=
  fun s => match m s with Some (a, s') => k a s' | None => None end.
Definition diverge {S A} : M S A := fun _ => None.
Definition gets {S A} (f : S -> A) : M S A := fun s => Some (f s, s).
Definition modify {S} (f : S -> S) : M S unit := fun s => Some (tt, f s).

Notation "'let!' x := m 'in' k" := (bind m (fun x => k))
  (at level 10, x pattern, m at level 100, k at level 200) : go_scope.
Notation "m ;; k" := (bind m (fun _ => k)) (at level 100, right associativity) : go_scope.

Lemma bind_Some {S A C} (m : M S A) (k : A -> M S C) s c s' :
  bind m k s = Some (c, s') <-> exists a s1, m s = Some (a, s1) /\ k a s1 = Some (c, s').
Proof.
  unfold bind. destruct (m s) as [[a s1]|]; split.
  - eauto.
  - by intros (? & ? & [= <- <-] & ?).
  - done.
  - by intros (? & ? & ? & _).
Qed.

(** Partial correctness: what holds of the state before, and of the result
    and the state after. *)
Definition triple {S A} (P : S -> Prop) (m : M S A) (Q : A -> S -> Prop) : Prop :=
  forall s a s', P s -> m s = Some (a, s') -> Q a s'.

(** Total correctness of a fuelled computation: it does return. *)
Definition terminates {S A} (P : S -> Prop) (m : M S A) : Prop :=
  forall s, P s -> exists a s', m s = Some (a, s').

Lemma triple_ret {S A} (P : S -> Prop) (a : A) (Q : A -> S -> Prop) :
  (forall s, P s -> Q a s) -> triple P (ret a) Q.
Proof. intros H s a' s' HP [= <- <-]. by apply H. Qed.

Lemma triple_bind {S A C} (P : S -> Prop) (m : M S A) (k : A -> M S C) (R : A -> S -> Prop) Q :
  triple P m R -> (forall a, triple (R a) (k a) Q) -> triple P (bind m k) Q.
Proof. intros Hm Hk s c s' HP (a & s1 & H1 & H2)%bind_Some. eapply Hk; [|exact H2]. by eapply Hm. Qed.

Lemma triple_weaken {S A} (P P' : S -> Prop) (m : M S A) (Q Q' : A -> S -> Prop) :
  triple P' m Q' -> (forall s, P s -> P' s) -> (forall a s, Q' a s -> Q a s) -> triple P m Q.
Proof. intros H HP HQ s a s' Hs Hm. eapply HQ, H; [by apply HP | done]. Qed.

Lemma terminates_bind {S A C} (P : S -> Prop) (m : M S A) (k : A -> M S C) (R : A -> S -> Prop) :
  terminates P m -> triple P m R -> (forall a, terminates (R a) (k a)) -> terminates P (bind m k).
Proof.
  intros Ht Hm Hk s HP. destruct (Ht s HP) as (a & s1 & E). unfold bind. rewrite E.
  eapply Hk. by eapply Hm.
Qed.

#[export] Hint Resolve triple_ret : ingest.

(** ** The world outside

    Everything the program talks to shares one state; all that is known of
    it in general is that its clock never runs backwards. *)
Class World := {
  W : Type;
  now : W -> Z
}.

Definition forward `{World} {A} (f : W -> A * W) : Prop := forall w, now w <= now (snd (f w)).
