(* ===== verification/RuntimeInfo.v ===== *)
(** * Process limits: [internal/runtimeinfo]

    What [captureLimits] makes of the answers of the system, and the calls of
    the three platforms; [strings.Fields] is modelled here too. *)
From S2P Require Import Prelude GoBytes.

Record Limit := mkLimit { lim_Status : string; lim_Value : option Z }.

Record ProcessLimits := mkLimits {
  SoftFDLimit : Limit;
  HardFDLimit : Limit;
  OpenFDs : Limit;
  EphemeralFirst : Limit;
  EphemeralLast : Limit
}.

Definition unknown : Limit := mkLimit "unavailable" None.
Definition known (v : Z) : Limit := mkLimit "known" (Some v).
Definition unlimited : Limit := mkLimit "unlimited" None.

(** ** [strings.Fields]

    The number of bytes of the white-space rune a text starts with, 0 when
    it starts with another rune ([unicode.IsSpace]). *)
Definition space_len (s : bytes) : nat :=
  match s with
  | c :: r =>
      if ((9 <=? c) && (c <=? 13)) || (c =? 32) then 1%nat
      else match r with
           | c1 :: r1 =>
               if (c =? 194) && ((c1 =? 133) || (c1 =? 160)) then 2%nat
               else match r1 with
                    | c2 :: _ =>
                        if ((c =? 225) && (c1 =? 154) && (c2 =? 128)) ||
                           ((c =? 226) && (c1 =? 128) &&
                            (((128 <=? c2) && (c2 <=? 138)) || (c2 =? 168) || (c2 =? 169) || (c2 =? 175))) ||
                           ((c =? 226) && (c1 =? 129) && (c2 =? 159)) ||
                           ((c =? 227) && (c1 =? 128) && (c2 =? 128))
                        then 3%nat else 0%nat
                    | [] => 0%nat
                    end
           | [] => 0%nat
           end
  | [] => 0%nat
  end.

(** [cur] is the field being read, reversed; [skip] counts the bytes of a
    white-space rune still to drop. *)
Fixpoint fields_from (cur : bytes) (skip : nat) (s : bytes) : list bytes :=
  let close rest := match cur with [] => rest | _ => reverse cur :: rest end in
  match s with
  | [] => close []
  | c :: r =>
      match skip with
      | S k => fields_from [] k r
      | O =>
          match space_len s with
          | O => fields_from (c :: cur) O r
          | S k => close (fields_from [] k r)
          end
      end
  end.

Definition Fields (s : bytes) : list bytes := fields_from [] 0%nat s.

(** [captureLimits]: [get] returns the soft and hard limits and the platform's
    infinity, [fds] the number of open descriptors, [ports] the text of the
    ephemeral port range. *)
Definition captureLimits (get : res (Z * Z * Z)) (fds : res Z) (ports : res bytes) : ProcessLimits :=
  let lim v infinity := if v =? infinity then unlimited else known v in
  let '(soft, hard) :=
    match get with
    | Ok (s, h, infinity) => (lim s infinity, lim h infinity)
    | Err _ => (unknown, unknown)
    end in
  let open := match fds with
              | Ok count => if 0 <=? count then known count else unknown
              | Err _ => unknown
              end in
  let '(first, last) :=
    match ports with
    | Ok raw =>
        match Fields raw with
        | [p; q] =>
            match ParseUint10 p 65535, ParseUint10 q 65535 with
            | Some a, Some b => if (0 <? a) && (a <=? b) then (known a, known b) else (unknown, unknown)
            | _, _ => (unknown, unknown)
            end
        | _ => (unknown, unknown)
        end
    | Err _ => (unknown, unknown)
    end in
  mkLimits soft hard open first last.

(** ** The platforms

    [limits_linux.go], [limits_darwin.go], [limits_other.go], on what the
    system answers: the limits of RLIMIT_NOFILE, the entries of a directory,
    a file, and the output of [sysctl -n] for names. *)
Inductive platform := Linux | Darwin | OtherPlatform.

Record System := mkSystem {
  sys_Getrlimit : res (Z * Z);
  sys_ReadDir : bytes -> res (list bytes);
  sys_ReadFile : bytes -> res bytes;
  sys_sysctl : list bytes -> res bytes
}.

Definition rlimits (sys : System) (infinity : Z) : res (Z * Z * Z) :=
  let? (cur, max) := sys_Getrlimit sys in Ok (cur, max, infinity).

Definition count_entries (entries : res (list bytes)) : res Z := let? l := entries in Ok (Z.of_nat (length l)).

Definition nativeLimits_linux (sys : System) : res (Z * Z * Z) := rlimits sys (2 ^ 64 - 1).
Definition nativeFDs_linux (sys : System) : res Z := count_entries (sys_ReadDir sys (lit "/proc/self/fd")).
Definition nativePorts_linux (sys : System) : res bytes := sys_ReadFile sys (lit "/proc/sys/net/ipv4/ip_local_port_range").

Definition nativeLimits_darwin (sys : System) : res (Z * Z * Z) := rlimits sys (2 ^ 63 - 1).
Definition nativeFDs_darwin (sys : System) : res Z := count_entries (sys_ReadDir sys (lit "/dev/fd")).
Definition nativePorts_darwin (sys : System) : res bytes :=
  sys_sysctl sys [lit "net.inet.ip.portrange.first"; lit "net.inet.ip.portrange.last"].

Definition nativeLimits_other : res (Z * Z * Z) := Err (ENew "process limits unavailable on this platform").
Definition nativeFDs_other : res Z := Err (ENew "descriptor inventory unavailable on this platform").
Definition nativePorts_other : res bytes := Err (ENew "ephemeral-port range unavailable on this platform").

Definition CaptureProcessLimits (p : platform) (sys : System) : ProcessLimits :=
  match p with
  | Linux => captureLimits (nativeLimits_linux sys) (nativeFDs_linux sys) (nativePorts_linux sys)
  | Darwin => captureLimits (nativeLimits_darwin sys) (nativeFDs_darwin sys) (nativePorts_darwin sys)
  | OtherPlatform => captureLimits nativeLimits_other nativeFDs_other nativePorts_other
  end.

(** A Linux process with RLIM_INFINITY and the usual port range. *)
Example linux_limits :
  CaptureProcessLimits Linux (mkSystem (Ok (1024, 2 ^ 64 - 1)) (fun _ => Ok [lit "0"; lit "1"; lit "2"])
    (fun _ => Ok (lit "32768" ++ 9 :: lit "60999" ++ [10])) (fun _ => Err (ENew "no sysctl"))) =
  mkLimits (known 1024) unlimited (known 3) (known 32768) (known 60999).
Proof. vm_compute. reflexivity. Qed.

(** ** Well-formedness *)

Definition wf_limit (l : Limit) : Prop :=
  (lim_Status l = "known"%string /\ exists v, lim_Value l = Some v) \/
  ((lim_Status l = "unlimited"%string \/ lim_Status l = "unavailable"%string) /\ lim_Value l = None).

(** The port range of captured limits: both ends or neither, in order, and
    within 16 bits. *)
Definition port_range (r : ProcessLimits) (a c : Z) : Prop :=
  EphemeralFirst r = known a /\ EphemeralLast r = known c /\ 0 < a <= c /\ c <= 65535.

Lemma ParseUint10_le s max v : ParseUint10 s max = Some v -> v <= max.
Proof. unfold ParseUint10. intros. repeat case_match; simplify_eq. lia. Qed.

Lemma captureLimits_wf get fds ports :
  let r := captureLimits get fds ports in
  Forall wf_limit [SoftFDLimit r; HardFDLimit r; OpenFDs r; EphemeralFirst r; EphemeralLast r] /\
  ((EphemeralFirst r = unknown /\ EphemeralLast r = unknown) \/ exists a c, port_range r a c).
Proof.
  assert (Hk : forall v, wf_limit (known v)) by (intros v; left; eauto).
  assert (Hu : wf_limit unknown) by (right; eauto).
  assert (Hi : wf_limit unlimited) by (right; eauto).
  assert (Hl : forall v i, wf_limit (if v =? i then unlimited else known v)) by (intros; by case_match).
  cbv zeta. unfold captureLimits.
  set (p := match ports with Ok _ => _ | Err _ => _ end).
  assert (Hp : (p = (unknown, unknown)) \/ exists a c, p = (known a, known c) /\ 0 < a <= c /\ c <= 65535).
  { unfold p. repeat case_match; eauto. right. bool_to_prop.
    repeat match goal with H : ParseUint10 _ _ = Some _ |- _ => apply ParseUint10_le in H end.
    do 2 eexists. split; [done|]. lia. }
  clearbody p. destruct p as [first last].
  destruct get as [[[s h] inf]|]; destruct fds as [n|]; destruct Hp as [[= -> ->]|(a & c & [= -> ->] & H)];
    unfold port_range; cbn [SoftFDLimit HardFDLimit OpenFDs EphemeralFirst EphemeralLast];
    (split; [repeat (apply Forall_cons; split; [by eauto || (case_match; eauto)|]); by apply Forall_nil
            |by (left + (right; eauto 6))]).
Qed.
