(* ===== verification/Persistence.v ===== *)
(** * Storage: [internal/persistence]

    [EventStore.WriteBatch] builds one multi-row INSERT and hands it to the
    connection pool.  The pool and PostgreSQL are a parameter ([Database])
    with their documented behaviour as laws; [insert_rows] is the meaning of
    ON CONFLICT (tenant_id, event_id) DO NOTHING. *)
From S2P Require Import Prelude GoTime Event Runtime.

Inductive sqlarg :=
  | AText (s : bytes)
  | ATime (t : Time)
  | ABytes (s : bytes).

#[global] Instance sqlarg_eq_dec : EqDecision sqlarg.
Proof. solve_decision. Defined.

(** A table row is the tuple of parameters it was inserted with, keyed by
    tenant and the text of the event id. *)
Abbreviation Key := (bytes * bytes)%type.
Abbreviation Row := (list sqlarg).
Abbreviation Table := (gmap Key Row).

Definition row_key (r : Row) : option Key :=
  match r with
  | AText tenant :: AText id :: _ => Some (tenant, id)
  | _ => None
  end.

(** One row, and the count of rows affected so far. *)
Definition insert_row (st : Table * Z) (r : Row) : Table * Z :=
  let '(db, n) := st in
  match row_key r with
  | Some k => match db !! k with Some _ => (db, n) | None => (<[k := r]> db, n + 1) end
  | None => (db, n)
  end.

Definition insert_rows (db : Table) (rows : list Row) : Table * Z := fold_left insert_row rows (db, 0).

(** The VALUES list refers to the arguments by position, counted from 1. *)
Definition row_args (args : list sqlarg) (positions : list nat) : list sqlarg :=
  omap (fun n => args !! (Nat.pred n)) positions.

Record WriteResult := mkWriteResult { Inserted : Z; Duplicates : Z }.

(** What the pool promises: one statement is one transaction.  A reported
    success applied the statement and counts the rows it added; a reported
    failure left the table as it was or, when the connection broke after the
    commit, applied the statement as well. *)
Class Database {Wd : World} := {
  table : W -> Table;
  Exec : Context -> list (list nat) -> list sqlarg -> W -> res Z * W
}.

Class DatabaseLaws {Wd : World} (D : Database) := {
  Exec_forward ctx values args : forward (Exec ctx values args);
  Exec_ok ctx values args w n w' :
    Exec ctx values args w = (Ok n, w') ->
    insert_rows (table w) (map (row_args args) values) = (table w', n);
  Exec_err ctx values args w e w' :
    Exec ctx values args w = (Err e, w') ->
    table w' = table w \/ table w' = fst (insert_rows (table w) (map (row_args args) values))
}.

(** What the consumer relies on: a store whose batches are atomic and leave
    existing rows alone. *)
Class BatchStore {Wd : World} {U : UUIDLib} := {
  WriteBatch : Context -> list Envelope -> W -> res WriteResult * W;
  rows : W -> Table
}.

Section EventStore.
Context {U : UUIDLib}.

Definition event_args (e : Envelope) : list sqlarg :=
  let i := env_Input e in
  [ AText (TenantID e); AText (uuid_String (EventID i)); AText (EventType i);
    ATime (OccurredAt i); ATime (ReceivedAt e); ABytes (Payload i) ].

(** The loop that fills [values] and [args]; [i] is the index of the next
    event. *)
Fixpoint build (i : nat) (events : list Envelope) : list (list nat) * list sqlarg :=
  match events with
  | [] => ([], [])
  | e :: r =>
      let n := (i * 6)%nat in
      let '(values, args) := build (S i) r in
      ([n + 1; n + 2; n + 3; n + 4; n + 5; n + 6]%nat :: values, event_args e ++ args)
  end.

Definition EventStore_WriteBatch {Wd : World} {D : Database} (ctx : Context) (events : list Envelope) (w : W)
    : res WriteResult * W :=
  match events with
  | [] => (Ok (mkWriteResult 0 0), w)
  | _ =>
      let '(values, args) := build 0 events in
      match Exec ctx values args w with
      | (Err err, w') => (Err err, w')
      | (Ok affected, w') =>
          (Ok (mkWriteResult affected (Z.of_nat (length events) - affected)), w')
      end
  end.

(** ** The abstract store

    Inserting events in order, the first content of a key winning. *)
Definition event_key (e : Envelope) : Key := (TenantID e, uuid_String (EventID (env_Input e))).

Definition store_event (db : Table) (e : Envelope) : Table :=
  match db !! event_key e with Some _ => db | None => <[event_key e := event_args e]> db end.

Definition store_events (db : Table) (es : list Envelope) : Table := fold_left store_event es db.

Class BatchStoreLaws {Wd : World} (B : BatchStore) := {
  WriteBatch_forward ctx es : forward (WriteBatch ctx es);
  WriteBatch_ok ctx es w r w' :
    WriteBatch ctx es w = (Ok r, w') ->
    rows w' = store_events (rows w) es /\
    Inserted r = Z.of_nat (size (rows w')) - Z.of_nat (size (rows w)) /\
    Inserted r + Duplicates r = Z.of_nat (length es);
  WriteBatch_err ctx es w e w' :
    WriteBatch ctx es w = (Err e, w') ->
    rows w' = rows w \/ rows w' = store_events (rows w) es
}.

(** ** The table of stored events *)

Lemma store_event_lookup db e k :
  store_event db e !! k = match db !! k with
                          | Some r => Some r
                          | None => if decide (event_key e = k) then Some (event_args e) else None
                          end.
Proof.
  unfold store_event. destruct (db !! event_key e) as [r|] eqn:E.
  - destruct (db !! k) eqn:Ek; [done|]. rewrite decide_False; [done|]. intros <-. congruence.
  - destruct (decide (event_key e = k)) as [<-|Hne].
    + by rewrite lookup_insert_eq, E.
    + rewrite lookup_insert_ne by done. by destruct (db !! k).
Qed.

(** The row of a key: the old one, else that of the first event with the
    key. *)
Lemma store_events_lookup db es k :
  store_events db es !! k =
  match db !! k with
  | Some r => Some r
  | None => event_args <$> (snd <$> list_find (fun e => event_key e = k) es)
  end.
Proof.
  revert db. induction es as [|e es IH]; intros db.
  - cbn. by destruct (db !! k).
  - change (store_events db (e :: es)) with (store_events (store_event db e) es).
    rewrite IH, store_event_lookup. destruct (db !! k) as [r|]; [done|]. cbn [list_find].
    destruct (decide (event_key e = k)) as [Hk|Hk]; [done|].
    destruct (list_find _ es) as [[i x]|]; done.
Qed.

Lemma store_events_app db a c : store_events db (a ++ c) = store_events (store_events db a) c.
Proof. apply fold_left_app. Qed.

Lemma store_events_mono db es : db ⊆ store_events db es.
Proof. apply map_subseteq_spec. intros k r H. by rewrite store_events_lookup, H. Qed.

Lemma store_events_has db es e : e ∈ es -> is_Some (store_events db es !! event_key e).
Proof.
  intros He. rewrite store_events_lookup. destruct (db !! _); [by eexists|].
  destruct (list_find _ es) as [[i x]|] eqn:E; [by eexists|].
  apply list_find_None in E. by apply Forall_forall with (x := e) in E.
Qed.

(** Storing again what is there changes nothing. *)
Lemma store_events_stored db es :
  Forall (fun e => is_Some (db !! event_key e)) es -> store_events db es = db.
Proof.
  induction 1 as [|e es [r Hr] _ IH]; [done|]. cbn. unfold store_event at 2. by rewrite Hr.
Qed.

Lemma store_events_again db es es' :
  es' ⊆ es -> store_events (store_events db es) es' = store_events db es.
Proof.
  intros H. apply store_events_stored, Forall_forall. intros e He. by apply store_events_has, H.
Qed.
End EventStore.
