(* ===== verification/PersistenceProps.v ===== *)
(** * Properties of storage

    [EventStore] implements the store the consumer relies on. *)
From S2P Require Import Prelude GoTime Event Runtime Persistence Instances.

Section Store.
Context {U : UUIDLib}.

Lemma event_args_length e : length (event_args e) = 6%nat.
Proof. done. Qed.

Lemma row_args_cons l n ns x :
  l !! Nat.pred n = Some x -> row_args l (n :: ns) = x :: row_args l ns.
Proof. intros H. unfold row_args. cbn [omap list_omap]. by rewrite H. Qed.

(** Each row of the VALUES list takes its own event's arguments. *)
Lemma build_rows pre i es :
  length pre = (i * 6)%nat ->
  map (row_args (pre ++ snd (build i es))) (fst (build i es)) = map event_args es.
Proof.
  revert pre i. induction es as [|e es IH]; intros pre i Hp; [done|]. cbn [build].
  destruct (build (S i) es) as [values args] eqn:E. cbn [fst snd map]. f_equal.
  - assert (Hk : forall k x, event_args e !! k = Some x ->
      (pre ++ event_args e ++ args) !! Nat.pred (i * 6 + S k) = Some x).
    { intros k x Hx. rewrite Nat.add_succ_r, Nat.pred_succ, <- Hp, lookup_app_r by lia.
      replace (length pre + k - length pre)%nat with k by lia. by apply lookup_app_l_Some. }
    repeat (erewrite row_args_cons by (by apply Hk)). done.
  - specialize (IH (pre ++ event_args e) (S i)). rewrite E in IH. cbn [fst snd] in IH.
    rewrite <- IH; [by rewrite <- app_assoc | rewrite length_app, event_args_length; lia].
Qed.

Lemma insert_rows_events db n es :
  fold_left insert_row (map event_args es) (db, n) =
  (store_events db es, n + (Z.of_nat (size (store_events db es)) - Z.of_nat (size db))).
Proof.
  revert db n. induction es as [|e es IH]; intros db n.
  - cbn. f_equal. lia.
  - cbn [map fold_left]. change (store_events db (e :: es)) with (store_events (store_event db e) es).
    unfold insert_row at 2. change (row_key (event_args e)) with (Some (event_key e)). cbv beta match.
    unfold store_event. destruct (db !! event_key e) eqn:E; rewrite IH; [done|].
    f_equal. rewrite (map_size_insert_None _ _ _ E). lia.
Qed.

Lemma size_store_events db es :
  (size db <= size (store_events db es) <= size db + length es)%nat.
Proof.
  revert db. induction es as [|e es IH]; intros db; [cbn; lia|].
  change (store_events db (e :: es)) with (store_events (store_event db e) es).
  specialize (IH (store_event db e)). cbn [length]. unfold store_event in *.
  destruct (db !! event_key e) eqn:E; [lia|]. rewrite (map_size_insert_None _ _ _ E) in IH. lia.
Qed.

Context {Wd : World} {D : Database} {DL : DatabaseLaws D}.

#[global] Instance EventStore : BatchStore :=
  {| WriteBatch := EventStore_WriteBatch; rows := table |}.

#[global] Instance EventStoreLaws : BatchStoreLaws EventStore.
Proof.
  constructor.
  - intros ctx es w. cbn. unfold EventStore_WriteBatch. destruct es as [|e es]; [cbn; lia|].
    destruct (build 0 (e :: es)) as [values args].
    pose proof (Exec_forward ctx values args w) as Hf. destruct (Exec _ _ _ w) as [[n|er] w']; exact Hf.
  - intros ctx es w r w'. cbn. unfold EventStore_WriteBatch. destruct es as [|e es].
    { intros [= <- <-]. cbn. split; [done|]. lia. }
    pose proof (build_rows [] 0 (e :: es) eq_refl) as Hb. destruct (build 0 (e :: es)) as [values args].
    destruct (Exec _ _ _ w) as [[n|er] w1] eqn:Ex; [|done]. intros [= <- <-]. cbn [Inserted Duplicates].
    apply Exec_ok in Ex. cbn [fst snd app] in Hb. rewrite Hb in Ex. unfold insert_rows in Ex.
    rewrite insert_rows_events in Ex. injection Ex as Ht Hn. rewrite <- Ht.
    split; [done|]. cbn [length]. lia.
  - intros ctx es w er w'. cbn. unfold EventStore_WriteBatch. destruct es as [|e es]; [done|].
    pose proof (build_rows [] 0 (e :: es) eq_refl) as Hb. destruct (build 0 (e :: es)) as [values args].
    destruct (Exec _ _ _ w) as [[n|er'] w1] eqn:Ex; [done|]. intros [= <- <-].
    apply Exec_err in Ex. cbn [fst snd app] in Hb. rewrite Hb in Ex. unfold insert_rows in Ex.
    rewrite insert_rows_events in Ex. exact Ex.
Qed.

(** C13: a batch is written atomically.  On success every event of the batch
    has a row under its tenant and id, rows that were there keep their
    content, a key new to the table gets the first event of the batch with
    it, and the counts add up; on failure the table is as before or as
    after the whole batch. *)
Theorem WriteBatch_atomic ctx es w :
  match WriteBatch ctx es w with
  | (Ok r, w') =>
      (forall k, table w' !! k =
         match table w !! k with
         | Some row => Some row
         | None => event_args <$> (snd <$> list_find (fun e => event_key e = k) es)
         end) /\
      Forall (fun e => is_Some (table w' !! event_key e)) es /\
      0 <= Inserted r /\ 0 <= Duplicates r /\ Inserted r + Duplicates r = Z.of_nat (length es)
  | (Err _, w') => table w' = table w \/ table w' = store_events (table w) es
  end.
Proof.
  destruct (WriteBatch ctx es w) as [[r|e] w'] eqn:E.
  - apply (WriteBatch_ok (B := EventStore)) in E as (Ht & Hi & Hd). cbn [rows EventStore] in *.
    pose proof (size_store_events (table w) es) as Hs. rewrite <- Ht in Hs.
    split; [|split; [|lia]].
    + intros k. rewrite Ht. apply store_events_lookup.
    + rewrite Ht. apply Forall_forall. intros e He. by apply store_events_has.
  - by apply (WriteBatch_err (B := EventStore)) in E.
Qed.

(** A sequence of failed attempts of one batch; other work may run between
    them but leaves the table alone. *)
Fixpoint failed_attempts (es : list Envelope) (w0 : W) (l : list (Context * W * error * W)) (w : W) : Prop :=
  match l with
  | [] => table w = table w0
  | (ctx, a, err, c) :: l' =>
      table a = table w0 /\ WriteBatch ctx es a = (Err err, c) /\ failed_attempts es c l' w
  end.

(** Retries are idempotent.  However many attempts of the same batch
    failed, and whether or not each had taken effect, the table after the
    attempt that succeeds is the table one success would have left. *)
Theorem WriteBatch_retry_idempotent es attempts ctx w0 w r w' :
  failed_attempts es w0 attempts w -> WriteBatch ctx es w = (Ok r, w') ->
  table w' = store_events (table w0) es.
Proof.
  intros Hc Hw. apply (WriteBatch_ok (B := EventStore)) in Hw as (Ht & _). cbn [rows EventStore] in Ht.
  rewrite Ht. clear Ht. revert w0 Hc.
  induction attempts as [|[[[c a] e] b] l IH]; intros w0 Hc; [by rewrite Hc|].
  destruct Hc as (Ha & He & Hl). apply IH in Hl. rewrite Hl.
  apply (WriteBatch_err (B := EventStore)) in He. cbn [rows EventStore] in He.
  destruct He as [-> | ->]; rewrite Ha; [done|]. by apply store_events_again.
Qed.
End Store.
