(* ===== verification/Telemetry.v ===== *)
(** * Measurements: [internal/telemetry]

    The program's own part of its metrics: which series an observation
    touches and with which labels.  A counter vector is a map from label
    values to a count, a histogram the list of its observations (durations in
    nanoseconds, sizes as integers); exposition is Prometheus's. *)
From S2P Require Import Prelude GoTime RuntimeInfo Persistence.

Abbreviation CounterVec := (gmap (list string) Z).
Abbreviation HistogramVec := (gmap (list string) (list Z)).

(** ** pool.go: the state of the runtime collector *)

(** The statistics of the pool (pgxpool) and of the producer's buffer
    (franz-go) at the moment of collection. *)
Record PoolStat := mkPoolStat {
  MaxConns : Z; AcquiredConns : Z; IdleConns : Z; TotalConns : Z; EmptyAcquireCount : Z;
  EmptyAcquireWaitTime : Z; CanceledAcquireCount : Z; AcquireDuration : Z
}.
Record BufferStat := mkBufferStat { BufferedProduceRecords : Z; BufferedProduceBytes : Z }.

Record runtimeMetrics := mkRuntime {
  pool : option PoolStat;
  producer : option BufferStat;
  maxRecords : Z; maxBytes : Z; apiLimit : Z
}.

Definition newRuntimeMetrics : runtimeMetrics := mkRuntime None None 0 0 0.

(** ** The registry *)

Record Metrics := mkMetrics {
  runtime : runtimeMetrics;
  publishFailures : CounterVec;
  http : CounterVec;
  httpTime : HistogramVec;
  publish : HistogramVec;
  stored : Z;
  duplicates : Z;
  retries : Z;
  writes : list Z;
  receipts : list Z;
  batches : list Z;
  quarantined : CounterVec
}.

Definition newMetrics : Metrics := mkMetrics newRuntimeMetrics ∅ ∅ ∅ ∅ 0 0 0 [] [] [] ∅.

(** [WithLabelValues(labels).Inc()] and [.Observe(v)]. *)
Definition Inc (labels : list string) (c : CounterVec) : CounterVec :=
  <[labels := default 0 (c !! labels) + 1]> c.
Definition Observe (labels : list string) (v : Z) (h : HistogramVec) : HistogramVec :=
  <[labels := default [] (h !! labels) ++ [v]]> h.

(** ** metrics.go *)

Definition route_names : list string := ["single"; "batch"; "health"; "ready"; "metrics"]%string.
Definition route (s : string) : string := if decide (s ∈ route_names) then s else "other"%string.

Definition outcome_names : list string := ["success"; "error"; "saturated"; "timeout"]%string.
Definition outcome (s : string) : string := if decide (s ∈ outcome_names) then s else "error"%string.

Definition status_names : list string :=
  ["200"; "202"; "400"; "401"; "404"; "413"; "429"; "500"; "503"]%string.

Definition ObserveHTTP (m : Metrics) (r s : string) (d : Z) : Metrics :=
  let s := if decide (s ∈ status_names) then s else "other"%string in
  mkMetrics (runtime m) (publishFailures m) (Inc [route r; s] (http m)) (Observe [route r] d (httpTime m)) (publish m)
    (stored m) (duplicates m) (retries m) (writes m) (receipts m) (batches m) (quarantined m).

Definition ObservePublish (m : Metrics) (o : string) (d : Z) : Metrics :=
  mkMetrics (runtime m) (publishFailures m) (http m) (httpTime m) (Observe [outcome o] d (publish m))
    (stored m) (duplicates m) (retries m) (writes m) (receipts m) (batches m) (quarantined m).

(** [now] is the clock at the call; a receipt time in its future counts as
    zero. *)
Definition ObserveWrite (m : Metrics) (r : WriteResult) (received : list Time) (d now : Z) : Metrics :=
  mkMetrics (runtime m) (publishFailures m) (http m) (httpTime m) (publish m)
    (stored m + Inserted r) (duplicates m + Duplicates r) (retries m) (writes m ++ [d])
    (receipts m ++ map (fun at_ => let elapsed := now - UnixNano at_ in
                                   if elapsed <? 0 then 0 else elapsed) received)
    (batches m ++ [Inserted r + Duplicates r]) (quarantined m).

Definition ObserveRetry (m : Metrics) : Metrics :=
  mkMetrics (runtime m) (publishFailures m) (http m) (httpTime m) (publish m)
    (stored m) (duplicates m) (retries m + 1) (writes m) (receipts m) (batches m) (quarantined m).

Definition ObserveQuarantine (m : Metrics) (o : string) : Metrics :=
  mkMetrics (runtime m) (publishFailures m) (http m) (httpTime m) (publish m)
    (stored m) (duplicates m) (retries m) (writes m) (receipts m) (batches m) (Inc [outcome o] (quarantined m)).

(** ** pool.go *)

Definition failure_names : list string := ["buffer_saturated"; "timeout"; "broker_error"]%string.

Definition ObservePublishFailure (m : Metrics) (reason : string) : Metrics :=
  let reason := if decide (reason ∈ failure_names) then reason else "broker_error"%string in
  mkMetrics (runtime m) (Inc [reason] (publishFailures m)) (http m) (httpTime m) (publish m)
    (stored m) (duplicates m) (retries m) (writes m) (receipts m) (batches m) (quarantined m).

Definition set_runtime (r : runtimeMetrics) (m : Metrics) : Metrics :=
  mkMetrics r (publishFailures m) (http m) (httpTime m) (publish m)
    (stored m) (duplicates m) (retries m) (writes m) (receipts m) (batches m) (quarantined m).

Definition RegisterPool (m : Metrics) (p : PoolStat) : Metrics :=
  let r := runtime m in set_runtime (mkRuntime (Some p) (producer r) (maxRecords r) (maxBytes r) (apiLimit r)) m.
Definition RegisterProducer (m : Metrics) (p : BufferStat) (records bytes : Z) : Metrics :=
  let r := runtime m in set_runtime (mkRuntime (pool r) (Some p) records bytes (apiLimit r)) m.
Definition SetAPIConnectionLimit (m : Metrics) (limit : Z) : Metrics :=
  let r := runtime m in set_runtime (mkRuntime (pool r) (producer r) (maxRecords r) (maxBytes r) limit) m.

(** The names [newRuntimeMetrics] describes. *)
Definition described : list string :=
  ["db_pool_available"; "db_pool_max_conns"; "db_pool_acquired_conns"; "db_pool_idle_conns";
   "db_pool_total_conns"; "db_pool_empty_acquires_total"; "db_pool_empty_acquire_wait_seconds_total";
   "db_pool_cancelled_acquires_total"; "db_pool_acquire_seconds_total"; "producer_buffer_available";
   "producer_max_buffered_records"; "producer_max_buffered_bytes"; "producer_buffered_records";
   "producer_buffered_bytes"; "api_connection_limit"; "process_fd_soft_limit"; "process_fd_hard_limit";
   "process_open_fds"; "process_ephemeral_port_first"; "process_ephemeral_port_last"]%string.

Inductive value := VNum (n : Z) | VSeconds (ns : Z) | VInf.

(** A sample of a described metric, or of the availability gauge with its
    resource label. *)
Inductive sample :=
  | Gauge (name : string) (v : value)
  | Counter (name : string) (v : value)
  | Available (resource : string) (n : Z).

Definition limit_samples (name : string) (l : Limit) : list sample :=
  match lim_Value l with
  | Some v =>
      if decide (lim_Status l = "known"%string) then [Available name 1; Gauge name (VNum v)]
      else if decide (lim_Status l = "unlimited"%string) then [Available name 1; Gauge name VInf]
      else [Available name 0]
  | None =>
      if decide (lim_Status l = "unlimited"%string) then [Available name 1; Gauge name VInf]
      else [Available name 0]
  end.

(** [Collect], the limits as [capture] reports them.  The code ranges over a
    map, so the order of the limit samples is not specified. *)
Definition Collect (r : runtimeMetrics) (limits : ProcessLimits) : list sample :=
  (match pool r with
   | None => [Gauge "db_pool_available" (VNum 0)]
   | Some s =>
       [ Gauge "db_pool_available" (VNum 1);
         Gauge "db_pool_max_conns" (VNum (MaxConns s));
         Gauge "db_pool_acquired_conns" (VNum (AcquiredConns s));
         Gauge "db_pool_idle_conns" (VNum (IdleConns s));
         Gauge "db_pool_total_conns" (VNum (TotalConns s));
         Counter "db_pool_empty_acquires_total" (VNum (EmptyAcquireCount s));
         Counter "db_pool_empty_acquire_wait_seconds_total" (VSeconds (EmptyAcquireWaitTime s));
         Counter "db_pool_cancelled_acquires_total" (VNum (CanceledAcquireCount s));
         Counter "db_pool_acquire_seconds_total" (VSeconds (AcquireDuration s)) ]
   end) ++
  (match producer r with
   | None => [Gauge "producer_buffer_available" (VNum 0)]
   | Some p =>
       [ Gauge "producer_buffer_available" (VNum 1);
         Gauge "producer_max_buffered_records" (VNum (maxRecords r));
         Gauge "producer_max_buffered_bytes" (VNum (maxBytes r));
         Gauge "producer_buffered_records" (VNum (BufferedProduceRecords p));
         Gauge "producer_buffered_bytes" (VNum (BufferedProduceBytes p)) ]
   end) ++
  (if 0 <? apiLimit r then [Gauge "api_connection_limit" (VNum (apiLimit r))] else []) ++
  limit_samples "process_fd_soft_limit" (SoftFDLimit limits) ++
  limit_samples "process_fd_hard_limit" (HardFDLimit limits) ++
  limit_samples "process_open_fds" (OpenFDs limits) ++
  limit_samples "process_ephemeral_port_first" (EphemeralFirst limits) ++
  limit_samples "process_ephemeral_port_last" (EphemeralLast limits).

(** ** The series of a scrape

    A metric's name and its labels, of everything the registry gathers: the
    vectors of [New] with the label names they are made with, the counters and
    histograms without labels, and what the runtime collector emits. *)
Definition series : Type := string * list (string * string).

Definition vector_series {A} (name : string) (labels : list string) (v : gmap (list string) A) : list series :=
  map (fun kv => (name, zip labels (fst kv))) (map_to_list v).

Definition sample_series (x : sample) : series :=
  match x with
  | Gauge name _ | Counter name _ => (String.append "ingestkit_" name, [])
  | Available resource _ => ("ingestkit_process_limit_available"%string, [("resource"%string, resource)])
  end.

Definition plain_names : list string :=
  ["ingestkit_stored_total"; "ingestkit_duplicates_total"; "ingestkit_retries_total"; "ingestkit_storage_seconds";
   "ingestkit_receipt_to_storage_seconds"; "ingestkit_batch_events"]%string.

Definition gather (m : Metrics) (limits : ProcessLimits) : list series :=
  map sample_series (Collect (runtime m) limits) ++
  vector_series "ingestkit_publish_failures_total" ["reason"%string] (publishFailures m) ++
  vector_series "ingestkit_http_total" ["route"; "status"]%string (http m) ++
  vector_series "ingestkit_http_seconds" ["route"%string] (httpTime m) ++
  vector_series "ingestkit_publish_seconds" ["outcome"%string] (publish m) ++
  map (fun n => (n, [])) plain_names ++
  vector_series "ingestkit_quarantine_total" ["outcome"%string] (quarantined m).

(** ** Low cardinality

    Every series is one of a fixed list: its name, and for each label the
    values it may have. *)
Definition limit_names : list string :=
  ["process_fd_soft_limit"; "process_fd_hard_limit"; "process_open_fds"; "process_ephemeral_port_first";
   "process_ephemeral_port_last"]%string.

Definition catalogue : list (string * list (string * list string)) :=
  map (fun n => (String.append "ingestkit_" n, [])) described ++
  [ ("ingestkit_process_limit_available", [("resource", limit_names)]);
    ("ingestkit_publish_failures_total", [("reason", failure_names)]);
    ("ingestkit_http_total", [("route", "other" :: route_names); ("status", "other" :: status_names)]);
    ("ingestkit_http_seconds", [("route", "other" :: route_names)]);
    ("ingestkit_publish_seconds", [("outcome", outcome_names)]);
    ("ingestkit_quarantine_total", [("outcome", outcome_names)]) ]%string ++
  map (fun n => (n, [])) plain_names.

Definition listed (x : series) : Prop := exists entry, entry ∈ catalogue /\ fst entry = fst x /\
  Forall2 (fun lv e => fst lv = fst e /\ snd lv ∈ snd e) (snd x) (snd entry).

Definition labels_in {A} (allowed : list (list string)) (m : gmap (list string) A) : Prop :=
  forall k, is_Some (m !! k) -> Forall2 (fun v l => v ∈ l) k allowed.

Definition bounded_labels (m : Metrics) : Prop :=
  labels_in [failure_names] (publishFailures m) /\
  labels_in ["other"%string :: route_names; "other"%string :: status_names] (http m) /\
  labels_in ["other"%string :: route_names] (httpTime m) /\
  labels_in [outcome_names] (publish m) /\
  labels_in [outcome_names] (quarantined m).

Lemma labels_in_insert {A} allowed k (v : A) m :
  Forall2 (fun v l => v ∈ l) k allowed -> labels_in allowed m -> labels_in allowed (<[k := v]> m).
Proof.
  intros Hk Hm k' Hs. destruct (decide (k = k')) as [<-|Hn]; [done|].
  rewrite lookup_insert_ne in Hs by done. by apply Hm.
Qed.

Lemma pick_in (s : string) l d : (if decide (s ∈ l) then s else d) ∈ d :: l.
Proof. destruct (decide (s ∈ l)); set_solver. Qed.

Lemma outcome_in s : outcome s ∈ outcome_names.
Proof. unfold outcome. destruct (decide _); [done|]. unfold outcome_names. set_solver. Qed.

Lemma failure_in s : (if decide (s ∈ failure_names) then s else "broker_error"%string) ∈ failure_names.
Proof. destruct (decide _); [done|]. unfold failure_names. set_solver. Qed.

(** One observation or registration of any kind. *)
Inductive observation (m : Metrics) : Metrics -> Prop :=
  | ob_http r s d : observation m (ObserveHTTP m r s d)
  | ob_publish o d : observation m (ObservePublish m o d)
  | ob_write r received d now : observation m (ObserveWrite m r received d now)
  | ob_retry : observation m (ObserveRetry m)
  | ob_quarantine o : observation m (ObserveQuarantine m o)
  | ob_failure reason : observation m (ObservePublishFailure m reason)
  | ob_pool p : observation m (RegisterPool m p)
  | ob_producer p records bytes : observation m (RegisterProducer m p records bytes)
  | ob_limit limit : observation m (SetAPIConnectionLimit m limit).

Lemma observation_bounded m m' : observation m m' -> bounded_labels m -> bounded_labels m'.
Proof.
  intros H (H1 & H2 & H3 & H4 & H5). destruct H; unfold bounded_labels; cbn; split_and!; try done;
    apply labels_in_insert; try done;
    repeat (constructor; [first [apply pick_in | apply outcome_in | apply failure_in]|]); constructor.
Qed.

Lemma new_bounded : bounded_labels newMetrics.
Proof. unfold bounded_labels, labels_in. cbn. split_and!; intros k [v Hv]; by rewrite lookup_empty in Hv. Qed.

Definition sample_ok (x : sample) : Prop :=
  match x with Gauge n _ | Counter n _ => n ∈ described | Available n _ => n ∈ limit_names end.

Lemma limit_names_described name : name ∈ limit_names -> name ∈ described.
Proof. unfold limit_names, described. set_solver. Qed.

Lemma limit_samples_ok name l : name ∈ limit_names -> Forall sample_ok (limit_samples name l).
Proof.
  intros H. pose proof (limit_names_described name H). unfold limit_samples.
  repeat case_match; repeat (apply Forall_cons; split; [done|]); by apply Forall_nil.
Qed.

(** A collection emits only metrics that were described, so no sample is
    built from a missing descriptor, whatever has been registered and
    whatever the platform reports. *)
Lemma Collect_described r limits : Forall sample_ok (Collect r limits).
Proof.
  assert (Hd : forall n, bool_decide (n ∈ described) = true -> n ∈ described) by (intros n; apply bool_decide_eq_true).
  assert (Hl : forall n, bool_decide (n ∈ limit_names) = true -> n ∈ limit_names) by (intros n; apply bool_decide_eq_true).
  unfold Collect. repeat apply Forall_app_2; try (apply limit_samples_ok, Hl; reflexivity).
  - destruct (pool r); repeat (apply Forall_cons; split; [apply Hd; reflexivity|]); by apply Forall_nil.
  - destruct (producer r); repeat (apply Forall_cons; split; [apply Hd; reflexivity|]); by apply Forall_nil.
  - destruct (0 <? apiLimit r); repeat (apply Forall_cons; split; [apply Hd; reflexivity|]); by apply Forall_nil.
Qed.

Lemma sample_listed x : sample_ok x -> listed (sample_series x).
Proof.
  destruct x as [n v|n v|n v]; intros H; cbn [sample_series].
  1,2: exists (String.append "ingestkit_" n, []); split; [|by split; [|constructor]];
    apply elem_of_app; left; apply list_elem_of_fmap; by exists n.
  eexists. split; [apply elem_of_app; right; apply elem_of_app; left; left|]. split; [done|]. constructor; [split; [done|exact H]|constructor].
Qed.

Lemma in_catalogue entry : bool_decide (entry ∈ catalogue) = true -> entry ∈ catalogue.
Proof. apply bool_decide_eq_true. Qed.

(** The series of a vector whose labels are bounded. *)
Lemma vector_listed {A} (name : string) (labels : list string) (allowed : list (list string)) (v : gmap (list string) A) :
  (name, zip labels allowed) ∈ catalogue -> length labels = length allowed -> labels_in allowed v -> Forall listed (vector_series name labels v).
Proof.
  intros Hc Hlen Hv. apply Forall_forall. intros x ([k a] & -> & Hk)%list_elem_of_fmap. apply elem_of_map_to_list in Hk.
  specialize (Hv k (ex_intro _ _ Hk)). exists (name, zip labels allowed). split; [done|]. split; [done|]. cbn [fst snd]. clear -Hv Hlen.
  revert labels Hlen. induction Hv as [|x l k al Hx _ IH]; intros [|n labels] Hlen; try done; cbn; constructor; [done|]. apply IH. by injection Hlen.
Qed.

(** C24: metrics have low cardinality.  From a new registry, whatever is
    observed or registered with whatever arguments, every series that a
    scrape gathers, the runtime collector's included and whatever the
    platform reports of its limits, is in a fixed catalogue: its name, its
    labels, and each label's value. *)
Theorem metrics_low_cardinality m limits : rtc observation newMetrics m -> Forall listed (gather m limits).
Proof.
  intros H. assert (Hb : bounded_labels m).
  { pose proof new_bounded as Hn. revert Hn. induction H as [|a b c Hab _ IH]; [done|]. intros Ha. apply IH. by eapply observation_bounded. }
  destruct Hb as (H1 & H2 & H3 & H4 & H5). unfold gather. repeat apply Forall_app_2.
  - rewrite Forall_map. eapply Forall_impl; [apply Collect_described|]. exact sample_listed.
  - eapply (vector_listed _ _ [failure_names]); [|done|exact H1]. by apply in_catalogue.
  - eapply (vector_listed _ _ ["other"%string :: route_names; "other"%string :: status_names]); [|done|exact H2]. by apply in_catalogue.
  - eapply (vector_listed _ _ ["other"%string :: route_names]); [|done|exact H3]. by apply in_catalogue.
  - eapply (vector_listed _ _ [outcome_names]); [|done|exact H4]. by apply in_catalogue.
  - rewrite Forall_map. apply Forall_forall. intros n Hn. exists (n, []). split; [|by split; [|constructor]].
    do 2 (apply elem_of_app; right). apply list_elem_of_fmap. by exists n.
  - eapply (vector_listed _ _ [outcome_names]); [|done|exact H5]. by apply in_catalogue.
Qed.

Definition no_limit : Limit := mkLimit "unlimited" None.
Lemma metrics_low_cardinality_witness :
  Forall listed (gather (SetAPIConnectionLimit (ObserveHTTP newMetrics "POST /v1/secret" "418" 5) 7) (mkLimits no_limit no_limit no_limit no_limit no_limit)).
Proof. apply metrics_low_cardinality. eapply rtc_l; [apply ob_http|]. eapply rtc_l; [apply ob_limit|apply rtc_refl]. Defined.
