(* ===== verification/GoEncode.v ===== *)
(** * More of Go's encoders

    [strconv.Itoa], [encoding/base64] (standard alphabet, padded), string
    literals with HTML escaping and maps of strings with sorted keys, as
    [json.Marshal] writes them. *)
From S2P Require Import Prelude GoBytes GoJson.

(** ** strconv.FormatInt, base 10 *)

Fixpoint itoa_digits (fuel : nat) (n : Z) (acc : bytes) : bytes :=
  match fuel with
  | O => acc
  | S f => let acc := (48 + n mod 10) :: acc in
           if n / 10 =? 0 then acc else itoa_digits f (n / 10) acc
  end.

(** Twenty digits are enough for 64 bits. *)
Definition itoa (n : Z) : bytes :=
  if n <? 0 then 45 :: itoa_digits 20 (- n) [] else itoa_digits 20 n [].

(** ** encoding/base64 *)

Definition b64_char (v : Z) : Z :=
  if v <? 26 then 65 + v
  else if v <? 52 then 97 + (v - 26)
  else if v <? 62 then 48 + (v - 52)
  else if v =? 62 then 43 else 47.

Definition b64_val (c : Z) : option Z :=
  if (65 <=? c) && (c <=? 90) then Some (c - 65)
  else if (97 <=? c) && (c <=? 122) then Some (c - 97 + 26)
  else if (48 <=? c) && (c <=? 57) then Some (c - 48 + 52)
  else if c =? 43 then Some 62 else if c =? 47 then Some 63 else None.

Fixpoint b64_encode (s : bytes) : bytes :=
  match s with
  | a :: b :: c :: r =>
      b64_char (a / 4) :: b64_char (a mod 4 * 16 + b / 16) :: b64_char (b mod 16 * 4 + c / 64) ::
      b64_char (c mod 64) :: b64_encode r
  | [a; b] => [b64_char (a / 4); b64_char (a mod 4 * 16 + b / 16); b64_char (b mod 16 * 4); 61]
  | [a] => [b64_char (a / 4); b64_char (a mod 4 * 16); 61; 61]
  | [] => []
  end.

Fixpoint b64_decode (s : bytes) : option bytes :=
  match s with
  | [] => Some []
  | w :: x :: y :: z :: r =>
      match b64_val w, b64_val x with
      | Some p, Some q =>
          let a := p * 4 + q / 16 in
          match b64_val y with
          | None => if (y =? 61) && (z =? 61) && bool_decide (r = []) then Some [a] else None
          | Some u =>
              let b := q mod 16 * 16 + u / 4 in
              match b64_val z with
              | None => if (z =? 61) && bool_decide (r = []) then Some [a; b] else None
              | Some v =>
                  match b64_decode r with
                  | Some t => Some (a :: b :: (u mod 4 * 64 + v) :: t)
                  | None => None
                  end
              end
          end
      | _, _ => None
      end
  | _ => None
  end.

#[local] Ltac Zify.zify_post_hook ::= Z.to_euclidean_division_equations.

Lemma b64_val_char v : 0 <= v < 64 -> b64_val (b64_char v) = Some v.
Proof.
  intros H. unfold b64_char. repeat case_match; bool_to_prop; unfold b64_val;
    repeat match goal with |- context [if ?b then _ else _] =>
      first [replace b with true by lia | replace b with false by lia] end; f_equal; lia.
Qed.

Lemma b64_roundtrip s : wf_bytes s -> b64_decode (b64_encode s) = Some s.
Proof.
  remember (length s) as n eqn:Hn. revert s Hn.
  induction (lt_wf n) as [n _ IH]; intros s -> Hs.
  destruct s as [|a [|b [|c r]]]; [done|..].
  - apply Forall_cons in Hs as [Ha _]. cbn [b64_encode b64_decode]. rewrite !b64_val_char by lia.
    change (b64_val 61) with (@None Z). cbn. f_equal. f_equal. lia.
  - apply Forall_cons in Hs as [Ha Hs]. apply Forall_cons in Hs as [Hb _].
    cbn [b64_encode b64_decode]. rewrite !b64_val_char by lia.
    change (b64_val 61) with (@None Z). cbn [Z.eqb Pos.eqb andb]. rewrite bool_decide_true by done.
    f_equal. f_equal; [lia|]. f_equal. lia.
  - apply Forall_cons in Hs as [Ha Hs]. apply Forall_cons in Hs as [Hb Hs]. apply Forall_cons in Hs as [Hc Hr].
    cbn [b64_encode b64_decode]. rewrite !b64_val_char by lia.
    rewrite (IH (length r)) by (cbn; done || lia).
    f_equal. f_equal; [lia|]. f_equal; [lia|]. f_equal. lia.
Qed.

(** ** Literals with HTML escaping

    The bytes "<", ">" and "&" of a literal are escaped; they occur in the
    plain literal only as themselves. *)
Definition escape_html (c : Z) : bytes :=
  if (c =? 60) || (c =? 62) || (c =? 38)
  then [BACKSLASH; LOWER_U; 48; 48; hex_char (c / 16); hex_char (c mod 16)] else [c].

Definition json_string_html (s : bytes) : bytes := quoted (concat (map escape_html (quote s))).

(** A byte slice is base64 text, or null when it is nil. *)
Definition json_bytes (s : option bytes) : bytes :=
  match s with None => lit "null" | Some b => quoted (b64_encode b) end.

(** ** Sorted strings and maps of strings *)

(** [slices.Sort] on strings: bytewise order. *)
Fixpoint bytes_leb (a b : bytes) : bool :=
  match a, b with
  | [], _ => true
  | _ :: _, [] => false
  | x :: a, y :: b => (x <? y) || ((x =? y) && bytes_leb a b)
  end.

Fixpoint insert_sorted (x : bytes) (l : list bytes) : list bytes :=
  match l with
  | [] => [x]
  | y :: r => if bytes_leb x y then x :: l else y :: insert_sorted x r
  end.

Definition sort_strings (l : list bytes) : list bytes := foldr insert_sorted [] l.


(** [json.Marshal] of a [map[string]string]: the members in the order of their
    keys. *)
Definition json_map (m : gmap bytes bytes) : bytes :=
  LBRACE :: JoinSep [COMMA]
    (map (fun k => json_string_html k ++ COLON :: json_string_html (default [] (m !! k)))
       (sort_strings (map fst (map_to_list m)))) ++ [RBRACE].

(** [json.MarshalIndent(m, "", "  ")] of a nonempty one. *)
Definition json_map_indent (m : gmap bytes bytes) : bytes :=
  LBRACE :: 10 :: JoinSep [COMMA; 10]
    (map (fun k => [32; 32] ++ json_string_html k ++ COLON :: 32 :: json_string_html (default [] (m !! k)))
       (sort_strings (map fst (map_to_list m)))) ++ [10; RBRACE].
