(* ===== verification/GoSha256.v ===== *)
(** * [crypto/sha256] and [fmt]'s hexadecimal *)
From S2P Require Import Prelude GoBytes.

Module Sha256.

Definition w32 (x : Z) : Z := Z.land x 0xffffffff.
Definition add32 (x y : Z) : Z := w32 (x + y).
Definition rotr (x n : Z) : Z := Z.lor (Z.shiftr x n) (w32 (Z.shiftl x (32 - n))).

Definition ch (x y z : Z) : Z := Z.lxor (Z.land x y) (Z.land (Z.lxor x 0xffffffff) z).
Definition maj (x y z : Z) : Z := Z.lxor (Z.lxor (Z.land x y) (Z.land x z)) (Z.land y z).
Definition big0 (x : Z) : Z := Z.lxor (Z.lxor (rotr x 2) (rotr x 13)) (rotr x 22).
Definition big1 (x : Z) : Z := Z.lxor (Z.lxor (rotr x 6) (rotr x 11)) (rotr x 25).
Definition small0 (x : Z) : Z := Z.lxor (Z.lxor (rotr x 7) (rotr x 18)) (Z.shiftr x 3).
Definition small1 (x : Z) : Z := Z.lxor (Z.lxor (rotr x 17) (rotr x 19)) (Z.shiftr x 10).

(** The round constants are the first 32 bits of the fractional parts of the
    cube roots of the first 64 primes, and the initial state is those of the
    square roots of the first eight. *)
Definition prime (n : nat) : bool := forallb (fun d => negb (n mod d =? 0)%nat) (seq 2 (n - 2)).
Definition primes : list Z := map Z.of_nat (List.filter prime (seq 2 310)).

(** The greatest [x] with [x ^ 3 <= n], bit by bit. *)
Fixpoint cbrt_bits (bits : nat) (n x : Z) : Z :=
  match bits with
  | O => x
  | S bits => let y := x + 2 ^ Z.of_nat bits in cbrt_bits bits n (if y * y * y <=? n then y else x)
  end.

Definition K : list Z := Eval vm_compute in map (fun p => w32 (cbrt_bits 36 (p * 2 ^ 96) 0)) primes.
Definition state0 : list Z := Eval vm_compute in map (fun p => w32 (Z.sqrt (p * 2 ^ 64))) (firstn 8 primes).

(** The big-endian bytes of a number. *)
Fixpoint be (k : nat) (x : Z) : bytes :=
  match k with O => [] | S k => be k (x / 256) ++ [x mod 256] end.

Definition pad (s : bytes) : bytes :=
  s ++ 128 :: repeat 0 (Z.to_nat ((55 - blen s) mod 64)) ++ be 8 (8 * blen s).

Fixpoint words (s : bytes) : list Z :=
  match s with
  | a :: b :: c :: d :: rest => (((a * 256 + b) * 256 + c) * 256 + d) :: words rest
  | _ => []
  end.

(** The message schedule, latest word first. *)
Fixpoint expand (n : nat) (w : list Z) : list Z :=
  match n with
  | O => w
  | S n =>
      let at_ i := nth i w 0 in
      expand n (add32 (add32 (small1 (at_ 1%nat)) (at_ 6%nat)) (add32 (small0 (at_ 14%nat)) (at_ 15%nat)) :: w)
  end.

Definition round (v : list Z) (kw : Z * Z) : list Z :=
  match v with
  | [a; b; c; d; e; f; g; h] =>
      let t1 := add32 (add32 (add32 h (big1 e)) (ch e f g)) (add32 (fst kw) (snd kw)) in
      let t2 := add32 (big0 a) (maj a b c) in
      [add32 t1 t2; a; b; c; add32 d t1; e; f; g]
  | _ => v
  end.

Definition block (h : list Z) (words16 : list Z) : list Z :=
  let w := rev (expand 48 (rev words16)) in
  map (fun '(x, y) => add32 x y) (combine h (fold_left round (combine K w) h)).

Fixpoint blocks (fuel : nat) (h : list Z) (ws : list Z) : list Z :=
  match fuel with
  | O => h
  | S fuel => match ws with [] => h | _ => blocks fuel (block h (firstn 16 ws)) (skipn 16 ws) end
  end.

(** A block has sixteen words. *)
Definition Sum256 (s : bytes) : bytes :=
  let ws := words (pad s) in
  flat_map (be 4) (blocks (length ws / 16) state0 ws).
End Sha256.

(** [fmt.Sprintf] with the verb x, of bytes and of a [uint64]. *)
Definition hex_bytes (s : bytes) : bytes := flat_map (fun c => [hex_char (c / 16); hex_char (c mod 16)]) s.

Fixpoint hex_digits (fuel : nat) (n : Z) (acc : bytes) : bytes :=
  match fuel with
  | O => acc
  | S f => let acc := hex_char (n mod 16) :: acc in
           if n / 16 =? 0 then acc else hex_digits f (n / 16) acc
  end.
(** Sixteen digits are enough for 64 bits. *)
Definition hex_uint64 (n : Z) : bytes := hex_digits 16 n [].

(** The standard's test vectors. *)
Example sha256_abc :
  hex_bytes (Sha256.Sum256 (lit "abc")) = lit "ba7816bf8f01cfea414140de5dae2223b00361a396177a9cb410ff61f20015ad".
Proof. vm_compute. reflexivity. Qed.

Example sha256_empty :
  hex_bytes (Sha256.Sum256 []) = lit "e3b0c44298fc1c149afbf4c8996fb92427ae41e4649b934ca495991b7852b855".
Proof. vm_compute. reflexivity. Qed.

Example sha256_two_blocks :
  hex_bytes (Sha256.Sum256 (lit "abcdbcdecdefdefgefghfghighijhijkijkljklmklmnlmnomnopnopq")) =
    lit "248d6a61d20638b8e5c026930c3e6039a33ce45964ff2167f6ecedd419db06c1".
Proof. vm_compute. reflexivity. Qed.

(** ** Lengths *)

Lemma be_length k x : length (Sha256.be k x) = k.
Proof. revert x. induction k as [|k IH]; intros x; [done|]. cbn [Sha256.be]. rewrite length_app, IH. cbn. lia. Qed.

Lemma round_length v kw : length v = 8%nat -> length (Sha256.round v kw) = 8%nat.
Proof. intros H. do 8 (destruct v as [|? v]; [done|]). destruct v; [|done]. done. Qed.

Lemma block_length h ws : length h = 8%nat -> length (Sha256.block h ws) = 8%nat.
Proof.
  intros H. unfold Sha256.block. rewrite length_map, length_combine, H.
  assert (Hf : forall l v, length v = 8%nat -> length (fold_left Sha256.round l v) = 8%nat).
  { induction l as [|kw l IH]; intros v Hv; [done|]. apply IH. by apply round_length. }
  by rewrite Hf.
Qed.

Lemma blocks_length fuel h ws : length h = 8%nat -> length (Sha256.blocks fuel h ws) = 8%nat.
Proof. revert h ws. induction fuel as [|fuel IH]; intros h ws H; [done|]. cbn [Sha256.blocks]. destruct ws; [done|]. apply IH. by apply block_length. Qed.

(** A sum has 32 bytes. *)
Lemma Sum256_length s : length (Sha256.Sum256 s) = 32%nat.
Proof.
  unfold Sha256.Sum256. cbv zeta. set (h := Sha256.blocks _ _ _). assert (H : length h = 8%nat) by (by apply blocks_length). clearbody h.
  do 8 (destruct h as [|? h]; [done|]). destruct h; [|done]. cbn [flat_map]. rewrite !length_app, !be_length. done.
Qed.

Lemma be_byte k x : Forall (fun c => 0 <= c < 256) (Sha256.be k x).
Proof.
  revert x. induction k as [|k IH]; intros x; [constructor|]. cbn [Sha256.be]. apply Forall_app_2; [apply IH|].
  apply Forall_singleton. apply Z.mod_pos_bound. lia.
Qed.

Lemma Sum256_bytes s : Forall (fun c => 0 <= c < 256) (Sha256.Sum256 s).
Proof.
  unfold Sha256.Sum256. cbv zeta. generalize (Sha256.blocks (length (Sha256.words (Sha256.pad s)) / 16) Sha256.state0 (Sha256.words (Sha256.pad s))).
  intros l. induction l as [|x l IH]; [constructor|]. cbn [flat_map]. apply Forall_app_2; [apply be_byte|exact IH].
Qed.
