(* ===== verification/GoPath.v ===== *)
(** * Go's [path/filepath] on Unix, and more of [strings] and [net/url]

    Lexical paths: [Clean], [Join] and [Dir], with the fact that going up
    from an absolute path ends at the root; [strings.Contains] and
    [url.QueryEscape]. *)
From S2P Require Import Prelude GoBytes.

(** ** strings.Contains *)

Fixpoint Contains (s sub : bytes) : bool :=
  HasPrefix s sub || match s with [] => false | _ :: r => Contains r sub end.

(** The text of a byte string in an error message. *)
Definition text (s : bytes) : string := string_of_list_ascii (map (fun c => ascii_of_N (Z.to_N c)) s).

(** ** net/url: QueryEscape *)

Definition url_unreserved (c : Z) : bool :=
  ((97 <=? c) && (c <=? 122)) || ((65 <=? c) && (c <=? 90)) || is_digit c ||
  (c =? 45) || (c =? 95) || (c =? 46) || (c =? 126).

Definition upper_hex (v : Z) : Z := if v <? 10 then 48 + v else 55 + v.

Definition QueryEscape (s : bytes) : bytes :=
  concat (map (fun c => if url_unreserved c then [c] else if c =? 32 then [43]
                        else [37; upper_hex (c / 16); upper_hex (c mod 16)]) s).

(** ** path/filepath *)

Definition SLASH : Z := 47.
Definition DOT : bytes := lit ".".
Definition DOTDOT : bytes := lit "..".

(** One element of a path; [st] holds the elements kept, the last one
    first. *)
Definition clean_step (rooted : bool) (st : list bytes) (elem : bytes) : list bytes :=
  if bool_decide (elem = []) || bool_decide (elem = DOT) then st
  else if bool_decide (elem = DOTDOT) then
    match st with
    | top :: rest => if bool_decide (top = DOTDOT) then DOTDOT :: st else rest
    | [] => if rooted then [] else [DOTDOT]
    end
  else elem :: st.

Definition Clean (path : bytes) : bytes :=
  match path with
  | [] => DOT
  | c :: _ =>
      let rooted := c =? SLASH in
      let body := JoinSep [SLASH] (reverse (foldl (clean_step rooted) [] (Split path SLASH))) in
      if rooted then SLASH :: body
      else match body with [] => DOT | _ => body end
  end.

Fixpoint Join (elems : list bytes) : bytes :=
  match elems with
  | [] => []
  | [] :: rest => Join rest
  | _ => Clean (JoinSep [SLASH] elems)
  end.

(** The text up to the last slash, inclusive. *)
Fixpoint to_last_slash (path : bytes) : bytes :=
  match path with
  | [] => []
  | c :: r => match to_last_slash r with
              | [] => if c =? SLASH then [c] else []
              | p => c :: p
              end
  end.

Definition Dir (path : bytes) : bytes := Clean (to_last_slash path).

Example clean_1 : Clean (lit "/a/./b//../c/") = lit "/a/c".
Proof. reflexivity. Qed.
Example clean_2 : Clean (lit "../../x/..") = lit "../..".
Proof. reflexivity. Qed.
Example join_1 : Join [lit "/repo"; []; lit "deploy/compose.yml"] = lit "/repo/deploy/compose.yml".
Proof. reflexivity. Qed.
Example dir_1 : Dir (lit "/repo/cmd") = lit "/repo" /\ Dir (lit "/repo") = lit "/" /\ Dir (lit "/") = lit "/".
Proof. repeat split. Qed.

(** ** Going up ends at the root *)

(** The bytes the elements of a path take, each with its slash. *)
Definition weight (l : list bytes) : nat := sum_list_with (fun e => S (length e)) l.

Lemma weight_app a c : weight (a ++ c) = (weight a + weight c)%nat.
Proof. apply sum_list_with_app. Qed.

Lemma weight_reverse l : weight (reverse l) = weight l.
Proof. apply sum_list_with_reverse. Qed.

Lemma weight_Split s : weight (Split s SLASH) = S (length s).
Proof.
  induction s as [|c r IH]; [done|]. cbn [Split]. destruct (c =? SLASH).
  - cbn [weight sum_list_with length]. fold (weight (Split r SLASH)). lia.
  - destruct (Split r SLASH) as [|x xs]; [done|]. cbn [weight sum_list_with length] in *. lia.
Qed.

Lemma weight_step rooted st e : (weight (clean_step rooted st e) <= weight st + weight [e])%nat.
Proof.
  unfold clean_step, weight. cbn [sum_list_with]. repeat case_match; cbn [sum_list_with]; try lia.
  all: bool_to_prop; subst; cbn [sum_list_with length DOTDOT lit map list_ascii_of_string]; lia.
Qed.

Lemma weight_fold rooted l st : (weight (foldl (clean_step rooted) st l) <= weight st + weight l)%nat.
Proof.
  revert st. induction l as [|e l IH]; intros st; cbn [foldl]; [cbn; lia|].
  pose proof (IH (clean_step rooted st e)). pose proof (weight_step rooted st e).
  change (e :: l) with ([e] ++ l). rewrite weight_app. lia.
Qed.

Lemma length_JoinSep l : length (JoinSep [SLASH] l) = Nat.pred (weight l).
Proof.
  induction l as [|x [|y l] IH]; [done|cbn; lia|].
  change (JoinSep [SLASH] (x :: y :: l)) with (x ++ [SLASH] ++ JoinSep [SLASH] (y :: l)).
  rewrite !length_app, IH. cbn [weight sum_list_with length]. lia.
Qed.

(** An empty element keeps nothing. *)
Lemma clean_step_nil rooted st : clean_step rooted st [] = st.
Proof. reflexivity. Qed.

Lemma Split_trailing s : Split (s ++ [SLASH]) SLASH = Split s SLASH ++ [[]].
Proof.
  induction s as [|c r IH]; [done|]. cbn [app Split]. rewrite IH. destruct (c =? SLASH); [done|].
  destruct (Split r SLASH) as [|x xs] eqn:E; [|done]. destruct r; cbn in E; [done|]. repeat case_match; done.
Qed.

(** Cleaning an absolute directory drops the slash at its end. *)
Lemma Clean_shorter s : (length (Clean (SLASH :: s ++ [SLASH])) <= length (SLASH :: s))%nat.
Proof.
  unfold Clean. change (SLASH =? SLASH) with true. cbv zeta iota.
  change (SLASH :: s ++ [SLASH]) with ((SLASH :: s) ++ [SLASH]). rewrite Split_trailing, foldl_app. cbn [foldl].
  rewrite clean_step_nil. cbn [Split]. change (SLASH =? SLASH) with true. cbv iota. cbn [foldl]. rewrite clean_step_nil.
  pose proof (weight_fold true (Split s SLASH) []) as Hw. rewrite weight_Split in Hw. cbn [weight sum_list_with] in Hw.
  cbn [length]. rewrite length_JoinSep, weight_reverse. unfold weight in *. lia.
Qed.

Lemma to_last_slash_spec s :
  (to_last_slash s = [] /\ Forall (fun c => c <> SLASH) s) \/
  exists a z, s = a ++ SLASH :: z /\ to_last_slash s = a ++ [SLASH].
Proof.
  induction s as [|c r [[E F]|(a & z & -> & E)]]; cbn [to_last_slash]; [by left| |].
  - rewrite E. destruct (c =? SLASH) eqn:Ec; bool_to_prop; subst.
    + right. by exists [], r.
    + left. split; [done|]. by constructor.
  - right. exists (c :: a), z. split; [done|]. rewrite E. by destruct a.
Qed.

Definition absolute (path : bytes) : Prop := exists s, path = SLASH :: s.

Lemma Dir_absolute path : absolute path -> absolute (Dir path).
Proof.
  intros [s ->]. unfold Dir. destruct (to_last_slash_spec (SLASH :: s)) as [[_ F]|(a & z & E & ->)].
  { by apply Forall_cons in F as [? _]. }
  destruct a as [|c a]; [by eexists|]. cbn in E. injection E as <- _. by eexists.
Qed.

(** Going up from an absolute path other than the root shortens it. *)
Lemma Dir_shorter path : absolute path -> Dir path = path \/ (length (Dir path) < length path)%nat.
Proof.
  intros [s ->]. unfold Dir. destruct (to_last_slash_spec (SLASH :: s)) as [[_ F]|(a & z & E & ->)].
  { by apply Forall_cons in F as [? _]. }
  destruct a as [|c a].
  - cbn in E. injection E as ->. destruct z as [|x z]; [left; reflexivity|]. right. cbn. lia.
  - cbn in E. injection E as <- ->. right. pose proof (Clean_shorter a) as H. cbn [app]. cbn [length] in *.
    rewrite length_app. cbn [length]. lia.
Qed.
