(* ===== verification/Publisher.v ===== *)
(** * Publication: [internal/messaging/publisher.go], [quarantine.go]

    The franz-go client is a parameter: [produce] hands it a record with a
    callback, and [next_result] is the select statement of [send], which
    yields the callback of one outstanding record or the end of the context.
    That a record's callback runs at most once is the removal of the record
    from the outstanding ones. *)
From S2P Require Import Prelude GoBytes GoTime GoJson GoEncode Event Runtime Telemetry.

(** [kgo.Record]; a byte slice may be nil. *)
Record Rec := mkRec {
  r_Topic : bytes;
  r_Partition : Z;
  r_Offset : Z;
  r_Key : option bytes;
  r_Headers : option (list (bytes * option bytes));
  r_Value : option bytes
}.

#[global] Instance Rec_eq_dec : EqDecision Rec.
Proof. solve_decision. Defined.

Definition slice (s : option bytes) : bytes := default [] s.

Definition ErrSaturated : error := ENew "broker buffer saturated".
Definition ErrUnavailable : error := ENew "broker publication unavailable".

(** The broker's client.  [broker_log] is what the broker has durably
    accepted. *)
Class Broker {Wd : World} := {
  kgo_ErrMaxBuffered : error;
  kgo_ErrRecordTimeout : error;
  produce : Context -> Rec -> W -> W;
  next_result : Context -> list Rec -> W -> option (nat * goerr) * W;
  broker_log : W -> list Rec
}.

(** With all in-sync replicas required, a callback without error means that
    the broker has the record; what it has it keeps. *)
Class BrokerLaws {Wd : World} (B : Broker) := {
  produce_forward ctx r w : now w <= now (produce ctx r w);
  produce_keeps ctx r w : broker_log w ⊆ broker_log (produce ctx r w);
  result_forward ctx out : forward (next_result ctx out);
  result_keeps ctx out w : broker_log w ⊆ broker_log (snd (next_result ctx out w));
  result_outstanding ctx out w i e w' :
    next_result ctx out w = (Some (i, e), w') -> (i < length out)%nat;
  result_durable ctx out w i w' :
    next_result ctx out w = (Some (i, None), w') ->
    exists r, out !! i = Some r /\ r ∈ broker_log w';
  result_done ctx out w w' :
    out <> [] -> next_result ctx out w = (None, w') -> ctx_Err ctx (now w') <> None
}.

Record PublisherConfig := mkPublisherConfig {
  pc_Brokers : list bytes;
  pc_Topic : bytes;
  MaxBufferedBytes : Z;
  MaxBufferedRecords : Z;
  PublishTimeout : Z
}.

(** [NewPublisher] up to the creation of the client, with the defaults it
    fills in. *)
Definition publisher_defaults (c : PublisherConfig) : PublisherConfig :=
  mkPublisherConfig (pc_Brokers c) (pc_Topic c)
    (if MaxBufferedBytes c =? 0 then Z.shiftl 64 20 else MaxBufferedBytes c)
    (if MaxBufferedRecords c =? 0 then 1000 else MaxBufferedRecords c)
    (if PublishTimeout c =? 0 then 5 * Second else PublishTimeout c).

Record Publisher := mkPublisher { p_topic : bytes; p_timeout : Z }.

(** [newClient] is [kgo.NewClient]; the publisher registers its buffer with
    the metrics. *)
Definition NewPublisher (newClient : PublisherConfig -> goerr) (c : PublisherConfig) : res Publisher :=
  if (length (pc_Brokers c) =? 0)%nat || bool_decide (pc_Topic c = []) then
    Err (ENew "brokers and topic are required")
  else
    let c := publisher_defaults c in
    if (MaxBufferedBytes c <? 1) || (MaxBufferedRecords c <? 1) || (PublishTimeout c <? Millisecond) then
      Err (ENew "invalid publisher limits")
    else match newClient c with
         | Some err => Err err
         | None => Ok (mkPublisher (pc_Topic c) (PublishTimeout c))
         end.

Section Publisher.
Context {U : UUIDLib} {Wd : World} {B : Broker}.

(** The state of the messaging code: the world, and the metrics when there
    are any. *)
Record Pub := mkPub { p_world : W; p_metrics : option Metrics }.

Definition clock : M Pub Z := gets (fun s => now (p_world s)).
Definition on_world {A} (f : W -> A * W) : M Pub A :=
  fun s => let '(a, w) := f (p_world s) in Some (a, mkPub w (p_metrics s)).
Definition observe (f : Metrics -> Metrics) : M Pub unit :=
  modify (fun s => mkPub (p_world s) (option_map f (p_metrics s))).

(** How [send] classifies the error of a callback: the failure reason and
    the error it returns. *)
Definition classify (e : error) : string * error :=
  if errors_Is e kgo_ErrMaxBuffered then
    ("buffer_saturated"%string, EWrap "retry with same event IDs" ErrSaturated)
  else
    let reason := if errors_Is e context_DeadlineExceeded || errors_Is e context_Canceled
                     || errors_Is e kgo_ErrRecordTimeout
                  then "timeout"%string else "broker_error"%string in
    (reason, EWrap "callback error" ErrUnavailable).

(** The receive loop: one result per record. *)
Fixpoint collect (ctx : Context) (n : nat) (out : list Rec) : M Pub (string * goerr) :=
  match n with
  | O => ret ("broker_error"%string, None)
  | S n =>
      let! ev := on_world (next_result ctx out) in
      match ev with
      | Some (i, None) => collect ctx n (delete i out)
      | Some (_, Some e) => let '(reason, err) := classify e in ret (reason, Some err)
      | None =>
          ret ("timeout"%string,
               Some (EWrap "delivery may have occurred, retry with same IDs" ErrUnavailable))
      end
  end.

Fixpoint produce_all (ctx : Context) (records : list Rec) : M Pub unit :=
  match records with
  | [] => ret tt
  | r :: rest => on_world (fun w => (tt, produce ctx r w)) ;; produce_all ctx rest
  end.

Definition send (p : Publisher) (ctx : Context) (records : list Rec) : M Pub goerr :=
  let! start := clock in
  let ctx := WithTimeout ctx start (p_timeout p) in
  produce_all ctx records ;;
  let! (reason, err) := collect ctx (length records) records in
  let! stop := clock in
  match err with
  | Some _ => observe (fun m => ObservePublishFailure m reason) ;;
              observe (fun m => ObservePublish m "error" (stop - start))
  | None => observe (fun m => ObservePublish m "success" (stop - start))
  end ;;
  ret err.

Definition event_record (topic : bytes) (e : Envelope) (raw : bytes) : Rec :=
  mkRec topic 0 0 (Some (TenantID e ++ [58] ++ uuid_String (EventID (env_Input e)))) None (Some raw).

(** All events are encoded before the first is handed to the client. *)
Fixpoint encode_all (topic : bytes) (events : list Envelope) : res (list Rec) :=
  match events with
  | [] => Ok []
  | e :: rest =>
      let? raw := EncodeEnvelope e in
      let? records := encode_all topic rest in
      Ok (event_record topic e raw :: records)
  end.

Definition Publish (p : Publisher) (ctx : Context) (events : list Envelope) : M Pub goerr :=
  match encode_all (p_topic p) events with
  | Err err => ret (Some err)
  | Ok records => send p ctx records
  end.

(** ** quarantine.go *)

Record QuarantinedRecord := mkQuarantined {
  q_Topic : bytes; q_Partition : Z; q_Offset : Z; q_Key : option bytes;
  q_Headers : option (list (bytes * option bytes)); q_Value : option bytes;
  q_Error : bytes; q_FailedAt : Time
}.

Definition header_json (h : bytes * option bytes) : bytes :=
  LBRACE :: field "Key" (json_string_html (fst h)) ++ COMMA :: field "Value" (json_bytes (snd h)) ++ [RBRACE].

Definition headers_json (hs : option (list (bytes * option bytes))) : bytes :=
  match hs with
  | None => lit "null"
  | Some l => LBRACKET :: JoinSep [COMMA] (map header_json l) ++ [RBRACKET]
  end.

(** [json.Marshal] of a quarantined record. *)
Definition quarantined_json (q : QuarantinedRecord) : option bytes :=
  match Time_MarshalJSON (q_FailedAt q) with
  | None => None
  | Some failed =>
      Some (LBRACE :: JoinSep [COMMA]
              [ field "topic" (json_string_html (q_Topic q));
                field "partition" (itoa (q_Partition q));
                field "offset" (itoa (q_Offset q));
                field "key" (json_bytes (q_Key q));
                field "headers" (headers_json (q_Headers q));
                field "value" (json_bytes (q_Value q));
                field "error" (json_string_html (q_Error q));
                field "failed_at" failed ] ++ [RBRACE])
  end.

(** The clock's instant as a UTC time. *)
Definition time_of (ns : Z) : Time := mkTime (ns / Second) (ns mod Second) 0.

(** [errtext] is the [Error] method of the cause. *)
Definition Quarantine_Write (p : Publisher) (errtext : error -> bytes)
    (ctx : Context) (r : Rec) (cause : error) : M Pub goerr :=
  let message := errtext cause in
  let message := if 1024 <? blen message then take 1024 message else message in
  let! t := clock in
  let! err :=
    match quarantined_json (mkQuarantined (r_Topic r) (r_Partition r) (r_Offset r) (r_Key r)
                              (r_Headers r) (r_Value r) message (time_of t)) with
    | None => ret (Some (ENew "json: error calling MarshalJSON"))
    | Some raw =>
        (* append([]byte(nil), r.Key...) is nil for an empty key *)
        let key := match slice (r_Key r) with [] => None | k => Some k end in
        send p ctx [mkRec (p_topic p) 0 0 key None (Some raw)]
    end in
  observe (fun m => ObserveQuarantine m (match err with None => "success" | Some _ => "error" end)) ;;
  ret err.

(** ** Readiness of a topic: the metadata response of the broker. *)
Definition topicReady (response : res (list (Z * list (Z * Z)))) : goerr :=
  match response with
  | Err err => Some err
  | Ok [(code, parts)] =>
      if negb (code =? 0) || (length parts =? 0)%nat then Some (ENew "broker topic is not ready")
      else if existsb (fun '(errorCode, leader) => negb (errorCode =? 0) || (leader <? 0)) parts
           then Some (ENew "topic partition is not ready")
           else None
  | Ok _ => Some (ENew "broker topic is not ready")
  end.
End Publisher.
