(* ===== verification/PublisherProps.v ===== *)
(** * Properties of publication *)
From S2P Require Import Prelude GoBytes GoTime GoJson GoEncode Event EventFacts Envelope Runtime Telemetry Publisher.

Section Props.
Context {U : UUIDLib} {Wd : World} {B : Broker} {BL : BrokerLaws B}.

(** A step of the publisher: time goes on and the broker forgets nothing. *)
Definition extends (s s' : Pub) : Prop :=
  now (p_world s) <= now (p_world s') /\ broker_log (p_world s) ⊆ broker_log (p_world s').

#[global] Instance extends_preorder : PreOrder extends.
Proof.
  split.
  - intros s. split; [lia|done].
  - intros a b c [? ?] [? ?]. split; [lia|set_solver].
Qed.

Lemma observe_run f s :
  observe f s = Some (tt, mkPub (p_world s) (option_map f (p_metrics s))).
Proof. done. Qed.

Lemma produce_all_spec ctx records s :
  exists w, produce_all ctx records s = Some (tt, mkPub w (p_metrics s)) /\ extends s (mkPub w (p_metrics s)).
Proof.
  revert s. induction records as [|r rest IH]; intros s.
  - exists (p_world s). split; [by destruct s|]. split; [cbn; lia|done].
  - cbn [produce_all]. unfold bind, on_world.
    destruct (IH (mkPub (produce ctx r (p_world s)) (p_metrics s))) as (w & Hw & He).
    exists w. rewrite Hw. split; [done|]. etransitivity; [|exact He].
    split; [apply produce_forward | apply produce_keeps].
Qed.

Definition acked (s : Pub) (rs : list Rec) : Prop := rs ⊆ broker_log (p_world s).

(** The receive loop always returns, and without error only after a
    successful callback for every outstanding record. *)
Lemma collect_spec ctx n out s :
  length out = n ->
  exists reason err s', collect ctx n out s = Some ((reason, err), s') /\ extends s s' /\
    p_metrics s' = p_metrics s /\ reason ∈ failure_names /\
    match err with
    | None => acked s' out
    | Some e => errors_Is e ErrSaturated = true \/ errors_Is e ErrUnavailable = true
    end.
Proof.
  revert out s. induction n as [|n IH]; intros out s Hn.
  { do 3 eexists. split; [done|]. split; [done|]. split; [done|]. split; [unfold failure_names; set_solver|].
    destruct out; [|done]. intros r Hr. by apply not_elem_of_nil in Hr. }
  cbn [collect]. unfold bind, on_world.
  pose proof (result_forward ctx out (p_world s)) as Hf. pose proof (result_keeps ctx out (p_world s)) as Hk.
  destruct (next_result ctx out (p_world s)) as [[[i [e|]]|] w1] eqn:E; cbn [snd] in *.
  - destruct (classify e) as [reason err] eqn:Ec. do 3 eexists. split; [done|]. split; [done|].
    split; [done|]. unfold classify in Ec. destruct (errors_Is e kgo_ErrMaxBuffered); injection Ec as <- <-.
    + split; [unfold failure_names; set_solver | by left].
    + split; [|by right]. destruct (_ || _); unfold failure_names; set_solver.
  - destruct (result_durable _ _ _ _ _ E) as (r & Hr & Hd). apply result_outstanding in E.
    destruct (IH (delete i out) (mkPub w1 (p_metrics s))) as (reason & err & s' & Hc & He & Hm & Hre & Hres).
    { rewrite length_delete; [lia|]. by apply lookup_lt_is_Some_2. }
    exists reason, err, s'. split; [done|]. split; [etransitivity; [|exact He]; done|].
    split; [done|]. split; [done|]. destruct err; [done|].
    intros x Hx. destruct (decide (x = r)) as [->|Hne]; [by apply He|]. apply Hres.
    rewrite (delete_Permutation out i r Hr) in Hx. set_solver.
  - do 3 eexists. split; [done|]. split; [done|]. split; [done|].
    split; [unfold failure_names; set_solver | by right].
Qed.

Lemma send_spec p ctx records s :
  exists err s', send p ctx records s = Some (err, s') /\ extends s s' /\
    match err with
    | None => acked s' records
    | Some e => errors_Is e ErrSaturated = true \/ errors_Is e ErrUnavailable = true
    end.
Proof.
  unfold send, bind at 1. unfold clock, gets.
  set (ctx' := WithTimeout ctx _ _). destruct (produce_all_spec ctx' records s) as (w & Hw & He).
  unfold bind at 1. rewrite Hw.
  destruct (collect_spec ctx' (length records) records (mkPub w (p_metrics s)) eq_refl)
    as (reason & err & s' & Hc & He' & _ & _ & Hres).
  unfold bind at 1. rewrite Hc. exists err.
  destruct err as [e|]; eexists; (split; [reflexivity|]); (split; [by etransitivity|]); done.
Qed.

Lemma encode_all_Ok topic events records :
  encode_all topic events = Ok records ->
  Forall2 (fun e r => exists raw, EncodeEnvelope e = Ok raw /\ r = event_record topic e raw) events records.
Proof.
  revert records. induction events as [|e rest IH]; intros records; cbn [encode_all].
  - intros [= <-]. constructor.
  - destruct (EncodeEnvelope e) as [raw|] eqn:E; [|done]. cbn [res_bind].
    destruct (encode_all topic rest) as [rs|] eqn:Er; [|done]. cbn [res_bind]. intros [= <-].
    constructor; [by eexists | by apply IH].
Qed.

(** C20: [Publish] always returns.  It returns nil only when the broker has
    durably accepted, for every event, a record of the configured topic
    keyed by tenant and event id whose value is the encoded event; an error
    before anything was handed to the client leaves the world untouched;
    any later error is a saturation or an unavailability, and nothing the
    broker had is lost. *)
Theorem Publish_acknowledged p ctx events s :
  exists err s', Publish p ctx events s = Some (err, s') /\
    broker_log (p_world s) ⊆ broker_log (p_world s') /\
    match err with
    | None => Forall (fun e => exists raw, EncodeEnvelope e = Ok raw /\
                        event_record (p_topic p) e raw ∈ broker_log (p_world s')) events
    | Some e => s' = s \/ errors_Is e ErrSaturated = true \/ errors_Is e ErrUnavailable = true
    end.
Proof.
  unfold Publish. destruct (encode_all (p_topic p) events) as [records|err] eqn:E.
  - destruct (send_spec p ctx records s) as (err & s' & Hs & [_ He] & Hres).
    exists err, s'. split; [done|]. split; [done|]. destruct err; [tauto|].
    apply encode_all_Ok in E. apply Forall_forall. intros e Hin.
    apply list_elem_of_lookup in Hin as [i Hi].
    destruct (Forall2_lookup_l _ _ _ _ _ E Hi) as (r & Hr & raw & Hraw & ->).
    exists raw. split; [done|]. apply Hres. by eapply list_elem_of_lookup_2.
  - exists (Some err), s. split; [done|]. split; [done|]. by left.
Qed.

(** [Publish] hands records to the client only when every event of the
    call could be encoded: one event that cannot be encoded keeps the whole
    request from being published. *)
Theorem Publish_all_or_none p ctx events s :
  Exists (fun e => is_ok (EncodeEnvelope e) = false) events ->
  exists err, Publish p ctx events s = Some (Some err, s).
Proof.
  intros H. unfold Publish. assert (Hn : exists err, encode_all (p_topic p) events = Err err).
  { induction H as [e rest He|e rest H [err IH]]; cbn [encode_all].
    - destruct (EncodeEnvelope e); [done|]. by eexists.
    - destruct (EncodeEnvelope e); [|by eexists]. cbn [res_bind]. rewrite IH. by eexists. }
  destruct Hn as [err ->]. by eexists.
Qed.

(** A topic is ready exactly when the broker reported it alone, without
    error, with at least one partition, all of them with a leader and no
    error. *)
Lemma topicReady_exact response :
  topicReady response = None <->
  exists parts, response = Ok [(0, parts)] /\ parts <> [] /\
    Forall (fun p => fst p = 0 /\ 0 <= snd p) parts.
Proof.
  unfold topicReady. destruct response as [[|[code parts] [|? ?]]|e]; try (split; [done|]; by intros (? & [=] & _)).
  destruct (negb (code =? 0) || (length parts =? 0)%nat) eqn:E1.
  { split; [done|]. intros (p & [= -> ->] & Hne & _). by destruct p. }
  assert (Hx : existsb (fun '(errorCode, leader) => negb (errorCode =? 0) || (leader <? 0)) parts = false <->
               Forall (fun p : Z * Z => fst p = 0 /\ 0 <= snd p) parts).
  { clear E1. induction parts as [|[c l] parts IH]; cbn; [split; [by constructor|done]|].
    rewrite orb_false_iff, Forall_cons, IH. cbn. f_equiv. lia. }
  bool_to_prop. destruct (existsb _ parts) eqn:Ex; split.
  - done.
  - intros (p & [= -> ->] & _ & Hf%Hx). congruence.
  - intros _. subst code. exists parts. split; [done|]. split; [by destruct parts | by apply Hx].
  - done.
Qed.
End Props.

(** [NewPublisher] accepts a configuration only with brokers and a topic,
    and a publisher it returns has a timeout of at least a millisecond; zero
    limits stand for 64 MiB, 1000 records and five seconds. *)
Theorem NewPublisher_valid newClient c p :
  NewPublisher newClient c = Ok p ->
  pc_Brokers c <> [] /\ pc_Topic c <> [] /\ p_topic p = pc_Topic c /\ Millisecond <= p_timeout p /\
  p_timeout p = (if PublishTimeout c =? 0 then 5 * Second else PublishTimeout c) /\
  1 <= MaxBufferedBytes (publisher_defaults c) /\ 1 <= MaxBufferedRecords (publisher_defaults c).
Proof.
  unfold NewPublisher. cbv zeta. intros H. destruct (_ || bool_decide _) eqn:E1; [done|].
  destruct (_ || _ || _) eqn:E2; [done|]. destruct (newClient _); [done|]. injection H as <-.
  bool_to_prop. cbn [p_topic p_timeout]. destruct c as [br tp mb mr pt]; cbn in *.
  split; [by destruct br|]. split; [done|]. split; [done|]. split; [lia|]. split; [done|]. lia.
Qed.

Lemma NewPublisher_valid_witness :
  [lit "kafka:9092"] <> [] /\ lit "events" <> [] /\ lit "events" = lit "events" /\
  Millisecond <= 5 * Second /\ 5 * Second = (if 0 =? 0 then 5 * Second else 0) /\
  1 <= Z.shiftl 64 20 /\ 1 <= 1000.
Proof.
  apply (NewPublisher_valid (fun _ => None)
           (mkPublisherConfig [lit "kafka:9092"] (lit "events") 0 0 0)
           (mkPublisher (lit "events") (5 * Second))).
  reflexivity.
Defined.
