(* ===== verification/QuarantineProps.v ===== *)
(** * What the dead-letter topic keeps of a record

    The JSON document that [Quarantine.Write] publishes, read back: from it
    the rejected record can be recovered, every byte of it. *)
From S2P Require Import Prelude GoBytes GoTime GoTimeFacts GoJson GoJsonFacts GoEncode Event EventFacts Envelope Runtime Telemetry Publisher PublisherProps.

(** ** Reading a quarantined record

    As [json.Unmarshal] reads one back into a [QuarantinedRecord]. *)
Definition member (name : string) (ms : list (bytes * json)) : option json :=
  snd <$> (snd <$> list_find (fun m => fst m = lit name) ms).

Definition read_text (j : json) : option bytes := match j with JStr r => Some (unquote r) | _ => None end.
Definition read_int (j : json) : option Z := match j with JNum n => ParseInt10 n 64 | _ => None end.
Definition read_bytes (j : json) : option (option bytes) :=
  match j with
  | JNull => Some None
  | JStr r => Some <$> b64_decode (unquote r)
  | _ => None
  end.

Definition read_header (j : json) : option (bytes * option bytes) :=
  match j with
  | JObj ms => k ← member "Key" ms ≫= read_text; v ← member "Value" ms ≫= read_bytes; Some (k, v)
  | _ => None
  end.

Definition read_headers (j : json) : option (option (list (bytes * option bytes))) :=
  match j with
  | JNull => Some None
  | JArr l => Some <$> mapM read_header l
  | _ => None
  end.

Definition read_object (raw : bytes) : option (list (bytes * json)) :=
  match parse_doc raw with Some (JObj ms) => Some ms | _ => None end.

(** The record, and the message of the cause. *)
Definition read_quarantined (raw : bytes) : option (Rec * bytes) :=
  ms ← read_object raw;
  topic ← member "topic" ms ≫= read_text;
  partition ← member "partition" ms ≫= read_int;
  offset ← member "offset" ms ≫= read_int;
  key ← member "key" ms ≫= read_bytes;
  headers ← member "headers" ms ≫= read_headers;
  value ← member "value" ms ≫= read_bytes;
  message ← member "error" ms ≫= read_text;
  Some (mkRec topic partition offset key headers value, message).

(** ** Literals with HTML escaping *)

Definition html (raw : bytes) : bytes := concat (map escape_html raw).

Lemma html_app a c : html (a ++ c) = html a ++ html c.
Proof. unfold html. by rewrite map_app, concat_app. Qed.

Lemma html_plain c r : c <> 60 -> c <> 62 -> c <> 38 -> html (c :: r) = c :: html r.
Proof. intros. unfold html. cbn [map concat]. unfold escape_html. by if_false. Qed.

Lemma html_strbody r : strbody r -> strbody (html r).
Proof.
  induction 1 as [|e r He _ IH|h1 h2 h3 h4 r Hh _ IH|c r H1 H2 H3 _ IH].
  - constructor.
  - rewrite !html_plain by (unfold simple_escape, BACKSLASH in *; lia). by constructor.
  - rewrite !html_plain by (unfold is_hex, is_digit, BACKSLASH, LOWER_U in *; lia). by constructor.
  - change (html (c :: r)) with (escape_html c ++ html r). unfold escape_html. destruct (_ || _) eqn:E; cbn [app]; [|by constructor].
    apply sb_u; [|done]. by assert (c = 60 \/ c = 62 \/ c = 38) as [-> | [-> | ->]] by lia.
Qed.

(** Malformed UTF-8 is quoted too. *)
Lemma quote_text s : wf_bytes s -> strbody (quote s).
Proof.
  assert (Hc : forall c r, 128 <= c -> strbody r -> strbody (c :: r)) by (intros; constructor; unfold QUOTE, BACKSLASH; lia || done).
  assert (Hbad : forall r, strbody r -> strbody (escape_bad ++ r)) by (intros; by apply sb_u).
  remember (length s) as n eqn:Hn. revert s Hn. induction (lt_wf n) as [n _ IH]; intros s -> Hs.
  destruct s as [|c r]; [constructor|]. apply Forall_cons in Hs as [Hb Hs]. cbn [quote].
  assert (Hr : strbody (quote r)) by (eapply IH; [|done|done]; cbn; lia).
  destruct (c <? 128) eqn:E; [apply escape_ascii_strbody; [lia|done]|].
  destruct r as [|c1 r1]; [by apply (Hbad []), sb_nil|]. apply Forall_cons in Hs as [Hb1 Hs].
  assert (Hr1 : strbody (quote r1)) by (eapply IH; [|done|done]; cbn; lia).
  destruct (seq2 c c1) eqn:E2; [apply seq2_bounds in E2; repeat apply Hc; lia || done|].
  destruct r1 as [|c2 r2]; [by apply Hbad|]. apply Forall_cons in Hs as [Hb2 Hs].
  assert (Hr2 : strbody (quote r2)) by (eapply IH; [|done|done]; cbn; lia).
  destruct (seq3 c c1 c2) eqn:E3.
  { apply seq3_bounds in E3. unfold escape3. destruct (_ && _) eqn:Ex; cbn [app]; [|repeat apply Hc; lia || done].
    apply sb_u; [|done]. unfold is_hex, is_digit. lia. }
  destruct r2 as [|c3 r3]; [by apply Hbad|]. apply Forall_cons in Hs as [Hb3 Hs].
  assert (Hr3 : strbody (quote r3)) by (eapply IH; [|done|done]; cbn; lia).
  destruct (seq4 c c1 c2 c3) eqn:E4; [apply seq4_bounds in E4; repeat apply Hc; lia || done|by apply Hbad].
Qed.

Lemma unquote_html_ascii c r : 0 <= c < 128 -> unquote (html (escape_ascii c) ++ r) = c :: unquote r.
Proof.
  intros Hc. destruct (decide (c = 60 \/ c = 62 \/ c = 38)) as [[-> | [-> | ->]]|Hn]; [done|done|done|].
  replace (html (escape_ascii c)) with (escape_ascii c); [by apply unquote_escape_ascii|].
  unfold escape_ascii. repeat case_match; rewrite ?html_plain by (unfold BACKSLASH, LOWER_U in *; lia); try done;
    rewrite !html_plain; try done; unfold hex_char; case_match; bool_to_prop; pose proof (Z.mod_pos_bound c 16 ltac:(lia));
    pose proof (Z.div_mod c 16 ltac:(lia)); lia.
Qed.

Lemma unquote_html_quote s : utf8 s -> unquote (html (quote s)) = s.
Proof.
  assert (Hh : forall c r, 128 <= c -> html (c :: r) = c :: html r) by (intros; apply html_plain; lia).
  induction 1 as [|c r H _ IH|c c1 r H Hs _ IH|c c1 c2 r H Hs _ IH|c c1 c2 c3 r H Hs _ IH];
    cbn [quote].
  - done.
  - if_true. by rewrite html_app, unquote_html_ascii, IH.
  - if_false. rewrite Hs. pose proof (seq2_bounds _ _ Hs) as [? ?]. rewrite !Hh by lia. cbn [unquote]. unfold BACKSLASH. if_false. if_false.
    by rewrite Hs, IH.
  - if_false. rewrite (seq3_not2 _ _ _ _ Hs), Hs. pose proof (seq3_bounds _ _ _ Hs) as (? & ? & ?). unfold escape3. destruct (_ && _) eqn:E.
    + assert (c = 226 /\ c1 = 128 /\ (c2 = 168 \/ c2 = 169)) as (-> & -> & [-> | ->]) by lia;
        rewrite html_app; cbn [app unquote html map concat escape_html]; vm_compute (_ - 112); cbn; rewrite IH; done.
    + cbn [app]. rewrite !Hh by lia. cbn [unquote]. unfold BACKSLASH. if_false. if_false.
      by rewrite (seq3_not2 _ _ _ _ Hs), Hs, IH.
  - if_false. rewrite (seq4_not2 _ _ _ _ _ Hs), (seq4_not3 _ _ _ _ _ _ Hs), Hs. pose proof (seq4_bounds _ _ _ _ Hs) as (? & ? & ? & ?).
    rewrite !Hh by lia. cbn [unquote]. unfold BACKSLASH. if_false. if_false.
    by rewrite (seq4_not2 _ _ _ _ _ Hs), (seq4_not3 _ _ _ _ _ _ Hs), Hs, IH.
Qed.

(** ** Numbers *)

Lemma dec_val_app a c : dec_val (a ++ [c]) = dec_val a * 10 + (c - 48).
Proof. unfold dec_val. by rewrite fold_left_app. Qed.

(** The digits of a number: no leading zero, except of zero itself. *)
Lemma itoa_digits_spec fuel : forall n acc, (0 < fuel)%nat -> 0 <= n < 10 ^ Z.of_nat fuel ->
  exists d, itoa_digits fuel n acc = d ++ acc /\ Forall (fun c => is_digit c = true) d /\ dec_val d = n /\
    (d = [48] \/ exists c t, d = c :: t /\ c <> 48).
Proof.
  induction fuel as [|fuel IH]; intros n acc Hf Hn; [lia|]. cbn [itoa_digits]. cbv zeta.
  pose proof (Z.mod_pos_bound n 10 ltac:(lia)) as Hm. pose proof (Z.div_mod n 10 ltac:(lia)) as Hdm.
  assert (Hdig : is_digit (48 + n mod 10) = true) by (unfold is_digit; lia).
  destruct (n / 10 =? 0) eqn:E; bool_to_prop.
  - exists [48 + n mod 10]. split; [done|]. split; [by repeat constructor|]. split; [cbn; lia|].
    destruct (decide (n = 0)) as [->|]; [by left|right; eexists _, _; split; [done|lia]].
  - rewrite Nat2Z.inj_succ, Z.pow_succ_r in Hn by lia.
    assert (Hf1 : (0 < fuel)%nat) by (destruct fuel; [cbn in Hn; lia|lia]).
    destruct (IH (n / 10) ((48 + n mod 10) :: acc) Hf1) as (d & -> & Hd & Hv & Hh); [lia|].
    exists (d ++ [48 + n mod 10]). rewrite <- app_assoc. split; [done|]. split; [by apply Forall_app_2; [|repeat constructor]|].
    split; [rewrite dec_val_app, Hv; lia|]. right. destruct Hh as [->|(c & t & -> & Hc)]; [cbn in Hv; lia|by eexists _, _].
Qed.

(** A run of digits is read back by the scanner and by [strconv]. *)
Lemma scan_int_digits d z :
  Forall (fun c => is_digit c = true) d -> (d = [48] \/ exists c t, d = c :: t /\ c <> 48) -> numend z ->
  scan_int (d ++ z) = Some (d, z).
Proof.
  intros Hd [->|(c & t & -> & Hc)] Hz; [done|]. unfold scan_int. cbn [app]. apply Z.eqb_neq in Hc. rewrite Hc.
  change (c :: t ++ z) with ((c :: t) ++ z). by rewrite digits_app by (done || by apply numend_digit).
Qed.

Lemma numend_tail z : numend z -> scan_frac z = Some ([], z) /\ scan_exp z = Some ([], z).
Proof.
  destruct z as [|c z]; [done|]. cbn. unfold numchar. intros H. bool_to_prop. unfold scan_frac, scan_exp.
  repeat match goal with H : is_exp c = false |- _ => rewrite H; clear H end. by if_false.
Qed.

Lemma itoa_wf n : - 2 ^ 63 <= n < 2 ^ 63 -> wf_num (itoa n) /\ ParseInt10 (itoa n) 64 = Some n.
Proof.
  intros Hn. destruct (itoa_digits_spec 20 (Z.abs n) [] ltac:(lia) ltac:(change (10 ^ Z.of_nat 20) with (10 ^ 20); lia)) as (d & E & Hd & Hv & Hh).
  rewrite app_nil_r in E.
  assert (Hc : exists c t, d = c :: t /\ is_digit c = true).
  { destruct Hh as [->|(c & t & -> & _)]; eexists _, _; (split; [done|]); [done|by apply Forall_cons in Hd as [? _]]. }
  destruct Hc as (c & t & Ed & Hc).
  assert (Hall : forallb is_digit d = true) by (apply forallb_forall; intros x Hx%list_elem_of_In; by apply (proj1 (Forall_forall _ _) Hd)).
  unfold itoa. destruct (n <? 0) eqn:En; bool_to_prop.
  - rewrite (Z.abs_neq n) in E, Hv by lia. rewrite E. split.
    + split; [constructor; [done|by apply digit_numchar]|]. split; [eexists _, _; split; [done|by left]|].
      intros z Hz. unfold scan_num. cbn [app split_minus Z.eqb Pos.eqb].
      rewrite scan_int_digits by done. destruct (numend_tail z Hz) as [-> ->]. by rewrite !app_nil_r.
    + unfold ParseInt10, ParseUint10. cbn [Z.eqb Pos.eqb]. rewrite Ed. rewrite <- Ed. rewrite Hall, Hv. if_true. f_equal. lia.
  - rewrite (Z.abs_eq n) in E, Hv by lia. rewrite E.
    assert (Hsg : c <> 45 /\ c <> 43) by (unfold is_digit in Hc; lia). split.
    + split; [by apply digit_numchar|]. split; [eexists _, _; split; [exact Ed|by right]|].
      intros z Hz. unfold scan_num.
      assert (split_minus (d ++ z) = ([], d ++ z)) as -> by (rewrite Ed; cbn [app split_minus]; by if_false).
      rewrite scan_int_digits by done. destruct (numend_tail z Hz) as [-> ->]. by rewrite !app_nil_r.
    + unfold ParseInt10, ParseUint10. rewrite Ed. if_false. if_false. rewrite <- Ed, Hall, Hv. by if_true.
Qed.

(** ** Bytes *)

Lemma b64_char_plain v : 0 <= v < 64 -> plainchar (b64_char v).
Proof. intros H. unfold b64_char, plainchar, QUOTE, BACKSLASH. repeat case_match; bool_to_prop; lia. Qed.

#[local] Ltac Zify.zify_post_hook ::= Z.to_euclidean_division_equations.

Lemma b64_plain s : wf_bytes s -> Forall plainchar (b64_encode s).
Proof.
  assert (Hpad : plainchar 61) by (unfold plainchar, QUOTE, BACKSLASH; lia).
  remember (length s) as n eqn:Hn. revert s Hn. induction (lt_wf n) as [n _ IH]; intros s -> Hs.
  destruct s as [|a [|b [|c r]]]; cbn [b64_encode]; repeat (apply Forall_cons in Hs as [? Hs]);
    repeat (constructor; [first [exact Hpad|apply b64_char_plain; lia]|]); [constructor..|].
  apply (IH (length r)); [cbn; lia|done|done].
Qed.

(** ** The document *)

Definition text_value (s : bytes) : json := JStr (html (quote s)).
Definition bytes_value (s : option bytes) : json := match s with None => JNull | Some b => JStr (b64_encode b) end.
Definition header_value (h : bytes * option bytes) : json :=
  JObj [(lit "Key", text_value (fst h)); (lit "Value", bytes_value (snd h))].
Definition headers_value (hs : option (list (bytes * option bytes))) : json :=
  match hs with None => JNull | Some l => JArr (map header_value l) end.

Definition quarantined_value (q : QuarantinedRecord) (failed : bytes) : json :=
  JObj [ (lit "topic", text_value (q_Topic q)); (lit "partition", JNum (itoa (q_Partition q)));
         (lit "offset", JNum (itoa (q_Offset q))); (lit "key", bytes_value (q_Key q));
         (lit "headers", headers_value (q_Headers q)); (lit "value", bytes_value (q_Value q));
         (lit "error", text_value (q_Error q)); (lit "failed_at", JStr failed) ].

Lemma header_print h : header_json h = print (header_value h).
Proof.
  destruct h as [k v]. unfold header_json, header_value. cbn [print map JoinSep fst snd]. unfold field. rewrite <- !app_assoc. cbn [app].
  by destruct v.
Qed.

Lemma quarantined_print q raw :
  quarantined_json q = Some raw -> exists failed, Forall timechar failed /\ raw = print (quarantined_value q failed).
Proof.
  unfold quarantined_json, Time_MarshalJSON. destruct (FormatRFC3339Nano _) as [f|] eqn:Ef; [|done]. cbn [option_map]. intros [= <-].
  exists f. split; [exact (proj1 (FormatRFC3339Nano_chars _ _ Ef))|]. destruct q as [t p o k hs v e fa]. cbn [quarantined_value].
  destruct hs as [l|]; [|destruct k, v; reflexivity]. unfold quarantined_value. cbn [q_Topic q_Partition q_Offset q_Key q_Headers q_Value q_Error headers_json headers_value].
  assert (map header_json l = map print (map header_value l)) as -> by (rewrite map_map; apply map_ext; intros; apply header_print).
  destruct k, v; reflexivity.
Qed.

(** Kafka's records: any bytes, and strings in UTF-8. *)
Definition wf_opt (s : option bytes) : Prop := wf_bytes (slice s).
Record wf_record (r : Rec) : Prop := {
  wf_topic : utf8 (r_Topic r) /\ wf_bytes (r_Topic r);
  wf_partition : 0 <= r_Partition r < 2 ^ 31;
  wf_offset : 0 <= r_Offset r < 2 ^ 63;
  wf_key : wf_opt (r_Key r);
  wf_value : wf_opt (r_Value r);
  wf_headers : Forall (fun h => (utf8 (fst h) /\ wf_bytes (fst h)) /\ wf_opt (snd h)) (default [] (r_Headers r))
}.

Lemma read_text_value s : utf8 s -> read_text (text_value s) = Some s.
Proof. intros H. cbn. by rewrite unquote_html_quote. Qed.

Lemma unquote_plain s : Forall plainchar s -> unquote s = s.
Proof. intros H. rewrite <- (plainchar_quote s H) at 1. by apply unquote_quote, plainchar_utf8. Qed.

Lemma read_bytes_value s : wf_opt s -> read_bytes (bytes_value s) = Some s.
Proof. destruct s as [s|]; [|done]. intros H. cbn. by rewrite unquote_plain, b64_roundtrip by (done || by apply b64_plain). Qed.

Lemma text_wfj d s : wf_bytes s -> wfj d (text_value s).
Proof. intros H. destruct d; by apply html_strbody, quote_text. Qed.

Lemma bytes_wfj d s : wf_opt s -> wfj d (bytes_value s).
Proof. destruct s as [s|]; [|by destruct d]. intros H. destruct d; by apply plainchar_strbody, b64_plain. Qed.

Lemma read_header_value h : (utf8 (fst h) /\ wf_bytes (fst h)) /\ wf_opt (snd h) -> read_header (header_value h) = Some h.
Proof.
  destruct h as [k v]. intros [[Hk _] Hv]. cbn [fst snd] in *.
  change (read_header (header_value (k, v))) with (k' ← read_text (text_value k); v' ← read_bytes (bytes_value v); Some (k', v')).
  by rewrite read_text_value, read_bytes_value.
Qed.

Lemma read_headers_value hs :
  Forall (fun h => (utf8 (fst h) /\ wf_bytes (fst h)) /\ wf_opt (snd h)) (default [] hs) -> read_headers (headers_value hs) = Some hs.
Proof.
  destruct hs as [l|]; [|done]. intros H. cbn in H |- *. assert (mapM read_header (map header_value l) = Some l) as ->; [|done].
  induction H as [|h l Hh _ IH]; [done|]. cbn [map mapM]. rewrite read_header_value by done. cbn. by rewrite IH.
Qed.

Definition plain_name (s : bytes) : bool := forallb (fun c => (32 <=? c) && (c <? 128) && negb (c =? QUOTE) && negb (c =? BACKSLASH)) s.

Lemma name_strbody s : plain_name s = true -> strbody s.
Proof.
  intros H. apply plainchar_strbody, Forall_forall. intros c Hc. unfold plain_name in H. rewrite forallb_forall in H.
  specialize (H c (proj1 (list_elem_of_In _ _) Hc)). unfold plainchar. bool_to_prop. lia.
Qed.

Lemma header_wfj d h : (utf8 (fst h) /\ wf_bytes (fst h)) /\ wf_opt (snd h) -> wfj (S d) (header_value h).
Proof.
  intros [[_ Hk] Hv]. apply wfj_obj. repeat (constructor; [split; [by apply name_strbody|cbn [snd]]|]); [by apply text_wfj|by apply bytes_wfj|constructor].
Qed.

Lemma quarantined_wfj q failed r :
  wf_record r -> q_Topic q = r_Topic r -> q_Partition q = r_Partition r -> q_Offset q = r_Offset r -> q_Key q = r_Key r ->
  q_Headers q = r_Headers r -> q_Value q = r_Value r -> wf_bytes (q_Error q) -> Forall timechar failed ->
  wfj maxNestingDepth (quarantined_value q failed).
Proof.
  intros [[_ Ht] Hp Ho Hk Hv Hh] E1 E2 E3 E4 E5 E6 He Hf. unfold quarantined_value. rewrite E1, E2, E3, E4, E5, E6. replace maxNestingDepth with (S (S (S (Z.to_nat 9997)))) by (unfold maxNestingDepth; lia).
  apply wfj_obj. repeat (constructor; [split; [by apply name_strbody|cbn [snd]]|]); [..|constructor].
  - by apply text_wfj.
  - apply itoa_wf. lia.
  - apply itoa_wf. lia.
  - by apply bytes_wfj.
  - destruct (r_Headers r) as [l|]; [|done]. apply wfj_arr. rewrite Forall_map. eapply Forall_impl; [exact Hh|]. intros h. apply header_wfj.
  - by apply bytes_wfj.
  - by apply text_wfj.
  - by apply plainchar_strbody, timechar_plain.
Qed.

(** What was written is read back. *)
Lemma quarantined_roundtrip q failed raw r :
  wf_record r -> q_Topic q = r_Topic r -> q_Partition q = r_Partition r -> q_Offset q = r_Offset r -> q_Key q = r_Key r ->
  q_Headers q = r_Headers r -> q_Value q = r_Value r -> wf_bytes (q_Error q) -> Forall timechar failed ->
  raw = print (quarantined_value q failed) ->
  exists message, read_quarantined raw = Some (r, message) /\ (utf8 (q_Error q) -> message = q_Error q).
Proof.
  intros Hr E1 E2 E3 E4 E5 E6 He Hf ->. exists (unquote (html (quote (q_Error q)))). split; [|apply unquote_html_quote].
  unfold read_quarantined, read_object. rewrite parse_doc_print by (by eapply quarantined_wfj).
  destruct q as [qt qp qo qk qh qv qe qf]. cbn [q_Topic q_Partition q_Offset q_Key q_Headers q_Value q_Error] in *. subst. unfold quarantined_value.
  destruct Hr as [[Ht _] Hp Ho Hk Hv Hh]. destruct r as [rt rp ro rk rh rv]. cbn [r_Topic r_Partition r_Offset r_Key r_Headers r_Value] in *.
  transitivity (topic ← read_text (text_value rt); partition ← read_int (JNum (itoa rp)); offset ← read_int (JNum (itoa ro));
    key ← read_bytes (bytes_value rk); headers ← read_headers (headers_value rh); value ← read_bytes (bytes_value rv);
    message ← read_text (text_value qe); Some (mkRec topic partition offset key headers value, message)); [reflexivity|].
  rewrite (read_text_value rt) by done. cbn [read_int]. rewrite (proj2 (itoa_wf rp ltac:(lia))), (proj2 (itoa_wf ro ltac:(lia))).
  rewrite !read_bytes_value by done. rewrite read_headers_value by done. reflexivity.
Qed.

Section Quarantine.
Context {U : UUIDLib} {Wd : World} {B : Broker} {BL : BrokerLaws B}.

(** C22: quarantining preserves the record.  It always returns; without
    error, the broker has a record of the dead-letter topic, under the
    rejected record's own key, whose JSON document, parsed, gives back the
    rejected record: its topic, partition and offset, and every byte of its
    key, headers and value (from their base64), absent ones as absent; and
    the message of the cause, up to 1024 bytes of it. *)
Theorem Quarantine_preserves_record p errtext ctx r cause s :
  wf_record r -> wf_bytes (errtext cause) ->
  exists err s', Quarantine_Write p errtext ctx r cause s = Some (err, s') /\ extends s s' /\
    (err = None ->
     exists raw message, read_quarantined raw = Some (r, message) /\
       (utf8 (take 1024 (errtext cause)) -> message = take 1024 (errtext cause)) /\
       mkRec (p_topic p) 0 0 (match slice (r_Key r) with [] => None | k => Some k end) None (Some raw) ∈ broker_log (p_world s')).
Proof.
  intros Hwf He. unfold Quarantine_Write.
  set (message := if 1024 <? _ then _ else _).
  assert (Hm : message = take 1024 (errtext cause)).
  { unfold message. destruct (1024 <? _) eqn:E; [done|]. symmetry. apply take_ge. unfold blen in E. lia. }
  rewrite Hm. unfold bind at 1, clock, gets.
  set (q := mkQuarantined _ _ _ _ _ _ _ _). destruct (quarantined_json q) as [raw|] eqn:Eq.
  - set (key := match slice (r_Key r) with [] => None | k => Some k end). cbv zeta.
    destruct (send_spec p ctx [mkRec (p_topic p) 0 0 key None (Some raw)] s) as (err & s' & Hs & Hx & Hres).
    unfold bind at 1. rewrite Hs. exists err. eexists. split; [reflexivity|]. split; [exact Hx|].
    intros ->. apply quarantined_print in Eq as (failed & Hf & Eq).
    destruct (quarantined_roundtrip q failed raw r) as (msg & Hr & Hmsg); try done; [by apply Forall_take|].
    exists raw, msg. split; [done|]. split; [done|]. apply Hres. set_solver.
  - unfold bind at 1, ret. eexists _, _. split; [reflexivity|]. split; [done|]. done.
Qed.
End Quarantine.
