(* ===== verification/Reader.v ===== *)
(** * Consumption: [internal/messaging/reader.go], [process.go]

    The reader polls the broker, writes each partition's records to the store
    in batches, quarantines the records it cannot decode and commits the
    offsets of what is done.  Poll, commit, store and quarantine are function
    fields of the reader, as in the code; the state adds to the world the
    metrics, the operations reported to [OnOperation], and a ghost record of
    the calls made, on which the properties are stated. *)
From S2P Require Import Prelude GoBytes GoTime GoJson Event Runtime Persistence Telemetry Publisher.

Definition ErrRetryExhausted : error := ENew "storage retry window exhausted".

Record Operation := mkOperation {
  op_Kind : string; op_Topic : bytes; op_Partition : Z; op_Offset : Z; op_Err : goerr
}.

Record ReaderConfig := mkReaderConfig {
  has_OnOperation : bool;
  rc_Brokers : list bytes;
  rc_Topic : bytes;
  DLQTopic : bytes;
  GroupID : bytes;
  BatchSize : Z;
  AttemptTimeout : Z;
  RetryWindow : Z;
  BackoffMin : Z;
  BackoffMax : Z
}.

Definition readerDefaults (c : ReaderConfig) : ReaderConfig :=
  mkReaderConfig (has_OnOperation c) (rc_Brokers c) (rc_Topic c) (DLQTopic c) (GroupID c)
    (if BatchSize c =? 0 then 500 else BatchSize c)
    (if AttemptTimeout c =? 0 then 5 * Second else AttemptTimeout c)
    (if RetryWindow c =? 0 then 15 * Second else RetryWindow c)
    (if BackoffMin c =? 0 then 100 * Millisecond else BackoffMin c)
    (if BackoffMax c =? 0 then 2 * Second else BackoffMax c).

(** The test of [NewReader]; [nilStore] is the comparison of the store with
    nil. *)
Definition reader_config_ok (c : ReaderConfig) (nilStore : bool) : bool :=
  negb ((length (rc_Brokers c) =? 0)%nat || bool_decide (rc_Topic c = []) ||
        bool_decide (DLQTopic c = []) || bool_decide (GroupID c = []) || nilStore ||
        (BatchSize c <? 1) || (500 <? BatchSize c) || (AttemptTimeout c <=? 0) ||
        (RetryWindow c <=? 0) || (15 * Second <? RetryWindow c) || (BackoffMin c <=? 0) ||
        (BackoffMax c <? BackoffMin c)).

(** [NewReader]: the consumer client, then the dead-letter publisher, which
    gets the publisher's defaults; the client is closed again when the
    publisher fails. *)
Definition NewReader (newConsumer : ReaderConfig -> goerr) (newClient : PublisherConfig -> goerr)
    (c : ReaderConfig) (nilStore : bool) : res (ReaderConfig * Publisher) :=
  let c := readerDefaults c in
  if negb (reader_config_ok c nilStore) then Err (ENew "invalid reader configuration")
  else match newConsumer c with
       | Some err => Err err
       | None =>
           let? pub := NewPublisher newClient (mkPublisherConfig (rc_Brokers c) (DLQTopic c) 0 0 0) in
           Ok (c, pub)
       end.

(** What one poll returned: the records of each partition and the errors. *)
Record Fetches := mkFetches { partitions : list (list Rec); fetch_errors : list error }.

(** [int64] arithmetic of durations. *)
Definition wrap64 (x : Z) : Z := (x + 2 ^ 63) mod 2 ^ 64 - 2 ^ 63.

(** The timer select of [persist]: [true] when the window's end was taken,
    [false] when the timer was. *)
Class Timers {Wd : World} := {
  select_timer : Context -> Z -> W -> bool * W
}.

Class TimersLaws {Wd : World} (T : Timers) := {
  timer_forward c fire : forward (select_timer c fire);
  timer_window c fire w w' : select_timer c fire w = (true, w') -> ctx_Err c (now w') <> None;
  timer_fired c fire w w' : select_timer c fire w = (false, w') -> fire <= now w';
  (** only the window is ready *)
  timer_ready c fire w : ctx_Err c (now w) <> None -> now w < fire -> fst (select_timer c fire w) = true
}.

(** The calls of interest. *)
Inductive action {U : UUIDLib} :=
  | AWrite (es : list Envelope) (r : res WriteResult)
  | ACommit (rs : list Rec) (err : goerr)
  | AQuarantine (r : Rec) (cause : error) (err : goerr).

Section Reader.
Context {U : UUIDLib} {Wd : World} {BS : BatchStore} {T : Timers}.

Record Sys := mkSys {
  s_world : W;
  s_metrics : option Metrics;
  s_ops : list Operation;
  s_acts : list action
}.

(** The function fields of [Reader]. *)
Record Reader := mkReader {
  config : ReaderConfig;
  poll : Context -> Z -> W -> Fetches * W;
  commit : Context -> list Rec -> W -> goerr * W;
  allow : W -> W;
  quarantine : Context -> Rec -> error -> W * option Metrics -> goerr * (W * option Metrics);
  stopping : W -> bool
}.

Definition get_now : M Sys Z := gets (fun s => now (s_world s)).
Definition call {A} (f : W -> A * W) (log : A -> list action) : M Sys A :=
  fun s => let '(a, w) := f (s_world s) in
           Some (a, mkSys w (s_metrics s) (s_ops s) (s_acts s ++ log a)).
Definition measure (f : Metrics -> Metrics) : M Sys unit :=
  modify (fun s => mkSys (s_world s) (option_map f (s_metrics s)) (s_ops s) (s_acts s)).

Variable rd : Reader.

Definition notify (kind : string) (r : Rec) (err : goerr) : M Sys unit :=
  modify (fun s =>
    if has_OnOperation (config rd) then
      mkSys (s_world s) (s_metrics s)
        (s_ops s ++ [mkOperation kind (r_Topic r) (r_Partition r) (r_Offset r) err]) (s_acts s)
    else s).

Definition do_write (ctx : Context) (es : list Envelope) : M Sys (res WriteResult) :=
  call (WriteBatch ctx es) (fun r => [AWrite es r]).
Definition do_commit (ctx : Context) (rs : list Rec) : M Sys goerr :=
  call (commit rd ctx rs) (fun err => [ACommit rs err]).
Definition do_quarantine (ctx : Context) (r : Rec) (cause : error) : M Sys goerr :=
  fun s => let '(err, (w, m)) := quarantine rd ctx r cause (s_world s, s_metrics s) in
           Some (err, mkSys w m (s_ops s) (s_acts s ++ [AQuarantine r cause err])).

(** ** process.go *)

Definition next_backoff (b : Z) : Z :=
  if b <? BackoffMax (config rd) then
    let b := wrap64 (b * 2) in
    if BackoffMax (config rd) <? b then BackoffMax (config rd) else b
  else b.

Fixpoint persist_loop (fuel : nat) (ctx window : Context) (events : list Envelope) (source : Rec)
    (backoff : Z) : M Sys goerr :=
  match fuel with
  | O => diverge
  | S fuel =>
      let! start := get_now in
      match ctx_Err ctx start with
      | Some err => ret (Some err)
      | None =>
          let! r := do_write (WithTimeout window start (AttemptTimeout (config rd))) events in
          notify "storage" source (res_err r) ;;
          let! t := get_now in
          match r with
          | Ok result =>
              measure (fun m => ObserveWrite m result (map ReceivedAt events) (t - start) t) ;;
              ret None
          | Err err =>
              match ctx_Err ctx t with
              | Some err => ret (Some err)
              | None =>
                  measure ObserveRetry ;;
                  let! expired := call (select_timer window (t + backoff)) (fun _ => []) in
                  if expired then ret (Some (EWrap "attempt error" ErrRetryExhausted))
                  else persist_loop fuel ctx window events source (next_backoff backoff)
              end
          end
      end
  end.

(** Enough iterations for the retry window: each waits [BackoffMin] at
    least. *)
Definition persist_fuel : nat := Z.to_nat (RetryWindow (config rd) / BackoffMin (config rd)) + 2.

Definition persist (ctx : Context) (events : list Envelope) (source : Rec) : M Sys goerr :=
  let! t := get_now in
  persist_loop persist_fuel ctx (WithTimeout ctx t (RetryWindow (config rd))) events source
    (BackoffMin (config rd)).

(** The closure [flush], with the two slices it reads and resets. *)
Definition flush (ctx : Context) (valid : list Envelope) (source : list Rec)
    : M Sys (goerr * (list Envelope * list Rec)) :=
  match source with
  | [] => ret (None, (valid, source))
  | first :: _ =>
      let! perr := persist ctx valid first in
      match perr with
      | Some err => ret (Some err, (valid, source))
      | None =>
          let! t := get_now in
          let! cerr := do_commit (WithTimeout ctx t (AttemptTimeout (config rd))) source in
          notify "progress" (List.last source first) cerr ;;
          match cerr with
          | Some err => ret (Some (EWrap "commit source progress" err), (valid, source))
          | None => ret (None, ([], []))
          end
      end
  end.

Fixpoint process_records (ctx : Context) (valid : list Envelope) (source : list Rec)
    (records : list Rec) : M Sys goerr :=
  match records with
  | [] => let! (err, _) := flush ctx valid source in ret err
  | rec :: rest =>
      let! t := get_now in
      match ctx_Err ctx t with
      | Some err => ret (Some err)
      | None =>
          match DecodeEnvelope (slice (r_Value rec)) with
          | Err cause =>
              let! (ferr, (valid, source)) := flush ctx valid source in
              match ferr with
              | Some err => ret (Some err)
              | None =>
                  let! qerr := do_quarantine ctx rec cause in
                  notify "quarantine" rec qerr ;;
                  match qerr with
                  | Some err => ret (Some err)
                  | None =>
                      let! t := get_now in
                      let! cerr := do_commit (WithTimeout ctx t (AttemptTimeout (config rd))) [rec] in
                      notify "progress" rec cerr ;;
                      match cerr with
                      | Some err => ret (Some err)
                      | None => process_records ctx valid source rest
                      end
                  end
              end
          | Ok e =>
              let valid := valid ++ [e] in
              let source := source ++ [rec] in
              if BatchSize (config rd) <=? Z.of_nat (length valid) then
                let! (ferr, (valid, source)) := flush ctx valid source in
                match ferr with
                | Some err => ret (Some err)
                | None => process_records ctx valid source rest
                end
              else process_records ctx valid source rest
          end
      end
  end.

Definition processPartition (ctx : Context) (records : list Rec) : M Sys goerr :=
  process_records ctx [] [] records.

(** ** reader.go *)

(** [EachPartition] with the callback of [processFetched]: nothing is done
    after the first error. *)
Fixpoint each_partition (cycle : Context) (ps : list (list Rec)) (result : goerr) : M Sys goerr :=
  match ps with
  | [] => ret result
  | p :: rest =>
      match result with
      | Some _ => each_partition cycle rest result
      | None =>
          match p with
          | [] => each_partition cycle rest result
          | _ => let! result := processPartition cycle p in each_partition cycle rest result
          end
      end
  end.

(** The loop over [f.Errors()]. *)
Fixpoint fetch_error (ignorePollCancel : bool) (ctx : Context) (t : Z) (errs : list error) : goerr :=
  match errs with
  | [] => ctx_Err ctx t
  | e :: rest =>
      if ignorePollCancel && errors_Is e context_Canceled && bool_decide (ctx_Err ctx t = None)
      then fetch_error ignorePollCancel ctx t rest
      else Some (EWrap "fetch failure" e)
  end.

Definition processFetched (ctx : Context) (f : Fetches) (ignorePollCancel : bool) : M Sys goerr :=
  let! t := get_now in
  let cycle := WithTimeout ctx t (RetryWindow (config rd)) in
  let! result := each_partition cycle (partitions f) None in
  let! t := get_now in
  let result := match result with
                | Some err => Some err
                | None => fetch_error ignorePollCancel ctx t (fetch_errors f)
                end in
  call (fun w => (tt, allow rd w)) (fun _ => []) ;;
  ret result.

Definition processFetch (ctx : Context) (f : Fetches) : M Sys goerr := processFetched ctx f false.

(** [Run], for a number of cycles; the poll context, which also ends when
    polling is stopped, is the poll function's own. *)
Fixpoint Run (cycles : nat) (ctx : Context) : M Sys goerr :=
  match cycles with
  | O => diverge
  | S cycles =>
      let! t := get_now in
      match ctx_Err ctx t with
      | Some err => ret (Some err)
      | None =>
          let! stop := gets (fun s => stopping rd (s_world s)) in
          if stop then ret None
          else
            let! fetches := call (poll rd ctx (BatchSize (config rd))) (fun _ => []) in
            let! stop := gets (fun s => stopping rd (s_world s)) in
            let! err := processFetched ctx fetches stop in
            match err with
            | Some err => ret (Some err)
            | None =>
                let! stop := gets (fun s => stopping rd (s_world s)) in
                if stop then ret None else Run cycles ctx
            end
      end
  end.

(** The same loop watched for a number of cycles: [None] when it is still
    running after them. *)
Fixpoint Run_for (cycles : nat) (ctx : Context) : M Sys (option goerr) :=
  match cycles with
  | O => ret None
  | S cycles =>
      let! t := get_now in
      match ctx_Err ctx t with
      | Some err => ret (Some (Some err))
      | None =>
          let! stop := gets (fun s => stopping rd (s_world s)) in
          if stop then ret (Some None)
          else
            let! fetches := call (poll rd ctx (BatchSize (config rd))) (fun _ => []) in
            let! stop := gets (fun s => stopping rd (s_world s)) in
            let! err := processFetched ctx fetches stop in
            match err with
            | Some err => ret (Some (Some err))
            | None =>
                let! stop := gets (fun s => stopping rd (s_world s)) in
                if stop then ret (Some None) else Run_for cycles ctx
            end
      end
  end.

(** Watching for longer does not change what has ended. *)
Lemma Run_for_more cycles more ctx : forall s err s',
  Run_for cycles ctx s = Some (Some err, s') -> Run_for (cycles + more) ctx s = Some (Some err, s').
Proof.
  induction cycles as [|cycles IH]; intros s err s'; [done|]. cbn [Nat.add Run_for]. unfold bind, get_now, gets, ret.
  destruct (ctx_Err ctx _); [done|]. destruct (stopping rd _); [done|].
  destruct (call _ _ s) as [[f s1]|]; [|done]. destruct (processFetched _ _ _ s1) as [[[e|] s2]|]; [done| |done].
  destruct (stopping rd _); [done|apply IH].
Qed.

(** A loop that has ended is one that was watched to its end. *)
Lemma Run_Run_for cycles ctx : forall s err s',
  Run cycles ctx s = Some (err, s') -> Run_for cycles ctx s = Some (Some err, s').
Proof.
  induction cycles as [|cycles IH]; intros s err s'; [done|]. cbn [Run Run_for]. unfold bind, get_now, gets, ret.
  destruct (ctx_Err ctx _); [by intros [= <- <-]|]. destruct (stopping rd _); [by intros [= <- <-]|].
  destruct (call _ _ s) as [[f s1]|]; [|done]. destruct (processFetched _ _ _ s1) as [[[e|] s2]|]; [by intros [= <- <-]| |done].
  destruct (stopping rd _); [by intros [= <- <-]|apply IH].
Qed.
End Reader.

(** ** Stopping the polls

    The channel [stop] ([None] is nil, [Some true] closed) and [stopOnce]. *)
Record PollStop := mkPollStop { stop : option bool; stopOnce : bool }.

Definition new_stop : PollStop := mkPollStop (Some false) false.

(** [StopPolling]: [None] is a panic, the close of a closed channel. *)
Definition StopPolling (s : PollStop) : option PollStop :=
  if stopOnce s then Some s
  else match stop s with
       | None => Some (mkPollStop None true)
       | Some false => Some (mkPollStop (Some true) true)
       | Some true => None
       end.

(** [stopping]: a receive that does not wait; none from a nil channel. *)
Definition poll_stopped (s : PollStop) : bool := match stop s with Some true => true | _ => false end.

(** However often a new reader is stopped, it does not panic, and it is
    stopping from the first time on. *)
Lemma StopPolling_once n :
  Nat.iter n (fun s => s ≫= StopPolling) (Some new_stop) = Some (mkPollStop (Some (bool_decide (0 < n)%nat)) (bool_decide (0 < n)%nat)) /\
  (poll_stopped <$> Nat.iter n (fun s => s ≫= StopPolling) (Some new_stop)) = Some (bool_decide (0 < n)%nat).
Proof.
  assert (H : Nat.iter n (fun s => s ≫= StopPolling) (Some new_stop) = Some (mkPollStop (Some (bool_decide (0 < n)%nat)) (bool_decide (0 < n)%nat))).
  { induction n as [|n IH]; [done|]. cbn [Nat.iter nat_rect]. unfold Nat.iter in IH. rewrite IH. destruct n; reflexivity. }
  split; [done|]. rewrite H. by destruct n.
Qed.
