(* ===== verification/ReaderFacts.v ===== *)
(** * Facts about the consumer

    The ghost record of calls that each function of [Reader] leaves behind. *)
From S2P Require Import Prelude GoBytes GoTime GoJson Event Runtime Persistence Telemetry Publisher Reader.

Section Facts.
Context {U : UUIDLib} {Wd : World} {BS : BatchStore} {T : Timers}.
Variable rd : Reader.

Abbreviation acts := (list action).

(** The event of a record was stored by a successful write, or the record
    was quarantined. *)
Definition done_rec (l : acts) (r : Rec) : Prop :=
  (exists e es res, DecodeEnvelope (slice (r_Value r)) = Ok e /\ e ∈ es /\ AWrite es (Ok res) ∈ l) \/
  (exists cause, DecodeEnvelope (slice (r_Value r)) = Err cause /\ AQuarantine r cause None ∈ l).

(** Every commit, successful or not, comes after its records are done. *)
Definition commits_done (l : acts) : Prop :=
  forall pre rs err post, l = pre ++ ACommit rs err :: post -> Forall (done_rec pre) rs.

(** A write is never empty and never larger than the batch size. *)
Definition writes_bounded (l : acts) : Prop :=
  forall es r, AWrite es r ∈ l -> 1 <= Z.of_nat (length es) <= BatchSize (config rd).

(** The records of the commits attempted, and of those that succeeded. *)
Definition attempted (l : acts) : list Rec :=
  concat (map (fun a => match a with ACommit rs _ => rs | _ => [] end) l).
Definition committed (l : acts) : list Rec :=
  concat (map (fun a => match a with ACommit rs None => rs | _ => [] end) l).

Lemma done_rec_mono l l' r : l ⊆ l' -> done_rec l r -> done_rec l' r.
Proof. intros Hl [(e & es & res & ? & ? & ?)|(c & ? & ?)]; [left|right]; eauto 10. Qed.

Lemma attempted_app a c : attempted (a ++ c) = attempted a ++ attempted c.
Proof. unfold attempted. by rewrite map_app, concat_app. Qed.
Lemma committed_app a c : committed (a ++ c) = committed a ++ committed c.
Proof. unfold committed. by rewrite map_app, concat_app. Qed.

Lemma split_app {A} (a c : list A) pre x post :
  a ++ c = pre ++ x :: post ->
  (exists post', a = pre ++ x :: post' /\ post = post' ++ c) \/
  (exists pre', c = pre' ++ x :: post /\ pre = a ++ pre').
Proof.
  revert pre. induction a as [|y a IH]; intros pre H; [right; by exists pre|].
  destruct pre as [|z pre]; cbn in H; injection H as <- H.
  - left. by exists a.
  - apply IH in H as [(p & -> & ->)|(p & -> & ->)]; [left|right]; by exists p.
Qed.

Lemma commits_done_app a c : commits_done a -> commits_done c -> commits_done (a ++ c).
Proof.
  intros Ha Hc pre rs err post [(p & -> & _)|(p & -> & ->)]%split_app.
  - by eapply Ha.
  - eapply Forall_impl; [by eapply Hc|]. intros r. apply done_rec_mono. set_solver.
Qed.

Lemma writes_bounded_app a c : writes_bounded a -> writes_bounded c -> writes_bounded (a ++ c).
Proof. intros Ha Hc es r [H|H]%elem_of_app; eauto. Qed.

Definition log_ok (l : acts) : Prop := commits_done l /\ writes_bounded l.

Lemma log_ok_app a c : log_ok a -> log_ok c -> log_ok (a ++ c).
Proof. intros [? ?] [? ?]. split; [by apply commits_done_app | by apply writes_bounded_app]. Qed.

Lemma log_ok_nil : log_ok [].
Proof.
  split; [by intros [|? ?] ? ? ? ?|]. intros ? ? H. by apply not_elem_of_nil in H.
Qed.

(** ** Runs *)

(** [m] run from [s] adds the calls [new]. *)
Definition runs {A} (m : M Sys A) (s : Sys) (a : A) (s' : Sys) (new : acts) : Prop :=
  m s = Some (a, s') /\ s_acts s' = s_acts s ++ new.

Lemma runs_bind {A C} (m : M Sys A) (k : A -> M Sys C) s c s' :
  bind m k s = Some (c, s') -> exists a s1, m s = Some (a, s1) /\ k a s1 = Some (c, s').
Proof. apply bind_Some. Qed.

Lemma notify_acts kind r err s s' :
  notify rd kind r err s = Some (tt, s') -> s_acts s' = s_acts s /\ s_world s' = s_world s.
Proof. unfold notify, modify. intros [= <-]. by destruct (has_OnOperation _). Qed.

(** Writes of one batch only; the last one succeeded when the result is
    nil. *)
Definition only_writes (events : list Envelope) (l : acts) : Prop :=
  Forall (fun a => exists r, a = AWrite events r) l.

Lemma only_writes_ok events l :
  1 <= Z.of_nat (length events) <= BatchSize (config rd) -> only_writes events l ->
  log_ok l /\ attempted l = [] /\ committed l = [].
Proof.
  intros He H. induction H as [|a l [r ->] _ IH]; [split; [apply log_ok_nil|done]|].
  destruct IH as (Hok & Ha & Hc). split; [|by split]. apply (log_ok_app [_] l); [|done].
  split.
  - intros [|? [|? ?]] ? ? ? [=].
  - intros es r' [= <- <-]%list_elem_of_singleton. done.
Qed.

Lemma persist_loop_acts fuel ctx window events source backoff s err s' :
  persist_loop rd fuel ctx window events source backoff s = Some (err, s') ->
  exists new, s_acts s' = s_acts s ++ new /\ only_writes events new /\
    (err = None -> exists res, AWrite events (Ok res) ∈ new).
Proof.
  revert backoff s. induction fuel as [|fuel IH]; intros backoff s H; [done|]. cbn [persist_loop] in H.
  apply bind_Some in H as (start & s1 & [= <- <-] & H).
  destruct (ctx_Err ctx _) as [e|].
  { injection H as <- <-. exists []. rewrite app_nil_r. split; [done|]. split; [constructor|done]. }
  apply bind_Some in H as (r & s1 & Hw & H). unfold do_write, call in Hw.
  destruct (WriteBatch _ _ _) as [r' w1]. injection Hw as -> <-.
  apply bind_Some in H as ([] & s1 & Hn & H). apply notify_acts in Hn as [Hn _]. cbn [s_acts] in Hn.
  apply bind_Some in H as (t & s2 & [= <- <-] & H). destruct r as [res|e].
  - injection H as <- <-. cbn [s_acts]. exists [AWrite events (Ok res)]. split; [done|].
    split; [by repeat constructor; eexists|]. intros _. exists res. set_solver.
  - destruct (ctx_Err ctx _) as [e'|].
    { injection H as <- <-. exists [AWrite events (Err e)]. split; [done|].
      split; [by repeat constructor; eexists|done]. }
    apply bind_Some in H as ([] & s2 & [= <-] & H).
    apply bind_Some in H as (expired & s2 & Hs & H). unfold call in Hs. cbn [s_world] in Hs.
    destruct (select_timer _ _ _) as [x w2]. injection Hs as -> <-. destruct expired.
    + injection H as <- <-. cbn [s_acts]. rewrite app_nil_r. exists [AWrite events (Err e)].
      split; [done|]. split; [by repeat constructor; eexists|done].
    + apply IH in H as (new & Hnew & Ho & Hres). cbn [s_acts] in Hnew. rewrite app_nil_r, Hn in Hnew.
      exists (AWrite events (Err e) :: new). rewrite Hnew, <- app_assoc. split; [done|].
      split; [constructor; [by eexists|done]|]. intros Hnil. destruct (Hres Hnil) as [res Hr].
      exists res. set_solver.
Qed.

Definition decoded (valid : list Envelope) (source : list Rec) : Prop :=
  Forall2 (fun e r => DecodeEnvelope (slice (r_Value r)) = Ok e) valid source.

Lemma do_commit_acts ctx rs s err s' :
  do_commit rd ctx rs s = Some (err, s') -> s_acts s' = s_acts s ++ [ACommit rs err].
Proof. unfold do_commit, call. destruct (commit _ _ _ _) as [e w]. by intros [= -> <-]. Qed.

Lemma do_quarantine_acts ctx r cause s err s' :
  do_quarantine rd ctx r cause s = Some (err, s') -> s_acts s' = s_acts s ++ [AQuarantine r cause err].
Proof. unfold do_quarantine. destruct (quarantine _ _ _ _ _) as [e [w m]]. by intros [= -> <-]. Qed.

Lemma commit_log_ok l rs err :
  log_ok l -> Forall (done_rec l) rs -> log_ok (l ++ [ACommit rs err]).
Proof.
  intros [Hc Hw] Hd. split.
  - intros pre rs' err' post [(p & -> & _)|(p & H & ->)]%split_app; [by eapply Hc|].
    destruct p as [|? p]; [|by destruct p]. cbn [app] in H. injection H as <- <- <-. by rewrite app_nil_r.
  - intros es r [H|H%list_elem_of_singleton]%elem_of_app; [by eapply Hw | done].
Qed.

Lemma flush_acts ctx valid source s err v' so' s' :
  decoded valid source -> Z.of_nat (length valid) <= BatchSize (config rd) ->
  flush rd ctx valid source s = Some ((err, (v', so')), s') ->
  exists new, s_acts s' = s_acts s ++ new /\ log_ok new /\
    (attempted new = [] \/ attempted new = source) /\
    (err = None -> v' = [] /\ so' = [] /\ committed new = source) /\
    (err <> None -> committed new = []).
Proof.
  intros Hd Hb H. destruct source as [|first rest].
  { inversion Hd; subst. injection H as <- <- <- <-. exists []. rewrite app_nil_r.
    split; [done|]. split; [apply log_ok_nil|]. split; [by left|]. split; done. }
  cbn [flush] in H. apply bind_Some in H as (perr & s1 & Hp & H).
  assert (Hlen : 1 <= Z.of_nat (length valid)) by (inversion Hd; subst; cbn [length]; lia).
  unfold persist in Hp. apply bind_Some in Hp as (t & s2 & [= <- <-] & Hp).
  apply persist_loop_acts in Hp as (nw & Hnw & Ho & Hok).
  apply only_writes_ok in Ho as (Hlog & Ha & Hc); [|lia]. destruct perr as [e|].
  { injection H as <- <- <- <-. exists nw. split; [done|]. split; [done|]. split; [by left|]. split; done. }
  destruct (Hok eq_refl) as [res Hres].
  apply bind_Some in H as (t & s2 & [= <- <-] & H).
  apply bind_Some in H as (cerr & s2 & Hcm & H). apply do_commit_acts in Hcm.
  apply bind_Some in H as ([] & s3 & Hn & H). apply notify_acts in Hn as [Hn _].
  exists (nw ++ [ACommit (first :: rest) cerr]).
  assert (Hacts : s_acts s3 = s_acts s ++ nw ++ [ACommit (first :: rest) cerr])
    by (rewrite Hn, Hcm, Hnw, <- app_assoc; done).
  assert (Hdone : Forall (done_rec nw) (first :: rest)).
  { apply Forall_forall. intros r Hr. left.
    apply list_elem_of_lookup in Hr as [i Hi].
    destruct (Forall2_lookup_r _ _ _ _ _ Hd Hi) as (e & He & Hde).
    exists e, valid, res. split; [done|]. split; [by eapply list_elem_of_lookup_2|done]. }
  pose proof (commit_log_ok _ _ cerr Hlog Hdone).
  rewrite attempted_app, committed_app, Ha, Hc. unfold attempted, committed. cbn [map concat app].
  rewrite app_nil_r. destruct cerr as [e|]; injection H as <- <- <- <-.
  - split; [done|]. split; [done|]. split; [by right|]. split; done.
  - split; [done|]. split; [done|]. split; [by right|]. split; [|done]. by rewrite app_nil_r.
Qed.

Definition prefix_of_recs (a l : list Rec) : Prop := exists z, l = a ++ z.

Lemma prefix_nil l : prefix_of_recs [] l.
Proof. by exists l. Qed.
Lemma prefix_app a c l : prefix_of_recs c l -> prefix_of_recs (a ++ c) (a ++ l).
Proof. intros [z ->]. exists z. by rewrite app_assoc. Qed.
Lemma prefix_here a l : prefix_of_recs a (a ++ l).
Proof. by exists l. Qed.

(** What a run over [todo], the records not yet committed, leaves behind. *)
Definition run_log (todo : list Rec) (err : goerr) (new : acts) : Prop :=
  log_ok new /\ prefix_of_recs (attempted new) todo /\ prefix_of_recs (committed new) todo /\
  (err = None -> committed new = todo).

Lemma run_log_flush todo source err new rest :
  log_ok new -> attempted new = [] \/ attempted new = source ->
  (err <> None -> committed new = []) -> err <> None -> todo = source ++ rest -> run_log todo err new.
Proof.
  intros Hok Ha Hc He ->. split; [done|]. rewrite (Hc He). split; [|split; [apply prefix_nil|done]].
  destruct Ha as [-> | ->]; [apply prefix_nil | apply prefix_here].
Qed.

(** A stretch that committed all of [source] is followed by the rest. *)
Lemma run_log_app source rest err a c :
  log_ok a -> attempted a = source -> committed a = source -> run_log rest err c ->
  run_log (source ++ rest) err (a ++ c).
Proof.
  intros Hok Ha Hc (Hok' & Ha' & Hc' & Hn). rewrite <- Ha at 1. split; [by apply log_ok_app|].
  rewrite attempted_app, committed_app, Hc, Ha.
  split; [by apply prefix_app|]. split; [by apply prefix_app|]. intros E. by rewrite (Hn E).
Qed.

Lemma quarantine_log r cause qerr :
  log_ok [AQuarantine r cause qerr] /\ attempted [AQuarantine r cause qerr] = [] /\
  committed [AQuarantine r cause qerr] = [].
Proof.
  split; [|done]. split; [intros [|? [|? ?]] ? ? ? [=]|]. by intros es x ?%list_elem_of_singleton.
Qed.

Lemma committed_attempted l : committed l ⊆ attempted l.
Proof.
  unfold committed, attempted. induction l as [|a l IH]; [done|]. cbn.
  destruct a as [| rs [|] |]; cbn; set_solver.
Qed.

Lemma attempted_source l source : attempted l = [] \/ attempted l = source -> committed l = source -> attempted l = source.
Proof.
  intros [Ha|Ha] Hc; [|done]. pose proof (committed_attempted l) as H. rewrite Ha, Hc in H.
  destruct source as [|x source]; [done|]. exfalso. apply (not_elem_of_nil x), H. set_solver.
Qed.

Lemma process_records_log ctx records : forall valid source s err s',
  decoded valid source -> Z.of_nat (length valid) < Z.max 1 (BatchSize (config rd)) ->
  1 <= BatchSize (config rd) ->
  process_records rd ctx valid source records s = Some (err, s') ->
  exists new, s_acts s' = s_acts s ++ new /\ run_log (source ++ records) err new.
Proof.
  induction records as [|rec rest IH]; intros valid source s err s' Hd Hl Hbs H; cbn [process_records] in H.
  { apply bind_Some in H as ([ferr [v' so']] & s1 & Hf & [= <- <-]).
    apply flush_acts in Hf as (new & Hs & Hok & Ha & Hn & Hc); [|done|lia]. exists new. split; [done|].
    rewrite app_nil_r. destruct ferr as [e|].
    - eapply run_log_flush; try done. by rewrite app_nil_r.
    - destruct (Hn eq_refl) as (_ & _ & Hcm). split; [done|]. rewrite Hcm.
      split; [|split; [|done]]; [|exists []; by rewrite app_nil_r].
      rewrite (attempted_source _ _ Ha Hcm). exists []. by rewrite app_nil_r. }
  apply bind_Some in H as (t & s1 & [= <- <-] & H). destruct (ctx_Err ctx _) as [e|].
  { injection H as <- <-. exists []. rewrite app_nil_r. split; [done|].
    split; [apply log_ok_nil|]. split; [apply prefix_nil|]. split; [apply prefix_nil|done]. }
  destruct (DecodeEnvelope (slice (r_Value rec))) as [e|cause] eqn:Ed.
  - assert (Hd' : decoded (valid ++ [e]) (source ++ [rec])) by (apply Forall2_app; [done|]; by repeat constructor).
    replace (source ++ rec :: rest) with ((source ++ [rec]) ++ rest) by (by rewrite <- app_assoc).
    destruct (BatchSize (config rd) <=? _) eqn:Eb.
    + apply bind_Some in H as ([ferr [v' so']] & s1 & Hf & H).
      apply flush_acts in Hf as (new & Hs & Hok & Ha & Hn & Hc);
        [|done|rewrite length_app; cbn [length]; lia].
      destruct ferr as [e'|].
      { injection H as <- <-. exists new. split; [done|]. by eapply run_log_flush. }
      destruct (Hn eq_refl) as (-> & -> & Hcm). pose proof (attempted_source _ _ Ha Hcm).
      apply IH in H as (new' & Hs' & Hr); [|constructor|cbn; lia|done].
      exists (new ++ new'). rewrite Hs', Hs, <- app_assoc. split; [done|]. by apply run_log_app.
    + bool_to_prop. apply IH in H as (new & Hs & Hr); [|done|lia|done]. exists new. split; [done|]. done.
  - apply bind_Some in H as ([ferr [v' so']] & s1 & Hf & H).
    apply flush_acts in Hf as (new & Hs & Hok & Ha & Hn & Hc); [|done|lia].
    destruct ferr as [e'|].
    { injection H as <- <-. exists new. split; [done|]. by eapply run_log_flush. }
    destruct (Hn eq_refl) as (-> & -> & Hcm). pose proof (attempted_source _ _ Ha Hcm) as Hat.
    apply bind_Some in H as (qerr & s2 & Hq & H). apply do_quarantine_acts in Hq.
    apply bind_Some in H as ([] & s3 & Hnt & H). apply notify_acts in Hnt as [Hnt _].
    destruct (quarantine_log rec cause qerr) as (Hqok & Hqa & Hqc).
    destruct qerr as [e'|].
    { injection H as <- <-. exists (new ++ [AQuarantine rec cause (Some e')]).
      rewrite Hnt, Hq, Hs, <- app_assoc. split; [done|]. apply run_log_app; try done.
      split; [done|]. rewrite Hqa, Hqc. split; [apply prefix_nil|]. split; [apply prefix_nil|done]. }
    apply bind_Some in H as (t & s4 & [= <- <-] & H).
    apply bind_Some in H as (cerr & s4 & Hcmt & H). apply do_commit_acts in Hcmt.
    apply bind_Some in H as ([] & s5 & Hnt2 & H). apply notify_acts in Hnt2 as [Hnt2 _].
    assert (Hok2 : log_ok ([AQuarantine rec cause None] ++ [ACommit [rec] cerr])).
    { apply commit_log_ok; [done|]. constructor; [|constructor]. right. exists cause. set_solver. }
    assert (Hs5 : s_acts s5 = s_acts s ++ new ++ [AQuarantine rec cause None; ACommit [rec] cerr])
      by (rewrite Hnt2, Hcmt, Hnt, Hq, Hs, <- !app_assoc; done).
    destruct cerr as [e'|].
    { injection H as <- <-. eexists. split; [exact Hs5|]. apply run_log_app; try done.
      split; [exact Hok2|]. split; [by exists rest|]. split; [apply prefix_nil|done]. }
    apply IH in H as (new' & Hs' & Hr); [|constructor|cbn; lia|done].
    exists (new ++ [AQuarantine rec cause None; ACommit [rec] None] ++ new').
    rewrite Hs', Hs5, <- !app_assoc. split; [done|]. apply run_log_app; try done.
    by apply (run_log_app [rec] rest).
Qed.
End Facts.

(** ** What every call keeps, a cycle keeps *)

Section Keeps.
Context {U : UUIDLib} {Wd : World} {BS : BatchStore} {T : Timers}.
Variables (rd : Reader) (P : W -> Prop).

Record calls_keep : Prop := {
  keep_write ctx es w : P w -> P (snd (WriteBatch ctx es w));
  keep_timer c fire w : P w -> P (snd (select_timer c fire w));
  keep_commit ctx rs w : P w -> P (snd (commit rd ctx rs w));
  keep_quarantine ctx r c wm : P (fst wm) -> P (fst (snd (quarantine rd ctx r c wm)));
  keep_allow w : P w -> P (allow rd w)
}.

Hypothesis K : calls_keep.

Definition keeps {A} (m : M Sys A) : Prop := forall s a s', m s = Some (a, s') -> P (s_world s) -> P (s_world s').

Lemma reader_keeps_ret {A} (a : A) : keeps (ret a).
Proof. by intros s x s' [= _ <-]. Qed.
Lemma reader_keeps_gets {A} (f : Sys -> A) : keeps (gets f).
Proof. by intros s x s' [= _ <-]. Qed.
Lemma keeps_measure f : keeps (measure f).
Proof. by intros s x s' [= _ <-]. Qed.
Lemma keeps_notify kind r err : keeps (notify rd kind r err).
Proof. intros s x s' [= _ <-]. by destruct (has_OnOperation _). Qed.
Lemma reader_keeps_bind {A D} (m : M Sys A) (k : A -> M Sys D) : keeps m -> (forall a, keeps (k a)) -> keeps (bind m k).
Proof. intros Hm Hk s d s' (a & s1 & H1 & H2)%bind_Some H. eapply Hk, Hm; eauto. Qed.
Lemma keeps_call {A} (f : W -> A * W) log : (forall w, P w -> P (snd (f w))) -> keeps (call f log).
Proof. intros H s x s'. unfold call. specialize (H (s_world s)). destruct (f _). by intros [= _ <-]. Qed.
Lemma keeps_do_quarantine ctx r c : keeps (do_quarantine rd ctx r c).
Proof.
  intros s x s'. unfold do_quarantine. pose proof (keep_quarantine K ctx r c (s_world s, s_metrics s)) as H.
  destruct (quarantine _ _ _ _ _) as [e [w m]]. by intros [= _ <-].
Qed.

(** The steps of a computation, down to its calls. *)
Ltac keep :=
  repeat (cbv beta zeta; first
    [ apply reader_keeps_ret | apply reader_keeps_gets | apply keeps_measure | apply keeps_notify | apply keeps_do_quarantine
    | apply keeps_call; solve [apply (keep_write K) | apply (keep_timer K) | apply (keep_commit K) | intros w; cbn [snd]; apply (keep_allow K)]
    | apply reader_keeps_bind; [|intros ?]
    | match goal with |- keeps (match ?x with _ => _ end) => destruct x end
    | solve [auto] ]).

Lemma keeps_persist ctx events source : keeps (persist rd ctx events source).
Proof.
  unfold persist. apply reader_keeps_bind; [apply reader_keeps_gets|]. intros t. generalize (BackoffMin (config rd)).
  induction (persist_fuel rd) as [|fuel IH]; intros backoff; cbn [persist_loop]; [by intros s a s'|].
  unfold get_now, do_write. keep.
Qed.

Lemma keeps_flush ctx valid source : keeps (flush rd ctx valid source).
Proof.
  destruct source as [|first rest]; [apply reader_keeps_ret|]. cbn [flush]. apply reader_keeps_bind; [apply keeps_persist|]. intros ?.
  unfold get_now, do_commit. keep.
Qed.

Lemma keeps_process ctx records : forall valid source, keeps (process_records rd ctx valid source records).
Proof.
  induction records as [|r rest IH]; intros valid source; cbn [process_records]; unfold get_now, do_commit.
  - apply reader_keeps_bind; [apply keeps_flush|]. intros ?. keep.
  - apply reader_keeps_bind; [apply reader_keeps_gets|]. intros t. destruct (ctx_Err ctx t); [apply reader_keeps_ret|].
    destruct (DecodeEnvelope _); cbv zeta; [destruct (_ <=? _); [|apply IH]|]; (apply reader_keeps_bind; [apply keeps_flush|]); intros ?; keep.
Qed.

Lemma keeps_processFetched ctx f ign : keeps (processFetched rd ctx f ign).
Proof.
  assert (Hp : forall cycle ps result, keeps (each_partition rd cycle ps result)).
  { intros cycle ps. induction ps as [|p ps IH]; intros result; cbn [each_partition]; [apply reader_keeps_ret|].
    destruct result; [apply IH|]. destruct p; [apply IH|]. apply reader_keeps_bind; [apply keeps_process|]. apply IH. }
  unfold processFetched, get_now. keep. 
Qed.
End Keeps.
