(* ===== verification/ReaderProps.v ===== *)
(** * Properties of the consumer

    Commit discipline, termination of the retry loop, configuration. *)
From S2P Require Import Prelude GoBytes GoTime GoJson Event Runtime Persistence PersistenceProps Telemetry Publisher Reader ReaderFacts.

(** What [NewReader] establishes of a configuration, with a backoff that
    doubles without overflow. *)
Definition valid_config (c : ReaderConfig) : Prop :=
  1 <= BatchSize c <= 500 /\ 0 < AttemptTimeout c /\ 0 < RetryWindow c <= 15 * Second /\
  0 < BackoffMin c <= BackoffMax c.

Definition no_overflow (c : ReaderConfig) : Prop := BackoffMax c <= 2 ^ 62.

Lemma reader_config_ok_spec c nilStore :
  reader_config_ok c nilStore = true ->
  valid_config c /\ nilStore = false /\ rc_Brokers c <> [] /\ rc_Topic c <> [] /\ DLQTopic c <> [] /\ GroupID c <> [].
Proof.
  unfold reader_config_ok, valid_config. intros H. bool_to_prop.
  split; [lia|]. split; [done|]. split; [by destruct (rc_Brokers c)|]. done.
Qed.

Lemma NewReader_config newConsumer newClient c nilStore c' p :
  NewReader newConsumer newClient c nilStore = Ok (c', p) ->
  c' = readerDefaults c /\ reader_config_ok c' nilStore = true /\
  p_topic p = DLQTopic c /\ p_timeout p = 5 * Second.
Proof.
  unfold NewReader. cbv zeta. intros H. destruct (reader_config_ok (readerDefaults c) nilStore) eqn:E; [|done].
  cbn [negb] in H. destruct (newConsumer _); [done|].
  destruct (NewPublisher _ _) as [pub|] eqn:Ep; [|done]. injection H as <- <-. split; [done|]. split; [done|].
  unfold NewPublisher in Ep. cbv zeta in Ep. repeat case_match; simplify_eq. done.
Qed.

Section Props.
Context {U : UUIDLib} {Wd : World} {BS : BatchStore} {T : Timers}.
Context {BL : BatchStoreLaws BS} {TL : TimersLaws T}.
Variable rd : Reader.

(** ** The backoff *)

Lemma wrap64_small x : - 2 ^ 63 <= x < 2 ^ 63 -> wrap64 x = x.
Proof. intros H. unfold wrap64. rewrite Z.mod_small; lia. Qed.

Lemma next_backoff_spec b :
  no_overflow (config rd) -> 0 < b <= BackoffMax (config rd) ->
  next_backoff rd b = Z.min (2 * b) (BackoffMax (config rd)).
Proof.
  unfold no_overflow, next_backoff. intros Ho Hb. cbv zeta. destruct (b <? BackoffMax (config rd)) eqn:E; [|lia].
  bool_to_prop. rewrite wrap64_small by lia. destruct (BackoffMax (config rd) <? b * 2) eqn:E2; lia.
Qed.

(** The wait before the k-th retry is BackoffMin doubled k times, never
    above BackoffMax. *)
Theorem backoff_doubles k :
  valid_config (config rd) -> no_overflow (config rd) ->
  Nat.iter k (next_backoff rd) (BackoffMin (config rd)) =
  Z.min (BackoffMin (config rd) * 2 ^ Z.of_nat k) (BackoffMax (config rd)).
Proof.
  intros (_ & _ & _ & Hb) Ho. induction k as [|k IH]; [cbn [Nat.iter nat_rect]; lia|].
  cbn [Nat.iter nat_rect]. change (nat_rect _ _ _ k) with (Nat.iter k (next_backoff rd) (BackoffMin (config rd))).
  assert (0 < 2 ^ Z.of_nat k) by (apply Z.pow_pos_nonneg; lia).
  rewrite IH, next_backoff_spec by (done || nia). rewrite Nat2Z.inj_succ, Z.pow_succ_r by lia. nia.
Qed.

(** ** Termination of the retry loop *)

Definition total {A} (m : M Sys A) : Prop := forall s, exists a s', m s = Some (a, s').

Lemma total_bind {A C} (m : M Sys A) (k : A -> M Sys C) : total m -> (forall a, total (k a)) -> total (bind m k).
Proof. intros Hm Hk s. destruct (Hm s) as (a & s1 & E). unfold bind. rewrite E. apply Hk. Qed.

Lemma notify_world kind r err s : exists s', notify rd kind r err s = Some (tt, s') /\ s_world s' = s_world s.
Proof. unfold notify, modify. eexists. split; [done|]. by destruct (has_OnOperation _). Qed.

Lemma persist_loop_returns fuel ctx window events source backoff s deadline :
  valid_config (config rd) -> no_overflow (config rd) ->
  (forall t, deadline <= t -> ctx_Err window t <> None) ->
  BackoffMin (config rd) <= backoff <= BackoffMax (config rd) -> (0 < fuel)%nat ->
  deadline - now (s_world s) <= (Z.of_nat fuel - 1) * BackoffMin (config rd) ->
  exists err s', persist_loop rd fuel ctx window events source backoff s = Some (err, s').
Proof.
  intros Hv Ho Hw. pose proof Hv as (_ & _ & _ & Hmin).
  revert backoff s. induction fuel as [|fuel IH]; intros backoff s Hb Hf Hd; [lia|]. cbn [persist_loop].
  unfold bind at 1, get_now, gets. destruct (ctx_Err ctx _) as [e|]; [by eexists _, _|].
  unfold bind at 1, do_write, call.
  pose proof (WriteBatch_forward (WithTimeout window (now (s_world s)) (AttemptTimeout (config rd))) events (s_world s)) as Hfw.
  destruct (WriteBatch _ events (s_world s)) as [r w1]. cbn [snd] in Hfw.
  unfold bind at 1. destruct (notify_world "storage" source (res_err r) (mkSys w1 (s_metrics s) (s_ops s) (s_acts s ++ [AWrite events r]))) as (s2 & -> & Hw2).
  cbn [s_world] in Hw2. unfold bind at 1. destruct r as [res|e]; [by eexists _, _|].
  rewrite Hw2. destruct (ctx_Err ctx _) as [e'|]; [by eexists _, _|].
  unfold bind at 1, measure, modify. unfold bind at 1. cbn [s_world]. rewrite Hw2.
  pose proof (timer_forward window (now w1 + backoff) w1) as Htf.
  destruct (select_timer window (now w1 + backoff) w1) as [expired w2] eqn:Es. cbn [snd] in Htf.
  destruct expired; [by eexists _, _|]. apply timer_fired in Es as Hfire.
  assert (Hlt : now w1 < deadline).
  { apply Z.nle_gt. intros Hge. pose proof (timer_ready window (now w1 + backoff) w1 (Hw _ Hge) ltac:(lia)) as Hr.
    rewrite Es in Hr. done. }
  apply IH.
  - rewrite next_backoff_spec by (done || lia). lia.
  - nia.
  - cbn [s_world]. nia.
Qed.

(** One write per unit of fuel. *)
Lemma persist_loop_length fuel ctx window events source backoff s err s' :
  persist_loop rd fuel ctx window events source backoff s = Some (err, s') ->
  (length (s_acts s') <= length (s_acts s) + fuel)%nat.
Proof.
  revert backoff s. induction fuel as [|fuel IH]; intros backoff s H; [done|]. cbn [persist_loop] in H.
  apply bind_Some in H as (start & s1 & [= <- <-] & H).
  destruct (ctx_Err ctx _) as [e|]; [injection H as <- <-; lia|].
  apply bind_Some in H as (r & s1 & Hw & H). unfold do_write, call in Hw.
  destruct (WriteBatch _ _ _) as [r' w1]. injection Hw as -> <-.
  apply bind_Some in H as ([] & s1 & Hn & H). apply notify_acts in Hn as [Hn _]. cbn [s_acts] in Hn.
  apply bind_Some in H as (t & s2 & [= <- <-] & H).
  assert (Hl : length (s_acts s1) = (length (s_acts s) + 1)%nat) by (by rewrite Hn, length_app).
  destruct r as [res|e]; [injection H as <- <-; cbn [s_acts]; lia|].
  destruct (ctx_Err ctx _) as [e'|]; [injection H as <- <-; lia|].
  apply bind_Some in H as ([] & s2 & [= <-] & H).
  apply bind_Some in H as (expired & s2 & Hs & H). unfold call in Hs. cbn [s_world s_acts] in Hs.
  destruct (select_timer _ _ _) as [x w2]. injection Hs as -> <-. destruct expired.
  - injection H as <- <-. cbn [s_acts]. rewrite length_app. cbn. lia.
  - apply IH in H. cbn [s_acts] in H. rewrite length_app in H. cbn in H. lia.
Qed.

Lemma persist_total ctx events source :
  valid_config (config rd) -> no_overflow (config rd) -> total (persist rd ctx events source).
Proof.
  intros Hv Ho s. unfold persist, bind, get_now, gets.
  eapply (persist_loop_returns _ _ _ _ _ _ _ (now (s_world s) + RetryWindow (config rd))); try done.
  - intros t Ht. by destruct (WithTimeout_expires ctx _ _ _ Ht) as [e ->].
  - destruct Hv as (_ & _ & _ & ?). lia.
  - unfold persist_fuel. lia.
  - destruct Hv as (_ & _ & [Hrw _] & Hmin). unfold persist_fuel.
    pose proof (Z.div_mod (RetryWindow (config rd)) (BackoffMin (config rd))).
    pose proof (Z.mod_pos_bound (RetryWindow (config rd)) (BackoffMin (config rd))).
    assert (0 <= RetryWindow (config rd) / BackoffMin (config rd)) by (apply Z.div_pos; lia). nia.
Qed.

Lemma total_ret {A} (a : A) : total (ret a).
Proof. intros s. by eexists _, _. Qed.
Lemma total_now : total get_now.
Proof. intros s. by eexists _, _. Qed.
Lemma total_notify kind r err : total (notify rd kind r err).
Proof. intros s. by eexists _, _. Qed.
Lemma total_commit ctx rs : total (do_commit rd ctx rs).
Proof. intros s. unfold do_commit, call. destruct (commit _ _ _ _). by eexists _, _. Qed.
Lemma total_quarantine ctx r c : total (do_quarantine rd ctx r c).
Proof. intros s. unfold do_quarantine. destruct (quarantine _ _ _ _ _) as [? [? ?]]. by eexists _, _. Qed.
#[local] Hint Resolve total_bind total_ret total_now total_notify total_commit total_quarantine : ingest.

Lemma flush_total ctx valid source :
  valid_config (config rd) -> no_overflow (config rd) -> total (flush rd ctx valid source).
Proof.
  intros Hv Ho. destruct source as [|first rest]; [apply total_ret|]. cbn [flush].
  apply total_bind; [by apply persist_total|]. intros [e|]; [apply total_ret|].
  apply total_bind; [apply total_now|]. intros t. apply total_bind; [apply total_commit|]. intros c.
  apply total_bind; [apply total_notify|]. intros _. destruct c; apply total_ret.
Qed.

Lemma process_records_total ctx records valid source :
  valid_config (config rd) -> no_overflow (config rd) -> total (process_records rd ctx valid source records).
Proof.
  intros Hv Ho. revert valid source. induction records as [|r rest IH]; intros valid source; cbn [process_records].
  - apply total_bind; [by apply flush_total|]. intros [e ?]. apply total_ret.
  - apply total_bind; [apply total_now|]. intros t. destruct (ctx_Err ctx t); [apply total_ret|].
    destruct (DecodeEnvelope _) as [e|cause].
    + cbv zeta. destruct (_ <=? _); [|apply IH]. apply total_bind; [by apply flush_total|].
      intros [[e'|] [v' so']]; [apply total_ret | apply IH].
    + apply total_bind; [by apply flush_total|]. intros [[e'|] [v' so']]; [apply total_ret|].
      apply total_bind; [apply total_quarantine|]. intros q. apply total_bind; [apply total_notify|]. intros _.
      destruct q; [apply total_ret|]. apply total_bind; [apply total_now|]. intros t'.
      apply total_bind; [apply total_commit|]. intros c. apply total_bind; [apply total_notify|]. intros _.
      destruct c; [apply total_ret | apply IH].
Qed.

(** ** A whole poll cycle *)

Lemma committed_length (l : list action) : (length (committed l) <= length (attempted l))%nat.
Proof.
  unfold committed, attempted. induction l as [|a l IH]; [done|]. cbn.
  destruct a as [| rs [|] |]; cbn; rewrite ?length_app; lia.
Qed.

Lemma run_log_all todo new :
  run_log rd todo None new -> attempted new = todo /\ committed new = todo.
Proof.
  intros (_ & [z Hz] & _ & Hc). specialize (Hc eq_refl). split; [|done].
  pose proof (committed_length new) as Hl. rewrite Hc, Hz, length_app in Hl.
  destruct z; [by rewrite app_nil_r in Hz | cbn in Hl; lia].
Qed.

Lemma each_partition_spec cycle ps :
  valid_config (config rd) -> no_overflow (config rd) -> forall result s,
  exists err s' new, each_partition rd cycle ps result s = Some (err, s') /\
    s_acts s' = s_acts s ++ new /\
    match result with
    | Some _ => err = result /\ new = []
    | None => run_log rd (concat ps) err new
    end.
Proof.
  intros Hv Ho. induction ps as [|p ps IH]; intros result s; cbn [each_partition].
  { eexists _, _, []. split; [done|]. rewrite app_nil_r. split; [done|]. destruct result; [done|].
    split; [apply log_ok_nil|]. split; [by exists []|]. by split; [exists []|]. }
  destruct result as [e|].
  { destruct (IH (Some e) s) as (err & s' & new & H & Hs & Hr). eauto 10. }
  destruct p as [|r p]; [apply (IH None)|].
  destruct (process_records_total cycle (r :: p) [] [] Hv Ho s) as (err & s1 & Hp).
  unfold bind, processPartition. rewrite Hp.
  apply process_records_log in Hp as (new & Hs & Hr); [|constructor|cbn [length]; lia|by apply Hv]. cbn [app] in Hr.
  destruct (IH err s1) as (err' & s' & new' & H' & Hs' & Hr'). exists err', s'.
  destruct err as [e|].
  - destruct Hr' as [-> ->]. exists new. rewrite H', Hs', app_nil_r. split; [done|]. split; [done|].
    destruct Hr as (Hok & [z1 Ha] & [z2 Hc] & Hn). cbn [concat]. split; [done|].
    split; [exists (z1 ++ concat ps); by rewrite Ha, app_assoc at 1|].
    split; [exists (z2 ++ concat ps); by rewrite Hc, app_assoc at 1|]. done.
  - exists (new ++ new'). rewrite H', Hs', Hs, <- app_assoc. split; [done|]. split; [done|].
    destruct (run_log_all _ _ Hr) as [Ha Hc]. destruct Hr as (Hok & _). by apply run_log_app.
Qed.

(** C11: a poll cycle always returns, and keeps the commit discipline:
    whatever fails, every commit it attempts is of records whose events a
    preceding write has stored or that have been quarantined; the records
    it commits are a prefix of what was fetched, in order; and when it
    returns nil it has committed everything that was fetched.  Batches
    written are never empty and never exceed the batch size. *)
Theorem cycle_commits_only_done ctx f ignorePollCancel s :
  valid_config (config rd) -> no_overflow (config rd) ->
  exists err s' new, processFetched rd ctx f ignorePollCancel s = Some (err, s') /\
    s_acts s' = s_acts s ++ new /\ commits_done new /\ writes_bounded rd new /\
    prefix_of_recs (attempted new) (concat (partitions f)) /\
    prefix_of_recs (committed new) (concat (partitions f)) /\
    (err = None -> committed new = concat (partitions f)).
Proof.
  intros Hv Ho. unfold processFetched, bind at 1, get_now, gets.
  destruct (each_partition_spec (WithTimeout ctx (now (s_world s)) (RetryWindow (config rd))) (partitions f) Hv Ho None s)
    as (err & s1 & new & H & Hs & ([Hc Hw] & Ha & Hcm & Hn)).
  unfold bind. rewrite H. eexists _, _, new. split; [reflexivity|]. cbn [s_acts]. rewrite app_nil_r.
  split; [done|]. split; [done|]. split; [done|]. split; [done|]. split; [done|].
  intros He. apply Hn. by destruct err.
Qed.

(** C12: the retry loop ends.  With a configuration [NewReader] accepts,
    [persist] returns on every input: it makes at most
    RetryWindow / BackoffMin + 2 attempts, and returns nil only after an
    attempt that stored the batch. *)
Theorem persist_terminates ctx events source s :
  valid_config (config rd) -> no_overflow (config rd) ->
  exists err s' new, persist rd ctx events source s = Some (err, s') /\
    s_acts s' = s_acts s ++ new /\ only_writes events new /\
    (length new <= Z.to_nat (RetryWindow (config rd) / BackoffMin (config rd)) + 2)%nat /\
    (err = None -> exists res, AWrite events (Ok res) ∈ new).
Proof.
  intros Hv Ho. destruct (persist_total ctx events source Hv Ho s) as (err & s' & H).
  exists err, s'. unfold persist, bind, get_now, gets in H.
  pose proof H as (new & Hs & Hw & Hn)%persist_loop_acts. exists new.
  unfold persist, bind, get_now, gets. split; [done|]. split; [done|]. split; [done|]. split; [|done].
  apply persist_loop_length in H. rewrite Hs, length_app in H. unfold persist_fuel in H. lia.
Qed.
End Props.
