(* ===== verification/Delivery.v ===== *)
(** * At-least-once delivery

    An abstract specification of what the consumer does to the table, the
    dead-letter topic and the committed offsets, and the proof that the
    reader implements it: at every moment, crashes included, each record
    below a committed offset has been stored or quarantined. *)
From S2P Require Import Prelude GoBytes GoTime GoJson Event Runtime Persistence PersistenceProps Telemetry Publisher Reader ReaderFacts ReaderProps.

(** ** The specification *)

Section Spec.
Context {U : UUIDLib}.

(** The broker's source topic: the record at an offset of a partition.
    Offsets need not be contiguous. *)
Variable L : Z -> Z -> option Rec.

Record Obs := mkObs { o_rows : Table; o_dlq : list Rec; o_offset : Z -> Z }.

(** A record needs no further work: its event has a row, or it cannot be
    decoded and is in quarantine. *)
Definition processed (o : Obs) (r : Rec) : Prop :=
  (exists e, DecodeEnvelope (slice (r_Value r)) = Ok e /\ is_Some (o_rows o !! event_key e)) \/
  (exists cause, DecodeEnvelope (slice (r_Value r)) = Err cause /\ r ∈ o_dlq o).

(** No record is skipped: all below the committed offset are processed. *)
Definition Inv (o : Obs) : Prop :=
  forall p i r, i < o_offset o p -> L p i = Some r -> processed o r.

(** [kgo.CommitRecords]: the offset after the last record of each
    partition. *)
Definition commit_one (off : Z -> Z) (r : Rec) : Z -> Z :=
  fun p => if p =? r_Partition r then r_Offset r + 1 else off p.
Definition commit_offsets (off : Z -> Z) (rs : list Rec) : Z -> Z := fold_left commit_one rs off.

(** The effect of a call; a failed one may have taken effect. *)
Inductive step (o : Obs) : action -> Obs -> Prop :=
  | st_write es r : step o (AWrite es r) (mkObs (store_events (o_rows o) es) (o_dlq o) (o_offset o))
  | st_write_lost es e : step o (AWrite es (Err e)) o
  | st_quarantine r c err : step o (AQuarantine r c err) (mkObs (o_rows o) (r :: o_dlq o) (o_offset o))
  | st_quarantine_lost r c e : step o (AQuarantine r c (Some e)) o
  | st_commit rs err off : (forall p, off p = commit_offsets (o_offset o) rs p) ->
      step o (ACommit rs err) (mkObs (o_rows o) (o_dlq o) off)
  | st_commit_lost rs e : step o (ACommit rs (Some e)) o.

(** A sequence of calls that keeps [P] at every point. *)
Inductive steps (P : Obs -> Prop) (o : Obs) : list action -> Obs -> Prop :=
  | sts_nil : P o -> steps P o [] o
  | sts_cons a o1 l o' : P o -> step o a o1 -> steps P o1 l o' -> steps P o (a :: l) o'.

Abbreviation any_steps := (steps (fun _ => True)).

Lemma steps_app P o l o1 l' o' : steps P o l o1 -> steps P o1 l' o' -> steps P o (l ++ l') o'.
Proof. induction 1; intros H'; [done|]. cbn. econstructor; eauto. Qed.

Lemma steps_app_inv P o l l' o' :
  steps P o (l ++ l') o' -> exists o1, steps P o l o1 /\ steps P o1 l' o'.
Proof.
  revert o. induction l as [|a l IH]; intros o H.
  - exists o. split; [|done]. constructor. by inversion H.
  - inversion H as [|? o1 ? ? HP Hs Hr]; subst. apply IH in Hr as (o2 & H1 & H2).
    exists o2. split; [by econstructor|done].
Qed.

Lemma steps_end P o l o' : steps P o l o' -> P o'.
Proof. by induction 1. Qed.

(** Nothing stored or quarantined is lost. *)
Definition grows (o o' : Obs) : Prop := o_rows o ⊆ o_rows o' /\ o_dlq o ⊆ o_dlq o'.

#[global] Instance grows_preorder : PreOrder grows.
Proof.
  split; [by intros o; split|]. intros a b c [? ?] [? ?]. split; [by etransitivity|set_solver].
Qed.

Lemma step_grows o a o' : step o a o' -> grows o o'.
Proof.
  destruct 1; split; cbn; try done; [apply store_events_mono | set_solver].
Qed.

Lemma steps_grows P o l o' : steps P o l o' -> grows o o'.
Proof. induction 1 as [|o a o1 l o' _ Hs _ IH]; [done|]. etransitivity; [by eapply step_grows|done]. Qed.

Lemma processed_mono o o' r : grows o o' -> processed o r -> processed o' r.
Proof.
  intros [Hr Hd] [(e & He & [row Hrow])|(c & Hc & Hq)]; [left|right].
  - exists e. split; [done|]. exists row. by eapply lookup_weaken.
  - exists c. split; [done|]. by apply Hd.
Qed.

(** What a trace has done is processed after it. *)
Lemma steps_done P o l o' r : steps P o l o' -> done_rec l r -> processed o' r.
Proof.
  intros Hs Hd.
  assert (Hsplit : forall a, a ∈ l -> exists l1 l2 o1 o2, l = l1 ++ a :: l2 /\ step o1 a o2 /\ grows o2 o').
  { intros a (l1 & l2 & ->)%list_elem_of_split. apply steps_app_inv in Hs as (o1 & H1 & H2).
    inversion H2 as [|? o2 ? ? _ Hst Hr]; subst. apply steps_grows in Hr. eauto 10. }
  destruct Hd as [(e & es & res & He & Hin & Ha)|(c & Hc & Ha)];
    destruct (Hsplit _ Ha) as (l1 & l2 & o1 & o2 & -> & Hst & Hg); eapply (processed_mono o2); try done;
    inversion Hst; subst.
  - left. exists e. split; [done|]. by apply store_events_has.
  - right. exists c. split; [done|]. cbn. set_solver.
Qed.

Lemma commit_offsets_ext rs (f g : Z -> Z) : (forall p, f p = g p) -> forall p, commit_offsets f rs p = commit_offsets g rs p.
Proof.
  revert f g. induction rs as [|r rs IH]; intros f g Hfg p; [apply Hfg|]. apply (IH (commit_one f r) (commit_one g r)).
  intros q. unfold commit_one. destruct (q =? _); [done|apply Hfg].
Qed.

Lemma committed_le (l : list action) : (length (committed l) <= length (attempted l))%nat.
Proof.
  induction l as [|a l IH]; [cbn; lia|]. unfold attempted, committed in *. cbn [map concat]. rewrite !length_app.
  destruct a as [| ? [?|]|]; cbn [length]; lia.
Qed.

(** When every attempted commit succeeded, the offsets are those of the
    commits. *)
Lemma steps_offsets P o l o' :
  steps P o l o' -> attempted l = committed l -> forall p, o_offset o' p = commit_offsets (o_offset o) (committed l) p.
Proof.
  induction 1 as [o HP|o a o1 l o' HP Hst Hr IH]; intros Heq p; [done|].
  assert (Hcase : forall rs err, a = ACommit rs err -> err = None \/ rs = []).
  { intros rs [e|] ->; [|by left]. right. pose proof (committed_le l) as Hl. unfold attempted, committed in Heq, Hl. cbn [map concat] in Heq.
    apply (f_equal length) in Heq. rewrite !length_app in Heq. cbn [length] in Heq. destruct rs; [done|cbn in *; lia]. }
  assert (Hrest : attempted l = committed l).
  { unfold attempted, committed in *. cbn [map concat] in Heq. destruct a as [|rs [e|]|]; try done; [|by apply app_inv_head in Heq].
    by destruct (Hcase rs (Some e) eq_refl) as [Hn| ->]. }
  specialize (IH Hrest). rewrite IH. unfold committed. cbn [map concat]. unfold commit_offsets. rewrite fold_left_app. fold (commit_offsets).
  apply commit_offsets_ext. intros q. inversion Hst as [| | | |rs err off Hoff|rs e]; subst; cbn [o_offset]; try done.
  - destruct (Hcase rs err eq_refl) as [-> | ->]; [apply Hoff|]. rewrite Hoff. by destruct err.
Qed.

(** ** Committing in order keeps the invariant *)

(** The records still to do: they are in the log and in order, and from
    the committed offset on nothing of the log is missing below them that
    is not processed. *)
Definition pending (o : Obs) (todo : list Rec) : Prop :=
  Forall (fun r => L (r_Partition r) (r_Offset r) = Some r) todo /\
  (forall a r c, todo = a ++ r :: c -> Forall (fun x => r_Partition x = r_Partition r -> r_Offset r < r_Offset x) c) /\
  (forall p i x, o_offset o p <= i -> L p i = Some x ->
     x ∈ todo \/ processed o x \/ Forall (fun r => r_Partition r = p -> r_Offset r < i) todo).

(** What a fetch hands out when it starts at the offsets [from]: records of
    the log from there on, in order, none left out. *)
Definition fetched (from : Z -> Z) (todo : list Rec) : Prop :=
  Forall (fun r => L (r_Partition r) (r_Offset r) = Some r /\ from (r_Partition r) <= r_Offset r) todo /\
  (forall a r c, todo = a ++ r :: c -> Forall (fun x => r_Partition x = r_Partition r -> r_Offset r < r_Offset x) c) /\
  (forall p i x, from p <= i -> L p i = Some x -> x ∈ todo \/ Forall (fun r => r_Partition r = p -> r_Offset r < i) todo).

(** Only a fetch that starts at the committed offsets is safe to commit. *)
Lemma fetched_pending o from todo : (forall p, from p = o_offset o p) -> fetched from todo -> pending o todo.
Proof.
  intros Hf (H1 & H2 & H3). split; [eapply Forall_impl; [exact H1|]; by intros x [? _]|]. split; [exact H2|].
  intros p i x Hi Hx. rewrite <- Hf in Hi. destruct (H3 p i x Hi Hx); auto.
Qed.

Variable Lwf : forall p i r, L p i = Some r -> r_Partition r = p /\ r_Offset r = i.

Lemma pending_grows o o' todo :
  grows o o' -> (forall p, o_offset o' p = o_offset o p) -> pending o todo -> pending o' todo.
Proof.
  intros Hg Ho (H1 & H2 & H3). split; [done|]. split; [done|]. intros p i x Hi Hx. rewrite Ho in Hi.
  destruct (H3 p i x Hi Hx) as [?|[?|?]]; eauto using processed_mono.
Qed.

(** Dropping a processed record from the head. *)
Lemma pending_drop o r todo : processed o r -> pending o (r :: todo) -> pending o todo.
Proof.
  intros Hr (H1 & H2 & H3). apply Forall_cons in H1 as [_ H1]. split; [done|]. split.
  { intros a x c Hx. apply (H2 (r :: a) x c). by rewrite Hx. }
  intros p i x Hi Hx. destruct (H3 p i x Hi Hx) as [[->|Hin]%elem_of_cons|[?|Hf]]; eauto.
  apply Forall_cons in Hf as [_ Hf]. eauto.
Qed.

Lemma pending_commit o r todo :
  Inv o -> processed o r -> pending o (r :: todo) ->
  let o' := mkObs (o_rows o) (o_dlq o) (commit_one (o_offset o) r) in Inv o' /\ pending o' todo.
Proof.
  intros HI Hr Hp o'. pose proof Hp as (H1 & H2 & H3). apply Forall_cons in H1 as [Hlog _].
  assert (Hnext : Forall (fun x => r_Partition x = r_Partition r -> r_Offset r < r_Offset x) todo)
    by (by apply (H2 [] r todo)).
  assert (Hpr : forall x, processed o x -> processed o' x) by (by intros x; apply processed_mono).
  split.
  - intros p i x Hi Hx. apply Hpr. cbn in Hi. unfold commit_one in Hi.
    destruct (p =? r_Partition r) eqn:E; [|by eapply HI]. bool_to_prop. subst p.
    destruct (decide (i < o_offset o (r_Partition r))) as [Hlt|Hge]; [by eapply HI|].
    destruct (H3 (r_Partition r) i x) as [[->|Hin]%elem_of_cons|[?|Hf]]; [lia|done|done| |done|].
    + rewrite Forall_forall in Hnext. destruct (Lwf _ _ _ Hx) as [Hxp Hxo].
      specialize (Hnext x Hin Hxp). lia.
    + apply Forall_cons in Hf as [Hlt _]. specialize (Hlt eq_refl). lia.
  - apply pending_drop in Hp; [|done]. destruct Hp as (P1 & P2 & P3). split; [done|]. split; [done|].
    intros p i x Hi Hx. cbn in Hi. unfold commit_one in Hi. destruct (p =? r_Partition r) eqn:E.
    + bool_to_prop. subst p. destruct (decide (o_offset o (r_Partition r) <= i)) as [Hge|Hlt].
      * destruct (P3 _ i x Hge Hx) as [?|[?|?]]; eauto.
      * right. left. apply Hpr. eapply HI; [|exact Hx]. lia.
    + destruct (P3 _ i x Hi Hx) as [?|[?|?]]; eauto.
Qed.

Lemma pending_commits rs o todo :
  Inv o -> Forall (processed o) rs -> pending o (rs ++ todo) ->
  let o' := mkObs (o_rows o) (o_dlq o) (commit_offsets (o_offset o) rs) in Inv o' /\ pending o' todo.
Proof.
  revert o. induction rs as [|r rs IH]; intros o HI Hd Hp; [by destruct o|].
  apply Forall_cons in Hd as [Hr Hd]. cbn [app] in Hp.
  destruct (pending_commit o r (rs ++ todo) HI Hr Hp) as [HI' Hp'].
  apply (IH _ HI'); [|done]. eapply Forall_impl; [exact Hd|]. intros x. by apply processed_mono.
Qed.

Lemma Inv_offsets rows dlq off off' :
  (forall p, off p = off' p) -> Inv (mkObs rows dlq off) -> Inv (mkObs rows dlq off').
Proof. intros H HI p i r Hi Hr. cbn in Hi. rewrite <- H in Hi. exact (HI p i r Hi Hr). Qed.

Lemma pending_offsets rows dlq off off' todo :
  (forall p, off p = off' p) -> pending (mkObs rows dlq off) todo -> pending (mkObs rows dlq off') todo.
Proof. intros H. apply pending_grows; [done|]. cbn. intros p. by rewrite H. Qed.

(** A trace that commits only records that are done, and attempts commits
    in the order of the pending records, keeps the invariant throughout. *)
Lemma trace_safe l : forall pre o0 o o' todo,
  any_steps o0 pre o -> any_steps o l o' -> Inv o -> pending o todo ->
  commits_done (pre ++ l) -> prefix_of_recs (attempted l) todo ->
  steps Inv o l o'.
Proof.
  induction l as [|a l IH]; intros pre o0 o o' todo Hpre Hl HI Hp Hd Ha.
  { inversion Hl; subst. by constructor. }
  inversion Hl as [|? o1 ? ? _ Hst Hrest]; subst.
  assert (Hpre' : any_steps o0 (pre ++ [a]) o1) by (eapply steps_app; [exact Hpre|]; econstructor; [done|exact Hst|by constructor]).
  assert (Hd' : commits_done ((pre ++ [a]) ++ l)) by (by rewrite <- app_assoc).
  destruct Ha as [z Ha].
  assert (Hcase : exists todo', Inv o1 /\ pending o1 todo' /\ prefix_of_recs (attempted l) todo').
  { destruct Hst as [es r|es e|r c err|r c e|rs err off Hoff|rs e].
    - exists todo. split; [|split; [|by exists z]].
      + intros p i r' Hi Hr. eapply processed_mono; [|by eapply HI]. split; [apply store_events_mono|done].
      + apply (pending_grows o); [|done|exact Hp]. split; [apply store_events_mono|done].
    - exists todo. split; [done|]. split; [done|]. by exists z.
    - exists todo. split; [|split; [|by exists z]].
      + intros p i r' Hi Hr. eapply processed_mono; [|by eapply HI]. split; [done|]. cbn. set_solver.
      + apply (pending_grows o); [|done|exact Hp]. split; [done|]. cbn. set_solver.
    - exists todo. split; [done|]. split; [done|]. by exists z.
    - exists (attempted l ++ z). change (attempted (ACommit rs err :: l)) with (rs ++ attempted l) in Ha.
      rewrite <- app_assoc in Ha. subst todo.
      assert (Hdone : Forall (processed o) rs).
      { eapply Forall_impl; [by eapply Hd|]. intros r. by eapply steps_done. }
      destruct (pending_commits rs o (attempted l ++ z) HI Hdone Hp) as [HI' Hp'].
      split; [eapply Inv_offsets; [|exact HI']; intros p; by rewrite Hoff|].
      split; [eapply pending_offsets; [|exact Hp']; intros p; by rewrite Hoff | by exists z].
    - exists (attempted l ++ z). change (attempted (ACommit rs (Some e) :: l)) with (rs ++ attempted l) in Ha.
      rewrite <- app_assoc in Ha. subst todo.
      assert (Hdone : Forall (processed o) rs).
      { eapply Forall_impl; [by eapply Hd|]. intros r. by eapply steps_done. }
      split; [done|]. split; [|by exists z].
      clear -Hp Hdone. revert Hp. induction Hdone as [|r rs Hr _ IH]; [done|]. cbn [app].
      intros Hp. apply IH. by eapply pending_drop. }
  destruct Hcase as (todo' & HI' & Hp' & Ha').
  econstructor; [done|exact Hst|]. by eapply (IH (pre ++ [a])).
Qed.
End Spec.

(** ** The reader implements the specification *)

(** The broker, the database and the Kafka client behind a reader's function
    fields.  Besides what has been committed for the group, each client keeps
    in memory the offset it fetches next of every partition assigned to it. *)
Class Cluster {U : UUIDLib} {Wd : World} {BS : BatchStore} := {
  dlq : W -> list Rec;
  offset : W -> Z -> Z;
  position : Reader -> W -> Z -> option Z
}.

Definition obs {U : UUIDLib} {Wd : World} {BS : BatchStore} {C : Cluster} (w : W) : Obs :=
  mkObs (rows w) (dlq w) (offset w).

(** A client that has no partition yet: a new one. *)
Definition new_client {U : UUIDLib} {Wd : World} {BS : BatchStore} {C : Cluster} (rd : Reader) (w : W) : Prop :=
  forall p, position rd w p = None.

(** A client that has nothing in hand: all it has fetched is committed. *)
Definition in_step {U : UUIDLib} {Wd : World} {BS : BatchStore} {C : Cluster} (rd : Reader) (w : W) : Prop :=
  forall p q, position rd w p = Some q -> q = offset w p.

(** A call changes what it is meant to change and nothing else, and a failed
    one may have taken effect.  A poll goes on from the client's own position,
    committed or not, and moves it past what it hands out; only a partition
    that is assigned anew is fetched from the committed offset.  A commit
    moves no position, and allowing a rebalance may take partitions away. *)
Class ClusterLaws {U : UUIDLib} {Wd : World} {BS : BatchStore} {T : Timers} (C : Cluster) (rd : Reader)
    (L : Z -> Z -> option Rec) := {
  log_wf p i r : L p i = Some r -> r_Partition r = p /\ r_Offset r = i;
  write_frame ctx es w : let w' := snd (WriteBatch ctx es w) in dlq w' = dlq w /\ offset w' = offset w;
  timer_frame c fire w : obs (snd (select_timer c fire w)) = obs w;
  allow_frame w : obs (allow rd w) = obs w;
  poll_frame ctx n w : obs (snd (poll rd ctx n w)) = obs w;
  poll_fetches ctx n w : exists from,
    (forall p, position rd w p = Some (from p) \/ from p = offset w p) /\
    fetched L from (concat (partitions (fst (poll rd ctx n w)))) /\
    (forall p q, position rd (snd (poll rd ctx n w)) p = Some q ->
       q = commit_offsets from (concat (partitions (fst (poll rd ctx n w)))) p);
  write_position ctx es w : position rd (snd (WriteBatch ctx es w)) = position rd w;
  timer_position c fire w : position rd (snd (select_timer c fire w)) = position rd w;
  commit_position ctx rs w : position rd (snd (commit rd ctx rs w)) = position rd w;
  quarantine_position ctx r c wm : position rd (fst (snd (quarantine rd ctx r c wm))) = position rd (fst wm);
  allow_position w p : position rd (allow rd w) p = position rd w p \/ position rd (allow rd w) p = None;
  commit_frame ctx rs w : let w' := snd (commit rd ctx rs w) in rows w' = rows w /\ dlq w' = dlq w;
  commit_effect ctx rs w :
    let '(err, w') := commit rd ctx rs w in
    offset w' = commit_offsets (offset w) rs \/ (err <> None /\ offset w' = offset w);
  quarantine_frame ctx r c wm :
    let w' := fst (snd (quarantine rd ctx r c wm)) in rows w' = rows (fst wm) /\ offset w' = offset (fst wm);
  quarantine_effect ctx r c wm :
    let '(err, (w', _)) := quarantine rd ctx r c wm in
    dlq w' = r :: dlq (fst wm) \/ (err <> None /\ dlq w' = dlq (fst wm))
}.

Section Refinement.
Context {U : UUIDLib} {Wd : World} {BS : BatchStore} {T : Timers}.
Context {BL : BatchStoreLaws BS} {TL : TimersLaws T} {C : Cluster}.
Context (rd : Reader) (L : Z -> Z -> option Rec) {CL : ClusterLaws C rd L}.

Abbreviation any_steps := (steps (fun _ => True)).

(** The calls a computation records account for its whole effect. *)
Definition effects {A} (m : M Sys A) : Prop :=
  forall s a s', m s = Some (a, s') ->
  exists new, s_acts s' = s_acts s ++ new /\ any_steps (obs (s_world s)) new (obs (s_world s')).

Lemma effects_ret {A} (a : A) : effects (ret a).
Proof. intros s x s' [= <- <-]. exists []. rewrite app_nil_r. split; [done|by constructor]. Qed.

Lemma effects_bind {A D} (m : M Sys A) (k : A -> M Sys D) :
  effects m -> (forall a, effects (k a)) -> effects (bind m k).
Proof.
  intros Hm Hk s d s' (a & s1 & H1 & H2)%bind_Some.
  apply Hm in H1 as (n1 & E1 & S1). apply Hk in H2 as (n2 & E2 & S2).
  exists (n1 ++ n2). rewrite E2, E1, <- app_assoc. split; [done|]. by eapply steps_app.
Qed.

Lemma effects_quiet {A} (m : M Sys A) :
  (forall s a s', m s = Some (a, s') -> s_acts s' = s_acts s /\ obs (s_world s') = obs (s_world s)) -> effects m.
Proof.
  intros H s a s' E. apply H in E as [E ->]. exists []. rewrite app_nil_r. split; [done|by constructor].
Qed.

Lemma effects_now : effects get_now.
Proof. apply effects_quiet. by intros s a s' [= <- <-]. Qed.
Lemma effects_stopping : effects (gets (fun s => stopping rd (s_world s))).
Proof. apply effects_quiet. by intros s a s' [= <- <-]. Qed.
Lemma effects_measure f : effects (measure f).
Proof. apply effects_quiet. by intros s a s' [= <- <-]. Qed.
Lemma effects_notify kind r err : effects (notify rd kind r err).
Proof. apply effects_quiet. intros s [] s' [-> ->]%notify_acts. done. Qed.

Lemma effects_call {A} (f : W -> A * W) :
  (forall w, obs (snd (f w)) = obs w) -> effects (call f (fun _ => [])).
Proof.
  intros H. apply effects_quiet. intros s a s'. unfold call. specialize (H (s_world s)).
  destruct (f (s_world s)) as [x w]. intros [= <- <-]. cbn. by rewrite app_nil_r.
Qed.

Lemma effects_one {A} (m : M Sys A) (act : A -> action) :
  (forall s a s', m s = Some (a, s') -> s_acts s' = s_acts s ++ [act a] /\
     step (obs (s_world s)) (act a) (obs (s_world s'))) -> effects m.
Proof.
  intros H s a s' E. apply H in E as [E Hs]. exists [act a]. split; [done|].
  econstructor; [done|exact Hs|by constructor].
Qed.

Lemma effects_write ctx es : effects (do_write ctx es).
Proof.
  apply (effects_one _ (AWrite es)). intros s r s'. unfold do_write, call.
  pose proof (write_frame ctx es (s_world s)) as Hf.
  destruct (WriteBatch ctx es (s_world s)) as [x w'] eqn:E. cbv zeta in Hf. cbn [snd] in Hf.
  intros [= -> <-]. split; [done|]. cbn [s_world]. unfold obs. destruct Hf as [-> ->]. destruct r as [r|e].
  - apply WriteBatch_ok in E as (-> & _). apply (st_write (obs (s_world s))).
  - apply WriteBatch_err in E as [-> | ->]; [apply (st_write_lost (obs (s_world s)))|apply (st_write (obs (s_world s)))].
Qed.

Lemma effects_commit ctx rs : effects (do_commit rd ctx rs).
Proof.
  apply (effects_one _ (ACommit rs)). intros s err s' H. split; [by apply do_commit_acts in H|].
  revert H. unfold do_commit, call. pose proof (commit_frame ctx rs (s_world s)) as Hf.
  pose proof (commit_effect ctx rs (s_world s)) as He.
  destruct (commit rd ctx rs (s_world s)) as [x w']. cbv zeta in Hf. cbn [snd] in Hf. intros [= -> <-].
  cbn [s_world]. unfold obs. destruct Hf as [-> ->]. destruct He as [-> | [Hn ->]].
  - by apply (st_commit (obs (s_world s))).
  - destruct err; [|done]. apply (st_commit_lost (obs (s_world s))).
Qed.

Lemma effects_quarantine ctx r c : effects (do_quarantine rd ctx r c).
Proof.
  apply (effects_one _ (AQuarantine r c)). intros s err s' H. split; [by apply do_quarantine_acts in H|].
  revert H. unfold do_quarantine. pose proof (quarantine_frame ctx r c (s_world s, s_metrics s)) as Hf.
  pose proof (quarantine_effect ctx r c (s_world s, s_metrics s)) as He.
  destruct (quarantine rd ctx r c (s_world s, s_metrics s)) as [x [w' m']]. cbv zeta in Hf. cbn [fst snd] in *.
  intros [= -> <-]. cbn [s_world]. unfold obs. destruct Hf as [-> ->]. destruct He as [-> | [Hn ->]].
  - apply (st_quarantine (obs (s_world s))).
  - destruct err; [|done]. apply (st_quarantine_lost (obs (s_world s))).
Qed.

Lemma effects_persist_loop fuel ctx window events source backoff :
  effects (persist_loop rd fuel ctx window events source backoff).
Proof.
  revert backoff. induction fuel as [|fuel IH]; intros backoff; [by intros s a s' H|]. cbn [persist_loop].
  apply effects_bind; [apply effects_now|]. intros t. destruct (ctx_Err ctx t); [apply effects_ret|].
  apply effects_bind; [apply effects_write|]. intros r. apply effects_bind; [apply effects_notify|]. intros _.
  apply effects_bind; [apply effects_now|]. intros t'. destruct r as [res|e].
  - apply effects_bind; [apply effects_measure|]. intros _. apply effects_ret.
  - destruct (ctx_Err ctx t'); [apply effects_ret|]. apply effects_bind; [apply effects_measure|]. intros _.
    apply effects_bind; [apply effects_call, timer_frame|]. intros [|]; [apply effects_ret|apply IH].
Qed.

Lemma effects_flush ctx valid source : effects (flush rd ctx valid source).
Proof.
  destruct source as [|first rest]; [apply effects_ret|]. cbn [flush].
  apply effects_bind; [apply effects_bind; [apply effects_now|intros t; apply effects_persist_loop]|].
  intros [e|]; [apply effects_ret|].
  apply effects_bind; [apply effects_now|]. intros t. apply effects_bind; [apply effects_commit|]. intros c.
  apply effects_bind; [apply effects_notify|]. intros _. destruct c; apply effects_ret.
Qed.

Lemma effects_process ctx records valid source : effects (process_records rd ctx valid source records).
Proof.
  revert valid source. induction records as [|r rest IH]; intros valid source; cbn [process_records].
  - apply effects_bind; [apply effects_flush|]. intros [e ?]. apply effects_ret.
  - apply effects_bind; [apply effects_now|]. intros t. destruct (ctx_Err ctx t); [apply effects_ret|].
    destruct (DecodeEnvelope _) as [e|cause].
    + cbv zeta. destruct (_ <=? _); [|apply IH]. apply effects_bind; [apply effects_flush|].
      intros [[e'|] [v' so']]; [apply effects_ret | apply IH].
    + apply effects_bind; [apply effects_flush|]. intros [[e'|] [v' so']]; [apply effects_ret|].
      apply effects_bind; [apply effects_quarantine|]. intros q.
      apply effects_bind; [apply effects_notify|]. intros _.
      destruct q; [apply effects_ret|]. apply effects_bind; [apply effects_now|]. intros t'.
      apply effects_bind; [apply effects_commit|]. intros c. apply effects_bind; [apply effects_notify|]. intros _.
      destruct c; [apply effects_ret | apply IH].
Qed.

Lemma effects_each_partition cycle ps result : effects (each_partition rd cycle ps result).
Proof.
  revert result. induction ps as [|p ps IH]; intros result; cbn [each_partition]; [apply effects_ret|].
  destruct result; [apply IH|]. destruct p; [apply IH|]. apply effects_bind; [apply effects_process | apply IH].
Qed.

Lemma effects_processFetched ctx f ign : effects (processFetched rd ctx f ign).
Proof.
  apply effects_bind; [apply effects_now|]. intros t. apply effects_bind; [apply effects_each_partition|]. intros r.
  apply effects_bind; [apply effects_now|]. intros t'. apply effects_bind; [apply effects_call|].
  - intros w. cbn. apply allow_frame.
  - intros _. apply effects_ret.
Qed.

Context (Hv : valid_config (config rd)) (Ho : no_overflow (config rd)).

(** A cycle returns; what it commits it has done, in the order it fetched. *)
Lemma cycle_trace ctx f ign s :
  exists err s' new, processFetched rd ctx f ign s = Some (err, s') /\ s_acts s' = s_acts s ++ new /\
    commits_done new /\ prefix_of_recs (attempted new) (concat (partitions f)).
Proof.
  unfold processFetched, bind at 1, get_now, gets.
  destruct (each_partition_spec rd (WithTimeout ctx (now (s_world s)) (RetryWindow (config rd))) (partitions f) Hv Ho None s)
    as (err1 & s1 & new & H1 & Hs1 & ([Hc _] & Ha & _)).
  unfold bind. rewrite H1. eexists _, _, new. split; [reflexivity|]. cbn [s_acts]. by rewrite app_nil_r.
Qed.

(** A cycle without an error commits all it fetched. *)
Lemma cycle_offsets ctx f ign s s' :
  processFetched rd ctx f ign s = Some (None, s') ->
  forall p, offset (s_world s') p = commit_offsets (offset (s_world s)) (concat (partitions f)) p.
Proof.
  intros H. pose proof H as (new & Hs & Hst)%effects_processFetched.
  unfold processFetched, bind at 1, get_now, gets in H.
  destruct (each_partition_spec rd (WithTimeout ctx (now (s_world s)) (RetryWindow (config rd))) (partitions f) Hv Ho None s)
    as (err1 & s1 & new1 & H1 & Hs1 & (_ & [z Ha] & _ & Hn)).
  unfold bind in H. rewrite H1 in H. injection H as He <-. cbn [s_acts s_world] in *.
  assert (E1 : err1 = None) by (by destruct err1). specialize (Hn E1).
  rewrite app_nil_r, Hs1 in Hs. apply app_inv_head in Hs as ->.
  assert (Heq : attempted new = committed new).
  { rewrite Hn, Ha. pose proof (committed_le new) as Hlen. rewrite Hn, Ha, length_app in Hlen. destruct z; [by rewrite app_nil_r|cbn in Hlen; lia]. }
  intros p. pose proof (steps_offsets _ _ _ _ Hst Heq p) as Hp. rewrite Hn in Hp. exact Hp.
Qed.

(** What a poll of a client with nothing in hand hands out is pending, and
    the client's positions are then past it. *)
Lemma poll_in_step ctx n w :
  in_step rd w -> pending L (obs w) (concat (partitions (fst (poll rd ctx n w)))) /\
    Forall (fun r => offset w (r_Partition r) <= r_Offset r) (concat (partitions (fst (poll rd ctx n w)))) /\
    forall p q, position rd (snd (poll rd ctx n w)) p = Some q ->
      q = commit_offsets (offset w) (concat (partitions (fst (poll rd ctx n w)))) p.
Proof.
  intros Hin. destruct (poll_fetches ctx n w) as (from & Hfrom & Hf & Hq).
  assert (Heq : forall p, from p = offset w p) by (intros p; destruct (Hfrom p) as [E|E]; [by apply Hin|done]).
  split; [by eapply fetched_pending|]. split.
  - eapply Forall_impl; [apply Hf|]. intros r [_ Hr]. by rewrite <- Heq.
  - intros p q Hp. rewrite (Hq p q Hp). by apply commit_offsets_ext.
Qed.

(** A cycle moves no position. *)
Lemma cycle_position (t : Z -> Z) ctx f ign s err s' :
  processFetched rd ctx f ign s = Some (err, s') -> (forall p q, position rd (s_world s) p = Some q -> q = t p) ->
  forall p q, position rd (s_world s') p = Some q -> q = t p.
Proof.
  intros H. refine (keeps_processFetched rd (fun w => forall p q, position rd w p = Some q -> q = t p) _ _ _ _ _ _ _ H).
  constructor.
  - intros c es w Hw. by rewrite write_position.
  - intros c fire w Hw. by rewrite timer_position.
  - intros c rs w Hw. by rewrite commit_position.
  - intros c r e wm Hw. by rewrite quarantine_position.
  - intros w Hw p q. destruct (allow_position w p) as [-> | ->]; [apply Hw|done].
Qed.

(** After a cycle without an error the client has nothing in hand again. *)
Lemma cycle_in_step ctx n w f w1 s s' ign :
  in_step rd w -> poll rd ctx n w = (f, w1) -> s_world s = w1 -> processFetched rd ctx f ign s = Some (None, s') ->
  in_step rd (s_world s').
Proof.
  intros Hin Hp Hw Hc p q. destruct (poll_in_step ctx n w Hin) as (_ & _ & Hpos). pose proof (poll_frame ctx n w) as Hfr.
  rewrite Hp in *. cbn [fst snd] in *. assert (Ho1 : offset w1 = offset w) by (by injection Hfr).
  rewrite (cycle_offsets _ _ _ _ _ Hc), Hw, Ho1. revert p q. eapply cycle_position; [exact Hc|]. by rewrite Hw.
Qed.

Lemma cycle_safe ctx f ign s :
  Inv L (obs (s_world s)) -> pending L (obs (s_world s)) (concat (partitions f)) ->
  exists err s' new, processFetched rd ctx f ign s = Some (err, s') /\ s_acts s' = s_acts s ++ new /\
    steps (Inv L) (obs (s_world s)) new (obs (s_world s')).
Proof.
  intros HI Hp. destruct (cycle_trace ctx f ign s) as (err & s' & new & H & Hs & Hc & Ha).
  exists err, s', new. split; [done|]. split; [done|]. apply effects_processFetched in H as (new' & Hs' & Hst).
  rewrite Hs in Hs'. apply app_inv_head in Hs' as <-. eapply (trace_safe L log_wf new []); try done. by constructor.
Qed.

(** Watched for any number of cycles, the reader has done calls that kept the
    invariant at every point; and while it runs on, all it has fetched is
    committed. *)
Lemma Run_for_safe cycles ctx s :
  Inv L (obs (s_world s)) -> in_step rd (s_world s) ->
  exists r s' new, Run_for rd cycles ctx s = Some (r, s') /\ s_acts s' = s_acts s ++ new /\
    steps (Inv L) (obs (s_world s)) new (obs (s_world s')) /\ (r = None -> in_step rd (s_world s')).
Proof.
  revert s. induction cycles as [|cycles IH]; intros s HI Hin; cbn [Run_for].
  { exists None, s, []. rewrite app_nil_r. split; [done|]. split; [done|]. split; [by constructor|done]. }
  assert (Hend : forall r : goerr, exists r' s' new, ret (Some r) s = Some (r', s') /\ s_acts s' = s_acts s ++ new /\
    steps (Inv L) (obs (s_world s)) new (obs (s_world s')) /\ (r' = None -> in_step rd (s_world s')))
    by (intros r; exists (Some r), s, []; rewrite app_nil_r; split; [done|split; [done|split; [by constructor|done]]]).
  unfold bind, get_now, gets. destruct (ctx_Err ctx _); [apply Hend|]. destruct (stopping rd _); [apply Hend|].
  unfold call. pose proof (poll_frame ctx (BatchSize (config rd)) (s_world s)) as Hfr.
  destruct (poll_in_step ctx (BatchSize (config rd)) (s_world s) Hin) as (Hpe & _ & _).
  destruct (poll rd ctx _ (s_world s)) as [f w1] eqn:Ep. cbn [fst snd s_world] in *.
  set (s1 := mkSys w1 _ _ _). set (ign := stopping rd w1).
  destruct (cycle_safe ctx f ign s1) as (perr & s2 & new & Hcy & Hs & Hst); cbn [s1 s_world s_acts] in *; [by rewrite Hfr|by rewrite Hfr|].
  rewrite Hcy. rewrite app_nil_r in Hs. rewrite Hfr in Hst.
  destruct perr as [e|]; [exists (Some (Some e)), s2, new; by eauto|].
  destruct (stopping rd (s_world s2)); [exists (Some None), s2, new; by eauto|].
  destruct (IH s2) as (r & s3 & new' & Hr & Hs' & Hst' & Hin'); [by eapply steps_end|exact (cycle_in_step _ _ _ _ _ s1 s2 _ Hin Ep eq_refl Hcy)|].
  exists r, s3, (new ++ new'). rewrite Hs', Hs, <- app_assoc. split; [done|]. split; [done|]. split; [by eapply steps_app|done].
Qed.

Lemma Run_safe cycles ctx s err s' :
  Inv L (obs (s_world s)) -> in_step rd (s_world s) -> Run rd cycles ctx s = Some (err, s') ->
  exists new, s_acts s' = s_acts s ++ new /\ steps (Inv L) (obs (s_world s)) new (obs (s_world s')).
Proof.
  intros HI Hin H. apply Run_Run_for in H. destruct (Run_for_safe cycles ctx s HI Hin) as (r & s1 & new & Hr & Hs & Hst & _).
  rewrite Hr in H. injection H as -> ->. by exists new.
Qed.

(** A new client has nothing in hand. *)
Lemma new_client_in_step w : new_client rd w -> in_step rd w.
Proof. intros H p q. by rewrite H. Qed.

(** C2: no event is skipped.  A reader starts with a new client.  However
    long it runs and whatever calls fail or are lost, it never gets stuck
    within a cycle, and at every point of its run (so also after a crash at
    that point) every record of the source topic below a committed offset has
    been stored, or cannot be decoded and has been quarantined; nothing
    stored or quarantined is lost.  Its client fetches on from its own
    position, whether or not what came before is committed, so this rests on
    the run ending with the first error: as long as it runs on, the client's
    positions are the committed offsets at the start of every cycle. *)
Theorem run_never_skips cycles ctx s :
  Inv L (obs (s_world s)) -> new_client rd (s_world s) ->
  exists r s' new, Run_for rd cycles ctx s = Some (r, s') /\
    s_acts s' = s_acts s ++ new /\ steps (Inv L) (obs (s_world s)) new (obs (s_world s')) /\
    grows (obs (s_world s)) (obs (s_world s')) /\ (r = None -> in_step rd (s_world s')).
Proof.
  intros HI Hn. destruct (Run_for_safe cycles ctx s HI (new_client_in_step _ Hn)) as (r & s' & new & Hr & Hs & Hst & Hin).
  exists r, s', new. split; [done|]. split; [done|]. split; [done|]. split; [by eapply steps_grows|done].
Qed.
End Refinement.

(** ** The life of a consumer

    What a deployment of the consumer goes through: runs of readers, each with
    a new client or going on where a cycle without an error has left it,
    crashes between any two calls of a cycle, and everything else (pings, new
    clients, waiting, restarts), which leaves the table, the dead letters and
    the committed offsets alone. *)
Section Life.
Context {U : UUIDLib} {Wd : World} {BS : BatchStore} {T : Timers} {C : Cluster}.
Variable good : Reader -> Prop.

Inductive life : W -> W -> Prop :=
  | life_refl w : life w w
  | life_idle w w' w'' : obs w' = obs w -> life w' w'' -> life w w''
  | life_run rd cycles ctx s r s' w' :
      good rd -> in_step rd (s_world s) -> Run_for rd cycles ctx s = Some (r, s') -> life (s_world s') w' -> life (s_world s) w'
  (** the process dies in a cycle, after some of its calls *)
  | life_crash rd ctx s r s' made lost w1 w' :
      good rd -> in_step rd (s_world s) -> Run_for rd 1 ctx s = Some (r, s') -> s_acts s' = s_acts s ++ made ++ lost ->
      steps (fun _ => True) (obs (s_world s)) made (obs w1) -> life w1 w' -> life (s_world s) w'.

Lemma life_trans w1 w2 w3 : life w1 w2 -> life w2 w3 -> life w1 w3.
Proof. induction 1; intros H'; [done|..]; [eapply life_idle|eapply life_run|eapply life_crash]; eauto. Qed.

Lemma life_frame w w' : obs w' = obs w -> life w w'.
Proof. intros H. by eapply life_idle; [|constructor]. Qed.

Context {BL : BatchStoreLaws BS} {TL : TimersLaws T} (L : Z -> Z -> option Rec).
Hypothesis good_ok : forall rd, good rd -> ClusterLaws C rd L /\ valid_config (config rd) /\ no_overflow (config rd).

Lemma crash_safe rd ctx s r s' made lost o :
  good rd -> in_step rd (s_world s) -> Inv L (obs (s_world s)) -> Run_for rd 1 ctx s = Some (r, s') -> s_acts s' = s_acts s ++ made ++ lost ->
  steps (fun _ => True) (obs (s_world s)) made o -> Inv L o /\ grows (obs (s_world s)) o.
Proof.
  intros Hg Hin HI Hr Hs Hst. destruct (good_ok rd Hg) as (CL & Hv & Ho). split; [|by eapply steps_grows].
  assert (Hnil : s_acts s = s_acts s ++ made ++ lost -> Inv L o).
  { intros E. rewrite <- (app_nil_r (s_acts s)) in E at 1. apply app_inv_head in E. symmetry in E. apply app_nil in E as [-> _].
    inversion Hst; by subst. }
  revert Hr. cbn [Run_for]. unfold bind, get_now, gets. destruct (ctx_Err ctx _); [intros [= _ <-]; by apply Hnil|].
  destruct (stopping rd _); [intros [= _ <-]; by apply Hnil|]. unfold call.
  pose proof (poll_frame ctx (BatchSize (config rd)) (s_world s)) as Hfr.
  destruct (poll_in_step rd L ctx (BatchSize (config rd)) (s_world s) Hin) as (Hpe & _ & _).
  destruct (poll rd ctx _ (s_world s)) as [f w1]. cbn [fst snd s_world] in *. set (s1 := mkSys w1 _ _ _).
  destruct (cycle_trace rd Hv Ho ctx f (stopping rd w1) s1) as (perr & s2 & new & -> & Hs2 & Hc & Ha). cbn [s1 s_acts] in Hs2.
  rewrite app_nil_r in Hs2. intros E.
  assert (s2 = s') as -> by (destruct perr; [by injection E|destruct (stopping rd _) in E; by injection E]).
  rewrite Hs in Hs2. apply app_inv_head in Hs2 as <-.
  eapply steps_end, (trace_safe L (log_wf (rd := rd)) made []); try done.
  - by constructor.
  - intros l1 rs err l2 E2. apply (Hc l1 rs err (l2 ++ lost)). cbn in E2. by rewrite E2, <- app_assoc.
  - destruct Ha as [z Ha]. exists (attempted lost ++ z). rewrite Ha. unfold attempted. by rewrite map_app, concat_app, <- app_assoc.
Qed.

(** No record is skipped in the whole life of a consumer, and what was stored
    or quarantined stays. *)
Lemma life_safe w w' : life w w' -> Inv L (obs w) -> Inv L (obs w') /\ grows (obs w) (obs w').
Proof.
  induction 1 as [w|w w1 w2 Ho _ IH|rd cycles ctx s r s' w' Hg Hin Hr _ IH|rd ctx s r s' made lost w1 w' Hg Hin Hr Hs Hst _ IH]; intros HI.
  - done.
  - rewrite <- Ho in HI |- *. by apply IH.
  - destruct (good_ok rd Hg) as (CL & Hv & Hov).
    destruct (Run_for_safe rd L Hv Hov cycles ctx s HI Hin) as (r1 & s1 & new & Hr1 & _ & Hst & _). rewrite Hr1 in Hr. injection Hr as -> ->.
    destruct (IH (steps_end _ _ _ _ Hst)) as [? ?]. split; [done|]. etransitivity; [by eapply steps_grows|done].
  - destruct (crash_safe rd ctx s r s' made lost (obs w1) Hg Hin HI Hr Hs Hst) as [HI1 Hg1]. destruct (IH HI1). split; [done|]. by etransitivity.
Qed.
End Life.
