(* ===== verification/Progress.v ===== *)
(** * The reader catches up

    What a cycle without an error does to the committed offsets, and how long
    a reader can run before it has committed all of its topic. *)
From S2P Require Import Prelude GoBytes GoTime GoJson Event Runtime Persistence PersistenceProps Telemetry Publisher Reader ReaderFacts ReaderProps Delivery.

(** The broker hands out records of its topic, and to a client that has
    nothing in hand some of the records that are not committed, while there
    are any. *)
Class PollLaws {U : UUIDLib} {Wd : World} {BS : BatchStore} {T : Timers} (C : Cluster) (rd : Reader) (topic : list Rec) := {
  poll_topic ctx n w : Forall (fun r => r ∈ topic) (concat (partitions (fst (poll rd ctx n w))));
  poll_productive ctx n w : in_step rd w -> 1 <= n -> fetch_errors (fst (poll rd ctx n w)) = [] ->
    Exists (fun r => offset w (r_Partition r) <= r_Offset r) topic -> concat (partitions (fst (poll rd ctx n w))) <> []
}.

Section Offsets.
Context {U : UUIDLib}.

(** The offsets move past fresh records, in order. *)
Lemma commit_offsets_past (off : Z -> Z) rs :
  Forall (fun r => off (r_Partition r) <= r_Offset r) rs ->
  (forall a r c, rs = a ++ r :: c -> Forall (fun x => r_Partition x = r_Partition r -> r_Offset r < r_Offset x) c) ->
  (forall p, off p <= commit_offsets off rs p) /\ Forall (fun r => r_Offset r < commit_offsets off rs (r_Partition r)) rs.
Proof.
  revert off. induction rs as [|r rs IH]; intros off Hf Hord; [split; [done|constructor]|].
  apply Forall_cons in Hf as [Hr Hf]. pose proof (Hord [] r rs eq_refl) as Hnext.
  destruct (IH (commit_one off r)) as [Hmono Hpast].
  { rewrite Forall_forall in Hf, Hnext |- *. intros x Hx. unfold commit_one. destruct (_ =? _) eqn:E; [|by apply Hf].
    bool_to_prop. specialize (Hnext x Hx E). lia. }
  { intros a x c ->. by apply (Hord (r :: a) x c). }
  assert (Hone : forall p, off p <= commit_one off r p).
  { intros p. unfold commit_one. destruct (p =? _) eqn:E; [|lia]. bool_to_prop. subst p. lia. }
  change (commit_offsets off (r :: rs)) with (commit_offsets (commit_one off r) rs). split.
  - intros p. specialize (Hmono p). specialize (Hone p). lia.
  - constructor; [|done]. specialize (Hmono (r_Partition r)). unfold commit_one in Hmono at 1. rewrite Z.eqb_refl in Hmono. lia.
Qed.

(** The records of the topic that are not committed. *)
Definition backlog (topic : list Rec) (off : Z -> Z) : nat :=
  length (filter (fun r => off (r_Partition r) <= r_Offset r) topic).

Lemma backlog_mono topic off off' : (forall p, off p <= off' p) -> (backlog topic off' <= backlog topic off)%nat.
Proof.
  intros Hmono. unfold backlog. induction topic as [|x l IH]; [done|]. rewrite !filter_cons. specialize (Hmono (r_Partition x)).
  repeat case_decide; cbn [length]; lia.
Qed.

Lemma backlog_less topic off off' r :
  (forall p, off p <= off' p) -> r ∈ topic -> off (r_Partition r) <= r_Offset r < off' (r_Partition r) ->
  (backlog topic off' < backlog topic off)%nat.
Proof.
  intros Hmono. induction topic as [|x l IH]; [set_solver|]. intros Hin Hr. pose proof (backlog_mono l _ _ Hmono) as Hl.
  unfold backlog in *. rewrite !filter_cons. apply elem_of_cons in Hin as [->|Hin].
  - rewrite decide_False, decide_True by lia. cbn [length]. lia.
  - specialize (IH Hin Hr). specialize (Hmono (r_Partition x)). repeat case_decide; cbn [length]; lia.
Qed.
End Offsets.

Section CatchUp.
Context {U : UUIDLib} {Wd : World} {BS : BatchStore} {T : Timers} {BL : BatchStoreLaws BS} {TL : TimersLaws T} {C : Cluster}.
Context (rd : Reader) (L : Z -> Z -> option Rec) {CL : ClusterLaws C rd L} (topic : list Rec) {PL : PollLaws C rd topic}.
Context (Hv : valid_config (config rd)) (Ho : no_overflow (config rd)).

(** The channel [stop] is closed once and for all. *)
Context (Hstop : calls_keep rd (fun w => stopping rd w = true)).

(** A cycle that ends neither the run nor the polling shortens the backlog. *)
Lemma cycle_backlog ctx n w f w1 s s' :
  in_step rd w -> 1 <= n -> poll rd ctx n w = (f, w1) -> s_world s = w1 ->
  processFetched rd ctx f (stopping rd w1) s = Some (None, s') -> stopping rd (s_world s') = false ->
  (backlog topic (offset (s_world s')) <= Nat.pred (backlog topic (offset w)))%nat.
Proof.
  intros Hin Hn Hpoll Hw Hcy Hns. pose proof (poll_topic (topic := topic) ctx n w) as Ht.
  pose proof (poll_productive (topic := topic) ctx n w Hin Hn) as Hp. destruct (poll_in_step rd L ctx n w Hin) as ((_ & Hord & _) & Hf & _).
  pose proof (poll_frame ctx n w) as Hfr. rewrite Hpoll in *. cbn [fst snd] in *.
  assert (Hoff : offset w1 = offset w) by (by injection Hfr).
  assert (Herrs : fetch_errors f = []).
  { destruct (stopping rd w1) eqn:Es.
    - pose proof (keeps_processFetched rd _ Hstop _ _ _ _ _ _ Hcy ltac:(by rewrite Hw)). congruence.
    - unfold processFetched, bind, get_now, gets in Hcy. destruct (each_partition _ _ _ _ _) as [[err s1]|]; [|done].
      injection Hcy as He _. destruct err; [done|]. destruct (fetch_errors f); [done|]. cbn in He. done. }
  specialize (Hp Herrs). pose proof (cycle_offsets rd L Hv Ho _ _ _ _ _ Hcy) as Hc. rewrite Hw, Hoff in Hc.
  destruct (commit_offsets_past (offset w) _ Hf Hord) as [Hmono Hpast]. set (todo := concat (partitions f)) in *.
  assert (Hm : forall p, offset w p <= offset (s_world s') p) by (intros p; rewrite Hc; apply Hmono).
  destruct todo as [|r rest].
  - assert (Hnone : backlog topic (offset w) = 0%nat).
    { unfold backlog. destruct (filter _ topic) as [|x l] eqn:Ex; [done|]. destruct Hp; [|done]. apply Exists_exists. exists x.
      assert (Hx : x ∈ filter (fun r => offset w (r_Partition r) <= r_Offset r) topic) by (rewrite Ex; set_solver).
      by apply list_elem_of_filter in Hx as [? ?]. }
    pose proof (backlog_mono topic _ _ Hm). lia.
  - apply Forall_cons in Ht as [Ht _]. apply Forall_cons in Hf as [Hf _]. apply Forall_cons in Hpast as [Hpast _].
    pose proof (backlog_less topic (offset w) (offset (s_world s')) r Hm Ht) as Hless. rewrite Hc in Hless. specialize (Hless (conj Hf Hpast)). lia.
Qed.

(** A reader still running after that many cycles has committed all. *)
Lemma Run_for_catches_up cycles ctx s :
  in_step rd (s_world s) -> (backlog topic (offset (s_world s)) <= cycles)%nat ->
  exists r s', Run_for rd cycles ctx s = Some (r, s') /\
    (r = None -> Forall (fun x => r_Offset x < offset (s_world s') (r_Partition x)) topic).
Proof.
  revert s. induction cycles as [|cycles IH]; intros s Hin Hb; cbn [Run_for].
  { exists None, s. split; [done|]. intros _. apply Forall_forall. intros x Hx. apply Z.nle_gt. intros Hle.
    unfold backlog in Hb. apply Nat.le_0_r, length_zero_iff_nil in Hb.
    assert (Hx' : x ∈ filter (fun r => offset (s_world s) (r_Partition r) <= r_Offset r) topic) by (by apply list_elem_of_filter).
    rewrite Hb in Hx'. set_solver. }
  unfold bind, get_now, gets. destruct (ctx_Err ctx _); [by eexists _, _|]. destruct (stopping rd _); [by eexists _, _|].
  unfold call. destruct (poll rd ctx _ (s_world s)) as [f w1] eqn:Ep. cbn [s_world]. set (s1 := mkSys w1 _ _ _).
  destruct (cycle_trace rd Hv Ho ctx f (stopping rd w1) s1) as (perr & s2 & new & Hcy & _). rewrite Hcy.
  destruct perr as [e|]; [by eexists _, _|]. destruct (stopping rd (s_world s2)) eqn:Es; [by eexists _, _|].
  apply IH; [exact (cycle_in_step rd L Hv Ho _ _ _ _ _ s1 s2 _ Hin Ep eq_refl Hcy)|].
  apply (cycle_backlog ctx _ _ _ _ s1 s2 Hin) in Ep; [|apply Hv|done|done|done]. lia.
Qed.
(** C5: the reader catches up.  A reader that starts with a new client, or
    with nothing in hand, and is still running after as many cycles as there
    were records left to commit, so that neither an error nor a stop has ended
    its run, has committed all of its topic, and each record is stored or,
    when it cannot be decoded, quarantined: every cycle that ends without an
    error commits all it fetched, and fetches something as long as there is
    something. *)
Theorem reader_catches_up cycles ctx s :
  Inv L (obs (s_world s)) -> in_step rd (s_world s) -> Forall (fun x => L (r_Partition x) (r_Offset x) = Some x) topic ->
  (backlog topic (offset (s_world s)) <= cycles)%nat ->
  exists r s', Run_for rd cycles ctx s = Some (r, s') /\
    (r = None -> Forall (fun x => r_Offset x < offset (s_world s') (r_Partition x) /\ processed (obs (s_world s')) x) topic).
Proof.
  intros HI Hin Htopic Hb. destruct (Run_for_catches_up cycles ctx s Hin Hb) as (r & s' & Hr & Hall). exists r, s'. split; [done|].
  intros Hn. specialize (Hall Hn). destruct (Run_for_safe rd L Hv Ho cycles ctx s HI Hin) as (r1 & s1 & new & Hr1 & _ & Hst%steps_end & _).
  rewrite Hr in Hr1. injection Hr1 as <- <-. rewrite Forall_forall in Htopic, Hall |- *. intros x Hx.
  split; [by apply Hall|]. exact (Hst _ _ x (Hall x Hx) (Htopic x Hx)).
Qed.
End CatchUp.
