(* ===== verification/Sim.v ===== *)
(** * A concrete world

    A clock, a table, a broker and a script that decides for each call
    whether it succeeds, fails, or fails after taking effect.  It satisfies
    every law the development assumes of its environment, and runs the model
    on concrete inputs. *)
From S2P Require Import Prelude GoBytes GoTime GoJson Event EventProps Runtime Persistence PersistenceProps Telemetry Publisher PublisherProps QuarantineProps Reader ReaderFacts ReaderProps Delivery Progress Instances GoEncode.

Inductive sim_outcome := Succeeds | FailsBefore | FailsAfter.

Record SimWorld := mkSim {
  sim_clock : Z;
  sim_table : Table;
  sim_dlq : list Rec;
  sim_offset : Z -> Z;
  sim_position : Z -> option Z;
  sim_broker : list Rec;
  sim_script : list sim_outcome
}.

#[global] Instance SimW : World := {| W := SimWorld; now := sim_clock |}.

(** The sim_outcome of the next call, which takes a millisecond. *)
Definition next_outcome (w : SimWorld) : sim_outcome := hd Succeeds (sim_script w).
Definition tick (w : SimWorld) : SimWorld :=
  mkSim (sim_clock w + Millisecond) (sim_table w) (sim_dlq w) (sim_offset w) (sim_position w) (sim_broker w) (tl (sim_script w)).

Definition set_table (t : Table) (w : SimWorld) : SimWorld :=
  mkSim (sim_clock w) t (sim_dlq w) (sim_offset w) (sim_position w) (sim_broker w) (sim_script w).
Definition set_dlq (l : list Rec) (w : SimWorld) : SimWorld :=
  mkSim (sim_clock w) (sim_table w) l (sim_offset w) (sim_position w) (sim_broker w) (sim_script w).
Definition set_offset (o : Z -> Z) (w : SimWorld) : SimWorld :=
  mkSim (sim_clock w) (sim_table w) (sim_dlq w) o (sim_position w) (sim_broker w) (sim_script w).
Definition set_position (q : Z -> option Z) (w : SimWorld) : SimWorld :=
  mkSim (sim_clock w) (sim_table w) (sim_dlq w) (sim_offset w) q (sim_broker w) (sim_script w).
Definition set_broker (l : list Rec) (w : SimWorld) : SimWorld :=
  mkSim (sim_clock w) (sim_table w) (sim_dlq w) (sim_offset w) (sim_position w) l (sim_script w).

Definition sim_error : error := ENet true.

Definition sim_exec (ctx : Context) (values : list (list nat)) (args : list sqlarg) (w : SimWorld) : res Z * SimWorld :=
  let '(t, n) := insert_rows (sim_table w) (map (row_args args) values) in
  match next_outcome w with
  | Succeeds => (Ok n, tick (set_table t w))
  | FailsBefore => (Err sim_error, tick w)
  | FailsAfter => (Err sim_error, tick (set_table t w))
  end.

#[global] Instance SimDB : Database := {| table := sim_table; Exec := sim_exec |}.

#[global] Instance SimDBLaws : DatabaseLaws SimDB.
Proof.
  constructor; cbn; unfold sim_exec.
  - intros ctx values args w. destruct (insert_rows _ _) as [t n]. destruct (next_outcome w); cbn; unfold Millisecond; lia.
  - intros ctx values args w n w'. destruct (insert_rows _ _) as [t k]. by destruct (next_outcome w); intros [= <- <-].
  - intros ctx values args w e w'. destruct (insert_rows _ _) as [t k].
    destruct (next_outcome w); intros [= <- <-]; cbn; auto.
Qed.

(** The timer select: the window when it is over, else the timer. *)
Definition sim_select (c : Context) (fire : Z) (w : SimWorld) : bool * SimWorld :=
  match ctx_Err c (sim_clock w) with
  | Some _ => (true, w)
  | None => (false, mkSim (Z.max fire (sim_clock w)) (sim_table w) (sim_dlq w) (sim_offset w) (sim_position w) (sim_broker w) (sim_script w))
  end.

#[global] Instance SimTimers : Timers := {| select_timer := sim_select |}.

#[global] Instance SimTimersLaws : TimersLaws SimTimers.
Proof.
  constructor; cbn; unfold sim_select.
  - intros c fire w. destruct (ctx_Err c _); cbn; lia.
  - intros c fire w w' H. destruct (ctx_Err c (sim_clock w)) eqn:E; [|done]. injection H as <-. by rewrite E.
  - intros c fire w w' H. destruct (ctx_Err c _); [done|]. injection H as <-. cbn. lia.
  - intros c fire w H _. by destruct (ctx_Err c _).
Qed.

(** The broker acknowledges the first outstanding record. *)
Definition sim_result (ctx : Context) (out : list Rec) (w : SimWorld) : option (nat * goerr) * SimWorld :=
  match out with
  | [] => (None, w)
  | r :: _ =>
      match next_outcome w with
      | Succeeds => (Some (0%nat, None), tick (set_broker (sim_broker w ++ [r]) w))
      | FailsBefore => (Some (0%nat, Some sim_error), tick w)
      | FailsAfter => (Some (0%nat, Some sim_error), tick (set_broker (sim_broker w ++ [r]) w))
      end
  end.

#[global] Instance SimBroker : Broker :=
  {| kgo_ErrMaxBuffered := ENew "MAX_BUFFERED"; kgo_ErrRecordTimeout := ENew "RECORD_TIMEOUT";
     produce := fun _ _ w => w; next_result := sim_result; broker_log := sim_broker |}.

#[global] Instance SimBrokerLaws : BrokerLaws SimBroker.
Proof.
  constructor; cbn; unfold sim_result; try done.
  - intros ctx [|r out] w; [apply Z.le_refl|]. destruct (next_outcome w); cbn; unfold Millisecond; lia.
  - intros ctx [|r out] w; [done|]. destruct (next_outcome w); cbn; set_solver.
  - intros ctx [|r out] w i e w' H; [done|]. destruct (next_outcome w); injection H as <- <- <-; cbn; lia.
  - intros ctx [|r out] w i w' H; [done|]. destruct (next_outcome w); simplify_eq. cbn. exists r. set_solver.
  - intros ctx [|r out] w w' Hne H; [done|]. by destruct (next_outcome w).
Qed.

(** ** A reader over a source topic of one partition *)

Section SimReader.
Variable topic : list Rec.

Definition sim_commit (ctx : Context) (rs : list Rec) (w : SimWorld) : goerr * SimWorld :=
  let w' := set_offset (commit_offsets (sim_offset w) rs) w in
  match next_outcome w with
  | Succeeds => (None, tick w')
  | FailsBefore => (Some sim_error, tick w)
  | FailsAfter => (Some sim_error, tick w')
  end.

Definition sim_quarantine (ctx : Context) (r : Rec) (cause : error) (wm : SimWorld * option Metrics)
    : goerr * (SimWorld * option Metrics) :=
  let '(w, m) := wm in
  let w' := set_dlq (r :: sim_dlq w) w in
  match next_outcome w with
  | Succeeds => (None, (tick w', m))
  | FailsBefore => (Some sim_error, (tick w, m))
  | FailsAfter => (Some sim_error, (tick w', m))
  end.

(** The client goes on from its position; it asks for the committed offset
    only when it has none. *)
Definition sim_from (w : SimWorld) (p : Z) : Z := default (sim_offset w p) (sim_position w p).
Definition sim_batch (n : Z) (w : SimWorld) : list Rec := take (Z.to_nat n) (drop (Z.to_nat (sim_from w 0)) topic).
Definition sim_poll (ctx : Context) (n : Z) (w : SimWorld) : Fetches * SimWorld :=
  (mkFetches [sim_batch n w] [],
   set_position (fun p => if p =? 0 then Some (commit_offsets (sim_from w) (sim_batch n w) p) else sim_position w p) w).
(** A new client. *)
Definition sim_client (w : SimWorld) : SimWorld := set_position (fun _ => None) w.

Definition sim_config : ReaderConfig :=
  readerDefaults (mkReaderConfig true [lit "b"] (lit "t") (lit "d") (lit "g") 0 0 0 0 0).

(** It runs until told to stop; or until it has caught up. *)
Definition sim_reader_until (stop : SimWorld -> bool) : Reader :=
  mkReader sim_config sim_poll sim_commit (fun w => w) sim_quarantine stop.

Definition sim_reader : Reader := sim_reader_until (fun w => Z.of_nat (length topic) <=? sim_offset w 0).

Definition sim_log (p i : Z) : option Rec := if (p =? 0) && (0 <=? i) then topic !! Z.to_nat i else None.

#[global] Instance SimCluster : Cluster := {| dlq := sim_dlq; offset := sim_offset; position := fun _ => sim_position |}.

Definition topic_wf : Prop :=
  forall i r, topic !! i = Some r -> r_Partition r = 0 /\ r_Offset r = Z.of_nat i.

Lemma sim_fetched (w : SimWorld) n : topic_wf -> fetched sim_log (sim_from w) (sim_batch n w).
Proof.
  intros Hwf. unfold sim_batch. remember (Z.to_nat (sim_from w 0)) as o eqn:Ho. set (todo := take (Z.to_nat n) (drop o topic)).
  assert (Hlk : forall k r, todo !! k = Some r -> topic !! (o + k)%nat = Some r).
  { intros k r Hk. unfold todo in Hk. apply lookup_take_Some in Hk as [Hk _]. by rewrite lookup_drop in Hk. }
  split; [|split].
  - apply Forall_forall. intros r [k Hk]%list_elem_of_lookup. apply Hlk in Hk. destruct (Hwf _ _ Hk) as [-> ->].
    unfold sim_log. cbn [Z.eqb andb]. rewrite (proj2 (Z.leb_le 0 _) (Nat2Z.is_nonneg _)). rewrite Nat2Z.id. split; [exact Hk|lia].
  - intros a r c Heq. assert (Hr : todo !! length a = Some r) by (rewrite Heq; by apply list_lookup_middle).
    apply Forall_forall. intros x [k Hk]%list_elem_of_lookup _.
    assert (Hx : todo !! (length a + S k)%nat = Some x).
    { rewrite Heq. rewrite lookup_app_r by lia. replace (length a + S k - length a)%nat with (S k) by lia. done. }
    apply Hlk, Hwf in Hr as [_ ->]. apply Hlk, Hwf in Hx as [_ ->]. lia.
  - intros p i x Hi Hx. unfold sim_log in Hx. destruct ((p =? 0) && (0 <=? i)) eqn:E; [|done].
    bool_to_prop. subst p. destruct (decide (Z.to_nat i - o < length todo)%nat) as [Hin|Hout].
    + left. apply list_elem_of_lookup. exists (Z.to_nat i - o)%nat.
      apply lookup_lt_is_Some_2 in Hin as [y Hy]. rewrite Hy. apply Hlk in Hy.
      replace (o + (Z.to_nat i - o))%nat with (Z.to_nat i) in Hy by lia. congruence.
    + right. apply Forall_forall. intros r [k Hk]%list_elem_of_lookup _.
      apply lookup_lt_Some in Hk as Hlt. apply Hlk, Hwf in Hk as [_ ->]. lia.
Qed.

(** Only the first partition is fetched. *)
Lemma sim_batch_other (w : SimWorld) n p : topic_wf -> p <> 0 -> commit_offsets (sim_from w) (sim_batch n w) p = sim_from w p.
Proof.
  intros Hwf Hp. assert (Hall : Forall (fun r => r_Partition r = 0) (sim_batch n w)).
  { apply Forall_forall. intros r (i & Hi & _)%elem_of_take. rewrite lookup_drop in Hi. by apply Hwf in Hi as [-> _]. }
  generalize (sim_from w). induction Hall as [|r rs Hr _ IH]; intros from; [done|].
  change (commit_offsets from (r :: rs) p) with (commit_offsets (commit_one from r) rs p). rewrite IH. unfold commit_one. rewrite Hr.
  by rewrite (proj2 (Z.eqb_neq p 0) Hp).
Qed.

Lemma sim_poll_fetches (w : SimWorld) n : topic_wf -> exists from,
  (forall p, sim_position w p = Some (from p) \/ from p = sim_offset w p) /\ fetched sim_log from (sim_batch n w) /\
  (forall p q, sim_position (snd (sim_poll Background n w)) p = Some q -> q = commit_offsets from (sim_batch n w) p).
Proof.
  intros Hwf. exists (sim_from w). split; [|split; [by apply sim_fetched|]].
  - intros p. unfold sim_from. destruct (sim_position w p); [by left|by right].
  - intros p q. cbn. destruct (p =? 0) eqn:E; [by intros [= <-]|]. bool_to_prop. intros Hq. rewrite sim_batch_other by done.
    unfold sim_from. by rewrite Hq.
Qed.

Lemma SimUntilLaws stop : topic_wf -> ClusterLaws SimCluster (sim_reader_until stop) sim_log.
Proof.
  intros Hwf. constructor; cbn; try done.
  - intros p i r H. unfold sim_log in H. destruct ((p =? 0) && (0 <=? i)) eqn:E; [|done]. bool_to_prop.
    apply Hwf in H as [? ?]. lia.
  - intros ctx es w. unfold EventStore_WriteBatch. destruct es as [|e es]; [done|].
    destruct (build 0 (e :: es)) as [v a]. cbn. unfold sim_exec. destruct (insert_rows _ _) as [t n].
    by destruct (next_outcome w).
  - intros c fire w. unfold sim_select. by destruct (ctx_Err c _).
  - intros ctx n w. rewrite app_nil_r. by apply sim_poll_fetches.
  - intros ctx es w. unfold EventStore_WriteBatch. destruct es as [|e es]; [done|].
    destruct (build 0 (e :: es)) as [v a]. cbn. unfold sim_exec. destruct (insert_rows _ _) as [t n].
    by destruct (next_outcome w).
  - intros c fire w. unfold sim_select. by destruct (ctx_Err c _).
  - intros ctx rs w. unfold sim_commit. by destruct (next_outcome w).
  - intros ctx r c [w m]. unfold sim_quarantine. by destruct (next_outcome w).
  - auto.
  - intros ctx rs w. unfold sim_commit. by destruct (next_outcome w).
  - intros ctx rs w. unfold sim_commit. destruct (next_outcome w); cbn; auto.
  - intros ctx r c [w m]. unfold sim_quarantine. by destruct (next_outcome w).
  - intros ctx r c [w m]. unfold sim_quarantine. destruct (next_outcome w); cbn; auto.
Qed.

Lemma SimClusterLaws : topic_wf -> ClusterLaws SimCluster sim_reader sim_log.
Proof. apply SimUntilLaws. Qed.

Lemma SimPollLaws stop : topic_wf -> PollLaws SimCluster (sim_reader_until stop) topic.
Proof.
  intros Hwf. constructor; cbn; intros ctx n w; rewrite app_nil_r.
  - apply Forall_forall. intros r (i & Hi & _)%elem_of_take. rewrite lookup_drop in Hi. by eapply list_elem_of_lookup_2.
  - intros Hin Hn _ (r & [i Hi]%list_elem_of_lookup & Hr)%Exists_exists. pose proof (lookup_lt_Some _ _ _ Hi). apply Hwf in Hi as [Ep Eo].
    assert (Hf : sim_from w 0 = sim_offset w 0) by (unfold sim_from; destruct (sim_position w 0) as [q|] eqn:Eq; [by apply (Hin 0 q)|done]).
    rewrite Ep, Eo in Hr. unfold sim_batch. rewrite Hf. intros E. apply (f_equal length) in E. rewrite length_take, length_drop in E. cbn in E. lia.
Qed.

Lemma sim_config_valid : valid_config sim_config /\ no_overflow sim_config.
Proof. unfold valid_config, no_overflow. cbn. unfold Second, Millisecond. lia. Qed.
End SimReader.

(** ** Concrete runs *)

Definition sim_start (script : list sim_outcome) : SimWorld :=
  mkSim (1767225601 * Second) ∅ [] (fun _ => 0) (fun _ => None) [] script.

(** A good record, one that is not JSON, and the good one again. *)
Definition sim_topic : list Rec :=
  [ mkRec (lit "t") 0 0 None None (Some sample_message);
    mkRec (lit "t") 0 1 None None (Some (lit "not json"));
    mkRec (lit "t") 0 2 None None (Some sample_message) ].

Lemma sim_topic_wf : topic_wf sim_topic.
Proof. intros [|[|[|i]]] r H; cbn in H; simplify_eq; try done. Qed.

(** The first write and the first commit fail after taking effect. *)
Definition sim_sys (script : list sim_outcome) : Sys := mkSys (sim_start script) (Some newMetrics) [] [].

Definition sim_run (script : list sim_outcome) : option (goerr * Sys) :=
  Run (sim_reader sim_topic) 5 Background (sim_sys script).

Example sim_run_ok :
  match sim_run [FailsBefore; FailsAfter] with
  | Some (err, s) => err = None /\ size (sim_table (s_world s)) = 1%nat /\ length (sim_dlq (s_world s)) = 1%nat /\
                     sim_offset (s_world s) 0 = 3 /\ length (s_acts s) = 8%nat
  | None => False
  end.
Proof. vm_compute. by repeat split. Qed.

(** ** The theorems at concrete inputs *)

Definition retry_w0 : SimWorld := sim_start [FailsAfter; Succeeds].
Definition retry_w1 : SimWorld := snd (EventStore_WriteBatch Background [sample_envelope] retry_w0).
Definition retry_w2 : SimWorld := snd (EventStore_WriteBatch Background [sample_envelope] retry_w1).

Lemma retry_fails : EventStore_WriteBatch Background [sample_envelope] retry_w0 = (Err sim_error, retry_w1).
Proof. unfold retry_w1. cbn. unfold sim_exec. by destruct (insert_rows _ _). Qed.

Lemma retry_succeeds :
  exists n, EventStore_WriteBatch Background [sample_envelope] retry_w1 = (Ok (mkWriteResult n (1 - n)), retry_w2).
Proof.
  unfold retry_w2. cbn. unfold sim_exec. destruct (insert_rows _ _) as [t n] eqn:E. exists n.
  unfold retry_w1. cbn. unfold sim_exec. by destruct (insert_rows _ _).
Qed.

Lemma WriteBatch_retry_idempotent_witness :
  table retry_w2 = store_events (table retry_w0) [sample_envelope].
Proof.
  destruct retry_succeeds as [n Hn].
  apply (WriteBatch_retry_idempotent (Wd := SimW) [sample_envelope] [(Background, retry_w0 : @W SimW, sim_error, retry_w1 : @W SimW)] Background
           retry_w0 retry_w1 (mkWriteResult n (1 - n)) retry_w2).
  - split; [reflexivity|]. split; [exact retry_fails|reflexivity].
  - exact Hn.
Defined.

Definition pub0 : Pub := mkPub (sim_start [] : @W SimW) None.

Definition zone24_envelope : Envelope := mkEnvelope zone24_input (lit "acme") (UTC sample_now).

Lemma Publish_all_or_none_witness :
  exists err, Publish (mkPublisher (lit "t") Second) Background [sample_envelope; zone24_envelope]
                pub0 = Some (Some err, pub0).
Proof.
  apply Publish_all_or_none. apply Exists_cons_tl, Exists_cons_hd. vm_compute. reflexivity.
Defined.

Definition bad_record : Rec := mkRec (lit "t") 0 1 None None (Some (lit "not json")).

(** It comes with a key and headers. *)
Definition rejected_record : Rec :=
  mkRec (lit "t") 2 41 (Some [0; 255; 60]) (Some [(lit "trace", Some (lit "a<b")); (lit "none", None)]) (Some (lit "not json")).

Definition wf_bytesb (s : bytes) : bool := forallb (fun c => (0 <=? c) && (c <=? 255)) s.
Lemma wf_bytesb_spec s : wf_bytesb s = true -> wf_bytes s.
Proof.
  unfold wf_bytesb. rewrite forallb_forall. intros H. apply Forall_forall. intros c Hc. specialize (H c (proj1 (list_elem_of_In _ _) Hc)).
  bool_to_prop. lia.
Qed.

Lemma rejected_record_wf : wf_record rejected_record.
Proof.
  constructor; cbn [rejected_record r_Topic r_Partition r_Offset r_Key r_Value r_Headers]; try lia.
  - split; [by apply utf8_Valid_spec|by apply wf_bytesb_spec].
  - by apply wf_bytesb_spec.
  - by apply wf_bytesb_spec.
  - repeat (constructor; [split; [split; [by apply utf8_Valid_spec|by apply wf_bytesb_spec]|by apply wf_bytesb_spec]|]). constructor.
Qed.

Lemma Quarantine_preserves_record_witness :
  exists err s', Quarantine_Write (mkPublisher (lit "d") Second) (fun _ => lit "bad") Background rejected_record
                   (ENew "bad") pub0 = Some (err, s') /\
    extends pub0 s' /\
    (err = None ->
     exists raw message, read_quarantined raw = Some (rejected_record, message) /\
       (utf8 (take 1024 (lit "bad")) -> message = take 1024 (lit "bad")) /\
       mkRec (lit "d") 0 0 (Some [0; 255; 60]) None (Some raw) ∈ broker_log (p_world s')).
Proof.
  apply (Quarantine_preserves_record (mkPublisher (lit "d") Second) (fun _ => lit "bad") Background rejected_record (ENew "bad") pub0).
  - exact rejected_record_wf.
  - by apply wf_bytesb_spec.
Defined.

Lemma backoff_doubles_witness :
  Nat.iter 3 (next_backoff (sim_reader [])) (BackoffMin sim_config) =
  Z.min (BackoffMin sim_config * 2 ^ Z.of_nat 3) (BackoffMax sim_config).
Proof. apply (backoff_doubles (sim_reader []) 3); apply sim_config_valid. Defined.

Lemma cycle_commits_only_done_witness :
  exists err s' new,
    processFetched (sim_reader sim_topic) Background (mkFetches [sim_topic] []) false (sim_sys [FailsAfter]) = Some (err, s') /\
    s_acts s' = [] ++ new /\ commits_done new /\ writes_bounded (sim_reader sim_topic) new /\
    prefix_of_recs (attempted new) (concat [sim_topic]) /\ prefix_of_recs (committed new) (concat [sim_topic]) /\
    (err = None -> committed new = concat [sim_topic]).
Proof.
  apply (cycle_commits_only_done (sim_reader sim_topic) Background (mkFetches [sim_topic] []) false (sim_sys [FailsAfter]));
    apply sim_config_valid.
Defined.

Lemma persist_terminates_witness :
  exists err s' new,
    persist (sim_reader []) Background [sample_envelope] bad_record (sim_sys [FailsBefore]) = Some (err, s') /\
    s_acts s' = [] ++ new /\ only_writes [sample_envelope] new /\
    (length new <= Z.to_nat (RetryWindow sim_config / BackoffMin sim_config) + 2)%nat /\
    (err = None -> exists res, AWrite [sample_envelope] (Ok res) ∈ new).
Proof.
  apply (persist_terminates (sim_reader []) Background [sample_envelope] bad_record (sim_sys [FailsBefore]));
    apply sim_config_valid.
Defined.

Lemma sim_run_returns : is_Some (sim_run [FailsAfter; FailsBefore]).
Proof.
  assert (H : match sim_run [FailsAfter; FailsBefore] with Some _ => true | None => false end = true)
    by (vm_compute; reflexivity).
  destruct (sim_run _); [by eexists|done].
Qed.

Lemma run_never_skips_witness :
  let s := sim_sys [FailsAfter; FailsBefore] in
  exists r s' new, Run_for (sim_reader sim_topic) 5 Background s = Some (r, s') /\ s_acts s' = s_acts s ++ new /\
    steps (Inv (sim_log sim_topic)) (obs (s_world s)) new (obs (s_world s')) /\
    grows (obs (s_world s)) (obs (s_world s')) /\ (r = None -> in_step (sim_reader sim_topic) (s_world s')).
Proof.
  pose proof (SimClusterLaws sim_topic sim_topic_wf) as CL.
  apply (run_never_skips (sim_reader sim_topic) (sim_log sim_topic) (proj1 sim_config_valid) (proj2 sim_config_valid)
           5 Background (sim_sys [FailsAfter; FailsBefore])); [|done].
  intros p i r Hi Hr. unfold sim_log in Hr. cbn in Hi. destruct ((p =? 0) && (0 <=? i)) eqn:Ei; [|done].
  bool_to_prop. lia.
Defined.

(** A reader that is never told to stop, while a write fails. *)
Definition sim_forever : Reader := sim_reader_until sim_topic (fun _ => false).

Lemma sim_forever_never : calls_keep sim_forever (fun w => stopping sim_forever w = true).
Proof. constructor; intros; discriminate. Qed.

Lemma reader_catches_up_witness :
  exists s', Run_for sim_forever 3 Background (sim_sys [FailsAfter]) = Some (None, s') /\
    Forall (fun x => r_Offset x < sim_offset (s_world s') (r_Partition x) /\ processed (obs (s_world s')) x) sim_topic.
Proof.
  assert (H : match Run_for sim_forever 3 Background (sim_sys [FailsAfter]) with Some (None, _) => true | _ => false end = true)
    by (vm_compute; reflexivity).
  pose proof (SimUntilLaws sim_topic (fun _ => false) sim_topic_wf) as CL.
  pose proof (SimPollLaws sim_topic (fun _ => false) sim_topic_wf) as PL.
  destruct (reader_catches_up sim_forever (sim_log sim_topic) sim_topic (proj1 sim_config_valid) (proj2 sim_config_valid)
    sim_forever_never 3 Background (sim_sys [FailsAfter])) as (r & s' & Hr & Hall).
  - intros p i r Hi Hr. unfold sim_log in Hr. cbn in Hi. destruct ((p =? 0) && (0 <=? i)) eqn:Ei; [|done]. bool_to_prop. lia.
  - discriminate.
  - apply Forall_forall. intros r [i Hi]%list_elem_of_lookup. destruct (sim_topic_wf _ _ Hi) as [-> ->]. unfold sim_log.
    cbn [Z.eqb andb]. rewrite (proj2 (Z.leb_le 0 _) (Nat2Z.is_nonneg _)), Nat2Z.id. exact Hi.
  - vm_compute. lia.
  - rewrite Hr in H. destruct r; [discriminate H|]. exists s'. split; [exact Hr|]. exact (Hall eq_refl).
Defined.

Lemma WriteBatch_atomic_witness :
  match EventStore_WriteBatch Background [sample_envelope] retry_w0 with
  | (Ok r, w') =>
      (forall k, table w' !! k =
         match table retry_w0 !! k with
         | Some row => Some row
         | None => event_args <$> (snd <$> list_find (fun e => event_key e = k) [sample_envelope])
         end) /\
      Forall (fun e => is_Some (table w' !! event_key e)) [sample_envelope] /\
      0 <= Inserted r /\ 0 <= Duplicates r /\ Inserted r + Duplicates r = 1
  | (Err _, w') => table w' = table retry_w0 \/ table w' = store_events (table retry_w0) [sample_envelope]
  end.
Proof. exact (WriteBatch_atomic Background [sample_envelope] retry_w0). Defined.

Definition sim_publisher : Publisher := mkPublisher (lit "t") Second.

Lemma Publish_acknowledged_witness :
  exists err s', Publish sim_publisher Background [sample_envelope] pub0 = Some (err, s') /\
    broker_log (p_world pub0) ⊆ broker_log (p_world s') /\
    match err with
    | None => Forall (fun e => exists raw, EncodeEnvelope e = Ok raw /\
                        event_record (lit "t") e raw ∈ broker_log (p_world s')) [sample_envelope]
    | Some e => s' = pub0 \/ errors_Is e ErrSaturated = true \/ errors_Is e ErrUnavailable = true
    end.
Proof. exact (Publish_acknowledged sim_publisher Background [sample_envelope] pub0). Defined.
