(* ===== verification/GoFloat.v ===== *)
(** * [float64] arithmetic

    A finite [float64] is a rational; an operation is the exact one followed
    by rounding to 53 significant bits, to nearest and ties to even.  The
    values the program computes with stay far from the exponent range's ends,
    where this is IEEE 754. *)
From S2P Require Import Prelude.
From Stdlib Require Export QArith Qround Qcanon Lqa.
#[global] Close Scope Q_scope.
#[global] Open Scope Z_scope.

(** The quotient of two positive integers to the nearest integer, ties to
    even. *)
Definition div_even (n d : Z) : Z :=
  let q := n / d in
  let r := n mod d in
  if 2 * r <? d then q
  else if d <? 2 * r then q + 1
  else if Z.even q then q else q + 1.

(** The exponent that leaves 53 bits (or 54) before the point. *)
Definition exponent (n d : Z) : Z :=
  let e := Z.log2 n - Z.log2 d - 53 in
  if (if 0 <=? e then 2 ^ 53 * (d * 2 ^ e) <=? n else 2 ^ 53 * d <=? n * 2 ^ (- e)) then e + 1 else e.

Definition scale (m e : Z) : Q :=
  if 0 <=? e then inject_Z (m * 2 ^ e) else Qmake m (Z.to_pos (2 ^ (- e))).

Definition rnd_pos (n d : Z) : Q :=
  let e := exponent n d in
  scale (if 0 <=? e then div_even n (d * 2 ^ e) else div_even (n * 2 ^ (- e)) d) e.

Definition rnd (x : Q) : Q :=
  match Qnum x with
  | Z0 => 0%Q
  | Zpos p => Qred (rnd_pos (Zpos p) (Zpos (Qden x)))
  | Zneg p => Qopp (Qred (rnd_pos (Zpos p) (Zpos (Qden x))))
  end.

Definition fadd (x y : Q) : Q := rnd (x + y).
Definition fsub (x y : Q) : Q := rnd (x - y).
Definition fmul (x y : Q) : Q := rnd (x * y).
Definition fdiv (x y : Q) : Q := rnd (x / y).
Definition float_of_int (n : Z) : Q := rnd (inject_Z n).
Definition int_of_float (x : Q) : Z := if Qlt_le_dec x 0 then Qceiling x else Qfloor x.

(** [Duration.Seconds]. *)
Definition Seconds (d : Z) : Q :=
  fadd (float_of_int (Z.quot d 1000000000)) (fdiv (float_of_int (Z.rem d 1000000000)) (inject_Z 1000000000)).

Example rnd_tenth : rnd (1 # 10) = (3602879701896397 # 36028797018963968)%Q.
Proof. vm_compute. reflexivity. Qed.
Example seconds_half : Seconds 1500000000 = (3 # 2)%Q.
Proof. vm_compute. reflexivity. Qed.

(** ** Rounding error *)

Lemma div_even_error n d : 0 < d -> Z.abs (2 * (n - div_even n d * d)) <= d.
Proof.
  intros Hd. pose proof (Z.div_mod n d). pose proof (Z.mod_pos_bound n d Hd). unfold div_even. cbv zeta.
  destruct (2 * (n mod d) <? d) eqn:E1; [nia|]. destruct (d <? 2 * (n mod d)) eqn:E2; [nia|].
  destruct (Z.even (n / d)); nia.
Qed.

Lemma div_even_nonneg n d : 0 <= n -> 0 < d -> 0 <= div_even n d.
Proof.
  intros Hn Hd. pose proof (Z.div_pos n d Hn Hd). unfold div_even. cbv zeta. repeat case_match; lia.
Qed.

Lemma log2_quotient n d :
  0 < n -> 0 < d ->
  2 ^ Z.log2 n <= n < 2 * 2 ^ Z.log2 n /\ 2 ^ Z.log2 d <= d < 2 * 2 ^ Z.log2 d.
Proof.
  intros Hn Hd. pose proof (Z.log2_spec n Hn). pose proof (Z.log2_spec d Hd).
  rewrite !Z.pow_succ_r in * by apply Z.log2_nonneg. lia.
Qed.

(** The scaled number has at least 2^52: one unit of the result is at most
    2^-52 of the number. *)
Lemma exponent_spec n d :
  0 < n -> 0 < d ->
  let e := exponent n d in
  (0 <= e -> 2 ^ 52 * (d * 2 ^ e) <= n) /\ (e < 0 -> 2 ^ 52 * d <= n * 2 ^ (- e)).
Proof.
  intros Hn Hd. destruct (log2_quotient n d Hn Hd) as [[Hn1 Hn2] [Hd1 Hd2]].
  set (a := Z.log2 n) in *. set (b := Z.log2 d) in *.
  assert (Ha : 0 <= a) by apply Z.log2_nonneg. assert (Hb : 0 <= b) by apply Z.log2_nonneg.
  unfold exponent. fold a b. set (e0 := a - b - 53). cbv zeta.
  assert (Hp : forall k, 0 <= k -> 0 < 2 ^ k) by (intros; apply Z.pow_pos_nonneg; lia).
  destruct (if 0 <=? e0 then _ else _) eqn:E.
  - destruct (0 <=? e0) eqn:E0; bool_to_prop; split; intros He.
    + rewrite Z.pow_add_r by lia. change (2 ^ 1) with 2. change (2 ^ 53) with (2 * 2 ^ 52) in E. nia.
    + lia.
    + assert (e0 = -1) as He0 by lia. rewrite He0 in *. change (2 ^ (-1 + 1)) with 1.
      change (2 ^ (- -1)) with 2 in E. change (2 ^ 53) with (2 * 2 ^ 52) in E. lia.
    + replace (- e0) with (- (e0 + 1) + 1) in E by lia. rewrite Z.pow_add_r in E by lia.
      change (2 ^ 1) with 2 in E. change (2 ^ 53) with (2 * 2 ^ 52) in E. lia.
  - split; intros He.
    + assert (Hq : 2 ^ a = 2 ^ 53 * (2 ^ b * 2 ^ e0)) by (rewrite <- !Z.pow_add_r by lia; f_equal; unfold e0; lia).
      specialize (Hp e0 He). change (2 ^ 53) with (2 * 2 ^ 52) in Hq. nia.
    + assert (Hq : 2 ^ a * 2 ^ (- e0) = 2 ^ 53 * 2 ^ b) by (rewrite <- !Z.pow_add_r by lia; f_equal; unfold e0; lia).
      assert (0 < 2 ^ (- e0)) by (apply Hp; lia). change (2 ^ 53) with (2 * 2 ^ 52) in Hq. nia.
Qed.

(** One unit in the 53rd place, relative. *)
Definition eps : Q := 1 # 9007199254740992.

Lemma rnd_pos_error n d :
  0 < n ->
  (Qmake n d * (1 - eps) <= rnd_pos n (Zpos d) <= Qmake n d * (1 + eps))%Q /\ (0 <= rnd_pos n (Zpos d))%Q.
Proof.
  intros Hn. unfold rnd_pos. cbv zeta. set (e := exponent n (Zpos d)).
  destruct (exponent_spec n (Zpos d) Hn ltac:(lia)) as [Hpos Hneg]. fold e in Hpos, Hneg.
  unfold scale, eps. destruct (0 <=? e) eqn:E; bool_to_prop.
  - specialize (Hpos E). assert (Hp : 0 < 2 ^ e) by (apply Z.pow_pos_nonneg; lia).
    pose proof (div_even_error n (Zpos d * 2 ^ e) ltac:(lia)) as He.
    pose proof (div_even_nonneg n (Zpos d * 2 ^ e) ltac:(lia) ltac:(lia)) as H0.
    set (m := div_even _ _) in *. unfold Qle. cbn [Qnum Qden Qmult Qplus Qminus Qopp inject_Z].
    change (2 ^ 52) with 4503599627370496 in Hpos. rewrite !Pos2Z.inj_mul. nia.
  - specialize (Hneg ltac:(lia)). assert (Hp : 0 < 2 ^ (- e)) by (apply Z.pow_pos_nonneg; lia).
    pose proof (div_even_error (n * 2 ^ (- e)) (Zpos d) ltac:(lia)) as He.
    pose proof (div_even_nonneg (n * 2 ^ (- e)) (Zpos d) ltac:(lia) ltac:(lia)) as H0.
    set (m := div_even _ _) in *. unfold Qle. cbn [Qnum Qden Qmult Qplus Qminus Qopp].
    change (2 ^ 52) with 4503599627370496 in Hneg. rewrite !Pos2Z.inj_mul, Z2Pos.id by done. nia.
Qed.

(** Rounding a nonnegative number changes it by at most one part in 2^53. *)
Lemma rnd_error x :
  (0 <= x)%Q -> (x * (1 - eps) <= rnd x <= x * (1 + eps))%Q /\ (0 <= rnd x)%Q.
Proof.
  destruct x as [[|p|p] d]; intros Hx.
  - unfold rnd. cbn [Qnum]. unfold Qle. cbn. lia.
  - unfold rnd. cbn [Qnum Qden]. rewrite Qred_correct. by apply rnd_pos_error.
  - exfalso. unfold Qle in Hx. cbn in Hx. lia.
Qed.

Lemma fadd_error x y : (0 <= x)%Q -> (0 <= y)%Q -> ((x + y) * (1 - eps) <= fadd x y <= (x + y) * (1 + eps))%Q /\ (0 <= fadd x y)%Q.
Proof. intros. apply rnd_error. lra. Qed.
Lemma fmul_error x y : (0 <= x)%Q -> (0 <= y)%Q -> (x * y * (1 - eps) <= fmul x y <= x * y * (1 + eps))%Q /\ (0 <= fmul x y)%Q.
Proof. intros. apply rnd_error. by apply Qmult_le_0_compat. Qed.
Lemma fsub_error x y : (y <= x)%Q -> ((x - y) * (1 - eps) <= fsub x y <= (x - y) * (1 + eps))%Q /\ (0 <= fsub x y)%Q.
Proof. intros. apply rnd_error. lra. Qed.

(** Integers below 2^53 are exact. *)
Lemma float_of_int_exact n : 0 <= n < 2 ^ 53 -> (float_of_int n == inject_Z n)%Q.
Proof.
  intros Hn. unfold float_of_int, rnd. cbn [Qnum Qden inject_Z]. destruct n as [|p|p]; [done| |lia].
  rewrite Qred_correct. unfold rnd_pos, exponent. cbv zeta. change (Z.log2 1) with 0.
  destruct (log2_quotient (Zpos p) 1 ltac:(lia) ltac:(lia)) as [[H1 H2] _].
  pose proof (Z.log2_nonneg (Zpos p)) as Hl.
  assert (Hlt : Z.log2 (Zpos p) < 53) by (apply Z.log2_lt_pow2; lia).
  set (a := Z.log2 (Zpos p)) in *. replace (0 <=? a - 0 - 53) with false by lia.
  replace (2 ^ 53 * 1 <=? Zpos p * 2 ^ (- (a - 0 - 53))) with true.
  2:{ symmetry. apply Z.leb_le. assert (Hq : 2 ^ a * 2 ^ (- (a - 0 - 53)) = 2 ^ 53)
        by (rewrite <- Z.pow_add_r by lia; f_equal; lia).
      assert (0 < 2 ^ (- (a - 0 - 53))) by (apply Z.pow_pos_nonneg; lia). nia. }
  set (e := a - 0 - 53 + 1). assert (He : e <= 0) by (unfold e; lia).
  assert (Hdiv : forall m, div_even m 1 = m).
  { intros m. unfold div_even. cbv zeta. rewrite Z.div_1_r, Z.mod_1_r. done. }
  unfold scale. destruct (0 <=? e) eqn:E; bool_to_prop.
  - assert (e = 0) as -> by lia. change (1 * 2 ^ 0) with 1. rewrite Hdiv. change (2 ^ 0) with 1. by rewrite Z.mul_1_r.
  - rewrite Hdiv. unfold Qeq. cbn [Qnum Qden inject_Z]. rewrite Z2Pos.id; [lia|]. apply Z.pow_pos_nonneg; lia.
Qed.

Lemma float_of_int_eq n : 0 <= n < 2 ^ 53 -> float_of_int n = inject_Z n.
Proof.
  intros Hn. assert (Hid : Qred (inject_Z n) = inject_Z n) by (apply Qred_identity; apply Z.gcd_1_r).
  rewrite <- Hid, <- (Qred_complete _ _ (float_of_int_exact n Hn)). unfold float_of_int, rnd. cbn [Qnum inject_Z].
  destruct n as [|p|p]; [done| |lia]. symmetry. apply Qred_complete, Qred_correct.
Qed.

(** ** Signed numbers *)

(** Rounding changes a number of magnitude at most [m] by at most [m] times
    one unit. *)
Lemma rnd_signed x m : (- m <= x <= m)%Q -> (x - m * eps <= rnd x <= x + m * eps)%Q.
Proof.
  intros [Hl Hu]. assert (He : (0 <= eps)%Q) by (unfold eps; lra).
  destruct (Qlt_le_dec x 0) as [Hx|Hx].
  - assert (Hopp : (rnd x == - rnd (- x))%Q).
    { destruct x as [[|p|p] d]; unfold rnd; cbn [Qnum Qden Qopp Z.opp]; [done| |done]. unfold Qlt in Hx. cbn in Hx. lia. }
    destruct (rnd_error (- x)%Q ltac:(lra)) as [[H1 H2] _]. rewrite Hopp. unfold eps in *. lra.
  - destruct (rnd_error x Hx) as [[H1 H2] _]. unfold eps in *. lra.
Qed.

Lemma float_of_int_signed n : - 2 ^ 53 < n < 2 ^ 53 -> (float_of_int n == inject_Z n)%Q.
Proof.
  intros Hn. destruct (decide (0 <= n)) as [H|H]; [apply float_of_int_exact; lia|].
  assert (E : (float_of_int n == - float_of_int (- n))%Q) by (destruct n as [|p|p]; [lia|lia|reflexivity]).
  rewrite E, float_of_int_exact, inject_Z_opp by lia. ring.
Qed.

Lemma Seconds_signed d :
  - 2 ^ 63 < d < 2 ^ 63 ->
  ((d # 1000000000) - 3 * (Z.abs d # 1000000000) * eps <= Seconds d <= (d # 1000000000) + 3 * (Z.abs d # 1000000000) * eps)%Q.
Proof.
  intros Hd. unfold Seconds. set (s := Z.quot d 1000000000). set (n := Z.rem d 1000000000).
  assert (Hdm : d = 1000000000 * s + n) by (apply Z.quot_rem'; lia).
  assert (Hs : - 2 ^ 53 < s < 2 ^ 53 /\ Z.abs d = 1000000000 * Z.abs s + Z.abs n /\ Z.abs n < 1000000000).
  { pose proof (Z.quot_abs d 1000000000 ltac:(lia)) as Ha. pose proof (Z.rem_abs d 1000000000 ltac:(lia)) as Hb.
    change (Z.abs 1000000000) with 1000000000 in Ha, Hb. fold s in Ha. fold n in Hb.
    rewrite Z.quot_div_nonneg in Ha by lia. rewrite Z.rem_mod_nonneg in Hb by lia.
    pose proof (Z.div_mod (Z.abs d) 1000000000 ltac:(lia)). pose proof (Z.mod_pos_bound (Z.abs d) 1000000000 ltac:(lia)).
    assert (Z.abs d / 1000000000 < 2 ^ 53) by (apply Z.div_lt_upper_bound; lia). lia. }
  destruct Hs as (Hs & Habs & Hn). clearbody s n.
  assert (Hsum : (d # 1000000000 == inject_Z s + (n # 1000000000))%Q) by (unfold Qeq; cbn [Qnum Qden Qplus inject_Z]; lia).
  assert (Hsab : (Z.abs d # 1000000000 == inject_Z (Z.abs s) + (Z.abs n # 1000000000))%Q)
    by (unfold Qeq; cbn [Qnum Qden Qplus inject_Z]; lia).
  assert (Hdiv : (float_of_int n / inject_Z 1000000000 == n # 1000000000)%Q).
  { rewrite float_of_int_signed by lia. unfold Qeq. cbn. lia. }
  assert (Hq : (- (Z.abs n # 1000000000) <= n # 1000000000 <= Z.abs n # 1000000000)%Q)
    by (unfold Qle; cbn [Qnum Qden Qopp]; lia).
  assert (Hf : (- (Z.abs n # 1000000000) <= float_of_int n / inject_Z 1000000000 <= Z.abs n # 1000000000)%Q) by (by rewrite Hdiv).
  apply rnd_signed in Hf. fold (fdiv (float_of_int n) (inject_Z 1000000000)) in Hf. rewrite Hdiv in Hf.
  set (f := fdiv _ _) in *. clearbody f.
  assert (Hfs : (float_of_int s == inject_Z s)%Q) by (by apply float_of_int_signed).
  assert (Hss : (- inject_Z (Z.abs s) <= inject_Z s <= inject_Z (Z.abs s))%Q)
    by (rewrite <- inject_Z_opp, <- !Zle_Qle; lia).
  assert (Hsn : (0 <= inject_Z (Z.abs s))%Q) by (change 0%Q with (inject_Z 0); rewrite <- Zle_Qle; lia).
  assert (Hnn : (0 <= Z.abs n # 1000000000)%Q) by (unfold Qle; cbn; lia).
  set (as_ := inject_Z (Z.abs s)) in *. set (an := (Z.abs n # 1000000000)%Q) in *.
  assert (Hy : (- (as_ + 2 * an) <= float_of_int s + f <= as_ + 2 * an)%Q) by (rewrite Hfs; unfold eps in *; lra).
  apply rnd_signed in Hy. fold (fadd (float_of_int s) f) in Hy. set (y := fadd _ _) in *. clearbody y.
  rewrite Hfs in Hy. rewrite Hsum, Hsab. clearbody as_ an. unfold eps in *. lra.
Qed.
