(* ===== verification/RateLimit.v ===== *)
(** * Rate limiting: [internal/api/middleware/ratelimit.go]

    A token bucket per tenant, in [float64] as the code computes it.  Time is
    the monotonic clock in nanoseconds. *)
From S2P Require Import Prelude GoFloat.

Record bucket := mkBucket { tokens : Q; lastUpdate : Z; lastAccess : Z }.

Record RateLimiter := mkRateLimiter {
  limiters : gmap bytes bucket;
  rps : Z;
  bucketTTL : Z
}.

Definition NewRateLimiterWithTTL (requestsPerSecond bucketTTL : Z) : RateLimiter :=
  mkRateLimiter ∅ requestsPerSecond bucketTTL.

Definition NewRateLimiter (requestsPerSecond : Z) : RateLimiter :=
  NewRateLimiterWithTTL requestsPerSecond (5 * 60 * 1000000000).

(** [cleanup], run by the ticker of [cleanupLoop]. *)
Definition cleanup (rl : RateLimiter) (now : Z) : RateLimiter :=
  mkRateLimiter (filter (fun kb => ~ bucketTTL rl < now - lastAccess (snd kb)) (limiters rl)) (rps rl) (bucketTTL rl).

(** What a select of [cleanupLoop] received: a tick, at an instant, or the
    close of [stopClean]. *)
Inductive wake := Tick (t : Z) | Closed.

(** [cleanupLoop] on what its selects receive: the limiter, and whether the
    goroutine has returned. *)
Fixpoint cleanupLoop (rl : RateLimiter) (wakes : list wake) : RateLimiter * bool :=
  match wakes with
  | [] => (rl, false)
  | Tick t :: rest => cleanupLoop (cleanup rl t) rest
  | Closed :: _ => (rl, true)
  end.

(** [Stop] on whether [stopClean] is closed; a second close panics. *)
Definition Stop (closed : bool) : option bool := if closed then None else Some true.

(** The bucket after refilling, capped at the burst allowance. *)
Definition refill (b : bucket) (r now : Z) : Q :=
  let t := fadd (tokens b) (fmul (Seconds (now - lastUpdate b)) (float_of_int r)) in
  let maxTokens := float_of_int r in
  if Qlt_le_dec maxTokens t then maxTokens else t.

(** The update of one bucket: whether a token was taken, and how many are
    left as an integer. *)
Definition take_token (b : bucket) (r now : Z) : bool * Z * bucket :=
  let t := refill b r now in
  if Qle_bool 1 t then
    let t := fsub t 1 in (true, int_of_float t, mkBucket t now now)
  else (false, 0, mkBucket t now now).

Definition new_bucket (r now : Z) : bucket := mkBucket (float_of_int r) now now.

Definition allow (rl : RateLimiter) (tenantID : bytes) (now : Z) : (bool * Z * Z) * RateLimiter :=
  let b := default (new_bucket (rps rl) now) (limiters rl !! tenantID) in
  let '(allowed, remaining, b') := take_token b (rps rl) now in
  ((allowed, rps rl, remaining), mkRateLimiter (<[tenantID := b']> (limiters rl)) (rps rl) (bucketTTL rl)).

(** ** The bucket invariant *)

Definition bucket_ok (r now : Z) (b : bucket) : Prop :=
  (0 <= tokens b <= inject_Z r)%Q /\ lastUpdate b <= now /\ lastUpdate b = lastAccess b.

Definition limiter_ok (rl : RateLimiter) (now : Z) : Prop :=
  1 <= rps rl <= 2 ^ 20 /\ map_Forall (fun _ b => bucket_ok (rps rl) now b) (limiters rl).

Lemma Seconds_bounds d :
  0 <= d < 2 ^ 63 ->
  (0 <= Seconds d <= (d # 1000000000) * (1 + 3 * eps))%Q /\ ((d # 1000000000) * (1 - 3 * eps) <= Seconds d)%Q.
Proof.
  intros Hd. unfold Seconds. rewrite Z.quot_div_nonneg, Z.rem_mod_nonneg by lia.
  pose proof (Z.div_mod d 1000000000 ltac:(lia)) as Hdm. pose proof (Z.mod_pos_bound d 1000000000 ltac:(lia)) as Hm.
  assert (Hq : 0 <= d / 1000000000 < 2 ^ 53) by (split; [apply Z.div_pos; lia | apply Z.div_lt_upper_bound; lia]).
  set (s := d / 1000000000) in *. set (n := d mod 1000000000) in *. clearbody s n.
  assert (Hsum : (d # 1000000000 == inject_Z s + (n # 1000000000))%Q).
  { unfold Qeq. cbn [Qnum Qden Qplus inject_Z]. rewrite Hdm. lia. }
  assert (Hs0 : (0 <= inject_Z s)%Q) by (change 0%Q with (inject_Z 0); rewrite <- Zle_Qle; lia).
  assert (Hn0 : (0 <= n # 1000000000)%Q) by (unfold Qle; cbn; lia).
  assert (Hdiv : (float_of_int n / inject_Z 1000000000 == n # 1000000000)%Q).
  { rewrite float_of_int_exact by lia. unfold Qeq. cbn. lia. }
  assert (Hpos : (0 <= float_of_int n / inject_Z 1000000000)%Q) by (rewrite Hdiv; done).
  destruct (rnd_error _ Hpos) as [[Hd' Hu] Hl]. fold (fdiv (float_of_int n) (inject_Z 1000000000)) in Hd', Hu, Hl.
  set (f := fdiv _ _) in *. clearbody f. rewrite Hdiv in Hu, Hd'.
  assert (Hfs : (float_of_int s == inject_Z s)%Q) by (apply float_of_int_exact; lia).
  assert (Hs1 : (0 <= float_of_int s)%Q) by (by rewrite Hfs).
  destruct (fadd_error (float_of_int s) f Hs1 Hl) as [[Hb Ha] Ha0]. set (y := fadd _ _) in *. clearbody y.
  rewrite Hfs in Ha, Hb. rewrite Hsum. unfold eps in *. split; lra.
Qed.

(** One refill adds at most the elapsed share of the rate, but for rounding,
    and never goes above the rate. *)
Lemma refill_bounds b r now :
  1 <= r <= 2 ^ 20 -> bucket_ok r now b -> now - lastUpdate b < 2 ^ 63 ->
  (0 <= refill b r now <= inject_Z r)%Q /\
  (refill b r now <= tokens b + (now - lastUpdate b # 1000000000) * inject_Z r + 14 * inject_Z r * eps)%Q.
Proof.
  intros Hr ([Ht0 Ht1] & Hu & _) Hd. unfold refill. cbv zeta.
  destruct (Seconds_bounds (now - lastUpdate b) ltac:(lia)) as [[Hs0 Hs1] _].
  assert (Hri : (float_of_int r == inject_Z r)%Q) by (apply float_of_int_exact; lia).
  assert (Hr0 : (1 <= inject_Z r)%Q) by (change 1%Q with (inject_Z 1); rewrite <- Zle_Qle; lia).
  assert (Hr1 : (0 <= float_of_int r)%Q) by (rewrite Hri; lra).
  destruct (fmul_error _ _ Hs0 Hr1) as [[_ Hm] Hm0].
  set (s := Seconds _) in *. set (v := fmul s _) in *. clearbody v. rewrite Hri in Hm.
  destruct (fadd_error (tokens b) v Ht0 Hm0) as [[_ Ha] Ha0]. set (y := fadd _ _) in *.
  set (q := (now - lastUpdate b # 1000000000)%Q) in *.
  assert (Hq0 : (0 <= q)%Q) by (unfold q, Qle; cbn; lia).
  assert (Hsr : (s * inject_Z r <= q * inject_Z r * (1 + 3 * eps))%Q).
  { rewrite <- Qmult_assoc, (Qmult_comm (inject_Z r)), Qmult_assoc. apply Qmult_le_compat_r; lra. }
  assert (Hu0 : (0 <= q * inject_Z r)%Q) by (apply Qmult_le_0_compat; lra).
  set (u := (q * inject_Z r)%Q) in *. set (sr := (s * inject_Z r)%Q) in *.
  clearbody u sr y s q. unfold eps in *.
  destruct (Qlt_le_dec (float_of_int r) y) as [Hc|Hc]; rewrite Hri in *.
  - split; [lra|]. destruct (Qlt_le_dec (inject_Z r) (tokens b + u)); lra.
  - split; [lra|]. destruct (Qlt_le_dec (2 * inject_Z r) (tokens b + u)); lra.
Qed.

Lemma take_token_ok b r now :
  1 <= r <= 2 ^ 20 -> bucket_ok r now b -> now - lastUpdate b < 2 ^ 63 ->
  let '(allowed, remaining, b') := take_token b r now in
  bucket_ok r now b' /\ lastUpdate b' = now /\ 0 <= remaining <= r /\
  (tokens b' + (if allowed then 1 else 0) <=
     tokens b + (now - lastUpdate b # 1000000000) * inject_Z r + 16 * inject_Z r * eps)%Q.
Proof.
  intros Hr Hb Hd. destruct (refill_bounds b r now Hr Hb Hd) as [[H0 H1] H2]. unfold take_token. cbv zeta.
  assert (Hr0 : (1 <= inject_Z r <= 1048576)%Q)
    by (change 1%Q with (inject_Z 1); change 1048576%Q with (inject_Z 1048576); rewrite <- !Zle_Qle; lia).
  set (t := refill b r now) in *. clearbody t.
  set (gain := ((now - lastUpdate b # 1000000000) * inject_Z r)%Q) in *. clearbody gain.
  destruct (Qle_bool 1 t) eqn:E.
  - apply Qle_bool_iff in E. destruct (fsub_error t 1 E) as [[_ Hs] Hs0]. set (t' := fsub t 1) in *. clearbody t'.
    assert (Hup : (t' <= inject_Z r)%Q) by (unfold eps in *; lra).
    split; [split; [done|]; split; [cbn; lia|done]|]. split; [done|]. split.
    + unfold int_of_float. destruct (Qlt_le_dec t' 0); [lra|].
      pose proof (Qfloor_le t') as Hf. split.
      * change 0 with (Qfloor 0). by apply Qfloor_resp_le.
      * rewrite Zle_Qle. lra.
    + unfold eps in *. cbn [tokens]. lra.
  - split; [split; [done|]; split; [cbn; lia|done]|]. split; [done|]. split; [lia|]. cbn [tokens]. unfold eps in *. lra.
Qed.

(** ** Admission over time *)

(** What happens to a limiter: requests of any tenant, and cleanups, each at
    its instant. *)
Inductive op := ORequest (tenantID : bytes) | OCleanup.

(** One operation, counting the admitted requests of tenant [k]. *)
Definition apply_op (k : bytes) (st : RateLimiter * Z) (o : Z * op) : RateLimiter * Z :=
  let '(rl, n) := st in
  match o with
  | (t, ORequest tenant) =>
      let '((allowed, _, _), rl') := allow rl tenant t in
      (rl', if allowed && bool_decide (tenant = k) then n + 1 else n)
  | (t, OCleanup) => (cleanup rl t, n)
  end.

Definition admitted (k : bytes) (rl : RateLimiter) (ops : list (Z * op)) : RateLimiter * Z :=
  fold_left (apply_op k) ops (rl, 0).

(** What tenant [k] may still take at time [t]. *)
Definition credit (rl : RateLimiter) (k : bytes) (t : Z) : Q :=
  match limiters rl !! k with
  | Some b => tokens b + (t - lastUpdate b # 1000000000) * inject_Z (rps rl)
  | None => inject_Z (rps rl)
  end%Q.

(** The allowance after [i] operations at time [t], counted from [t0]. *)
Definition allowance (r t0 t i : Z) : Q :=
  inject_Z r + (t - t0 # 1000000000) * inject_Z r + inject_Z i * (16 * inject_Z r * eps).

Lemma frac_split a c d : (a - d # 1000000000 == (a - c # 1000000000) + (c - d # 1000000000))%Q.
Proof. unfold Qeq. cbn [Qnum Qden Qplus]. lia. Qed.

Lemma zero_frac x : ((0 # 1000000000) * x == 0)%Q.
Proof. unfold Qeq. cbn. lia. Qed.

Definition state_ok (rl : RateLimiter) (t : Z) : Prop :=
  limiter_ok rl t /\ 1000000000 <= bucketTTL rl.

Lemma bucket_ok_later r t t' b : t <= t' -> bucket_ok r t b -> bucket_ok r t' b.
Proof. intros H (Ht & Hu & He). split; [done|]. split; [lia|done]. Qed.

Lemma new_bucket_ok r t : 1 <= r <= 2 ^ 20 -> bucket_ok r t (new_bucket r t).
Proof.
  intros Hr. assert (Hri : (float_of_int r == inject_Z r)%Q) by (apply float_of_int_exact; lia).
  assert (Hr0 : (1 <= inject_Z r)%Q) by (change 1%Q with (inject_Z 1); rewrite <- Zle_Qle; lia).
  split; [|split; [cbn; lia|done]]. cbn [tokens new_bucket]. rewrite Hri. lra.
Qed.

Lemma credit_later rl k t t' :
  t <= t' -> state_ok rl t -> (credit rl k t' <= credit rl k t + (t' - t # 1000000000) * inject_Z (rps rl))%Q.
Proof.
  intros H [[Hr _] _]. unfold credit.
  assert (Hr0 : (0 <= inject_Z (rps rl))%Q) by (change 0%Q with (inject_Z 0); rewrite <- Zle_Qle; lia).
  assert (Hq : (0 <= t' - t # 1000000000)%Q) by (unfold Qle; cbn; lia).
  assert (Hm : (0 <= (t' - t # 1000000000) * inject_Z (rps rl))%Q) by (by apply Qmult_le_0_compat).
  destruct (limiters rl !! k) as [b|]; [|lra].
  rewrite (frac_split t' t (lastUpdate b)), Qmult_plus_distr_l. lra.
Qed.

(** One operation keeps the limiter well formed and pays for an admission
    out of the tenant's credit, but for rounding. *)
Lemma apply_op_credit k rl n t0 t o rl' n' :
  state_ok rl t0 -> t0 <= t -> t - t0 < 2 ^ 62 ->
  map_Forall (fun _ b => t - lastUpdate b < 2 ^ 63) (limiters rl) ->
  apply_op k (rl, n) (t, o) = (rl', n') ->
  state_ok rl' t /\ rps rl' = rps rl /\ bucketTTL rl' = bucketTTL rl /\ n <= n' /\
  map_Forall (fun i b => lastUpdate b = t \/ limiters rl !! i = Some b) (limiters rl') /\
  (inject_Z n' + credit rl' k t <= inject_Z n + credit rl k t + 16 * inject_Z (rps rl) * eps)%Q.
Proof.
  intros [[Hr Hb] Httl] Ht Hd Hage Hop.
  assert (Hr0 : (1 <= inject_Z (rps rl))%Q) by (change 1%Q with (inject_Z 1); rewrite <- Zle_Qle; lia).
  assert (Hb' : map_Forall (fun _ b => bucket_ok (rps rl) t b) (limiters rl)).
  { intros i b Hi. eapply bucket_ok_later; [exact Ht|]. by eapply Hb. }
  assert (He : (0 <= eps)%Q) by (unfold eps; lra). destruct o as [tenant|]; cbn [apply_op] in Hop.
  - unfold allow in Hop. set (b := default (new_bucket (rps rl) t) (limiters rl !! tenant)) in *.
    assert (Hbok : bucket_ok (rps rl) t b /\ t - lastUpdate b < 2 ^ 63).
    { unfold b. destruct (limiters rl !! tenant) as [x|] eqn:E; cbn [default].
      - split; [by eapply Hb' | by eapply Hage].
      - split; [by apply new_bucket_ok | cbn; lia]. }
    pose proof (take_token_ok b (rps rl) t Hr (proj1 Hbok) (proj2 Hbok)) as Htk.
    destruct (take_token b (rps rl) t) as [[allowed remaining] b']. destruct Htk as (Hok & Hlu & _ & Hcr).
    injection Hop as <- <-. cbn [rps bucketTTL limiters].
    split; [split; [split; [done|]|done]; apply map_Forall_insert_2; [done|exact Hb']|].
    split; [done|]. split; [done|]. split; [destruct (_ && _); lia|].
    split. { apply map_Forall_insert_2; [by left|]. intros i x Hi. by right. }
    unfold credit at 1. cbn [limiters rps]. destruct (decide (tenant = k)) as [->|Hne].
    + rewrite bool_decide_true, andb_true_r, lookup_insert_eq by done. rewrite Hlu, Z.sub_diag.
      assert (Hcb : (tokens b + (t - lastUpdate b # 1000000000) * inject_Z (rps rl) <= credit rl k t)%Q).
      { unfold credit, b. destruct (limiters rl !! k); cbn [default]; [apply Qle_refl|].
        cbn [new_bucket tokens lastUpdate]. rewrite Z.sub_diag. rewrite float_of_int_exact by lia.
        rewrite zero_frac. lra. }
      rewrite zero_frac.
      destruct allowed; cbv match in Hcr |- *; [rewrite inject_Z_plus; change (inject_Z 1) with 1%Q|]; lra.
    + rewrite bool_decide_false, andb_false_r, lookup_insert_ne by done. fold (credit rl k t).
      assert (0 <= 16 * inject_Z (rps rl) * eps)%Q by (unfold eps; lra). lra.
  - injection Hop as <- <-. unfold cleanup, credit. cbn [limiters rps bucketTTL].
    split; [split; [split; [done|]|done]|].
    { intros i b [Hi _]%map_lookup_filter_Some. by eapply Hb'. }
    split; [done|]. split; [done|]. split; [lia|].
    split. { intros i b [Hi _]%map_lookup_filter_Some. by right. }
    assert (0 <= 16 * inject_Z (rps rl) * eps)%Q by (unfold eps; lra).
    destruct (limiters rl !! k) as [b|] eqn:E.
    + destruct (decide (bucketTTL rl < t - lastAccess b)) as [Hidle|Hfresh].
      * rewrite map_lookup_filter_None_2 by (right; intros x Hx; cbn; intros Hn; congruence).
        destruct (Hb' _ _ E) as ([Ht0 _] & _ & Hla).
        assert (Hq : (1 <= t - lastUpdate b # 1000000000)%Q) by (unfold Qle; cbn; lia).
        assert (Hm : (inject_Z (rps rl) <= (t - lastUpdate b # 1000000000) * inject_Z (rps rl))%Q).
        { rewrite <- (Qmult_1_l (inject_Z (rps rl))) at 1. apply Qmult_le_compat_r; lra. }
        lra.
      * rewrite (map_lookup_filter_Some_2 _ _ k b) by done. lra.
    + rewrite map_lookup_filter_None_2 by (by left). lra.
Qed.

(** The instants of the operations, from [t] on, never run backwards and end
    by [t1]. *)
Fixpoint timed (t t1 : Z) (ops : list (Z * op)) : Prop :=
  match ops with
  | [] => t <= t1
  | (t', _) :: rest => t <= t' /\ timed t' t1 rest
  end.

Lemma timed_le ops t t1 : timed t t1 ops -> t <= t1.
Proof. revert t. induction ops as [|[t' o] ops IH]; intros t; cbn; [done|]. intros [? ?%IH]. lia. Qed.

Lemma admitted_bound k t0 t1 ops : forall rl n t i,
  state_ok rl t -> t0 <= t -> timed t t1 ops -> t1 - t0 < 2 ^ 62 ->
  map_Forall (fun _ b => t0 <= lastUpdate b) (limiters rl) ->
  (inject_Z n + credit rl k t <= allowance (rps rl) t0 t i)%Q ->
  (inject_Z (snd (fold_left (apply_op k) ops (rl, n))) <= allowance (rps rl) t0 t1 (i + Z.of_nat (length ops)))%Q.
Proof.
  induction ops as [|[t' o] ops IH]; intros rl n t i Hst Ht0 Htm Hspan Hage Hcr.
  - cbn [fold_left snd length timed] in *. rewrite Z.add_0_r.
    assert (Hr0 : (1 <= inject_Z (rps rl))%Q).
    { destruct Hst as [[Hr _] _]. change 1%Q with (inject_Z 1). rewrite <- Zle_Qle. lia. }
    assert (Hc0 : (0 <= credit rl k t)%Q).
    { unfold credit. destruct (limiters rl !! k) as [b|] eqn:E; [|lra].
      destruct Hst as [[_ Hb] _]. destruct (Hb _ _ E) as ([? _] & ? & _).
      assert (0 <= (t - lastUpdate b # 1000000000) * inject_Z (rps rl))%Q
        by (apply Qmult_le_0_compat; [unfold Qle; cbn; lia|lra]). lra. }
    unfold allowance in *. rewrite (frac_split t1 t t0), Qmult_plus_distr_l.
    assert (0 <= (t1 - t # 1000000000) * inject_Z (rps rl))%Q
      by (apply Qmult_le_0_compat; [unfold Qle; cbn; lia|lra]). lra.
  - destruct Htm as [Htt Htm]. pose proof (timed_le _ _ _ Htm). cbn [fold_left].
    destruct (apply_op k (rl, n) (t', o)) as [rl' n'] eqn:Eo.
    apply apply_op_credit with (t0 := t) in Eo as (Hst' & Hrps & _ & _ & Hnew & Hcr'); [|done|lia|lia|].
    2:{ intros j b Hb. specialize (Hage j b Hb). cbn in Hage. lia. }
    cbn [length]. rewrite Nat2Z.inj_succ, <- Hrps.
    replace (i + Z.succ (Z.of_nat (length ops))) with ((i + 1) + Z.of_nat (length ops)) by lia.
    apply (IH rl' n' t'); try done; [lia| |].
    { intros j b Hb. destruct (Hnew j b Hb) as [?|Hold]; [cbn; lia|by eapply Hage]. }
    pose proof (credit_later rl k t t' Htt Hst) as Hlater. rewrite Hrps. unfold allowance in *.
    rewrite (frac_split t' t t0), Qmult_plus_distr_l, inject_Z_plus. change (inject_Z 1) with 1%Q. lra.
Qed.

(** The rate limit holds over any interval.  Whatever requests of
    whatever tenants and whatever cleanups are interleaved, between [t0] and
    [t1] a tenant is admitted at most the burst allowance plus the rate times
    the elapsed time, plus one request for all rounding of the floating-point
    arithmetic (up to 2^28 operations and a rate of 2^20). *)
Theorem rate_limit_bound r k t0 t1 ops :
  1 <= r <= 2 ^ 20 -> timed t0 t1 ops -> t1 - t0 < 2 ^ 62 -> Z.of_nat (length ops) <= 2 ^ 28 ->
  (inject_Z (snd (admitted k (NewRateLimiter r) ops)) <=
     inject_Z r + inject_Z r * (t1 - t0 # 1000000000) + 1)%Q.
Proof.
  intros Hr Ht Hs Hn. unfold admitted.
  assert (Hr0 : (1 <= inject_Z r <= 1048576)%Q)
    by (change 1%Q with (inject_Z 1); change 1048576%Q with (inject_Z 1048576); rewrite <- !Zle_Qle; lia).
  pose proof (admitted_bound k t0 t1 ops (NewRateLimiter r) 0 t0 0) as H. cbn [rps NewRateLimiter NewRateLimiterWithTTL] in H.
  assert (H' := H ltac:(split; [split; [done|apply map_Forall_empty]|cbn; lia]) ltac:(lia) Ht Hs (map_Forall_empty _)).
  clear H. unfold allowance, credit in H'. cbn [limiters NewRateLimiter NewRateLimiterWithTTL rps] in H'.
  rewrite lookup_empty, Z.sub_diag, zero_frac in H'. change (inject_Z 0) with 0%Q in H'.
  specialize (H' ltac:(unfold eps; lra)). rewrite Z.add_0_l in H'.
  assert (Hi : (0 <= inject_Z (Z.of_nat (length ops)) <= 268435456)%Q).
  { change 0%Q with (inject_Z 0). change 268435456%Q with (inject_Z 268435456). rewrite <- !Zle_Qle. lia. }
  set (i := inject_Z (Z.of_nat (length ops))) in *. clearbody i.
  assert (Hir : (i * inject_Z r <= 268435456 * 1048576)%Q).
  { apply Qle_trans with (268435456 * inject_Z r)%Q; [apply Qmult_le_compat_r; lra|lra]. }
  set (x := (i * inject_Z r)%Q) in *.
  setoid_replace (i * (16 * inject_Z r * eps))%Q with (x * (16 * eps))%Q using relation Qeq in H' by (unfold x; ring).
  rewrite (Qmult_comm (t1 - t0 # 1000000000)) in H'. unfold eps in H'. clearbody x. lra.
Qed.

(** The goroutine is the cleanups of a schedule, up to the stop. *)
Fixpoint ticks (wakes : list wake) : list (Z * op) :=
  match wakes with Tick t :: rest => (t, OCleanup) :: ticks rest | _ => [] end.

Lemma cleanupLoop_ops k wakes rl n :
  foldl (apply_op k) (rl, n) (ticks wakes) = (fst (cleanupLoop rl wakes), n).
Proof. revert rl. induction wakes as [|[t|] wakes IH]; intros rl; [done| |done]. cbn [ticks foldl cleanupLoop]. apply IH. Qed.

(** What a sweep keeps was used within the time to live, and a bucket that
    was is kept as it is. *)
Lemma cleanup_keeps rl t k b :
  limiters (cleanup rl t) !! k = Some b <-> limiters rl !! k = Some b /\ t - lastAccess b <= bucketTTL rl.
Proof. cbn. rewrite map_lookup_filter_Some. cbn. split; intros [? ?]; (split; [done|lia]). Qed.

(** After the sweeps of the goroutine, no bucket is left that was idle longer
    than the time to live at the last of them. *)
Lemma cleanupLoop_evicts rl wakes t k b :
  limiters (fst (cleanupLoop rl (wakes ++ [Tick t]))) !! k = Some b -> Closed ∉ wakes ->
  limiters rl !! k = Some b /\ t - lastAccess b <= bucketTTL rl.
Proof.
  revert rl. induction wakes as [|[t'|] wakes IH]; intros rl Hb Hc.
  - by apply cleanup_keeps.
  - cbn in Hb. apply IH in Hb as [Hb Ht]; [|set_solver]. by apply cleanup_keeps in Hb as [Hb _].
  - set_solver.
Qed.

Lemma refill_new r t : 1 <= r <= 2 ^ 20 -> refill (new_bucket r t) r t = inject_Z r.
Proof.
  intros Hr. unfold refill, new_bucket. cbn [tokens lastUpdate]. rewrite Z.sub_diag, float_of_int_eq by lia.
  assert (Hz : fmul (Seconds 0) (inject_Z r) = 0%Q) by reflexivity. rewrite Hz.
  assert (Ha : fadd (inject_Z r) 0 = inject_Z r).
  { unfold fadd. replace (inject_Z r + 0)%Q with (inject_Z r)
      by (unfold inject_Z, Qplus; cbn [Qnum Qden]; f_equal; lia). apply float_of_int_eq. lia. }
  rewrite Ha. by destruct (Qlt_le_dec _ _).
Qed.

(** A bucket that rested long enough for two tokens admits the next
    request, and the headers of every answer are sensible: what remains is
    between zero and the limit. *)
Theorem allow_admits_and_reports rl k now :
  limiter_ok rl now -> map_Forall (fun _ b => now - lastUpdate b < 2 ^ 62) (limiters rl) ->
  let '((allowed, limit, remaining), _) := allow rl k now in
  limit = rps rl /\ 0 <= remaining <= limit /\
  (match limiters rl !! k with
   | None => True
   | Some b => 2000000000 <= (now - lastUpdate b) * rps rl
   end -> allowed = true).
Proof.
  intros [Hr Hb] Hage. unfold allow. set (b := default (new_bucket (rps rl) now) (limiters rl !! k)).
  assert (Hok : bucket_ok (rps rl) now b /\ now - lastUpdate b < 2 ^ 62).
  { unfold b. destruct (limiters rl !! k) as [x|] eqn:E; cbn [default].
    - split; [by eapply Hb | by eapply Hage].
    - split; [by apply new_bucket_ok | cbn; lia]. }
  destruct Hok as [Hok Hd]. pose proof (take_token_ok b (rps rl) now Hr Hok ltac:(lia)) as Htk.
  destruct (take_token b (rps rl) now) as [[allowed remaining] b'] eqn:Et. destruct Htk as (_ & _ & Hrem & _).
  split; [done|]. split; [done|]. intros Hrest.
  assert (H1 : (1 <= refill b (rps rl) now)%Q); [|unfold take_token in Et; cbv zeta in Et;
    apply Qle_bool_iff in H1; rewrite H1 in Et; by injection Et].
  assert (Hri : (float_of_int (rps rl) == inject_Z (rps rl))%Q) by (apply float_of_int_exact; lia).
  assert (Hr0 : (1 <= inject_Z (rps rl))%Q) by (change 1%Q with (inject_Z 1); rewrite <- Zle_Qle; lia).
  destruct (limiters rl !! k) as [x|] eqn:E; [|unfold b; cbn [default]; rewrite refill_new by done; exact Hr0].
  unfold refill. cbv zeta. destruct (Qlt_le_dec _ _) as [Hc|Hc]; [rewrite Hri; lra|]. clear Hc.
  change b with x in *. clear b. destruct Hok as ([Ht0 Ht1] & Hu & _).
  destruct (Seconds_bounds (now - lastUpdate x) ltac:(lia)) as [[Hs0 _] Hs1].
  assert (Hr1 : (0 <= float_of_int (rps rl))%Q) by (rewrite Hri; lra).
  destruct (fmul_error _ _ Hs0 Hr1) as [[Hm _] Hm0]. set (s := Seconds _) in *. set (v := fmul s _) in *. clearbody v.
  rewrite Hri in Hm. destruct (fadd_error (tokens x) v Ht0 Hm0) as [[Ha _] _]. set (y := fadd _ _) in *. clearbody y.
  set (g := ((now - lastUpdate x # 1000000000) * inject_Z (rps rl))%Q).
  assert (Hg : (2 <= g)%Q) by (unfold g, Qle; cbn [Qnum Qden Qmult inject_Z]; lia).
  assert (Hsr : (g * (1 - 3 * eps) <= s * inject_Z (rps rl))%Q).
  { unfold g. rewrite <- Qmult_assoc, (Qmult_comm (inject_Z (rps rl))), Qmult_assoc. apply Qmult_le_compat_r; lra. }
  set (sr := (s * inject_Z (rps rl))%Q) in *. clearbody g sr s. unfold eps in *. lra.
Qed.

Definition tenant_a : bytes := lit "a".
Definition tenant_b : bytes := lit "b".

Definition burst : list (Z * op) :=
  [(0, ORequest tenant_a); (0, ORequest tenant_a); (10, ORequest tenant_b); (20, OCleanup); (500000000, ORequest tenant_a)].

Lemma rate_limit_bound_witness :
  (inject_Z (snd (admitted tenant_a (NewRateLimiter 2) burst)) <=
   inject_Z 2 + inject_Z 2 * (1000000000 - 0 # 1000000000) + 1)%Q.
Proof. apply (rate_limit_bound 2 tenant_a 0 1000000000); cbn; lia. Defined.

Definition rested : RateLimiter := mkRateLimiter {[ tenant_a := mkBucket 0 0 0 ]} 2 300000000000.

Lemma allow_admits_and_reports_witness :
  let '((allowed, limit, remaining), _) := allow rested tenant_a 1000000000 in
  limit = rps rested /\ 0 <= remaining <= limit /\
  (match limiters rested !! tenant_a with
   | None => True
   | Some b => 2000000000 <= (1000000000 - lastUpdate b) * rps rested
   end -> allowed = true).
Proof.
  apply (allow_admits_and_reports rested tenant_a 1000000000).
  - split; [cbn; lia|]. apply map_Forall_singleton. unfold bucket_ok, Qle. cbn. lia.
  - apply map_Forall_singleton. cbn. lia.
Defined.
