(* ===== verification/RateLimitConc.v ===== *)
(** * The rate limiter under concurrency

    [allow] takes the limiter's lock to find or make the tenant's bucket and,
    after it has released it, the bucket's own; [cleanup] holds the first lock
    throughout and takes each bucket's in turn.  Here every critical section
    is one step, buckets are objects in a heap that the index and the requests
    in flight point to, and a request carries the clock it read before its
    first lock, so requests may reach their bucket out of clock order. *)
From S2P Require Import Prelude GoFloat RateLimit.

(** A request between its two critical sections. *)
Record flight := mkFlight { fl_tenant : bytes; fl_bucket : nat; fl_now : Z }.

(** One update of a bucket, and whether it admitted the request. *)
Record admission := mkAdmission { oc_tenant : bytes; oc_bucket : nat; oc_admitted : bool }.

Record Conc := mkConc {
  c_index : gmap bytes nat;
  c_heap : gmap nat bucket;
  c_next : nat;
  c_flight : gmap nat flight;
  (** [cleanup] in progress: its clock, and the tenant it found idle and is
      about to delete *)
  c_sweep : option (Z * option bytes);
  c_log : list admission;
  c_swept : list bytes
}.

(** The critical sections. *)
Inductive section :=
  | SLookup (id : nat) (tenantID : bytes) (now : Z)  (** of [allow], under [rl.mu] *)
  | SUpdate (id : nat)                               (** of [allow], under [b.mu] *)
  | SSweep (now : Z)                                 (** [cleanup] takes [rl.mu] *)
  | SVisit (tenantID : bytes)                        (** it reads [lastAccess] under [b.mu] *)
  | SDelete                                          (** and deletes the entry *)
  | SSwept.                                          (** it releases [rl.mu] *)

Section Conc.
Variables (r ttl : Z).

Definition new_conc : Conc := mkConc ∅ ∅ 0 ∅ None [] [].

(** [rl.mu.Lock() ... rl.mu.Unlock()] of [allow]. *)
Definition lookup_section (id : nat) (tenantID : bytes) (now : Z) (s : Conc) : Conc :=
  match c_index s !! tenantID with
  | Some l => mkConc (c_index s) (c_heap s) (c_next s) (<[id := mkFlight tenantID l now]> (c_flight s)) (c_sweep s) (c_log s) (c_swept s)
  | None => mkConc (<[tenantID := c_next s]> (c_index s)) (<[c_next s := new_bucket r now]> (c_heap s)) (S (c_next s))
              (<[id := mkFlight tenantID (c_next s) now]> (c_flight s)) (c_sweep s) (c_log s) (c_swept s)
  end.

(** [b.mu.Lock() ... b.mu.Unlock()] of [allow]. *)
Definition update_section (id : nat) (f : flight) (b : bucket) (s : Conc) : Conc :=
  let '(allowed, _, b') := take_token b r (fl_now f) in
  mkConc (c_index s) (<[fl_bucket f := b']> (c_heap s)) (c_next s) (delete id (c_flight s)) (c_sweep s)
    (c_log s ++ [mkAdmission (fl_tenant f) (fl_bucket f) allowed]) (c_swept s).

Definition set_sweep (w : option (Z * option bytes)) (s : Conc) : Conc :=
  mkConc (c_index s) (c_heap s) (c_next s) (c_flight s) w (c_log s) (c_swept s).

(** [None] when the section cannot run: its lock is held, or its goroutine is
    not there. *)
Definition run_section (s : Conc) (a : section) : option Conc :=
  match a with
  | SLookup id tenantID now =>
      match c_sweep s, c_flight s !! id with
      | None, None => Some (lookup_section id tenantID now s)
      | _, _ => None
      end
  | SUpdate id =>
      match c_flight s !! id with
      | Some f => match c_heap s !! fl_bucket f with
                  | Some b => Some (update_section id f b s)
                  | None => None
                  end
      | None => None
      end
  | SSweep now => match c_sweep s with None => Some (set_sweep (Some (now, None)) s) | Some _ => None end
  | SVisit tenantID =>
      match c_sweep s, c_index s !! tenantID with
      | Some (now, None), Some l =>
          match c_heap s !! l with
          | Some b => if ttl <? now - lastAccess b then Some (set_sweep (Some (now, Some tenantID)) s) else Some s
          | None => None
          end
      | _, _ => None
      end
  | SDelete =>
      match c_sweep s with
      | Some (now, Some tenantID) =>
          Some (mkConc (delete tenantID (c_index s)) (c_heap s) (c_next s) (c_flight s) (Some (now, None)) (c_log s)
                  (tenantID :: c_swept s))
      | _ => None
      end
  | SSwept => match c_sweep s with Some (_, None) => Some (set_sweep None s) | _ => None end
  end.

Fixpoint run_sections (s : Conc) (acts : list section) : option Conc :=
  match acts with
  | [] => Some s
  | a :: rest => match run_section s a with Some s' => run_sections s' rest | None => None end
  end.

(** The requests of a tenant that were admitted. *)
Definition admissions (k : bytes) (log : list admission) : Z :=
  Z.of_nat (length (filter (fun o => oc_tenant o = k /\ oc_admitted o = true) log)).

(** ** The atomic view *)

(** The limiter the sections implement. *)
Definition view (s : Conc) : RateLimiter := mkRateLimiter (omap (fun l => c_heap s !! l) (c_index s)) r ttl.

(** Pointers are valid, and tenants do not share buckets. *)
Definition conc_ok (s : Conc) : Prop :=
  (forall k l, c_index s !! k = Some l -> is_Some (c_heap s !! l)) /\
  (forall id f, c_flight s !! id = Some f -> is_Some (c_heap s !! fl_bucket f)) /\
  (forall l b, c_heap s !! l = Some b -> (l < c_next s)%nat) /\
  (forall k k' l, c_index s !! k = Some l -> c_index s !! k' = Some l -> k = k') /\
  (forall id f k, c_flight s !! id = Some f -> c_index s !! k = Some (fl_bucket f) -> fl_tenant f = k).
End Conc.

(** ** One update, whatever the order of the clocks *)

Definition frac (d : Z) : Q := (d # 1000000000)%Q.

(** The rounding of one update, for clocks within five minutes of each
    other. *)
Definition slack (r : Z) : Q := (12288 * inject_Z r * eps)%Q.

Lemma refill_signed b r now :
  1 <= r <= 2 ^ 20 -> - 300000000000 <= now - lastUpdate b < 2 ^ 63 ->
  (- (301 * inject_Z r) <= tokens b <= inject_Z r)%Q ->
  let x := (tokens b + frac (now - lastUpdate b) * inject_Z r)%Q in
  (refill b r now <= inject_Z r /\ refill b r now <= x + 10000 * inject_Z r * eps /\
   (inject_Z r <= refill b r now \/ x - 10000 * inject_Z r * eps <= refill b r now))%Q.
Proof.
  intros Hr Hd [Ht0 Ht1]. cbv zeta. unfold refill, frac. cbv zeta. set (d := now - lastUpdate b) in *.
  assert (Hri : (float_of_int r == inject_Z r)%Q) by (apply float_of_int_exact; lia).
  assert (Hr0 : (1 <= inject_Z r)%Q) by (change 1%Q with (inject_Z 1); rewrite <- Zle_Qle; lia).
  pose proof (Seconds_signed d ltac:(lia)) as Hs. set (s := Seconds d) in *. clearbody s.
  set (q := (d # 1000000000)%Q) in *. set (aq := (Z.abs d # 1000000000)%Q) in *.
  assert (Haq : (- aq <= q <= aq)%Q) by (unfold aq, q, Qle; cbn [Qnum Qden Qopp]; lia).
  assert (Hq0 : (q == aq \/ aq <= 300)%Q).
  { unfold aq, q. destruct (decide (0 <= d)); [left; by rewrite Z.abs_eq|right; unfold Qle; cbn; lia]. }
  set (R := inject_Z r) in *. set (u := (q * R)%Q) in *. set (au := (aq * R)%Q).
  assert (Hau : (- au <= u <= au)%Q).
  { unfold u, au. split; [setoid_replace (- (aq * R))%Q with (- aq * R)%Q using relation Qeq by ring|]; apply Qmult_le_compat_r; lra. }
  assert (Hu0 : (u == au \/ au <= 300 * R)%Q).
  { destruct Hq0 as [E|E]; [left; unfold u, au; by rewrite E|right; unfold au; apply Qmult_le_compat_r; lra]. }
  assert (Hsr : (u - 3 * au * eps <= s * R <= u + 3 * au * eps)%Q).
  { unfold u, au. split.
    - setoid_replace (q * R - 3 * (aq * R) * eps)%Q with ((q - 3 * aq * eps) * R)%Q using relation Qeq by ring. apply Qmult_le_compat_r; lra.
    - setoid_replace (q * R + 3 * (aq * R) * eps)%Q with ((q + 3 * aq * eps) * R)%Q using relation Qeq by ring. apply Qmult_le_compat_r; lra. }
  assert (Hm : (- (2 * au) <= s * float_of_int r <= 2 * au)%Q) by (rewrite Hri; unfold eps in *; lra).
  apply rnd_signed in Hm. fold (fmul s (float_of_int r)) in Hm. set (v := fmul _ _) in *. clearbody v. rewrite Hri in Hm.
  assert (Ha : (- (301 * R + 3 * au) <= tokens b + v <= 301 * R + 3 * au)%Q) by (unfold eps in *; lra).
  apply rnd_signed in Ha. fold (fadd (tokens b) v) in Ha. set (y := fadd _ _) in *. clearbody y.
  set (sr := (s * R)%Q) in *. clearbody sr u au R. clear Haq Hq0 Hs aq q.
  destruct (Qlt_le_dec (float_of_int r) y) as [Hc|Hc]; rewrite Hri in *; unfold eps in *.
  - split; [lra|]. split; [|left; lra]. destruct Hu0 as [E|E]; [|lra].
    destruct (Qlt_le_dec (400 * R) u); lra.
  - split; [lra|]. destruct Hu0 as [E|E]; [|split; [|right]; lra].
    destruct (Qlt_le_dec (400 * R) u); [exfalso; lra|]. split; [|right]; lra.
Qed.

Section Update.
Context (r t0 t1 : Z) (Hr : 1 <= r <= 2 ^ 20) (Ht : t0 <= t1) (Hspan : t1 - t0 <= 300000000000) (Hend : t1 < 2 ^ 62).

(** What a bucket could still give by [t1]. *)
Definition reserve_at (b : bucket) : Q := (tokens b + frac (t1 - lastUpdate b) * inject_Z r)%Q.

(** A bucket that was used in the interval, after [i] updates of the limiter
    of which [a] admitted a request from it. *)
Definition touched (i a : Z) (b : bucket) : Prop :=
  (tokens b <= inject_Z r)%Q /\ t0 <= lastUpdate b <= t1 /\ lastAccess b = lastUpdate b /\
  (- (inject_Z i * slack r) <= reserve_at b)%Q /\
  (inject_Z a + reserve_at b <= inject_Z r + frac (t1 - t0) * inject_Z r + inject_Z i * slack r)%Q.

(** One that was not, [i] updates after the start of the limiter: by [t0] it
    has made up for what updates out of clock order took from it. *)
Definition untouched (i : Z) (b : bucket) : Prop :=
  (- (301 * inject_Z r) <= tokens b <= inject_Z r)%Q /\ 0 <= lastUpdate b <= t0 /\ lastAccess b = lastUpdate b /\
  (- (inject_Z i * slack r) <= tokens b + frac (t0 - lastUpdate b) * inject_Z r)%Q.

Lemma rate_positive : (1 <= inject_Z r <= 1048576)%Q.
Proof. change 1%Q with (inject_Z 1). change 1048576%Q with (inject_Z 1048576). rewrite <- !Zle_Qle. lia. Qed.

Lemma slack_nonneg : (0 <= slack r)%Q.
Proof. pose proof rate_positive. unfold slack, eps. lra. Qed.

Lemma frac_rate c d : c <= d -> (frac c * inject_Z r <= frac d * inject_Z r)%Q.
Proof. intros H. pose proof rate_positive. apply Qmult_le_compat_r; [unfold frac, Qle; cbn; lia|lra]. Qed.

Lemma touched_later i j a b : i <= j -> touched i a b -> touched j a b.
Proof.
  intros Hij (H1 & H2 & H3 & H4 & H5). pose proof slack_nonneg as Hs.
  assert (Hm : (inject_Z i * slack r <= inject_Z j * slack r)%Q) by (apply Qmult_le_compat_r; [by rewrite <- Zle_Qle|done]).
  split; [done|]. split; [done|]. split; [done|]. split; lra.
Qed.

Lemma untouched_later i j b : i <= j -> untouched i b -> untouched j b.
Proof.
  intros Hij (H1 & H2 & H3 & H4). pose proof slack_nonneg as Hs.
  assert (Hm : (inject_Z i * slack r <= inject_Z j * slack r)%Q) by (apply Qmult_le_compat_r; [by rewrite <- Zle_Qle|done]).
  split; [done|]. split; [done|]. split; [done|]. lra.
Qed.

Lemma new_bucket_touched i now : 0 <= i -> t0 <= now <= t1 -> touched i 0 (new_bucket r now).
Proof.
  intros Hi Hn. pose proof rate_positive as Hr0. pose proof slack_nonneg as Hs.
  assert (Hri : (float_of_int r == inject_Z r)%Q) by (apply float_of_int_exact; lia).
  assert (Hi0 : (0 <= inject_Z i * slack r)%Q) by (apply Qmult_le_0_compat; [change 0%Q with (inject_Z 0); by rewrite <- Zle_Qle|done]).
  pose proof (frac_rate (t1 - now) (t1 - t0) ltac:(lia)). pose proof (frac_rate 0 (t1 - now) ltac:(lia)) as H0.
  unfold frac in H0 at 1. rewrite zero_frac in H0.
  unfold touched, reserve_at. cbn [new_bucket tokens lastUpdate lastAccess]. rewrite Hri. change (inject_Z 0) with 0%Q.
  split; [lra|]. split; [lia|]. split; [done|]. split; lra.
Qed.

(** An update pays for what it admits. *)
Lemma update_pays i a b now :
  0 <= i -> (inject_Z i * slack r <= 1 # 2)%Q -> t0 <= now <= t1 -> touched i a b \/ (a = 0 /\ untouched i b) ->
  let '(allowed, _, b') := take_token b r now in touched (i + 1) (if allowed then a + 1 else a) b'.
Proof.
  intros Hi Hsmall Hn Hb. pose proof rate_positive as Hr0. pose proof slack_nonneg as Hs.
  assert (Hi0 : (0 <= inject_Z i * slack r)%Q) by (apply Qmult_le_0_compat; [change 0%Q with (inject_Z 0); by rewrite <- Zle_Qle|done]).
  assert (Hpre : - 300000000000 <= now - lastUpdate b < 2 ^ 63 /\ (- (301 * inject_Z r) <= tokens b <= inject_Z r)%Q).
  { destruct Hb as [(H1 & H2 & _ & H4 & _)|[_ (H1 & H2 & _)]]; [|split; [lia|done]]. split; [lia|]. split; [|done].
    unfold reserve_at in H4. pose proof (frac_rate (t1 - lastUpdate b) 300000000000 ltac:(lia)) as Hf.
    assert (E : (frac 300000000000 == 300)%Q) by reflexivity. rewrite E in Hf. lra. }
  destruct Hpre as [Hd Htk]. pose proof (refill_signed b r now Hr Hd Htk) as Hrf. cbv zeta in Hrf.
  pose proof (frac_rate (t1 - now) (t1 - t0) ltac:(lia)) as Hf1. pose proof (frac_rate 0 (t1 - now) ltac:(lia)) as Hf0.
  assert (Ez : (frac 0 * inject_Z r == 0)%Q) by (unfold frac; apply zero_frac). rewrite Ez in Hf0.
  assert (Hsp : (frac (t1 - lastUpdate b) * inject_Z r == frac (t1 - now) * inject_Z r + frac (now - lastUpdate b) * inject_Z r)%Q).
  { unfold frac. rewrite (frac_split t1 now (lastUpdate b)). ring. }
  unfold take_token. cbv zeta. set (t := refill b r now) in *. clearbody t.
  assert (Hi1 : (inject_Z (i + 1) * slack r == inject_Z i * slack r + slack r)%Q) by (rewrite inject_Z_plus; change (inject_Z 1) with 1%Q; ring).
  assert (Hfin : forall t' a', (t' <= inject_Z r)%Q ->
    (t' + inject_Z a' <= t + inject_Z a + 2 * inject_Z r * eps)%Q -> (0 <= t' \/ (a' = a /\ t' == t))%Q ->
    touched (i + 1) a' (mkBucket t' now now)).
  { intros t' a' Hle Hpay Hlow. unfold touched, reserve_at. cbn [tokens lastUpdate lastAccess]. rewrite Hi1.
    split; [done|]. split; [done|]. split; [done|]. unfold slack in *. split.
    - destruct Hlow as [Hlow|[_ Hlow]]; [unfold eps in *; lra|]. rewrite Hlow. destruct Hrf as (_ & _ & [Hc|Hc]); [unfold eps in *; lra|].
      destruct Hb as [(_ & _ & _ & H4 & _)|[_ (_ & H2 & _ & H4)]].
      + unfold reserve_at in H4. rewrite Hsp in H4. unfold slack, eps in *. lra.
      + pose proof (frac_rate (t0 - lastUpdate b) (now - lastUpdate b) ltac:(lia)) as Hf2. unfold slack, eps in *. lra.
    - destruct Hb as [(_ & _ & _ & _ & H5)|[-> _]].
      + unfold reserve_at in H5. rewrite Hsp in H5. unfold slack, eps in *. destruct Hrf as (_ & Hx & _). lra.
      + change (inject_Z 0) with 0%Q in Hpay. destruct Hrf as (Hx & _). unfold eps in *. lra. }
  destruct (Qle_bool 1 t) eqn:E.
  - apply Qle_bool_iff in E. destruct (fsub_error t 1 E) as [[_ Hu] Hl]. destruct Hrf as (Hx & _).
    apply Hfin; [unfold eps in *; lra| |by left]. rewrite inject_Z_plus. change (inject_Z 1) with 1%Q. unfold eps in *. lra.
  - destruct Hrf as (Hx & _). apply Hfin; [done|unfold eps; lra|right; split; [done|reflexivity]].
Qed.

(** So a bucket admits no more than the allowance of the interval. *)
Lemma touched_bound i a b :
  (inject_Z i * slack r <= 1 # 2)%Q -> touched i a b -> (inject_Z a <= inject_Z r + frac (t1 - t0) * inject_Z r + 1)%Q.
Proof. intros Hsmall (_ & _ & _ & H4 & H5). lra. Qed.
End Update.

(** At the end of the interval a bucket is ready for the next one. *)
Lemma touched_untouched r t0 t1 i a b :
  1 <= r <= 2 ^ 20 -> 0 <= t0 -> t1 - t0 <= 300000000000 -> (inject_Z i * slack r <= 1 # 2)%Q ->
  touched r t0 t1 i a b -> untouched r t1 i b.
Proof.
  intros Hr H0 Hspan Hsmall (H1 & H2 & H3 & H4 & _). split; [|split; [lia|split; [done|exact H4]]]. split; [|done].
  unfold reserve_at in H4. pose proof (frac_rate r Hr (t1 - lastUpdate b) 300000000000 ltac:(lia)) as Hf.
  assert (E : (frac 300000000000 == 300)%Q) by reflexivity. rewrite E in Hf. pose proof (rate_positive r Hr). lra.
Qed.

(** ** Runs of critical sections *)

(** The updates of a bucket in a log, and those that admitted. *)
Definition admitted_by (l : nat) (log : list admission) : Z :=
  Z.of_nat (length (filter (fun o => oc_bucket o = l /\ oc_admitted o = true) log)).

Lemma admitted_by_snoc l log o :
  admitted_by l (log ++ [o]) = admitted_by l log + (if bool_decide (oc_bucket o = l /\ oc_admitted o = true) then 1 else 0).
Proof. unfold admitted_by. rewrite filter_app, length_app, filter_cons. repeat case_decide; case_bool_decide; try done; cbn; lia. Qed.

(** Every admission of a tenant is one of a bucket it used. *)
Lemma admissions_le k log ls :
  Forall (fun o => oc_tenant o = k -> oc_bucket o ∈ ls) log ->
  admissions k log <= foldr Z.add 0 (map (fun l => admitted_by l log) ls).
Proof.
  induction log as [|o log IH] using rev_ind; intros F.
  { change (admissions k []) with 0. clear F. induction ls as [|l ls IH]; cbn [map foldr]; [lia|]. unfold admitted_by at 1. cbn. lia. }
  apply Forall_app in F as [F Fo]. rewrite Forall_singleton in Fo. specialize (IH F). unfold admissions in *. rewrite filter_app, length_app, filter_cons.
  assert (Hmono : foldr Z.add 0 (map (fun l => admitted_by l log) ls) + (if bool_decide (oc_bucket o ∈ ls /\ oc_admitted o = true) then 1 else 0) <=
    foldr Z.add 0 (map (fun l => admitted_by l (log ++ [o])) ls)).
  { clear IH F Fo. induction ls as [|l ls IH]; cbn [map foldr]; [rewrite bool_decide_false; [lia|set_solver]|].
    rewrite admitted_by_snoc. repeat case_bool_decide; try lia; exfalso; set_solver. }
  destruct (decide (oc_tenant o = k /\ oc_admitted o = true)) as [[E1 E2]|E].
  - rewrite bool_decide_true in Hmono by (split; [by apply Fo|done]). cbn [length filter list_filter]. cbn. lia.
  - destruct (bool_decide _) in Hmono; cbn [length]; cbn; lia.
Qed.

(** The clocks a section reads are in the interval. *)
Definition clocked (t0 t1 : Z) (a : section) : Prop :=
  match a with SLookup _ _ now | SSweep now => t0 <= now <= t1 | _ => True end.

(** A limiter between intervals, [i] updates after its start: nobody in flight,
    the buckets as sections leave them. *)
Definition quiet (r t0 i : Z) (s : Conc) : Prop :=
  conc_ok s /\ c_flight s = ∅ /\ c_sweep s = None /\ c_log s = [] /\ c_swept s = [] /\
  map_Forall (fun _ b => untouched r t0 i b) (c_heap s).

Section Run.
Context (r ttl t0 t1 : Z) (Hr : 1 <= r <= 2 ^ 20) (Ht : t0 <= t1) (Hspan : t1 - t0 <= ttl) (Httl : ttl <= 300000000000) (Hend : t1 < 2 ^ 62).
Context (s0 : Conc) (k : bytes) (i0 : Z) (Hi0 : 0 <= i0).

Abbreviation old l := ((l < c_next s0)%nat).

(** The buckets the tenant may use: the one it had, and one made since. *)
Definition mine (s : Conc) (l : nat) : Prop :=
  c_index s0 !! k = Some l \/ (c_index s !! k = Some l /\ ~ old l /\ (k ∈ c_swept s \/ c_index s0 !! k = None)).

Record inv (s : Conc) : Prop := {
  inv_ok : conc_ok s;
  inv_next : (c_next s0 <= c_next s)%nat;
  inv_heap l b : c_heap s !! l = Some b ->
    touched r t0 t1 (i0 + Z.of_nat (length (c_log s))) (admitted_by l (c_log s)) b \/
    (old l /\ admitted_by l (c_log s) = 0 /\ untouched r t0 i0 b);
  inv_flight id f : c_flight s !! id = Some f -> t0 <= fl_now f <= t1 /\ (fl_tenant f = k -> mine s (fl_bucket f));
  inv_log : Forall (fun o => oc_tenant o = k -> mine s (oc_bucket o)) (c_log s);
  inv_index l : c_index s !! k = Some l -> mine s l;
  inv_gone : c_index s !! k = None -> k ∈ c_swept s \/ c_index s0 !! k = None;
  inv_sweep : match c_sweep s with
              | Some (now, d) => now <= t1 /\ forall k', d = Some k' -> exists l, c_index s !! k' = Some l /\ old l
              | None => True
              end;
  inv_fresh l : c_heap s !! l = None -> admitted_by l (c_log s) = 0
}.

Lemma mine_mono s s' l :
  (forall x, c_index s !! k = Some x -> ~ old x -> c_index s' !! k = Some x) -> (k ∈ c_swept s -> k ∈ c_swept s') -> mine s l -> mine s' l.
Proof. intros Hi Hs [H|(H & Hn & Hk)]; [by left|right]. split; [by apply Hi|]. split; [done|]. destruct Hk; auto. Qed.

(** Follow the lookups of the hypotheses through the updates of the maps. *)
Ltac lookups :=
  repeat match goal with s := mkConc _ _ _ _ _ _ _, H : _ !! _ = _ |- _ => progress unfold s in H end;
  cbn [c_index c_heap c_next c_flight c_sweep c_log c_swept fl_tenant fl_bucket fl_now] in *; repeat match goal with
  | H : <[_:=_]> _ !! _ = Some _ |- _ => apply lookup_insert_Some in H as [[? ?]|[? H]]; simplify_eq
  | H : <[_:=_]> _ !! _ = None |- _ => apply lookup_insert_None in H as [H ?]
  | H : delete _ _ !! _ = Some _ |- _ => apply lookup_delete_Some in H as [? H]
  end; cbn [fl_tenant fl_bucket fl_now] in *.

Lemma conc_ok_lookup id tenant now s : conc_ok s -> conc_ok (lookup_section r id tenant now s).
Proof.
  intros (O1 & O2 & O3 & O4 & O5). unfold lookup_section. destruct (c_index s !! tenant) as [l|] eqn:El.
  - split; [done|]. split; [|split; [done|split; [done|]]].
    + intros id' f Hf. lookups; eauto.
    + intros id' f k' Hf Hk. lookups; eauto.
  - assert (Hlt : forall k' l, c_index s !! k' = Some l -> (l < c_next s)%nat) by (intros k' l Hk'; destruct (O1 _ _ Hk'); eauto).
    assert (Hft : forall id' f, c_flight s !! id' = Some f -> (fl_bucket f < c_next s)%nat) by (intros id' f Hk'; destruct (O2 _ _ Hk'); eauto).
    assert (Hkeep : forall l, is_Some (c_heap s !! l) -> is_Some (<[c_next s:=new_bucket r now]> (c_heap s) !! l)).
    { intros l Hl. destruct (decide (c_next s = l)) as [->|]; [by rewrite lookup_insert_eq; eexists|by rewrite lookup_insert_ne]. }
    assert (Hnew : is_Some (<[c_next s:=new_bucket r now]> (c_heap s) !! c_next s)) by (rewrite lookup_insert_eq; by eexists).
    split; [|split; [|split; [|split]]].
    + intros k' l Hl. lookups; [done|]. by eapply Hkeep, O1.
    + intros id' f Hf. lookups; [done|]. by eapply Hkeep, O2.
    + intros l b Hb. lookups; [lia|]. apply O3 in Hb. lia.
    + intros k1 k2 l H1 H2. lookups; try done;
        try match goal with H : c_index s !! _ = Some _ |- _ => by apply Hlt in H; lia end. by eapply O4.
    + intros id' f k' Hf Hk. lookups; try done;
        try match goal with
            | H : c_index s !! _ = Some (c_next s) |- _ => by apply Hlt in H; lia
            | H : c_flight s !! _ = Some _ |- _ => by apply Hft in H; lia
            end. by eapply O5.
Qed.

Lemma inv_lookup s id tenant now :
  inv s -> c_sweep s = None -> t0 <= now <= t1 -> inv (lookup_section r id tenant now s).
Proof.
  intros I Hs Hn. pose proof (conc_ok_lookup id tenant now s (inv_ok s I)) as Hok. destruct (inv_ok s I) as (_ & _ & O3 & _). revert Hok.
  unfold lookup_section. destruct (c_index s !! tenant) as [l|] eqn:El; intros Hok.
  - destruct I as [_ I2 I3 I4 I5 I6 I7 I8 I9]. split; try done.
    intros id' f Hf. lookups; [|by eapply I4]. split; [done|]. intros ->. by apply I6.
  - set (s' := mkConc _ _ _ _ _ _ _) in *. assert (Hfresh : c_heap s !! c_next s = None).
    { destruct (c_heap s !! c_next s) eqn:E; [|done]. apply O3 in E. lia. }
    assert (Hm : forall x, mine s x -> mine s' x).
    { intros x. apply mine_mono; [|done]. intros y Hy _. cbn. rewrite lookup_insert_ne; [done|]. intros ->. congruence. }
    assert (Hnew : tenant = k -> mine s' (c_next s)).
    { intros ->. right. split; [cbn; by rewrite lookup_insert_eq|]. split; [pose proof (inv_next s I); lia|]. by apply (inv_gone s I). }
    destruct I as [_ I2 I3 I4 I5 I6 I7 I8 I9]. split; try done.
    + cbn. lia.
    + intros l b Hb. lookups; [|by apply I3]. left. cbn [s' c_log]. rewrite (I9 _ Hfresh). apply new_bucket_touched; first [done | lia].
    + intros id' f Hf. lookups; [split; [done|]; intros ->; by apply Hnew|]. destruct (I4 _ _ Hf) as [? Hx]. split; [done|]. intros Hk. by apply Hm, Hx.
    + eapply Forall_impl; [exact I5|]. intros o Ho Hk. by apply Hm, Ho.
    + intros x Hx. lookups; [by apply Hnew|by apply Hm, I6].
    + intros Hx. lookups. by apply I7.
    + cbn. by rewrite Hs.
    + intros l Hl. lookups. by apply I9.
Qed.

Context (acts_max : Z) (Hmax : (inject_Z acts_max * slack r <= 1 # 2)%Q).

Lemma inv_update s id f b :
  inv s -> c_flight s !! id = Some f -> c_heap s !! fl_bucket f = Some b -> i0 + Z.of_nat (length (c_log s)) <= acts_max ->
  inv (update_section r id f b s).
Proof.
  intros I Hf Hb Hlen. destruct (inv_ok s I) as (O1 & O2 & O3 & O4 & O5). unfold update_section.
  pose proof (update_pays r t0 t1 Hr ltac:(lia) Hend (i0 + Z.of_nat (length (c_log s))) (admitted_by (fl_bucket f) (c_log s)) b (fl_now f)) as Hp.
  destruct (take_token b r (fl_now f)) as [[allowed ?] b'].
  destruct I as [_ I2 I3 I4 I5 I6 I7 I8 I9]. destruct (I4 _ _ Hf) as [Hn Hmine].
  assert (Hsmall : (inject_Z (i0 + Z.of_nat (length (c_log s))) * slack r <= 1 # 2)%Q).
  { eapply Qle_trans; [|exact Hmax]. apply Qmult_le_compat_r; [by rewrite <- Zle_Qle|by apply slack_nonneg]. }
  specialize (Hp ltac:(lia) Hsmall Hn). assert (Hpre := I3 _ _ Hb). specialize (Hp ltac:(destruct Hpre as [?|(_ & ? & ?)]; [by left|right; split; [done|eapply untouched_later; [done|..|done]; lia]])).
  set (o := mkAdmission _ _ _). assert (Hother : forall l, l <> fl_bucket f -> admitted_by l (c_log s ++ [o]) = admitted_by l (c_log s)).
  { intros l Hl. rewrite admitted_by_snoc, bool_decide_false; [lia|]. intros [E _]. cbn in E. congruence. }
  assert (Hin : forall l, is_Some (c_heap s !! l) -> is_Some (<[fl_bucket f:=b']> (c_heap s) !! l)).
  { intros l Hl. destruct (decide (fl_bucket f = l)) as [->|]; [by rewrite lookup_insert_eq; eexists|by rewrite lookup_insert_ne]. }
  assert (Hlog : i0 + Z.of_nat (length (c_log s ++ [o])) = i0 + Z.of_nat (length (c_log s)) + 1) by (rewrite length_app; cbn; lia).
  split; try done.
  - split; [|split; [|split; [|split; [done|]]]].
    + intros k' l Hl. by eapply Hin, O1.
    + intros id' f' Hf'. lookups. by eapply Hin, O2.
    + intros l x Hx. lookups; [by eapply O3|by eapply O3].
    + intros id' f' k' Hf' Hk. lookups. by eapply O5.
  - intros l x Hx. cbn [c_log]. rewrite Hlog. lookups.
    + left. rewrite admitted_by_snoc. cbn [oc_bucket oc_admitted o]. destruct allowed; [rewrite bool_decide_true by done; done|].
      rewrite bool_decide_false by (by intros [_ ?]). by rewrite Z.add_0_r.
    + rewrite Hother by done. destruct (I3 _ _ Hx) as [Hto|?]; [left; eapply touched_later; [done| |exact Hto]; lia|by right].
  - intros id' f' Hf'. lookups. by eapply I4.
  - cbn [c_log]. apply Forall_app_2; [exact I5|]. apply Forall_singleton. exact Hmine.
  - intros l Hl. lookups. rewrite Hother by done. by apply I9.
Qed.

Lemma inv_run_section s a s' :
  inv s -> clocked t0 t1 a -> i0 + Z.of_nat (length (c_log s)) <= acts_max -> run_section r ttl s a = Some s' -> inv s'.
Proof.
  intros I Hc Hlen. destruct a as [id tenant now|id|now|tenant| |]; cbn [run_section].
  - destruct (c_sweep s) eqn:Es; [done|]. destruct (c_flight s !! id); [done|]. intros [= <-]. by apply inv_lookup.
  - destruct (c_flight s !! id) as [f|] eqn:Ef; [|done]. destruct (c_heap s !! fl_bucket f) as [b|] eqn:Eb; [|done].
    intros [= <-]. by apply inv_update.
  - destruct (c_sweep s) eqn:Es; [done|]. intros [= <-]. destruct I as [I1 I2 I3 I4 I5 I6 I7 I8 I9]. split; try done.
    cbn in *. split; [lia|done].
  - destruct (c_sweep s) as [[now [?|]]|] eqn:Es; [done| |done]. destruct (c_index s !! tenant) as [l|] eqn:El; [|done].
    destruct (c_heap s !! l) as [b|] eqn:Eb; [|done]. destruct (ttl <? now - lastAccess b) eqn:Ei; [|by intros [= <-]].
    intros [= <-]. bool_to_prop. destruct I as [I1 I2 I3 I4 I5 I6 I7 I8 I9]. rewrite Es in I8. destruct I8 as [Hnow _].
    assert (Hold : old l).
    { destruct (I3 _ _ Eb) as [(_ & ? & Hla & _)|[? _]]; [exfalso; lia|done]. }
    split; try done. cbn. split; [done|]. intros k' [= <-]. by exists l.
  - destruct (c_sweep s) as [[now [tenant|]]|] eqn:Es; [|done|done]. intros [= <-].
    destruct I as [(O1 & O2 & O3 & O4 & O5) I2 I3 I4 I5 I6 I7 I8 I9]. rewrite Es in I8. destruct I8 as [Hnow Hd].
    destruct (Hd tenant eq_refl) as (l & Hl & Hold).
    set (s' := mkConc _ _ _ _ _ _ _). assert (Hm : forall x, mine s x -> mine s' x).
    { intros x. apply mine_mono; [|cbn; set_solver]. intros y Hy Hno. cbn. rewrite lookup_delete_ne; [done|]. intros ->.
      rewrite Hl in Hy. by injection Hy as <-. }
    split; try done.
    + split; [|split; [done|split; [done|split]]].
      * intros k' x Hx. lookups. by eapply O1.
      * intros k1 k2 x H1 H2. lookups. by eapply O4.
      * intros id f k' Hf Hk. lookups. by eapply O5.
    + intros id f Hf. destruct (I4 _ _ Hf) as [? Hx]. split; [done|]. intros Hk. by apply Hm, Hx.
    + eapply Forall_impl; [exact I5|]. intros o Ho Hk. by apply Hm, Ho.
    + intros x Hx. lookups. by apply Hm, I6.
    + cbn. intros Hx. apply lookup_delete_None in Hx as [->|Hx]; [left; set_solver|]. destruct (I7 Hx); [left; set_solver|by right].
  - destruct (c_sweep s) as [[now [?|]]|] eqn:Es; [done| |done]. intros [= <-]. by destruct I as [I1 I2 I3 I4 I5 I6 I7 I8 I9].
Qed.

Lemma run_section_log s a s' : run_section r ttl s a = Some s' -> (length (c_log s') <= S (length (c_log s)))%nat.
Proof.
  destruct a as [id tenant now|id|now|tenant| |]; cbn [run_section];
    repeat case_match; intros [= <-]; try (cbn; lia).
  - unfold lookup_section. case_match; cbn; lia.
  - unfold update_section. destruct (take_token _ _ _) as [[? ?] ?]. cbn. rewrite length_app. cbn. lia.
Qed.

Lemma inv_run_sections acts : forall s s',
  inv s -> Forall (clocked t0 t1) acts -> i0 + Z.of_nat (length (c_log s)) + Z.of_nat (length acts) <= acts_max ->
  run_sections r ttl s acts = Some s' ->
  inv s' /\ Z.of_nat (length (c_log s')) <= Z.of_nat (length (c_log s)) + Z.of_nat (length acts).
Proof.
  induction acts as [|a acts IH]; intros s s' I Hc Hlen Hrun; cbn [run_sections length] in *; [injection Hrun as <-; split; [done|lia]|].
  destruct (run_section r ttl s a) as [s1|] eqn:E; [|done]. apply Forall_cons in Hc as [Hc Hcs].
  pose proof (run_section_log _ _ _ E) as Hl. eapply inv_run_section in E; [|done|done|lia].
  destruct (IH s1 s' E Hcs ltac:(lia) Hrun) as [? ?]. split; [done|lia].
Qed.

Lemma inv_start : quiet r t0 i0 s0 -> inv s0.
Proof.
  intros (Hok & Hf & Hw & Hlog & Hsw & Hb). split; try done; try (by rewrite ?Hlog).
  - intros l b Hl. right. split; [by eapply Hok|]. rewrite Hlog. split; [done|]. by eapply Hb.
  - intros id f. by rewrite Hf.
  - intros l Hl. by left.
  - intros Hn. by right.
  - by rewrite Hw.
Qed.

(** The tenant used one bucket, or two when it was swept. *)
Lemma mine_buckets s :
  exists ls, (forall l, mine s l -> l ∈ ls) /\ (length ls <= if decide (k ∈ c_swept s) then 2 else 1)%nat.
Proof.
  clear -s0 k s.
  destruct (c_index s0 !! k) as [l0|] eqn:E0; destruct (c_index s !! k) as [l1|] eqn:E1; destruct (decide (k ∈ c_swept s)) as [Hk|Hk].
  all: try (exists [l0; l1]; split; [|cbn; lia]; intros l [Hl|(Hl & _)]; rewrite ?E0, ?E1 in Hl; set_solver).
  all: try (exists [l0]; split; [|cbn; lia]; intros l [Hl|(Hl & _ & [?|?])]; rewrite ?E0, ?E1 in Hl; set_solver).
  all: try (exists [l1]; split; [|cbn; lia]; intros l [Hl|(Hl & _)]; rewrite ?E0, ?E1 in Hl; set_solver).
  all: exists []; split; [|cbn; lia]; intros l [Hl|(Hl & _)]; rewrite ?E0, ?E1 in Hl; set_solver.
Qed.

(** A bucket's admissions are within the allowance of the interval. *)
Lemma inv_admitted s l :
  inv s -> i0 + Z.of_nat (length (c_log s)) <= acts_max ->
  (inject_Z (admitted_by l (c_log s)) <= inject_Z r + frac (t1 - t0) * inject_Z r + 1)%Q.
Proof.
  intros I Hlen. pose proof (rate_positive r Hr). pose proof (frac_rate r Hr 0 (t1 - t0) ltac:(lia)) as Hf.
  assert (Ez : (frac 0 * inject_Z r == 0)%Q) by (unfold frac; apply zero_frac). rewrite Ez in Hf.
  assert (Hz : admitted_by l (c_log s) = 0 -> (inject_Z (admitted_by l (c_log s)) <= inject_Z r + frac (t1 - t0) * inject_Z r + 1)%Q).
  { intros ->. change (inject_Z 0) with 0%Q. lra. }
  destruct (c_heap s !! l) as [b|] eqn:E; [|by apply Hz, inv_fresh]. destruct (inv_heap s I l b E) as [Ht'|(_ & ? & _)]; [|by apply Hz].
  eapply touched_bound; [|exact Ht']. eapply Qle_trans; [|exact Hmax]. apply Qmult_le_compat_r; [by rewrite <- Zle_Qle|by apply slack_nonneg].
Qed.
End Run.

(** Sums of bounded terms. *)
Lemma sum_le {A} (f : A -> Z) (q : Q) ls n :
  (0 <= q)%Q -> (length ls <= n)%nat -> (forall l, inject_Z (f l) <= q)%Q -> (inject_Z (foldr Z.add 0%Z (map f ls)) <= inject_Z (Z.of_nat n) * q)%Q.
Proof.
  intros Hq. revert n. induction ls as [|l ls IH]; intros n Hn Hf; cbn [map foldr length] in *.
  - apply Qmult_le_0_compat; [change 0%Q with (inject_Z 0); rewrite <- Zle_Qle; lia|done].
  - destruct n as [|n]; [lia|]. specialize (IH n ltac:(lia) Hf). specialize (Hf l).
    rewrite Nat2Z.inj_succ, <- Z.add_1_r, !inject_Z_plus. change (inject_Z 1) with 1%Q. lra.
Qed.

(** The updates of the limiter's life that the rounding leaves room for. *)
Lemma slack_room r n : 0 <= n -> 1 <= r -> r * n <= 2 ^ 38 -> (inject_Z n * slack r <= 1 # 2)%Q.
Proof.
  intros Hn Hr H. assert (Hq : (inject_Z (r * n) <= 274877906944)%Q) by (change 274877906944%Q with (inject_Z 274877906944); rewrite <- Zle_Qle; lia).
  rewrite inject_Z_mult in Hq. unfold slack. setoid_replace (inject_Z n * (12288 * inject_Z r * eps))%Q with ((inject_Z r * inject_Z n) * (12288 * eps))%Q using relation Qeq by ring.
  set (x := (inject_Z r * inject_Z n)%Q) in *. clearbody x. unfold eps. lra.
Qed.

(** C26: the rate limit under concurrency.  The requests of a five-minute
    interval run as the code runs them, a critical section at a time, with the
    clock each request read before its first lock, so that buckets are updated
    out of clock order, and sweeps run between the sections.  A tenant is
    admitted at most the burst allowance plus the rate times the length of the
    interval, plus one request for all rounding, and at most twice that when a
    sweep removed its bucket in the interval: a sweep never removes a bucket
    twice.  At the end, with nobody in flight, the limiter is ready for the
    next interval, for all its life of up to 2^38 divided by the rate
    sections. *)
Theorem concurrent_rate_limit_bound r ttl t0 t1 i0 s0 s k acts :
  1 <= r <= 2 ^ 20 -> 0 <= t0 <= t1 -> t1 - t0 <= ttl -> ttl <= 300000000000 -> t1 < 2 ^ 62 ->
  0 <= i0 -> r * (i0 + Z.of_nat (length acts)) <= 2 ^ 38 ->
  quiet r t0 i0 s0 -> Forall (clocked t0 t1) acts -> run_sections r ttl s0 acts = Some s ->
  (inject_Z (admissions k (c_log s)) <=
     (if decide (k ∈ c_swept s) then 2 else 1) * (inject_Z r + frac (t1 - t0) * inject_Z r + 1))%Q /\
  (c_flight s = ∅ -> c_sweep s = None ->
   quiet r t1 (i0 + Z.of_nat (length acts)) (mkConc (c_index s) (c_heap s) (c_next s) ∅ None [] [])).
Proof.
  intros Hr Ht Hspan Httl Hend Hi0 Hlife Hq Hc Hrun.
  pose proof (slack_room r (i0 + Z.of_nat (length acts)) ltac:(lia) ltac:(lia) Hlife) as Hmax.
  pose proof (inv_start r t0 t1 s0 k i0 Hq) as I0. assert (Hlog0 : c_log s0 = []) by apply Hq.
  destruct (inv_run_sections r ttl t0 t1 Hr ltac:(lia) Hspan Httl Hend s0 k i0 Hi0 _ Hmax acts s0 s I0 Hc ltac:(rewrite Hlog0; cbn; lia) Hrun) as [I Hlen].
  rewrite Hlog0 in Hlen. cbn [length] in Hlen. split.
  - destruct (mine_buckets s0 k s) as (ls & Hin & Hls).
    pose proof (inv_admitted r t0 t1 Hr ltac:(lia) s0 k i0 _ Hmax s) as Hb.
    eapply Qle_trans with (inject_Z (foldr Z.add 0 (map (fun l => admitted_by l (c_log s)) ls))).
    { rewrite <- Zle_Qle. apply admissions_le. eapply Forall_impl; [exact (inv_log _ _ _ _ _ _ s I)|]. intros o Ho Hk. by apply Hin, Ho. }
    pose proof (rate_positive r Hr). pose proof (frac_rate r Hr 0 (t1 - t0) ltac:(lia)) as Hf.
    assert (Ez : (frac 0 * inject_Z r == 0)%Q) by (unfold frac; apply zero_frac). rewrite Ez in Hf.
    eapply Qle_trans; [apply sum_le with (q := (inject_Z r + frac (t1 - t0) * inject_Z r + 1)%Q); [lra|exact Hls|]|].
    { intros l. apply Hb; [exact I|lia]. }
    destruct (decide _); apply Qle_refl.
  - intros Hf Hw. destruct (inv_ok _ _ _ _ _ _ s I) as (O1 & _ & O3 & O4 & _). split; [done|]. do 4 (split; [done|]). intros l b Hl.
    destruct (inv_heap _ _ _ _ _ _ s I l b Hl) as [Htch|(_ & _ & Hun)].
    + apply (touched_untouched r t0 t1 _ (admitted_by l (c_log s))); [done|lia|lia|done|]. eapply touched_later; [done| |exact Htch]. lia.
    + destruct Hun as (H1 & H2 & H3 & H4). pose proof (frac_rate r Hr (t0 - lastUpdate b) (t1 - lastUpdate b) ltac:(lia)) as Hfr.
      apply (untouched_later r t1 Hr i0); [lia|]. split; [done|]. split; [lia|]. split; [done|]. lra.
Qed.

(** ** Against the sequential limiter *)

(** A request that nobody overtakes is [allow]. *)
Lemma sections_allow r ttl s id k now :
  conc_ok s -> c_sweep s = None -> c_flight s !! id = None ->
  exists s' l, run_sections r ttl s [SLookup id k now; SUpdate id] = Some s' /\
    view r ttl s' = snd (allow (view r ttl s) k now) /\
    c_log s' = c_log s ++ [mkAdmission k l (fst (fst (fst (allow (view r ttl s) k now))))] /\ c_flight s' = c_flight s.
Proof.
  intros (O1 & O2 & O3 & O4 & O5) Hw Hf. cbn [run_sections run_section]. rewrite Hw, Hf. unfold lookup_section, allow.
  cbn [view limiters rps bucketTTL]. rewrite lookup_omap.
  assert (Hview : forall (h : gmap nat bucket) l b, c_index s !! k = Some l -> omap (fun x => <[l:=b]> h !! x) (c_index s) = <[k:=b]> (omap (fun x => h !! x) (c_index s))).
  { intros h l b Hl. apply map_eq. intros k'. rewrite lookup_omap. destruct (decide (k' = k)) as [->|Hne].
    - rewrite lookup_insert_eq, Hl. cbn. by rewrite lookup_insert_eq.
    - rewrite lookup_insert_ne, lookup_omap by done. destruct (c_index s !! k') as [l'|] eqn:E; [|done]. cbn.
      rewrite lookup_insert_ne; [done|]. intros ->. by eapply Hne, O4. }
  destruct (c_index s !! k) as [l|] eqn:El; cbn [c_flight c_heap fl_bucket]; rewrite lookup_insert_eq; cbn [fl_bucket].
  - destruct (O1 _ _ El) as [b Hb]. rewrite Hb. change (Some l ≫= (fun x => c_heap s !! x)) with (c_heap s !! l). rewrite Hb. cbn [from_option]. unfold Datatypes.id.
    unfold update_section. cbn [fl_now fl_tenant fl_bucket c_index c_heap c_next c_flight c_sweep c_log c_swept].
    destruct (take_token b r now) as [[al rem] b']. exists (mkConc (c_index s) (<[l:=b']> (c_heap s)) (c_next s)
      (delete id (<[id:=mkFlight k l now]> (c_flight s))) (c_sweep s) (c_log s ++ [mkAdmission k l al]) (c_swept s)), l.
    split; [done|]. split; [unfold view; cbn; f_equal; by apply Hview|]. split; [done|]. cbn. rewrite delete_insert_eq. by apply delete_id.
  - rewrite lookup_insert_eq. cbn [mbind option_bind from_option]. unfold Datatypes.id. unfold update_section.
    cbn [fl_now fl_tenant fl_bucket c_index c_heap c_next c_flight c_sweep c_log c_swept].
    destruct (take_token (new_bucket r now) r now) as [[al rem] b']. eexists _, (c_next s). split; [done|].
    split; [|split; [done|cbn; rewrite delete_insert_eq; by apply delete_id]].
    unfold view. cbn [c_index c_heap snd limiters]. f_equal. apply map_eq. intros k'. rewrite lookup_omap. destruct (decide (k' = k)) as [->|Hne].
    + rewrite !lookup_insert_eq. cbn. by rewrite !lookup_insert_eq.
    + rewrite !lookup_insert_ne, lookup_omap by done. destruct (c_index s !! k') as [l'|] eqn:E; [|done]. cbn.
      destruct (O1 _ _ E) as [x Hx]. pose proof (O3 _ _ Hx). rewrite !lookup_insert_ne by lia. done.
Qed.

(** What [cleanup] does with one entry of the map. *)
Definition visit (ttl now : Z) (s : Conc) (k : bytes) : list section :=
  match c_index s !! k with
  | Some l => match c_heap s !! l with
              | Some b => if ttl <? now - lastAccess b then [SVisit k; SDelete] else [SVisit k]
              | None => []
              end
  | None => []
  end.

Lemma visit_runs r ttl now s s' k rest :
  conc_ok s -> c_heap s' = c_heap s -> c_sweep s' = Some (now, None) -> c_index s' !! k = c_index s !! k ->
  exists s'', run_sections r ttl s' (visit ttl now s k ++ rest) = run_sections r ttl s'' rest /\
    c_heap s'' = c_heap s /\ c_sweep s'' = Some (now, None) /\ c_log s'' = c_log s' /\ c_flight s'' = c_flight s' /\
    c_index s'' = match limiters (view r ttl s) !! k with
                  | Some b => if ttl <? now - lastAccess b then delete k (c_index s') else c_index s'
                  | None => c_index s'
                  end.
Proof.
  intros (O1 & _) Hh Hw Hi. unfold visit. cbn [view limiters]. rewrite lookup_omap.
  destruct (c_index s !! k) as [l|] eqn:El; [|by exists s']. destruct (O1 _ _ El) as [b Hb]. rewrite Hb. cbn. rewrite Hb.
  destruct (ttl <? now - lastAccess b) eqn:E; cbn [app run_sections run_section]; rewrite Hw, Hi, Hh, Hb, E.
  - cbn [set_sweep run_section c_sweep]. eexists. split; [done|]. by cbn.
  - by exists s'.
Qed.

(** A sweep that nobody interleaves with is [cleanup], in whatever order the
    map is ranged over. *)
Lemma sections_cleanup r ttl s now ks :
  conc_ok s -> c_sweep s = None -> NoDup ks -> (forall k, k ∈ ks <-> is_Some (c_index s !! k)) ->
  exists s', run_sections r ttl s (SSweep now :: flat_map (visit ttl now s) ks ++ [SSwept]) = Some s' /\
    view r ttl s' = cleanup (view r ttl s) now /\ c_log s' = c_log s /\ c_flight s' = c_flight s.
Proof.
  intros Hok Hw Hnd Hks. cbn [run_sections run_section]. rewrite Hw.
  assert (Hgo : forall qs s1, NoDup qs -> c_heap s1 = c_heap s -> c_sweep s1 = Some (now, None) ->
    c_log s1 = c_log s -> c_flight s1 = c_flight s -> (forall k, k ∈ qs -> c_index s1 !! k = c_index s !! k) ->
    exists s2, run_sections r ttl s1 (flat_map (visit ttl now s) qs ++ [SSwept]) = Some s2 /\
      c_heap s2 = c_heap s /\ c_log s2 = c_log s /\ c_flight s2 = c_flight s /\
      forall k, c_index s2 !! k = if decide (k ∈ qs) then
         match limiters (view r ttl s) !! k with Some b => if ttl <? now - lastAccess b then None else c_index s !! k | None => c_index s !! k end
         else c_index s1 !! k).
  { induction qs as [|q qs IH]; intros s1 Hq H1 H2 H3 H4 H5.
    - cbn [flat_map app run_sections run_section]. rewrite H2. eexists. split; [done|]. by cbn.
    - apply NoDup_cons in Hq as [Hq Hqs]. cbn [flat_map]. rewrite <- app_assoc.
      destruct (visit_runs r ttl now s s1 q (flat_map (visit ttl now s) qs ++ [SSwept]) Hok H1 H2 ltac:(apply H5; set_solver))
        as (s2 & -> & E1 & E2 & E3 & E4 & E5).
      assert (Hkeep : forall k, k <> q -> c_index s2 !! k = c_index s1 !! k).
      { intros k Hne. rewrite E5. repeat case_match; rewrite ?lookup_delete_ne; done. }
      destruct (IH s2 Hqs E1 E2 ltac:(congruence) ltac:(congruence)) as (s3 & Hrun & F1 & F2 & F3 & F4).
      { intros k Hk. rewrite Hkeep by (intros ->; done). apply H5. set_solver. }
      exists s3. do 4 (split; [done|]). intros k. rewrite F4. destruct (decide (k = q)) as [->|Hne].
      + rewrite decide_False, decide_True by set_solver. rewrite E5.
        repeat case_match; rewrite ?lookup_delete_eq; try done; by apply H5; set_solver.
      + rewrite Hkeep by done. destruct (decide (k ∈ qs)); [rewrite decide_True by set_solver|rewrite decide_False by set_solver]; done. }
  destruct (Hgo ks (set_sweep (Some (now, None)) s)) as (s2 & Hrun & F1 & F2 & F3 & F4); [done..|].
  exists s2. split; [done|]. split; [|done]. unfold view, cleanup. cbn [limiters rps bucketTTL]. f_equal. apply map_eq. intros k.
  rewrite lookup_omap, F4, F1. cbn [view limiters set_sweep c_index]. rewrite map_lookup_filter, lookup_omap.
  destruct (decide (k ∈ ks)) as [Hk|Hk].
  - destruct (c_index s !! k) as [l|]; [|done]. cbn. destruct (c_heap s !! l) as [b|] eqn:Eb; [|cbn; by rewrite Eb]. cbn.
    destruct (ttl <? now - lastAccess b) eqn:E; bool_to_prop; [rewrite option_guard_False by (intros Hn; cbn in Hn; lia); done|]. rewrite option_guard_True by lia. exact Eb.
  - destruct (c_index s !! k) as [l|] eqn:El; [|done]. destruct Hk. apply Hks. by rewrite El.
Qed.

(** ** A sweep between the two sections of a request *)

(** Three requests found the bucket of an idle tenant before a sweep deleted
    it; three more come after. *)
Definition race_T : Z := 300000000001.
Definition race_start : Conc := mkConc {[tenant_a := 0%nat]} {[0%nat := new_bucket 3 0]} 1 ∅ None [] [].
Definition race_acts : list section :=
  [SLookup 0 tenant_a race_T; SLookup 1 tenant_a race_T; SLookup 2 tenant_a race_T; SSweep race_T; SVisit tenant_a; SDelete; SSwept;
   SUpdate 0; SUpdate 1; SUpdate 2; SLookup 3 tenant_a race_T; SLookup 4 tenant_a race_T; SLookup 5 tenant_a race_T; SUpdate 3; SUpdate 4; SUpdate 5].

Lemma race_quiet : quiet 3 300000000000 0 race_start.
Proof.
  assert (Hfl : (float_of_int 3 == 3)%Q) by (vm_compute; reflexivity). split; [|do 4 (split; [done|])].
  - split; [|split; [done|split; [|split; [|done]]]].
    + cbn. intros k l [<- <-]%lookup_singleton_Some. rewrite lookup_singleton_eq. by eexists.
    + cbn. intros l b [<- <-]%lookup_singleton_Some. lia.
    + cbn. intros k k' l [<- <-]%lookup_singleton_Some [<- _]%lookup_singleton_Some. done.
  - apply map_Forall_singleton. split; [cbn [new_bucket tokens]; rewrite Hfl; split; vm_compute; discriminate|].
    split; [cbn; lia|]. split; [done|]. vm_compute. discriminate.
Qed.

(** C27: the limit is the rate for requests one at a time, and twice the rate
    when a sweep comes between the two critical sections of a request: the
    requests that hold a pointer to the deleted bucket spend its tokens while
    those that come later spend the new one's.  Six requests of a tenant with
    a rate of three a second are admitted at one instant; the same requests
    and the same sweep one after the other, in either order, admit three. *)
Theorem sweep_race :
  quiet 3 300000000000 0 race_start /\ Forall (clocked race_T race_T) race_acts /\
  option_map (fun s => admissions tenant_a (c_log s)) (run_sections 3 300000000000 race_start race_acts) = Some 6 /\
  snd (admitted tenant_a (view 3 300000000000 race_start)
         ((race_T, OCleanup) :: replicate 6 (race_T, ORequest tenant_a))) = 3 /\
  snd (admitted tenant_a (view 3 300000000000 race_start)
         (replicate 6 (race_T, ORequest tenant_a) ++ [(race_T, OCleanup)])) = 3.
Proof.
  split; [exact race_quiet|]. split; [repeat constructor; cbn; lia|].
  split; [vm_compute; reflexivity|]. split; vm_compute; reflexivity.
Qed.

Lemma concurrent_rate_limit_bound_witness :
  exists s, run_sections 3 300000000000 race_start race_acts = Some s /\
    (inject_Z (admissions tenant_a (c_log s)) <=
       (if decide (tenant_a ∈ c_swept s) then 2 else 1) * (inject_Z 3 + frac (300000000001 - 300000000000) * inject_Z 3 + 1))%Q.
Proof.
  eexists. split; [vm_compute; reflexivity|].
  refine (proj1 (concurrent_rate_limit_bound 3 300000000000 300000000000 300000000001 0 race_start _ tenant_a race_acts
    _ _ _ _ _ _ _ race_quiet _ _)); [lia|lia|lia|lia|lia|lia|cbn; lia| |vm_compute; reflexivity].
  unfold race_acts, race_T. repeat (apply Forall_cons; split; [cbn; lia|]). by apply Forall_nil.
Defined.
