(* ===== verification/GoNumber.v ===== *)
(** * Numbers of a command line

    [strconv.ParseInt(s, 0, 64)] and [time.ParseDuration], as the [flag]
    package uses them. *)
From S2P Require Import Prelude GoBytes GoFloat.

(** ** strconv.ParseInt *)

Definition UNDERSCORE : Z := 95.
Definition lower_byte (c : Z) : Z := Z.lor c 32.

(** The base of a number without sign, and its digits. *)
Definition base_prefix (s : bytes) : Z * bytes :=
  match s with
  | c :: r =>
      if negb (c =? 48) then (10, s)
      else match r with
           | b :: ((_ :: _) as digits) =>
               if lower_byte b =? 98 then (2, digits)
               else if lower_byte b =? 111 then (8, digits)
               else if lower_byte b =? 120 then (16, digits)
               else (8, r)
           | _ => (8, r)
           end
  | [] => (10, [])
  end.

Definition digit_val (c : Z) : option Z :=
  if is_digit c then Some (c - 48)
  else if (97 <=? lower_byte c) && (lower_byte c <=? 122) then Some (lower_byte c - 87)
  else None.

(** Underscores are skipped, and whether there are any is returned. *)
Fixpoint read_number (base : Z) (s : bytes) (n : Z) (underscores : bool) : option (Z * bool) :=
  match s with
  | [] => Some (n, underscores)
  | c :: r =>
      if c =? UNDERSCORE then read_number base r n true
      else match digit_val c with
           | Some d => if base <=? d then None else read_number base r (n * base + d) underscores
           | None => None
           end
  end.

(** What the last character was: the start of the number, a digit or a base
    prefix, an underscore, something else. *)
Inductive seen := SStart | SDigit | SUnderscore | SOther.

Fixpoint underscores_between (hex : bool) (i : seen) (s : bytes) : bool :=
  match s with
  | [] => match i with SUnderscore => false | _ => true end
  | c :: r =>
      if is_digit c || (hex && (97 <=? lower_byte c) && (lower_byte c <=? 102)) then underscores_between hex SDigit r
      else if c =? UNDERSCORE then match i with SDigit => underscores_between hex SUnderscore r | _ => false end
      else match i with SUnderscore => false | _ => underscores_between hex SOther r end
  end.

(** [underscoreOK] of a number without sign. *)
Definition underscoreOK (s : bytes) : bool :=
  match s with
  | c :: b :: r =>
      let b := lower_byte b in
      if (c =? 48) && ((b =? 98) || (b =? 111) || (b =? 120)) then underscores_between (b =? 120) SDigit r
      else underscores_between false SStart s
  | _ => underscores_between false SStart s
  end.

(** [ParseUint(s, 0, 64)] without its bound. *)
Definition ParseUint0 (s : bytes) : option Z :=
  match s with
  | [] => None
  | _ =>
      let '(base, digits) := base_prefix s in
      match read_number base digits 0 false with
      | Some (n, underscores) => if underscores && negb (underscoreOK s) then None else Some n
      | None => None
      end
  end.

Definition ParseInt0 (s : bytes) : option Z :=
  match s with
  | [] => None
  | c :: r =>
      if c =? 45 then match ParseUint0 r with Some n => if n <=? 2 ^ 63 then Some (- n) else None | None => None end
      else match ParseUint0 (if c =? 43 then r else s) with
           | Some n => if n <? 2 ^ 63 then Some n else None
           | None => None
           end
  end.

(** ** time.ParseDuration *)

(** The digits a text starts with, and the rest. *)
Fixpoint span_digits (s : bytes) : bytes * bytes :=
  match s with
  | c :: r => if is_digit c then let '(d, rest) := span_digits r in (c :: d, rest) else ([], s)
  | [] => ([], [])
  end.

(** [leadingFraction] of digits: as much of it as fits, and its scale. *)
Fixpoint fraction (digits : bytes) (x scale : Z) : Z * Z :=
  match digits with
  | [] => (x, scale)
  | c :: r =>
      if (2 ^ 63 - 1) / 10 <? x then (x, scale)
      else let y := x * 10 + (c - 48) in
           if 2 ^ 63 <? y then (x, scale) else fraction r y (scale * 10)
  end.

Definition DOT : Z := 46.

(** The unit: up to the next digit or point. *)
Fixpoint span_unit (s : bytes) : bytes * bytes :=
  match s with
  | c :: r => if (c =? DOT) || is_digit c then ([], s) else let '(u, rest) := span_unit r in (c :: u, rest)
  | [] => ([], [])
  end.

Definition unit_of (u : bytes) : option Z :=
  if bool_decide (u = lit "ns") then Some 1
  else if bool_decide (u = lit "us") || bool_decide (u = [194; 181; 115]) || bool_decide (u = [206; 188; 115]) then Some 1000
  else if bool_decide (u = lit "ms") then Some 1000000
  else if bool_decide (u = lit "s") then Some 1000000000
  else if bool_decide (u = lit "m") then Some 60000000000
  else if bool_decide (u = lit "h") then Some 3600000000000
  else None.

(** One component: its nanoseconds and the rest of the text. *)
Definition duration_component (s : bytes) : option (Z * bytes) :=
  let '(whole, s1) := span_digits s in
  let '(digits, s2) := match s1 with
                       | c :: r => if c =? DOT then span_digits r else ([], s1)
                       | [] => ([], [])
                       end in
  let v := dec_val whole in
  if (2 ^ 63 <? v) || (bool_decide (whole = []) && bool_decide (digits = [])) then None
  else
    let '(u, rest) := span_unit s2 in
    match unit_of u with
    | None => None
    | Some unit =>
        if 2 ^ 63 / unit <? v then None
        else
          let v := v * unit in
          let '(f, scale) := fraction digits 0 1 in
          let v := if 0 <? f then v + int_of_float (fmul (float_of_int f) (fdiv (float_of_int unit) (float_of_int scale))) else v in
          if 2 ^ 63 <? v then None else Some (v, rest)
    end.

(** The sum of the components, in 64 bits. *)
Fixpoint duration_loop (fuel : nat) (s : bytes) (d : Z) : option Z :=
  match s with
  | [] => Some d
  | _ =>
      match fuel with
      | O => None
      | S fuel =>
          match duration_component s with
          | None => None
          | Some (v, rest) =>
              let d := (d + v) mod 2 ^ 64 in
              if 2 ^ 63 <? d then None else duration_loop fuel rest d
          end
      end
  end.

Definition ParseDuration (s : bytes) : option Z :=
  let '(neg, s) := match s with
                   | c :: r => if (c =? 45) || (c =? 43) then (c =? 45, r) else (false, s)
                   | [] => (false, [])
                   end in
  if bool_decide (s = lit "0") then Some 0
  else match s with
       | [] => None
       | _ =>
           match duration_loop (length s) s 0 with
           | Some d => if neg then Some (- d) else if 2 ^ 63 - 1 <? d then None else Some d
           | None => None
           end
       end.

(** ** Facts *)

Lemma span_digits_length s d r : span_digits s = (d, r) -> length s = (length d + length r)%nat.
Proof.
  revert d r. induction s as [|c s IH]; intros d r; cbn [span_digits]; [by intros [= <- <-]|].
  destruct (is_digit c); [|by intros [= <- <-]]. destruct (span_digits s) as [d' r']. intros [= <- <-]. cbn. by rewrite (IH d' r').
Qed.

Lemma span_unit_length s u r : span_unit s = (u, r) -> length s = (length u + length r)%nat.
Proof.
  revert u r. induction s as [|c s IH]; intros u r; cbn [span_unit]; [by intros [= <- <-]|].
  destruct (_ || _); [by intros [= <- <-]|]. destruct (span_unit s) as [u' r']. intros [= <- <-]. cbn. by rewrite (IH u' r').
Qed.

(** A component has a unit, so the text shrinks. *)
Lemma duration_component_shorter s v rest : duration_component s = Some (v, rest) -> (length rest < length s)%nat /\ v <= 2 ^ 63.
Proof.
  unfold duration_component. destruct (span_digits s) as [whole s1] eqn:E1. apply span_digits_length in E1.
  destruct (match s1 with [] => _ | _ :: _ => _ end) as [digits s2] eqn:E2.
  assert (H2 : (length s2 <= length s1)%nat).
  { destruct s1 as [|c r]; [by injection E2 as <- <-|]. destruct (c =? DOT); [|by injection E2 as <- <-].
    apply span_digits_length in E2. cbn. lia. }
  destruct (_ || _); [done|]. destruct (span_unit s2) as [u rest'] eqn:E3. apply span_unit_length in E3.
  destruct (unit_of u) as [unit|] eqn:Eu; [|done]. assert (Hu : (0 < length u)%nat) by (destruct u; [done|cbn; lia]).
  destruct (_ <? _); [done|]. destruct (fraction digits 0 1) as [f scale]. cbv zeta. destruct (2 ^ 63 <? _) eqn:Ev; [done|].
  intros [= <- <-]. split; [lia|]. bool_to_prop. lia.
Qed.

(** The fuel is enough: more of it changes nothing. *)
Lemma duration_loop_fuel n s d : (length s <= n)%nat -> duration_loop n s d = duration_loop (length s) s d.
Proof.
  remember (length s) as m eqn:Hm. revert n s d Hm. induction (lt_wf m) as [m _ IH]; intros n s d Hm Hn.
  destruct s as [|c s]; [destruct n, m; done|]. destruct m as [|m]; [done|]. destruct n as [|n]; [lia|]. cbn [duration_loop].
  destruct (duration_component (c :: s)) as [[v rest]|] eqn:E; [|done]. apply duration_component_shorter in E as [E _].
  cbv zeta. destruct (_ <? _); [done|]. rewrite (IH (length rest)) by lia. symmetry. apply (IH (length rest)); lia.
Qed.

Lemma duration_loop_range n s d d' : 0 <= d <= 2 ^ 63 -> duration_loop n s d = Some d' -> 0 <= d' <= 2 ^ 63.
Proof.
  revert s d. induction n as [|n IH]; intros s d Hd; destruct s as [|c s]; cbn [duration_loop]; [by intros [= <-]|done|by intros [= <-]|].
  destruct (duration_component _) as [[v rest]|]; [|done]. cbv zeta. destruct (_ <? _) eqn:E; [done|]. bool_to_prop. apply IH.
  pose proof (Z.mod_pos_bound (d + v) (2 ^ 64) ltac:(lia)). lia.
Qed.

(** What is parsed fits the type it is parsed for. *)
Lemma ParseDuration_range s d : ParseDuration s = Some d -> - 2 ^ 63 <= d < 2 ^ 63.
Proof.
  unfold ParseDuration. destruct (match s with [] => _ | _ :: _ => _ end) as [neg t]. case_bool_decide; [intros [= <-]; lia|].
  destruct t as [|c t]; [done|]. destruct (duration_loop _ _ 0) as [x|] eqn:E; [|done]. apply duration_loop_range in E; [|lia].
  destruct neg; [intros [= <-]; lia|]. destruct (_ <? _) eqn:El; [done|]. intros [= <-]. bool_to_prop. lia.
Qed.

Lemma read_number_nonneg base s n u n' u' : 0 <= base -> 0 <= n -> read_number base s n u = Some (n', u') -> 0 <= n'.
Proof.
  intros Hb. revert n u. induction s as [|c s IH]; intros n u Hn; cbn [read_number]; [by intros [= <- <-]|].
  destruct (c =? UNDERSCORE); [by apply IH|]. destruct (digit_val c) as [v|] eqn:E; [|done]. destruct (base <=? v); [done|]. apply IH.
  assert (0 <= v); [|nia]. unfold digit_val, is_digit in E. repeat case_match; simplify_eq; bool_to_prop; lia.
Qed.

Lemma ParseInt0_range s n : ParseInt0 s = Some n -> - 2 ^ 63 <= n < 2 ^ 63.
Proof.
  assert (Hp : forall t m, ParseUint0 t = Some m -> 0 <= m).
  { intros t m. unfold ParseUint0. destruct t as [|c t]; [done|].
    assert (Hb : 0 <= fst (base_prefix (c :: t))) by (unfold base_prefix; repeat case_match; cbn; lia).
    destruct (base_prefix (c :: t)) as [base digits]. cbn [fst] in Hb.
    destruct (read_number base digits 0 false) as [[x u]|] eqn:E; [|done]. apply read_number_nonneg in E; [|lia|lia].
    destruct (_ && _); [done|]. by intros [= <-]. }
  unfold ParseInt0. destruct s as [|c r]; [done|]. destruct (c =? 45).
  - destruct (ParseUint0 r) as [m|] eqn:E; [|done]. apply Hp in E. destruct (_ <=? _) eqn:El; [|done]. intros [= <-]. bool_to_prop. lia.
  - destruct (ParseUint0 _) as [m|] eqn:E; [|done]. apply Hp in E. destruct (_ <? _) eqn:El; [|done]. intros [= <-]. bool_to_prop. lia.
Qed.

Example numbers :
  map ParseInt0 [lit "0x1F"; lit "-0b11"; lit "1_000"; lit "017"; lit "0"; lit "1__0"; lit "9223372036854775808"; lit "-9223372036854775808"; lit "+"] =
  [Some 31; Some (-3); Some 1000; Some 15; Some 0; None; None; Some (- 2 ^ 63); None].
Proof. vm_compute. reflexivity. Qed.

Example durations :
  map ParseDuration [lit "1h30m"; lit "-1.5s"; lit ".5ms"; lit "0"; lit "10"; lit "."; lit "2562048h"; lit "1.0000000001s"] =
  [Some 5400000000000; Some (-1500000000); Some 500000; Some 0; None; None; None; Some 1000000000].
Proof. vm_compute. reflexivity. Qed.
