(* ===== verification/Config.v ===== *)
(** * Configuration: [internal/config]

    The API key mapping and the environments of the two programs.  An
    environment is the function from names to values that the code is given;
    an unset variable is the empty string. *)
From S2P Require Import Prelude GoBytes GoJson JsonbProps Runtime EventProps.

Definition keys_fail : error := ENew "invalid or duplicate API_KEYS mapping".

(** [ParseAPIKeys]: the token loop reads the members of one object; a value
    that is not a string (or null, which leaves the empty tenant) fails, and
    so does a key that was already there. *)
Fixpoint add_keys (ms : list (bytes * json)) (keys : gmap bytes bytes) : option (gmap bytes bytes) :=
  match ms with
  | [] => Some keys
  | (k, v) :: rest =>
      let key := unquote k in
      match keys !! key with
      | Some _ => None
      | None =>
          match v with
          | JStr r => add_keys rest (<[key := unquote r]> keys)
          | JNull => add_keys rest (<[key := []]> keys)
          | _ => None
          end
      end
  end.

(** One object and nothing but white space after it. *)
Definition object_members (raw : bytes) : option (list (bytes * json)) :=
  match expect LBRACE raw with
  | None => None
  | Some r =>
      match scan_object (parse_value (Nat.pred maxNestingDepth)) r with
      | None => None
      | Some (ms, z) => match skip_ws z with [] => Some ms | _ => None end
      end
  end.

Definition ParseAPIKeys (raw : bytes) : res (gmap bytes bytes) :=
  match object_members raw with
  | None => Err keys_fail
  | Some ms => match add_keys ms ∅ with None => Err keys_fail | Some keys => Ok keys end
  end.

Record APIEnv := mkAPIEnv {
  ae_ListenAddress : bytes;
  ae_Brokers : list bytes;
  ae_EventTopic : bytes;
  ae_APIKeys : gmap bytes bytes;
  ae_RateLimitRPS : Z;
  ae_PublishTimeout : Z
}.

Record ConsumerEnv := mkConsumerEnv {
  ce_ListenAddress : bytes;
  ce_Brokers : list bytes;
  ce_EventTopic : bytes;
  ce_DLQTopic : bytes;
  ce_GroupID : bytes;
  ce_DatabaseURL : bytes
}.

Definition value (get : string -> bytes) (k d : string) : bytes :=
  match get k with [] => lit d | v => v end.

Definition brokers (get : string -> bytes) : list bytes :=
  Split (value get "BROKERS" "localhost:19092") 44.

Definition LoadAPIEnv (get : string -> bytes) : res APIEnv :=
  match ParseAPIKeys (get "API_KEYS"%string) with
  | Err _ => Err (ENew "API_KEYS must be a nonempty JSON key-to-tenant map")
  | Ok keys =>
      if bool_decide (keys = ∅) then Err (ENew "API_KEYS must be a nonempty JSON key-to-tenant map")
      else if negb (bool_decide (map_Forall (fun key tenant => key <> [] /\ 1 <= blen tenant <= 128) keys))
      then Err (ENew "invalid API_KEYS mapping")
      else
        let env rps := mkAPIEnv (value get "HTTP_ADDR" ":8080") (brokers get)
                         (value get "EVENT_TOPIC" "ingestkit.events") keys rps (5 * Second) in
        match get "RATE_LIMIT_RPS"%string with
        | [] => Ok (env 1000)
        | raw =>
            match Atoi raw with
            | Some n => if n <? 1 then Err (ENew "RATE_LIMIT_RPS must be positive") else Ok (env n)
            | None => Err (ENew "RATE_LIMIT_RPS must be positive")
            end
        end
  end.

(** [parseURL] is [url.Parse] as far as it is used: the scheme and the host
    of a URL that parses. *)
Definition LoadConsumerEnv (parseURL : bytes -> option (bytes * bytes)) (get : string -> bytes) : res ConsumerEnv :=
  let url := get "DATABASE_URL"%string in
  let c := mkConsumerEnv (value get "METRICS_ADDR" ":8081") (brokers get)
             (value get "EVENT_TOPIC" "ingestkit.events") (value get "DLQ_TOPIC" "ingestkit.dlq")
             (value get "CONSUMER_GROUP" "ingestkit-consumer") url in
  match parseURL url with
  | None => Err (ENew "DATABASE_URL must be a PostgreSQL URL")
  | Some (scheme, host) =>
      if bool_decide (host = []) ||
         (negb (bool_decide (scheme = lit "postgres")) && negb (bool_decide (scheme = lit "postgresql")))
      then Err (ENew "DATABASE_URL must be a PostgreSQL URL")
      else Ok c
  end.

(** ** No silent remapping *)

(** The mapping as the text writes it: keys after decoding their escapes. *)
Definition decoded_pair (kv : bytes * json) : bytes * bytes :=
  (unquote (fst kv), match snd kv with JStr r => unquote r | _ => [] end).

Definition string_or_null (j : json) : Prop := match j with JStr _ | JNull => True | _ => False end.

Lemma add_keys_spec ms : forall keys out,
  add_keys ms keys = Some out ->
  NoDup (map (fun kv => unquote (fst kv)) ms) /\ Forall (fun kv => string_or_null (snd kv)) ms /\
  Forall (fun kv => keys !! unquote (fst kv) = None) ms /\
  forall k t, out !! k = Some t <-> keys !! k = Some t \/ (k, t) ∈ map decoded_pair ms.
Proof.
  induction ms as [|[k v] ms IH]; intros keys out H; cbn [add_keys] in H.
  { injection H as <-. split; [constructor|]. split; [constructor|]. split; [constructor|]. cbn. set_solver. }
  destruct (keys !! unquote k) eqn:Ek; [done|].
  assert (Hcase : exists t, add_keys ms (<[unquote k := t]> keys) = Some out /\
            decoded_pair (k, v) = (unquote k, t) /\ string_or_null v).
  { destruct v; try done; eexists; (split; [exact H|]); split; done. }
  destruct Hcase as (t & Ha & Hp & Hs). apply IH in Ha as (Hnd & Hf & Hnew & Hout). clear IH H.
  cbn [map fst snd]. split.
  { constructor; [|done]. intros Hin. apply list_elem_of_In, in_map_iff in Hin as ([k' v'] & Heq & Hin%list_elem_of_In).
    eapply Forall_forall in Hnew; [|exact Hin]. cbn [fst] in *. rewrite Heq, lookup_insert_eq in Hnew. done. }
  split; [by constructor|]. split.
  { constructor; [done|]. eapply Forall_impl; [exact Hnew|]. intros [k' v'] Hl. cbn [fst] in *.
    destruct (decide (unquote k = unquote k')) as [He|Hne]; [rewrite He, lookup_insert_eq in Hl; done|].
    by rewrite lookup_insert_ne in Hl. }
  intros k' t'. rewrite Hout, Hp, elem_of_cons. destruct (decide (k' = unquote k)) as [->|Hne].
  - rewrite lookup_insert_eq. split.
    + intros [[= <-]|Hin]; auto.
    + intros [Hc|[[= <-]|Hin]]; [congruence|by left|by right].
  - rewrite lookup_insert_ne by done. split; [tauto|]. intros [?|[[= Hk Ht]|?]]; tauto.
Qed.

(** The API key mapping is the text's, key for key: [ParseAPIKeys]
    succeeds only on one JSON object whose decoded keys are pairwise distinct
    and whose values are strings or null, and then each key maps to exactly
    the tenant written next to it. *)
Theorem ParseAPIKeys_no_remap raw keys :
  ParseAPIKeys raw = Ok keys ->
  exists ms, object_members raw = Some ms /\
    NoDup (map (fun kv => unquote (fst kv)) ms) /\ Forall (fun kv => string_or_null (snd kv)) ms /\
    forall k t, keys !! k = Some t <-> (k, t) ∈ map decoded_pair ms.
Proof.
  unfold ParseAPIKeys. intros H. destruct (object_members raw) as [ms|]; [|done].
  destruct (add_keys ms ∅) as [out|] eqn:Ea; [|done].
  injection H as <-. apply add_keys_spec in Ea as (Hnd & Hf & _ & Hout). exists ms.
  split; [done|]. split; [done|]. split; [done|]. intros k t. rewrite Hout, lookup_empty. naive_solver.
Qed.

Lemma Atoi_bound s n : Atoi s = Some n -> n < 2 ^ 63.
Proof.
  assert (Hu : forall s m v, ParseUint10 s m = Some v -> 0 <= v <= m).
  { intros x m v H. unfold ParseUint10 in H. destruct x as [|c x]; [done|].
    destruct (forallb is_digit (c :: x)) eqn:Ed; [|done]. cbv zeta in H.
    destruct (dec_val (c :: x) <=? m) eqn:El; [|done]. injection H as <-.
    pose proof (dec_val_bounds (c :: x) (proj2 (Forall_forall _ _) (fun y Hy => proj1 (forallb_forall _ _) Ed y (proj1 (list_elem_of_In _ _) Hy)))). lia. }
  unfold Atoi, ParseInt10. change (2 ^ (64 - 1)) with (2 ^ 63). intros H. destruct s as [|c r]; [done|].
  destruct (c =? 45).
  - destruct (ParseUint10 r _) as [v|] eqn:E; [|done]. apply Hu in E. injection H as <-. lia.
  - apply Hu in H. lia.
Qed.

(** An API environment that loads can serve: there is a key, no key is
    empty, every tenant has 1 to 128 bytes, and the rate is positive and fits
    64 bits. *)
Theorem LoadAPIEnv_valid get env :
  LoadAPIEnv get = Ok env ->
  ae_APIKeys env <> ∅ /\
  map_Forall (fun key tenant => key <> [] /\ 1 <= blen tenant <= 128) (ae_APIKeys env) /\
  1 <= ae_RateLimitRPS env < 2 ^ 63 /\ ae_PublishTimeout env = 5 * Second /\ ae_Brokers env <> [].
Proof.
  unfold LoadAPIEnv. intros H. destruct (ParseAPIKeys _) as [keys|]; [|done].
  destruct (bool_decide (keys = ∅)) eqn:E1; [done|]. bool_to_prop.
  destruct (negb _) eqn:E2; [done|]. bool_to_prop.
  assert (Hs : forall s c, Split s c <> []) by (intros s c; destruct s as [|x s]; cbn; [done|]; repeat case_match; done).
  destruct (get "RATE_LIMIT_RPS"%string) as [|c r].
  - injection H as <-. cbn. split; [done|]. split; [done|]. split; [lia|]. split; [done|]. apply Hs.
  - destruct (Atoi (c :: r)) as [n|] eqn:Ea; [|done]. destruct (n <? 1) eqn:En; [done|]. injection H as <-.
    apply Atoi_bound in Ea. cbn. split; [done|]. split; [done|]. split; [lia|]. split; [done|]. apply Hs.
Qed.

(** ** Witnesses *)

(** One key is written with an escape. *)
Definition sample_keys : bytes := jlit " { 'k1' : 'acme', '\u006b2':'globex' } ".

Definition sample_env (name : string) : bytes :=
  if String.eqb name "API_KEYS" then sample_keys
  else if String.eqb name "RATE_LIMIT_RPS" then lit "250"
  else [].

Lemma ParseAPIKeys_no_remap_witness :
  exists ms, object_members sample_keys = Some ms /\
    NoDup (map (fun kv => unquote (fst kv)) ms) /\ Forall (fun kv => string_or_null (snd kv)) ms /\
    forall k t, ({[ lit "k1" := lit "acme"; lit "k2" := lit "globex" ]} : gmap bytes bytes) !! k = Some t <->
      (k, t) ∈ map decoded_pair ms.
Proof. apply ParseAPIKeys_no_remap. vm_compute. reflexivity. Defined.

Lemma LoadAPIEnv_valid_witness :
  exists env, ae_RateLimitRPS env = 250 /\ ae_APIKeys env <> ∅ /\
    map_Forall (fun key tenant => key <> [] /\ 1 <= blen tenant <= 128) (ae_APIKeys env) /\
    1 <= ae_RateLimitRPS env < 2 ^ 63 /\ ae_PublishTimeout env = 5 * Second /\ ae_Brokers env <> [].
Proof.
  eexists (mkAPIEnv (lit ":8080") [lit "localhost:19092"] (lit "ingestkit.events")
            {[ lit "k1" := lit "acme"; lit "k2" := lit "globex" ]} 250 (5 * Second)).
  split; [reflexivity|]. apply (LoadAPIEnv_valid sample_env). vm_compute. reflexivity.
Defined.
