(* ===== verification/Api.v ===== *)
(** * The HTTP API: [internal/api]

    The handlers and middleware over fiber.  A request context [Ctx] holds
    what the code reads of the request and what it sets: locals, status,
    headers and body of the response.  Fiber's router is a parameter: which of
    the registered routes a request reaches, and the error when there is
    none.  [c.Next()] is the continuation a middleware is given; the chain is
    composed as [NewApp] composes it.  Handlers do not panic, so the recover
    middleware changes nothing. *)
From S2P Require Import Prelude GoBytes GoTime GoJson GoEncode Event Runtime RuntimeInfo Persistence Telemetry Publisher RateLimit.

(** ** errors.go *)

Record ErrorResponse := mkErrorResponse {
  er_Error : string;
  er_Message : bytes;
  er_RequestID : bytes;
  er_Timestamp : Time
}.

(** The JSON values the handlers send. *)
Inductive response_body :=
  | BEmpty
  | BError (e : ErrorResponse)
  | BStatus (status : string)
  | BAccepted (event_ids : list bytes) (request_id : option bytes)
  | BMetrics (m : option Metrics).

(** [fiber.Ctx]: the request, the locals and the response. *)
Record Ctx := mkCtx {
  c_Method : bytes;
  c_Path : bytes;
  c_Get : string -> bytes;
  c_Body : bytes;
  l_request_id : option bytes;
  l_tenant_id : option bytes;
  l_metrics_observed : bool;
  c_status : Z;
  c_headers : gmap string bytes;
  c_response : response_body
}.

Definition set_request_id (v : bytes) (c : Ctx) : Ctx :=
  mkCtx (c_Method c) (c_Path c) (c_Get c) (c_Body c) (Some v) (l_tenant_id c) (l_metrics_observed c)
    (c_status c) (c_headers c) (c_response c).
Definition set_tenant_id (v : bytes) (c : Ctx) : Ctx :=
  mkCtx (c_Method c) (c_Path c) (c_Get c) (c_Body c) (l_request_id c) (Some v) (l_metrics_observed c)
    (c_status c) (c_headers c) (c_response c).
Definition set_metrics_observed (c : Ctx) : Ctx :=
  mkCtx (c_Method c) (c_Path c) (c_Get c) (c_Body c) (l_request_id c) (l_tenant_id c) true
    (c_status c) (c_headers c) (c_response c).
Definition Set_header (k : string) (v : bytes) (c : Ctx) : Ctx :=
  mkCtx (c_Method c) (c_Path c) (c_Get c) (c_Body c) (l_request_id c) (l_tenant_id c) (l_metrics_observed c)
    (c_status c) (<[k := v]> (c_headers c)) (c_response c).
Definition Respond (status : Z) (body : response_body) (c : Ctx) : Ctx :=
  mkCtx (c_Method c) (c_Path c) (c_Get c) (c_Body c) (l_request_id c) (l_tenant_id c) (l_metrics_observed c)
    status (c_headers c) body.

(** The error of a handler: a [*fiber.Error] with its code, or another. *)
Inductive herror := FiberError (code : Z) | OtherError.

(** What a request reaches: a route, the protected group without a route of
    its own, or nothing. *)
Inductive Endpoint := EHealth | EReady | EMetrics | EEvents | EEventsBatch | EGroup | ENone.

Record Config := mkConfig {
  cfg_APIKeys : gmap bytes bytes;
  cfg_RateLimitRPS : Z;
  cfg_PublishTimeout : Z
}.

(** ** auth.go *)

Record APIKeyConfig := mkAPIKeyConfig { Keys : gmap bytes bytes }.

Definition NewAPIKeyConfig : APIKeyConfig := mkAPIKeyConfig ∅.
Definition AddKey (c : APIKeyConfig) (apiKey tenantID : bytes) : APIKeyConfig :=
  mkAPIKeyConfig (<[apiKey := tenantID]> (Keys c)).
Definition ValidateKey (c : APIKeyConfig) (apiKey : bytes) : option bytes := Keys c !! apiKey.

(** The decimal text of a status, as a label. *)
Definition Itoa_label (n : Z) : string :=
  string_of_list_ascii (map (fun c => ascii_of_N (Z.to_N c)) (itoa n)).

Definition route_label (path : bytes) : string :=
  if bool_decide (path = lit "/v1/events") then "single"
  else if bool_decide (path = lit "/v1/events/batch") then "batch"
  else if bool_decide (path = lit "/ready") then "ready"
  else if bool_decide (path = lit "/health") then "health"
  else if bool_decide (path = lit "/metrics") then "metrics"
  else "other".

(** The status an error stands for. *)
Definition error_status (e : herror) : Z := match e with FiberError code => code | OtherError => 500 end.

Section Api.
Context {U : UUIDLib} {Wd : World}.

(** What the API asks of a publisher. *)
Class EventPublisher := {
  ep_Publish : Context -> list Envelope -> M Pub goerr;
  ep_Ping : Context -> M Pub goerr
}.

(** The API's state: the publisher's and the buckets. *)
Record Api := mkApi { a_pub : Pub; a_limiter : RateLimiter }.

Definition Handler : Type := Ctx -> M Api (Ctx * option herror).

Definition Now : M Api Z := gets (fun s => now (p_world (a_pub s))).
Definition on_pub {A} (m : M Pub A) : M Api A :=
  fun s => match m (a_pub s) with
           | Some (a, p) => Some (a, mkApi p (a_limiter s))
           | None => None
           end.

Definition SendError (c : Ctx) (status : Z) (code : string) (message : bytes) : M Api (Ctx * option herror) :=
  let reqID := default [] (l_request_id c) in
  let! t := Now in
  ret (Respond status (BError (mkErrorResponse code message reqID (time_of t))) c, None).

(** ** requestid.go *)

Definition generateRequestID : M Api bytes := let! t := Now in ret (lit "req_" ++ itoa t).

Definition RequestID (next : Handler) : Handler := fun c =>
  let! id := match c_Get c "X-Request-ID" with [] => generateRequestID | id => ret id end in
  next (Set_header "X-Request-ID" id (set_request_id id c)).

(** ** auth.go and ratelimit.go *)

(** [strings.TrimPrefix(authHeader, "Bearer ")]. *)
Definition bearer_key (authHeader : bytes) : bytes :=
  if bool_decide (take 7 authHeader = lit "Bearer ") then drop 7 authHeader else authHeader.

Definition APIKeyAuth (config : APIKeyConfig) (next : Handler) : Handler := fun c =>
  match c_Get c "Authorization" with
  | [] => SendError c 401 "authentication_failed" (lit "missing authorization header")
  | authHeader =>
      match ValidateKey config (bearer_key authHeader) with
      | None => SendError c 401 "authentication_failed" (lit "invalid API key")
      | Some tenantID => next (set_tenant_id tenantID c)
      end
  end.

Definition limiter_allow (tenantID : bytes) : M Api (bool * Z * Z) := fun s =>
  let '(r, rl) := allow (a_limiter s) tenantID (now (p_world (a_pub s))) in
  Some (r, mkApi (a_pub s) rl).

Definition RateLimit (next : Handler) : Handler := fun c =>
  let tenantID := default (lit "default") (l_tenant_id c) in
  let! (allowed, limit, remaining) := limiter_allow tenantID in
  let c := Set_header "X-RateLimit-Remaining" (itoa remaining)
             (Set_header "X-RateLimit-Limit" (itoa limit) c) in
  if negb allowed
  then SendError c 429 "rate_limit_exceeded" (lit "rate limit exceeded, please try again later")
  else next c.

(** ** ingest.go *)

(** [errtext] is the [Error] method. *)
Variable errtext : error -> bytes.

Fixpoint accept_all (inputs : list Input) (tenant : bytes) (received : Time) : res (list Envelope) :=
  match inputs with
  | [] => Ok []
  | i :: rest =>
      let? e := Accept i tenant received in
      let? es := accept_all rest tenant received in
      Ok (e :: es)
  end.

Definition decode_body (batch : bool) (raw : bytes) : res (list Input) :=
  if batch then DecodeBatch raw else let? i := DecodeInput raw in Ok [i].

Definition ingest {E : EventPublisher} (timeout : Z) (batch : bool) : Handler := fun c =>
  match decode_body batch (c_Body c) with
  | Err err =>
      let status := if IsTooLarge err then 413 else 400 in
      SendError c status "validation_failed" (errtext err)
  | Ok inputs =>
      match l_tenant_id c with
      | None => SendError c 500 "internal_error" (lit "missing tenant identity")
      | Some tenant =>
          let! t := Now in
          let received := time_of t in
          match accept_all inputs tenant received with
          | Err _ => SendError c 400 "validation_failed" (lit "invalid event identity")
          | Ok events =>
              let ids := map (fun i => uuid_String (EventID i)) inputs in
              let! start := Now in
              let! err := on_pub (ep_Publish (WithTimeout Background start timeout) events) in
              match err with
              | Some _ => SendError c 503 "unavailable" (lit "delivery is uncertain; retry with the same event IDs")
              | None => ret (Respond 202 (BAccepted ids (l_request_id c)) c, None)
              end
          end
      end
  end.

(** ** app.go *)

Record App := mkApp { app_publisher : EventPublisher; app_keys : APIKeyConfig; app_timeout : Z }.

Fixpoint add_all (l : list (bytes * bytes)) (keys : APIKeyConfig) : res APIKeyConfig :=
  match l with
  | [] => Ok keys
  | (key, tenant) :: rest =>
      if bool_decide (key = []) || negb (ValidTenant tenant)
      then Err (ENew "invalid API key mapping")
      else add_all rest (AddKey keys key tenant)
  end.

(** [NewApp] returns the application and the state it starts from: the
    metrics it was given or new ones, and empty buckets. *)
Definition NewApp (config : Config) (publisher : option EventPublisher) (p : Pub) : res (App * Api) :=
  match publisher with
  | None => Err (ENew "invalid API configuration")
  | Some publisher =>
      if bool_decide (cfg_APIKeys config = ∅) || (cfg_RateLimitRPS config <=? 0) || (cfg_PublishTimeout config <=? 0)
      then Err (ENew "invalid API configuration")
      else
        let? keys := add_all (map_to_list (cfg_APIKeys config)) NewAPIKeyConfig in
        let p := mkPub (p_world p) (Some (default newMetrics (p_metrics p))) in
        Ok (mkApp publisher keys (cfg_PublishTimeout config), mkApi p (NewRateLimiter (cfg_RateLimitRPS config)))
  end.

Definition api_observe (f : Metrics -> Metrics) : M Api unit := on_pub (observe f).

Definition ensureRequestID (newString : bytes) (c : Ctx) : Ctx :=
  let c := match l_request_id c with Some _ => c | None => set_request_id newString c end in
  Set_header "X-Request-ID" (default [] (l_request_id c)) c.

(** The [ErrorHandler]: [newString] is the text of a fresh random UUID. *)
Definition errorHandler (newString : bytes) (err : herror) (c : Ctx) : M Api (Ctx * option herror) :=
  let status := error_status err in
  let c := ensureRequestID newString c in
  (if l_metrics_observed c then ret tt
   else api_observe (fun m => ObserveHTTP m "other" (Itoa_label status) 0)) ;;
  SendError c status "request_failed" (lit "request could not be processed").

(** The middleware that times a request and counts its answer. *)
Definition observeRequests (next : Handler) : Handler := fun c =>
  let! start := Now in
  let! (c', err) := next c in
  let status := match err with Some e => error_status e | None => c_status c' end in
  let! stop := Now in
  api_observe (fun m => ObserveHTTP m (route_label (c_Path c)) (Itoa_label status) (stop - start)) ;;
  ret (set_metrics_observed c', err).

Definition health : Handler := fun c => ret (Respond 200 (BStatus "alive") c, None).

Definition ready {E : EventPublisher} : Handler := fun c =>
  let! start := Now in
  let! err := on_pub (ep_Ping (WithTimeout Background start Second)) in
  match err with
  | Some _ => SendError c 503 "unavailable" (lit "broker is not ready")
  | None => ret (Respond 200 (BStatus "ready") c, None)
  end.

Definition metricsHandler : Handler := fun c =>
  let! m := gets (fun s => p_metrics (a_pub s)) in ret (Respond 200 (BMetrics m) c, None).

(** Fiber's router: the route a method and a path reach, and the code of the
    error (404 or 405) when there is none. *)
Variable match_route : bytes -> bytes -> Endpoint.
Variable no_route : bytes -> bytes -> Z.

Definition notFound : Handler := fun c => ret (c, Some (FiberError (no_route (c_Method c) (c_Path c)))).

Definition routes (a : App) : Handler := fun c =>
  let E := app_publisher a in
  let protected h := APIKeyAuth (app_keys a) (RateLimit h) in
  match match_route (c_Method c) (c_Path c) with
  | EHealth => health c
  | EReady => ready c
  | EMetrics => metricsHandler c
  | EEvents => protected (ingest (app_timeout a) false) c
  | EEventsBatch => protected (ingest (app_timeout a) true) c
  | EGroup => protected notFound c
  | ENone => notFound c
  end.

(** What the server hands to the application: a request that could be read,
    or the error for one that could not (a body over the limit, say). *)
Inductive Incoming := IRequest | IServerError (code : Z).

Definition serve (a : App) (newString : bytes) (q : Incoming) (c : Ctx) : M Api Ctx :=
  let! (c, err) :=
    match q with
    | IServerError code => ret (c, Some (FiberError code))
    | IRequest => RequestID (observeRequests (routes a)) c
    end in
  match err with
  | None => ret c
  | Some e => let! (c, _) := errorHandler newString e c in ret c
  end.
End Api.
