(* ===== verification/ApiProps.v ===== *)
(** * Properties of the HTTP API

    The API's theorems are proved against [EventPublisherLaws], what it
    relies on in a publisher; the broker's publisher satisfies them. *)
From S2P Require Import Prelude GoBytes GoTime GoJson GoEncode Event EventFacts Envelope EventProps Runtime RuntimeInfo Persistence Telemetry Publisher PublisherProps RateLimit Api.

Definition http_series (m : option Metrics) : option CounterVec := option_map http m.

Section Interface.
Context {U : UUIDLib} {Wd : World}.

(** A publisher always returns; without error it has published every event
    of the call, it forgets nothing, and the HTTP series are not its own. *)
Class EventPublisherLaws (E : EventPublisher) (published : W -> Envelope -> Prop) := {
  publish_returns ctx es s : exists err s', ep_Publish ctx es s = Some (err, s') /\
    now (p_world s) <= now (p_world s') /\
    http_series (p_metrics s') = http_series (p_metrics s) /\
    (forall e, published (p_world s) e -> published (p_world s') e) /\
    (err = None -> Forall (published (p_world s')) es);
  ping_returns ctx s : exists err s', ep_Ping ctx s = Some (err, s') /\
    now (p_world s) <= now (p_world s') /\
    http_series (p_metrics s') = http_series (p_metrics s) /\
    (forall e, published (p_world s) e -> published (p_world s') e)
}.
End Interface.

(** ** The broker's publisher *)

Section BrokerPublisher.
Context {U : UUIDLib} {Wd : World} {B : Broker} {BL : BrokerLaws B}.

(** The metadata request of [topicReady], which publishes nothing. *)
Variable metadata : Context -> bytes -> W -> res (list (Z * list (Z * Z))) * W.
Hypothesis metadata_forward : forall ctx t w, now w <= now (snd (metadata ctx t w)).
Hypothesis metadata_keeps : forall ctx t w, broker_log w ⊆ broker_log (snd (metadata ctx t w)).

Definition Ping (p : Publisher) (ctx : Context) : M Pub goerr :=
  let! r := on_world (metadata ctx (p_topic p)) in ret (topicReady r).

Definition broker_publisher (p : Publisher) : EventPublisher :=
  {| ep_Publish := Publish p; ep_Ping := Ping p |}.

Lemma send_http p ctx records s err s' :
  send p ctx records s = Some (err, s') -> http_series (p_metrics s') = http_series (p_metrics s).
Proof.
  unfold send, bind at 1, clock, gets. set (ctx' := WithTimeout ctx _ _).
  destruct (produce_all_spec ctx' records s) as (w & Hw & _). unfold bind at 1. rewrite Hw.
  destruct (collect_spec ctx' (length records) records (mkPub w (p_metrics s)) eq_refl)
    as (reason & err' & s1 & Hc & _ & Hm & _). unfold bind at 1. rewrite Hc. cbn [p_metrics] in Hm.
  destruct err'; intros [= _ <-]; unfold http_series; cbn; rewrite Hm; by destruct (p_metrics s).
Qed.

Definition in_broker (p : Publisher) (w : W) (e : Envelope) : Prop :=
  exists raw, EncodeEnvelope e = Ok raw /\ event_record (p_topic p) e raw ∈ broker_log w.

(** The publisher keeps the promise the API relies on. *)
#[global] Instance broker_publisher_laws p : EventPublisherLaws (broker_publisher p) (in_broker p).
Proof.
  constructor.
  - intros ctx es s. cbn [ep_Publish broker_publisher]. unfold Publish.
    destruct (encode_all (p_topic p) es) as [records|err] eqn:E.
    + destruct (send_spec p ctx records s) as (err & s' & Hs & [Ht Hk] & Hres). exists err, s'.
      split; [done|]. split; [done|]. split; [by eapply send_http|]. split.
      { intros e (raw & Hr & Hin). exists raw. split; [done|]. by apply Hk. }
      intros ->. apply encode_all_Ok in E. apply Forall_forall. intros e [i Hi]%list_elem_of_lookup.
      destruct (Forall2_lookup_l _ _ _ _ _ E Hi) as (r & Hr & raw & Hraw & ->).
      exists raw. split; [done|]. apply Hres. by eapply list_elem_of_lookup_2.
    + exists (Some err), s. split; [done|]. split; [lia|]. split; [done|]. by split.
  - intros ctx s. cbn [ep_Ping broker_publisher]. unfold Ping, bind, on_world.
    pose proof (metadata_forward ctx (p_topic p) (p_world s)) as Hf.
    pose proof (metadata_keeps ctx (p_topic p) (p_world s)) as Hk.
    destruct (metadata ctx (p_topic p) (p_world s)) as [r w] eqn:Em. cbn [snd] in *.
    eexists _, _. split; [done|]. split; [exact Hf|]. split; [done|].
    intros e (raw & Hr & Hin). exists raw. split; [done|]. by apply Hk.
Qed.
End BrokerPublisher.

(** ** The handlers *)

Section Handlers.
Context {U : UUIDLib} {Wd : World} {E : EventPublisher} {published : W -> Envelope -> Prop}
        {EL : EventPublisherLaws E published}.
Variable errtext : error -> bytes.

(** What is the same before and after a request handler: the HTTP series and
    everything published. *)
Definition api_extends (s s' : Api) : Prop :=
  now (p_world (a_pub s)) <= now (p_world (a_pub s')) /\
  http_series (p_metrics (a_pub s')) = http_series (p_metrics (a_pub s)) /\
  (forall e, published (p_world (a_pub s)) e -> published (p_world (a_pub s')) e).

#[global] Instance api_extends_preorder : PreOrder api_extends.
Proof.
  split.
  - intros s. split; [lia|]. split; [done|]. auto.
  - intros a b c (? & H1 & ?) (? & H2 & ?). split; [lia|]. split; [congruence|]. auto.
Qed.

Lemma api_extends_pub s s' : a_pub s' = a_pub s -> api_extends s s'.
Proof. intros H. unfold api_extends. rewrite H. split; [lia|]. auto. Qed.

Lemma SendError_run c status code message s :
  exists body, SendError c status code message s = Some ((Respond status body c, None), s) /\
    (forall ids r, body <> BAccepted ids r).
Proof. eexists. split; [reflexivity|]. done. Qed.

(** The answer to a request that was accepted. *)
Definition accepted_as (batch : bool) (c : Ctx) (tenant : bytes) (s s' : Api) (body : response_body) : Prop :=
  exists inputs events,
    decode_body batch (c_Body c) = Ok inputs /\
    accept_all inputs tenant (time_of (now (p_world (a_pub s)))) = Ok events /\
    Forall (published (p_world (a_pub s'))) events /\
    body = BAccepted (map (fun i => uuid_String (EventID i)) inputs) (l_request_id c).

(** [ingest] answers 202 only after publishing, 503 when the publisher
    failed, and anything else before reaching the publisher. *)
Lemma ingest_spec timeout batch c s :
  exists status body s', ingest errtext timeout batch c s = Some ((Respond status body c, None), s') /\
    api_extends s s' /\ a_limiter s' = a_limiter s /\
    ((status = 202 /\ exists tenant, l_tenant_id c = Some tenant /\ accepted_as batch c tenant s s' body) \/
     (status = 503 /\ exists tenant inputs events, l_tenant_id c = Some tenant /\
        decode_body batch (c_Body c) = Ok inputs /\
        accept_all inputs tenant (time_of (now (p_world (a_pub s)))) = Ok events) \/
     (s' = s /\
      ((exists e, decode_body batch (c_Body c) = Err e /\ status = (if IsTooLarge e then 413 else 400)) \/
       (l_tenant_id c = None /\ status = 500) \/
       (exists tenant inputs e, l_tenant_id c = Some tenant /\ decode_body batch (c_Body c) = Ok inputs /\
          accept_all inputs tenant (time_of (now (p_world (a_pub s)))) = Err e /\ status = 400)))).
Proof.
  unfold ingest. destruct (decode_body batch (c_Body c)) as [inputs|err] eqn:Ed.
  2: { destruct (SendError_run c (if IsTooLarge err then 413 else 400) "validation_failed" (errtext err) s) as (b & Hb & _).
       cbv zeta. rewrite Hb. eexists _, _, _. split; [done|]. split; [done|]. split; [done|]. right. right. split; [done|]. left. by exists err. }
  destruct (l_tenant_id c) as [tenant|] eqn:Et.
  2: { destruct (SendError_run c 500 "internal_error" (lit "missing tenant identity") s) as (b & Hb & _).
       rewrite Hb. eexists _, _, _. split; [done|]. split; [done|]. split; [done|]. naive_solver. }
  unfold bind at 1, Now, gets. cbv zeta.
  destruct (accept_all inputs tenant _) as [events|err] eqn:Ea.
  2: { destruct (SendError_run c 400 "validation_failed" (lit "invalid event identity") s) as (b & Hb & _).
       rewrite Hb. eexists _, _, _. split; [done|]. split; [done|]. split; [done|]. naive_solver. }
  unfold bind at 1. unfold bind at 1, on_pub. set (ctx := WithTimeout _ _ _).
  destruct (publish_returns ctx events (a_pub s)) as (err & p' & Hp & Ht & Hh & Hk & Hall). rewrite Hp.
  set (s' := mkApi p' (a_limiter s)). assert (Hx : api_extends s s') by done. destruct err as [err|].
  - destruct (SendError_run c 503 "unavailable" (lit "delivery is uncertain; retry with the same event IDs") s') as (b & Hb & _).
    rewrite Hb. eexists _, _, _. split; [done|]. split; [done|]. split; [done|]. right. left. split; [done|].
    by exists tenant, inputs, events.
  - eexists _, _, _. split; [done|]. split; [done|]. split; [done|]. left. split; [done|].
    exists tenant. split; [done|]. exists inputs, events. split; [done|]. split; [done|]. split; [by apply Hall|done].
Qed.

(** The tenant of the key a request carries. *)
Definition key_tenant (keys : APIKeyConfig) (c : Ctx) : option bytes :=
  match c_Get c "Authorization" with [] => None | h => ValidateKey keys (bearer_key h) end.

(** The request as the rate limiter passes it on. *)
Definition limited (tenant : bytes) (limit remaining : Z) (c : Ctx) : Ctx :=
  Set_header "X-RateLimit-Remaining" (itoa remaining)
    (Set_header "X-RateLimit-Limit" (itoa limit) (set_tenant_id tenant c)).

Definition limiter_says (s : Api) (tenant : bytes) := allow (a_limiter s) tenant (now (p_world (a_pub s))).

Lemma protected_unknown keys h c s :
  key_tenant keys c = None ->
  exists body, APIKeyAuth keys (RateLimit h) c s = Some ((Respond 401 body c, None), s).
Proof.
  unfold key_tenant, APIKeyAuth. destruct (c_Get c "Authorization"); [by eexists|].
  intros ->. by eexists.
Qed.

Lemma protected_known keys h c s tenant allowed limit remaining rl :
  key_tenant keys c = Some tenant -> limiter_says s tenant = ((allowed, limit, remaining), rl) ->
  let c1 := limited tenant limit remaining c in
  if allowed then APIKeyAuth keys (RateLimit h) c s = h c1 (mkApi (a_pub s) rl)
  else exists body, APIKeyAuth keys (RateLimit h) c s = Some ((Respond 429 body c1, None), mkApi (a_pub s) rl).
Proof.
  unfold key_tenant, APIKeyAuth. destruct (c_Get c "Authorization"); [done|]. intros -> Hl.
  unfold RateLimit, bind, limiter_allow. unfold limiter_says in Hl.
  change (default (lit "default") (l_tenant_id (set_tenant_id tenant c))) with tenant.
  rewrite Hl. destruct allowed; [done|]. by eexists.
Qed.

Variable match_route : bytes -> bytes -> Endpoint.
Variable no_route : bytes -> bytes -> Z.
Variable a : App.
Hypothesis app_publisher_E : app_publisher a = E.

(** The parts of the context no route handler touches. *)
Definition same_request (c c' : Ctx) : Prop :=
  c_Method c' = c_Method c /\ c_Path c' = c_Path c /\ l_request_id c' = l_request_id c /\
  l_metrics_observed c' = l_metrics_observed c /\
  c_headers c' !! "X-Request-ID"%string = c_headers c !! "X-Request-ID"%string.

Lemma same_request_limited tenant limit remaining c : same_request c (limited tenant limit remaining c).
Proof. split_and!; try done. unfold limited. cbn. by rewrite !lookup_insert_ne. Qed.

(** Why a request is refused, and with which status. *)
Definition ingest_route (c : Ctx) (batch : bool) : Prop :=
  match_route (c_Method c) (c_Path c) = (if batch then EEventsBatch else EEvents).

Inductive refusal (c : Ctx) (s : Api) : Z -> Prop :=
  | rf_key : key_tenant (app_keys a) c = None -> refusal c s 401
  | rf_rate tenant :
      key_tenant (app_keys a) c = Some tenant -> (limiter_says s tenant).1.1.1 = false -> refusal c s 429
  | rf_body batch e :
      ingest_route c batch -> decode_body batch (c_Body c) = Err e -> refusal c s (if IsTooLarge e then 413 else 400)
  | rf_identity batch tenant inputs e :
      ingest_route c batch -> key_tenant (app_keys a) c = Some tenant ->
      decode_body batch (c_Body c) = Ok inputs ->
      accept_all inputs tenant (time_of (now (p_world (a_pub s)))) = Err e -> refusal c s 400.

(** The ways a request can end. *)
Inductive answered (c : Ctx) (s : Api) : Ctx -> option herror -> Api -> Prop :=
  | an_accepted (batch : bool) tenant limit remaining rl body s' :
      ingest_route c batch ->
      key_tenant (app_keys a) c = Some tenant ->
      limiter_says s tenant = ((true, limit, remaining), rl) ->
      accepted_as batch c tenant s s' body ->
      answered c s (Respond 202 body (limited tenant limit remaining c)) None s'
  | an_uncertain (batch : bool) tenant limit remaining rl body s' inputs (events : list Envelope) :
      ingest_route c batch ->
      key_tenant (app_keys a) c = Some tenant ->
      limiter_says s tenant = ((true, limit, remaining), rl) ->
      decode_body batch (c_Body c) = Ok inputs ->
      accept_all inputs tenant (time_of (now (p_world (a_pub s)))) = Ok events ->
      answered c s (Respond 503 body (limited tenant limit remaining c)) None s'
  | an_status status body s' :
      match_route (c_Method c) (c_Path c) ∈ [EHealth; EReady; EMetrics] ->
      status = 200 \/ status = 503 ->
      answered c s (Respond status body c) None s'
  | an_refused status body c1 s' :
      match_route (c_Method c) (c_Path c) ∈ [EEvents; EEventsBatch; EGroup] ->
      a_pub s' = a_pub s -> refusal c s status -> same_request c c1 ->
      answered c s (Respond status body c1) None s'
  | an_no_route c1 s' :
      match_route (c_Method c) (c_Path c) ∈ [EGroup; ENone] ->
      a_pub s' = a_pub s -> same_request c c1 ->
      answered c s c1 (Some (FiberError (no_route (c_Method c) (c_Path c)))) s'.

Lemma protected_ingest (batch : bool) c s :
  ingest_route c batch ->
  exists c' s', APIKeyAuth (app_keys a) (RateLimit (ingest errtext (app_timeout a) batch)) c s = Some ((c', None), s') /\
    api_extends s s' /\ answered c s c' None s'.
Proof.
  intros Hr. assert (Hin : match_route (c_Method c) (c_Path c) ∈ [EEvents; EEventsBatch; EGroup])
    by (rewrite Hr; destruct batch; set_solver).
  destruct (key_tenant (app_keys a) c) as [tenant|] eqn:Ek.
  2: { destruct (protected_unknown _ (ingest errtext (app_timeout a) batch) _ s Ek) as [body ->]. eexists _, _. split; [done|].
       split; [done|]. apply an_refused; [done|done|by apply rf_key|done]. }
  destruct (limiter_says s tenant) as [[[allowed limit] remaining] rl] eqn:El.
  pose proof (protected_known _ (ingest errtext (app_timeout a) batch) _ _ _ _ _ _ _ Ek El) as Hp. cbv zeta in Hp.
  destruct allowed.
  2: { destruct Hp as [body ->]. eexists _, _. split; [done|]. split; [by apply api_extends_pub|].
       apply an_refused; [done|done| |apply same_request_limited].
       eapply rf_rate; [exact Ek|]. by rewrite El. }
  rewrite Hp. destruct (ingest_spec (app_timeout a) batch (limited tenant limit remaining c) (mkApi (a_pub s) rl))
    as (status & body & s' & Hi & Hx & _ & Hcase).
  rewrite Hi. eexists _, _. split; [done|]. split; [exact Hx|].
  destruct Hcase as [[-> (t & [= <-] & Hacc)]|[[-> (t & inputs & events & [= <-] & Hd & Ha)]
                    |[-> [(e & Hd & ->)|[[[=] _]|(t & inputs & e & [= <-] & Hd & Ha & ->)]]]]].
  - eapply an_accepted; [done|done|done|exact Hacc].
  - by eapply an_uncertain.
  - apply an_refused; [done|done|by eapply rf_body|apply same_request_limited].
  - apply an_refused; [done|done|by eapply rf_identity|apply same_request_limited].
Qed.

Lemma routes_spec c s :
  exists c' err s', routes errtext match_route no_route a c s = Some ((c', err), s') /\
    api_extends s s' /\ answered c s c' err s'.
Proof.
  unfold routes. cbv zeta. rewrite app_publisher_E. destruct (match_route (c_Method c) (c_Path c)) eqn:Er.
  - eexists _, _, _. split; [done|]. split; [done|]. apply an_status; [rewrite Er; set_solver | by left].
  - unfold ready, bind at 1, Now, gets. unfold bind, on_pub.
    destruct (ping_returns (WithTimeout Background (now (p_world (a_pub s))) Second) (a_pub s))
      as (err & p' & Hp & Ht & Hh & Hk). rewrite Hp.
    destruct err; eexists _, _, _; (split; [done|]); (split; [done|]);
      (apply an_status; [rewrite Er; set_solver | auto]).
  - eexists _, _, _. split; [done|]. split; [done|]. apply an_status; [rewrite Er; set_solver | by left].
  - destruct (protected_ingest false c s Er) as (c' & s' & Hp & Hx & Ha). by exists c', None, s'.
  - destruct (protected_ingest true c s Er) as (c' & s' & Hp & Hx & Ha). by exists c', None, s'.
  - destruct (key_tenant (app_keys a) c) as [tenant|] eqn:Ek.
    2: { destruct (protected_unknown _ (notFound no_route) _ s Ek) as [body ->]. eexists _, _, _. split; [done|].
         split; [done|]. apply an_refused; [rewrite Er; set_solver|done|by apply rf_key|done]. }
    destruct (limiter_says s tenant) as [[[allowed limit] remaining] rl] eqn:El.
    pose proof (protected_known _ (notFound no_route) _ _ _ _ _ _ _ Ek El) as Hp. cbv zeta in Hp. destruct allowed.
    + rewrite Hp. eexists _, _, _. split; [reflexivity|]. split; [by apply api_extends_pub|]. apply (an_no_route c s); [rewrite Er; set_solver|done|apply same_request_limited].
    + destruct Hp as [body ->]. eexists _, _, _. split; [done|]. split; [by apply api_extends_pub|].
      apply an_refused; [rewrite Er; set_solver|done| |apply same_request_limited].
      eapply rf_rate; [exact Ek|]. by rewrite El.
  - eexists _, _, _. split; [reflexivity|]. split; [done|]. apply an_no_route; [rewrite Er; set_solver|done|done].
Qed.

Lemma answered_same c s c' err s' : answered c s c' err s' -> same_request c c'.
Proof.
  destruct 1 as [b t l r rl body s' _ _ _ _|b t l r rl body s' i e _ _ _ _ _|status body s' _ _|status body c1 s' _ _ _ H|c1 s' _ _ H].
  - apply (same_request_limited t l r).
  - apply (same_request_limited t l r).
  - done.
  - exact H.
  - exact H.
Qed.

(** The request with its identifier. *)
Definition with_id (id : bytes) (c : Ctx) : Ctx := Set_header "X-Request-ID" id (set_request_id id c).

Definition request_id_of (s : Api) (c : Ctx) : bytes :=
  match c_Get c "X-Request-ID" with [] => lit "req_" ++ itoa (now (p_world (a_pub s))) | id => id end.

Abbreviation serve_ := (serve errtext match_route no_route a).

(** A request goes through the chain once and is counted once. *)
Lemma serve_request ns c s :
  let c0 := with_id (request_id_of s c) c in
  exists c1 err s1 c' s', answered c0 s c1 err s1 /\ api_extends s s1 /\
    serve_ ns IRequest c s = Some (c', s') /\
    c_status c' = match err with Some e => error_status e | None => c_status c1 end /\
    c_headers c' !! "X-Request-ID"%string = Some (request_id_of s c) /\
    (err = None -> c' = set_metrics_observed c1) /\
    a_limiter s' = a_limiter s1 /\ p_world (a_pub s') = p_world (a_pub s1) /\
    exists d, p_metrics (a_pub s') =
      option_map (fun m => ObserveHTTP m (route_label (c_Path c)) (Itoa_label (c_status c')) d) (p_metrics (a_pub s1)).
Proof.
  cbv zeta. destruct (routes_spec (with_id (request_id_of s c) c) s) as (c1 & err & s1 & Hr & Hx & Ha).
  pose proof (answered_same _ _ _ _ _ Ha) as (_ & Hpath & Hid & _ & Hhd).
  exists c1, err, s1.
  assert (Hc : RequestID (observeRequests (routes errtext match_route no_route a)) c s =
               observeRequests (routes errtext match_route no_route a) (with_id (request_id_of s c) c) s).
  { unfold RequestID, request_id_of, bind. by destruct (c_Get c "X-Request-ID"). }
  unfold serve, bind at 1. rewrite Hc. unfold observeRequests, bind at 1, Now, gets. unfold bind at 1. rewrite Hr.
  unfold bind at 1. unfold bind at 1, api_observe, on_pub, observe, modify. cbn [ret].
  destruct err as [e|].
  - unfold errorHandler. cbv zeta.
    assert (Hens : ensureRequestID ns (set_metrics_observed c1) =
              Set_header "X-Request-ID" (request_id_of s c) (set_metrics_observed c1)).
    { assert (Hid' : l_request_id (set_metrics_observed c1) = Some (request_id_of s c)) by exact Hid.
      unfold ensureRequestID. rewrite Hid'. cbv zeta. by rewrite Hid'. }
    rewrite Hens. eexists _, _. split; [done|]. split; [done|]. split; [reflexivity|]. split; [reflexivity|].
    split; [apply lookup_insert_eq|]. split; [done|]. split; [done|]. split; [done|]. by eexists.
  - eexists _, _. split; [done|]. split; [done|]. split; [reflexivity|]. split; [reflexivity|].
    split; [cbn [c_headers set_metrics_observed]; rewrite Hhd; apply lookup_insert_eq|].
    split; [done|]. split; [done|]. split; [done|]. by eexists.
Qed.

(** A request the server could not read is answered by the error handler. *)
Lemma serve_server_error ns code c s :
  exists c' s', serve_ ns (IServerError code) c s = Some (c', s') /\ c_status c' = code /\
    p_world (a_pub s') = p_world (a_pub s) /\
    (exists id, c_headers c' !! "X-Request-ID"%string = Some id) /\
    (l_metrics_observed c = false ->
     p_metrics (a_pub s') = option_map (fun m => ObserveHTTP m "other" (Itoa_label code) 0) (p_metrics (a_pub s))).
Proof.
  unfold serve, bind at 1, ret at 1, errorHandler. cbv zeta.
  assert (Hens : exists id, ensureRequestID ns c = Set_header "X-Request-ID" id
            match l_request_id c with Some _ => c | None => set_request_id ns c end).
  { unfold ensureRequestID. destruct (l_request_id c); by eexists. }
  destruct Hens as [id ->]. set (c1 := match l_request_id c with Some _ => c | None => _ end).
  assert (Hobs : l_metrics_observed (Set_header "X-Request-ID" id c1) = l_metrics_observed c)
    by (unfold c1; by destruct (l_request_id c)).
  unfold bind at 1. unfold bind at 1. rewrite Hobs. destruct (l_metrics_observed c);
    (eexists _, _; split; [reflexivity|]; split; [reflexivity|]; split; [done|]; split; [exists id; apply lookup_insert_eq | done]).
Qed.

(** What a 202 answer says of the request. *)
Lemma serve_accepted ns q c s c' s' :
  (forall m p, no_route m p <> 202) -> q <> IServerError 202 ->
  serve_ ns q c s = Some (c', s') -> c_status c' = 202 ->
  exists (batch : bool) tenant inputs events,
    match_route (c_Method c) (c_Path c) = (if batch then EEventsBatch else EEvents) /\
    key_tenant (app_keys a) c = Some tenant /\
    (limiter_says s tenant).1.1.1 = true /\
    decode_body batch (c_Body c) = Ok inputs /\
    accept_all inputs tenant (time_of (now (p_world (a_pub s)))) = Ok events /\
    Forall (published (p_world (a_pub s'))) events /\
    c_response c' = BAccepted (map (fun i => uuid_String (EventID i)) inputs) (Some (request_id_of s c)).
Proof.
  intros Hnr Hq Hs H202. destruct q as [|code].
  2: { destruct (serve_server_error ns code c s) as (c2 & s2 & Hs2 & Hst & _). rewrite Hs in Hs2. injection Hs2 as <- <-. congruence. }
  destruct (serve_request ns c s) as (c1 & err & s1 & c2 & s2 & Ha & _ & Hs2 & Hst & _ & Hc & _ & Hw & _).
  rewrite Hs in Hs2. injection Hs2 as <- <-. rewrite H202 in Hst.
  destruct Ha as [batch tenant limit remaining rl body s1 Hr Hk Hl Hacc|? ? ? ? ? ? ? ? ? _ _ _ _ _|status body s1 _ Hb
                 |status body c2 s1 _ _ Hb _|c2 s1 _ _ _]; cbn in Hst.
  - destruct Hacc as (inputs & events & Hd & Hacc & Hp & ->). exists batch, tenant, inputs, events.
    split; [done|]. split; [done|]. split; [by rewrite Hl|]. split; [done|]. split; [done|].
    split; [by rewrite Hw|]. by rewrite Hc.
  - done.
  - destruct Hb; congruence.
  - subst status. inversion Hb; by destruct (IsTooLarge _).
  - by apply eq_sym, Hnr in Hst.
Qed.

(** C7: a request answered 202 was published.  It reached an ingest route,
    carried a key of the configuration, was admitted by that tenant's bucket,
    and its body decoded to the events; each of them, with the tenant of the
    key and the time of receipt, is published, and the answer lists their
    identifiers under the request's own. *)
Theorem accepted_means_published ns q c s c' s' :
  (forall m p, no_route m p <> 202) -> q <> IServerError 202 ->
  serve_ ns q c s = Some (c', s') -> c_status c' = 202 ->
  exists (batch : bool) tenant inputs events,
    match_route (c_Method c) (c_Path c) = (if batch then EEventsBatch else EEvents) /\
    key_tenant (app_keys a) c = Some tenant /\
    (limiter_says s tenant).1.1.1 = true /\
    decode_body batch (c_Body c) = Ok inputs /\
    accept_all inputs tenant (time_of (now (p_world (a_pub s)))) = Ok events /\
    Forall (published (p_world (a_pub s'))) events /\
    c_response c' = BAccepted (map (fun i => uuid_String (EventID i)) inputs) (Some (request_id_of s c)).
Proof. by apply serve_accepted. Qed.

(** C8: a request answered with anything but 200, 202 or 503 has not touched
    the broker, and the status says why: no route, an unknown key (401), no
    token left (429), or a body that is not a valid request (413 when too
    large, else 400). *)
Theorem refused_before_broker ns q c s c' s' :
  serve_ ns q c s = Some (c', s') -> c_status c' ∉ [200; 202; 503] ->
  p_world (a_pub s') = p_world (a_pub s) /\
  match q with
  | IServerError code => c_status c' = code
  | IRequest =>
      refusal c s (c_status c') \/
      match_route (c_Method c) (c_Path c) ∈ [EGroup; ENone] /\ c_status c' = no_route (c_Method c) (c_Path c)
  end.
Proof.
  intros Hs Hn. destruct q as [|code].
  2: { destruct (serve_server_error ns code c s) as (c2 & s2 & Hs2 & Hc & Hw & _). rewrite Hs in Hs2. by simplify_eq. }
  destruct (serve_request ns c s) as (c1 & err & s1 & c2 & s2 & Ha & _ & Hs2 & Hst & _ & _ & _ & Hw & _).
  rewrite Hs in Hs2. injection Hs2 as <- <-. rewrite Hw, Hst in *. clear Hw Hst.
  destruct Ha as [? ? ? ? ? ? ? _ _ _ _|? ? ? ? ? ? ? ? ? _ _ _ _ _|status ? ? _ [->| ->]|? ? ? ? _ Hp Hrf _|? ? Hr Hp _];
    cbn in Hn; try set_solver; (split; [by rewrite Hp|]); [left|by right].
  cbn [c_status Respond]. destruct Hrf; [by apply rf_key|by eapply rf_rate|by eapply rf_body|by eapply rf_identity].
Qed.

(** C25: every request is answered, and counted exactly once: under the route
    its path names and the status the client receives, whatever the
    publisher observes of its own; every answer carries a request
    identifier, the client's when it sent one. *)
Theorem every_request_counted_once ns q c s :
  l_metrics_observed c = false ->
  exists c' s', serve_ ns q c s = Some (c', s') /\
    (let label := Itoa_label (c_status c') in
     let name := match q with IRequest => route_label (c_Path c) | IServerError _ => "other"%string end in
     http_series (p_metrics (a_pub s')) =
       option_map (Inc [Telemetry.route name; if decide (label ∈ status_names) then label else "other"%string])
         (http_series (p_metrics (a_pub s)))) /\
    exists id, c_headers c' !! "X-Request-ID"%string = Some id /\
      (q = IRequest -> c_Get c "X-Request-ID" <> [] -> id = c_Get c "X-Request-ID").
Proof.
  intros Hf. destruct q as [|code].
  - destruct (serve_request ns c s) as (c1 & err & s1 & c' & s' & _ & (_ & Hh & _) & Hs & _ & Hid & _ & _ & _ & d & Hm).
    exists c', s'. split; [done|]. split.
    { unfold http_series in *. rewrite Hm, <- Hh. by destruct (p_metrics (a_pub s1)). }
    exists (request_id_of s c). split; [done|]. intros _ Hne. unfold request_id_of. by destruct (c_Get c "X-Request-ID").
  - destruct (serve_server_error ns code c s) as (c' & s' & Hs & Hst & _ & [id Hid] & Hm). exists c', s'.
    split; [done|]. split.
    { rewrite (Hm Hf), Hst. unfold http_series. by destruct (p_metrics (a_pub s)). }
    exists id. by split.
Qed.

(** ** A valid request is never turned away *)

Lemma decode_body_inputs (batch : bool) raw inputs :
  decode_body batch raw = Ok inputs -> inputs <> [] /\ Forall (fun i => exists r, DecodeInput r = Ok i) inputs.
Proof.
  unfold decode_body. destruct batch.
  - unfold DecodeBatch. destruct (decode _ _ _ _ _) as [raws|e]; cbn [res_bind]; [|done].
    destruct (_ || _) eqn:En; [done|]. bool_to_prop. intros Hok%decode_inputs_Ok.
    split; [intros ->; apply Forall2_nil_inv_r in Hok as ->; done|].
    apply Forall_forall. intros i [k Hk]%list_elem_of_lookup.
    destruct (Forall2_lookup_r _ _ _ _ _ Hok Hk) as (r & _ & Hr). eauto.
  - destruct (DecodeInput raw) as [i|e] eqn:Ed; cbn [res_bind]; [|done]. intros [= <-].
    split; [done|]. constructor; [eauto|constructor].
Qed.

Lemma accept_all_total inputs tenant received :
  Forall (fun i => exists r, DecodeInput r = Ok i) inputs -> valid_identity tenant received ->
  accept_all inputs tenant received = Ok (map (fun i => mkEnvelope i tenant (UTC received)) inputs).
Proof.
  intros Hi Hv. induction Hi as [|i inputs [r (Hval & _)%DecodeInput_spec] _ IH]; [done|]. cbn [accept_all map].
  assert (Ha : Accept i tenant received = Ok (mkEnvelope i tenant (UTC received))) by (by apply Accept_spec).
  rewrite Ha. cbn [res_bind]. by rewrite IH.
Qed.

Lemma add_all_spec l keys out :
  add_all l keys = Ok out ->
  Forall (fun kt => fst kt <> [] /\ ValidTenant (snd kt) = true) l /\
  Keys out = foldl (fun m kt => <[fst kt := snd kt]> m) (Keys keys) l.
Proof.
  revert keys. induction l as [|[k t] l IH]; intros keys; cbn [add_all].
  { intros [= <-]. done. }
  destruct (bool_decide (k = []) || negb (ValidTenant t)) eqn:Eb; [done|]. bool_to_prop.
  intros (Hf & Hk)%IH. split; [constructor; [done|exact Hf]|]. by rewrite Hk.
Qed.

Lemma foldl_insert_lookup (l : list (bytes * bytes)) (m : gmap bytes bytes) k t :
  foldl (fun m kt => <[fst kt := snd kt]> m) m l !! k = Some t -> m !! k = Some t \/ (k, t) ∈ l.
Proof.
  revert m. induction l as [|[k' t'] l IH]; intros m; cbn [foldl]; [by left|].
  intros [H|H]%IH; [|right; by right]. cbn [fst snd] in H. destruct (decide (k' = k)) as [->|Hne].
  - rewrite lookup_insert_eq in H. injection H as ->. right. by left.
  - rewrite lookup_insert_ne in H by done. by left.
Qed.

(** What [NewApp] establishes: every key's tenant can identify an event. *)
Lemma NewApp_keys config p s0 key tenant :
  NewApp config (Some E) p = Ok (a, s0) -> ValidateKey (app_keys a) key = Some tenant ->
  cfg_APIKeys config !! key = Some tenant /\ ValidTenant tenant = true.
Proof.
  unfold NewApp. destruct (_ || _ || _); [done|]. destruct (add_all _ _) as [keys|] eqn:Ea; [|done].
  cbn [res_bind]. intros [= <- _]. cbn [app_keys]. unfold ValidateKey. apply add_all_spec in Ea as [Hf ->].
  intros [H|H]%foldl_insert_lookup; [cbn in H; by rewrite lookup_empty in H|].
  split; [by apply elem_of_map_to_list|]. eapply Forall_forall in Hf; [|exact H]. apply Hf.
Qed.

(** C9: a well-formed request of a tenant with a token left reaches the
    publisher: with a key of the configuration the application was built
    from and a body that decodes, the only answers are 202, after the events
    were published, and 503. *)
Theorem valid_request_reaches_publisher ns c s config p s0 (batch : bool) tenant inputs :
  NewApp config (Some E) p = Ok (a, s0) ->
  match_route (c_Method c) (c_Path c) = (if batch then EEventsBatch else EEvents) ->
  key_tenant (app_keys a) c = Some tenant -> (limiter_says s tenant).1.1.1 = true ->
  decode_body batch (c_Body c) = Ok inputs ->
  IsZero (time_of (now (p_world (a_pub s)))) = false ->
  exists c' s', serve_ ns IRequest c s = Some (c', s') /\
    (c_status c' = 503 \/
     c_status c' = 202 /\
     Forall (fun i => published (p_world (a_pub s'))
                        (mkEnvelope i tenant (UTC (time_of (now (p_world (a_pub s))))))) inputs).
Proof.
  intros Hnew Hr Hk Hl Hd Hz. assert (Hvt : ValidTenant tenant = true).
  { unfold key_tenant in Hk. destruct (c_Get c "Authorization"); [done|]. by eapply NewApp_keys in Hk as [_ ?]. }
  pose proof (decode_body_inputs _ _ _ Hd) as [Hne Hin].
  pose proof (accept_all_total inputs tenant _ Hin (conj Hvt Hz)) as Hacc.
  destruct (serve_request ns c s) as (c1 & err & s1 & c' & s' & Ha & _ & Hs & Hst & _ & _ & _ & Hw & _).
  exists c', s'. split; [done|]. clear Hs. rewrite Hst, Hw. clear Hst Hw c' s'.
  change (key_tenant _ c) with (key_tenant (app_keys a) (with_id (request_id_of s c) c)) in Hk.
  destruct Ha as [b t l r rl body s1 Hb Ht _ (i & es & Hi & He & Hp & _)|? ? ? ? ? ? ? ? ? _ _ _ _ _|status ? ? Hx _
                 |? ? ? ? _ _ Hrf _|? ? Hx _ _].
  - right. split; [done|]. assert (b = batch) as -> by (rewrite Hb in Hr; by destruct b, batch).
    change (c_Body _) with (c_Body c) in Hi. rewrite Hd in Hi. rewrite Hk in Ht. simplify_eq.
    rewrite Hacc in He. injection He as <-. exact (proj1 (List.Forall_map _ _ _) Hp).
  - by left.
  - cbn in Hx. rewrite Hr in Hx. destruct batch; set_solver.
  - exfalso. inversion Hrf as [Hn|t Ht Hn|b e Hb Hn|b t i e Hb Ht Hi Hn].
    + congruence.
    + rewrite Hk in Ht. injection Ht as <-. congruence.
    + assert (b = batch) as -> by (rewrite Hb in Hr; by destruct b, batch). cbn in Hn. congruence.
    + assert (b = batch) as -> by (rewrite Hb in Hr; by destruct b, batch). cbn [c_Body with_id Set_header set_request_id] in Hi.
      rewrite Hk in Ht. simplify_eq. congruence.
  - cbn in Hx. rewrite Hr in Hx. destruct batch; set_solver.
Qed.
End Handlers.
