(* ===== verification/EndToEnd.v ===== *)
(** * From the API's answer to the table

    The two halves of the pipeline put together: the API in one process, the
    consumer in another, the broker's log between them. *)
From S2P Require Import Prelude GoBytes GoTime GoTimeFacts GoJson Event EventFacts Envelope EventProps Runtime Persistence PersistenceProps Telemetry Publisher PublisherProps Reader ReaderFacts ReaderProps Delivery RateLimit Api ApiProps.

Section EndToEnd.
Context {U : UUIDLib} {UL : UUIDLaws U}.

(** The API's side: its world, its broker client, its router. *)
Context {WA : World} {B : @Broker WA} {BrL : BrokerLaws B}.
Variable metadata : Context -> bytes -> @W WA -> res (list (Z * list (Z * Z))) * @W WA.
Hypothesis metadata_forward : forall ctx t w, now w <= now (snd (metadata ctx t w)).
Hypothesis metadata_keeps : forall ctx t w, broker_log w ⊆ broker_log (snd (metadata ctx t w)).
Variables (errtext : error -> bytes) (match_route : bytes -> bytes -> Endpoint) (no_route : bytes -> bytes -> Z).
Hypothesis no_route_fails : forall m p, no_route m p <> 202.

(** The consumer's side. *)
Context {WC : World} {BS : @BatchStore WC U} {T : @Timers WC}.
Context {BL : BatchStoreLaws BS} {TL : TimersLaws T} {C : @Cluster U WC BS}.
Variables (L : Z -> Z -> option Rec) (good : @Reader WC -> Prop).
Hypothesis good_ok : forall rd, good rd -> ClusterLaws C rd L /\ valid_config (Reader.config rd) /\ no_overflow (Reader.config rd).

(** What the broker has accepted for the topic is in its log, with the value
    unchanged. *)
Definition carried (w : @W WA) (topic : bytes) : Prop :=
  forall r, r ∈ @broker_log WA B w -> r_Topic r = topic -> exists p i r', L p i = Some r' /\ r_Value r' = r_Value r.

Lemma accept_all_events inputs tenant received events :
  accept_all inputs tenant received = Ok events ->
  Forall2 (fun i e => e = mkEnvelope i tenant (UTC received)) inputs events.
Proof.
  revert events. induction inputs as [|i inputs IH]; intros events; cbn [accept_all]; [by intros [= <-]|].
  destruct (Accept i tenant received) as [e|] eqn:Ea; [|done]. cbn [res_bind].
  destruct (accept_all inputs tenant received) as [es|]; [|done]. cbn [res_bind]. intros [= <-].
  apply Accept_spec in Ea as (_ & _ & ->). constructor; [done|by apply IH].
Qed.

Lemma time_of_wf t : wf_Time (UTC (time_of t)).
Proof.
  split; [|reflexivity]. exact (Z.mod_pos_bound t Second eq_refl).
Qed.

(** A published event below the committed offset has a row of its own key. *)
Lemma published_stored (p : Publisher) (w : @W WA) o e r0 i :
  DecodeInput r0 = Ok i -> env_Input e = i -> wf_Time (ReceivedAt e) ->
  @in_broker U WA B p w e -> carried w (p_topic p) -> Inv L o ->
  (forall q n r, L q n = Some r -> n < o_offset o q) ->
  is_Some (o_rows o !! (TenantID e, uuid_String (EventID i))).
Proof.
  intros (_ & Hdt & _)%DecodeInput_spec Hi Hwf (raw & Henc & Hin) Hc HI Hall.
  destruct (Hc _ Hin eq_refl) as (q & n & r & HL & Hval). cbn [event_record r_Value] in Hval.
  apply DecodeEnvelope_encoded in Henc as (j & _ & Hdec); [|rewrite Hi; by apply decoded_time_wf|done].
  destruct (HI q n r (Hall _ _ _ HL) HL) as [(e' & He' & Hrow)|(cause & He' & _)]; rewrite Hval in He'; cbn [slice default] in He'.
  - unfold slice, default in He'. cbn in He'. rewrite Hdec in He'. injection He' as <-. subst i. exact Hrow.
  - unfold slice, default in He'. cbn in He'. congruence.
Qed.

(** C3: an accepted event ends up in the table.  A request is answered 202 by
    the API; later the consumer, first started where no record had been
    skipped, has committed all of the topic, after any life of runs that
    failed, were stopped or crashed between two calls, and restarts: then
    every event of the request has a row under the tenant of
    the key the request was made with and the event's identifier. *)
Theorem accepted_events_are_stored (a : @App U WA) p ns c (s : @Api WA) c' s' (w w' : @W WC) :
  app_publisher a = broker_publisher metadata p ->
  @serve U WA errtext match_route no_route a ns IRequest c s = Some (c', s') -> c_status c' = 202 ->
  carried (p_world (a_pub s')) (p_topic p) ->
  Inv L (obs w) -> life good w w' ->
  (forall q n r, L q n = Some r -> n < offset w' q) ->
  exists (batch : bool) tenant inputs,
    key_tenant (app_keys a) c = Some tenant /\ decode_body batch (c_Body c) = Ok inputs /\ inputs <> [] /\
    c_response c' = BAccepted (map (fun i => uuid_String (EventID i)) inputs) (Some (request_id_of s c)) /\
    Forall (fun i => is_Some (rows w' !! (tenant, uuid_String (EventID i)))) inputs.
Proof.
  intros Ha Hs H202 Hc HI Hrun Hall.
  pose proof (broker_publisher_laws metadata metadata_forward metadata_keeps p) as EL.
  apply (serve_accepted (EL := EL)) in Hs as (batch & tenant & inputs & events & _ & Hk & _ & Hd & Hacc & Hp & Hresp); try done.
  exists batch, tenant, inputs. split; [done|]. split; [done|].
  apply decode_body_inputs in Hd as [Hne Hin]. split; [done|]. split; [done|].
  apply (life_safe good L good_ok) in Hrun as [HI' _]; [|done].
  apply accept_all_events in Hacc. apply Forall_forall. intros i [k Hi]%list_elem_of_lookup.
  destruct (Forall2_lookup_l _ _ _ _ _ Hacc Hi) as (e & He & ->).
  eapply Forall_lookup_1 in Hin as [r0 Hr0]; [|exact Hi]. eapply Forall_lookup_1 in Hp; [|exact He].
  refine (published_stored p (p_world (a_pub s')) (obs w') (mkEnvelope i tenant (UTC _)) r0 i Hr0 eq_refl _ Hp Hc HI' Hall).
  apply time_of_wf.
Qed.
End EndToEnd.
