(* ===== verification/SimApi.v ===== *)
(** * The API in the concrete world *)
From S2P Require Import Prelude GoBytes GoTime GoJson Event EventProps Runtime Persistence PersistenceProps Telemetry Publisher PublisherProps Reader ReaderFacts ReaderProps Delivery Instances GoEncode Sim RateLimit Api ApiProps EndToEnd.

Definition sim_metadata (ctx : Context) (t : bytes) (w : SimWorld) : res (list (Z * list (Z * Z))) * SimWorld :=
  (Ok [(0, [(0, 1)])], w).

Definition sim_route (method path : bytes) : Endpoint :=
  if bool_decide (path = lit "/v1/events") && bool_decide (method = lit "POST") then EEvents
  else if bool_decide (path = lit "/ready") then EReady else ENone.

Definition sim_api_config : Config := mkConfig {[ lit "k1" := lit "acme" ]} 2 (5 * Second).

Definition sim_ep : EventPublisher := broker_publisher (Wd := SimW) sim_metadata sim_publisher.

Definition sim_app : App := mkApp sim_ep (mkAPIKeyConfig {[ lit "k1" := lit "acme" ]}) (5 * Second).
Definition sim_api : Api := mkApi (mkPub (sim_start [] : @W SimW) (Some newMetrics)) (NewRateLimiter 2).

Lemma sim_NewApp : NewApp sim_api_config (Some sim_ep) pub0 = Ok (sim_app, sim_api).
Proof. reflexivity. Qed.

Definition sim_request (auth : string) (body : bytes) : Ctx :=
  mkCtx (lit "POST") (lit "/v1/events")
    (fun h => if String.eqb h "Authorization" then lit auth else []) body None None false 200 ∅ BEmpty.

Definition sim_serve (c : Ctx) : option (Ctx * Api) :=
  serve (fun _ => []) sim_route (fun _ _ => 404) sim_app [] IRequest c sim_api.

Definition sim_good : Ctx := sim_request "Bearer k1" sample_text.
Definition sim_bad : Ctx := sim_request "k2" sample_text.

Definition status_of (r : option (Ctx * Api)) : Z := match r with Some (c, _) => c_status c | None => 0 end.

#[local] Instance sim_ep_laws : EventPublisherLaws sim_ep (in_broker sim_publisher).
Proof. apply broker_publisher_laws; [intros; apply Z.le_refl | done]. Qed.

Lemma sim_good_202 : exists c' s', sim_serve sim_good = Some (c', s') /\ c_status c' = 202.
Proof.
  assert (H : status_of (sim_serve sim_good) = 202) by (vm_compute; reflexivity). revert H. unfold status_of.
  destruct (sim_serve sim_good) as [[c' s']|]; [|done]. eauto.
Qed.

Lemma sim_bad_401 : exists c' s', sim_serve sim_bad = Some (c', s') /\ c_status c' = 401.
Proof.
  assert (H : status_of (sim_serve sim_bad) = 401) by (vm_compute; reflexivity). revert H. unfold status_of.
  destruct (sim_serve sim_bad) as [[c' s']|]; [|done]. eauto.
Qed.

Lemma accepted_means_published_witness :
  exists c' s' (batch : bool) tenant inputs events,
    sim_serve sim_good = Some (c', s') /\
    key_tenant (app_keys sim_app) sim_good = Some tenant /\
    decode_body batch sample_text = Ok inputs /\
    accept_all inputs tenant (time_of (now (p_world (a_pub sim_api)))) = Ok events /\
    Forall (in_broker sim_publisher (p_world (a_pub s'))) events.
Proof.
  destruct sim_good_202 as (c' & s' & Hs & H202). exists c', s'.
  destruct (accepted_means_published (published := in_broker sim_publisher) (fun _ => []) sim_route (fun _ _ => 404) sim_app eq_refl
              [] IRequest sim_good sim_api c' s')
    as (batch & tenant & inputs & events & _ & Hk & _ & Hd & Ha & Hp & _); [done|done|exact Hs|exact H202|].
  exists batch, tenant, inputs, events. split; [exact Hs|]. split; [exact Hk|]. split; [exact Hd|]. split; [exact Ha|exact Hp].
Defined.

Lemma refused_before_broker_witness :
  exists c' s', sim_serve sim_bad = Some (c', s') /\ p_world (a_pub s') = p_world (a_pub sim_api) /\
    (refusal sim_route sim_app sim_bad sim_api (c_status c') \/
     sim_route (lit "POST") (lit "/v1/events") ∈ [EGroup; ENone] /\ c_status c' = 404).
Proof.
  destruct sim_bad_401 as (c' & s' & Hs & H401). exists c', s'. split; [exact Hs|].
  apply (refused_before_broker (published := in_broker sim_publisher) (fun _ => []) sim_route (fun _ _ => 404) sim_app eq_refl
           [] IRequest sim_bad sim_api c' s' Hs).
  rewrite H401. set_solver.
Defined.

Lemma every_request_counted_once_witness :
  exists c' s', sim_serve sim_bad = Some (c', s') /\
    http_series (p_metrics (a_pub s')) =
      Some (Inc [Telemetry.route (route_label (lit "/v1/events"));
                 if decide (Itoa_label (c_status c') ∈ status_names) then Itoa_label (c_status c') else "other"%string] ∅).
Proof.
  destruct (every_request_counted_once (published := in_broker sim_publisher) (fun _ => []) sim_route (fun _ _ => 404)
              sim_app eq_refl [] IRequest sim_bad sim_api eq_refl) as (c' & s' & Hs & Hm & _).
  exists c', s'. split; [exact Hs|exact Hm].
Defined.

Lemma sim_decode : decode_body false sample_text = Ok [sample_input].
Proof. vm_compute. reflexivity. Qed.

Lemma valid_request_reaches_publisher_witness :
  exists c' s', sim_serve sim_good = Some (c', s') /\
    (c_status c' = 503 \/
     c_status c' = 202 /\
     Forall (fun i => in_broker sim_publisher (p_world (a_pub s'))
                        (mkEnvelope i (lit "acme") (UTC (time_of (now (p_world (a_pub sim_api))))))) [sample_input]).
Proof.
  apply (valid_request_reaches_publisher (published := in_broker sim_publisher) (fun _ => []) sim_route (fun _ _ => 404)
           sim_app eq_refl [] sim_good sim_api sim_api_config pub0 sim_api false (lit "acme") [sample_input] sim_NewApp).
  - reflexivity.
  - reflexivity.
  - vm_compute. reflexivity.
  - exact sim_decode.
  - vm_compute. reflexivity.
Defined.

(** ** From the request to the row *)

(** The broker numbers what it accepted. *)
Definition number (i : nat) (r : Rec) : Rec :=
  mkRec (r_Topic r) 0 (Z.of_nat i) (r_Key r) (r_Headers r) (r_Value r).

Definition api_topic : list Rec :=
  match sim_serve sim_good with Some (_, s) => imap number (broker_log (p_world (a_pub s))) | None => [] end.

Definition api_consumer : option (goerr * Sys) := Run (sim_reader api_topic) 3 Background (sim_sys [FailsAfter]).

Lemma api_topic_wf : topic_wf api_topic.
Proof.
  unfold topic_wf, api_topic. intros i r. destruct (sim_serve sim_good) as [[c s]|]; [|done].
  rewrite list_lookup_imap. destruct (_ !! i); [|done]. by intros [= <-].
Qed.

Lemma api_run_commits :
  exists err s', api_consumer = Some (err, s') /\ sim_offset (s_world s') 0 = Z.of_nat (length api_topic).
Proof.
  assert (H : match api_consumer with
              | Some (_, s') => sim_offset (s_world s') 0 =? Z.of_nat (length api_topic)
              | None => false end = true) by (vm_compute; reflexivity).
  destruct api_consumer as [[err s']|]; [|done]. exists err, s'. split; [done|]. by apply Z.eqb_eq.
Qed.

Lemma accepted_events_are_stored_witness :
  exists cs' (batch : bool) tenant inputs,
    key_tenant (app_keys sim_app) sim_good = Some tenant /\ decode_body batch sample_text = Ok inputs /\ inputs <> [] /\
    Forall (fun i => is_Some (sim_table (s_world cs') !! (tenant, uuid_String (EventID i)))) inputs.
Proof.
  destruct sim_good_202 as (c' & s' & Hs & H202). destruct api_run_commits as (err & cs' & Hr & Hoff). exists cs'.
  pose proof (SimClusterLaws api_topic api_topic_wf) as CL.
  edestruct (accepted_events_are_stored (WA := SimW) (WC := SimW) sim_metadata (fun _ _ w => Z.le_refl (sim_clock w)) (fun _ _ w r H => H)
    (fun _ => []) sim_route (fun _ _ => 404) (fun _ _ => ltac:(discriminate)) (sim_log api_topic) (eq (sim_reader api_topic))
    ltac:(intros rd <-; split; [exact CL|exact sim_config_valid])
    sim_app sim_publisher [] sim_good sim_api c' s' (s_world (sim_sys [FailsAfter])) (s_world cs') eq_refl)
    as (batch & tenant & inputs & Hk & Hd & Hne & _ & Hrows); [exact Hs|exact H202| | | | |].
  - intros r Hin _. apply list_elem_of_lookup in Hin as [i Hi]. exists 0, (Z.of_nat i), (number i r). split; [|done].
    unfold sim_log. cbn [Z.eqb andb]. rewrite (proj2 (Z.leb_le 0 _) (Nat2Z.is_nonneg i)), Nat2Z.id.
    unfold api_topic. rewrite Hs, list_lookup_imap, Hi. done.
  - intros p i r Hi Hl. unfold sim_log in Hl. cbn in Hi. destruct ((p =? 0) && (0 <=? i)) eqn:Ei; [|done].
    bool_to_prop. lia.
  - eapply life_run; [reflexivity|discriminate|eapply Run_Run_for; exact Hr|apply life_refl].
  - intros q n r Hl. unfold sim_log in Hl. destruct ((q =? 0) && (0 <=? n)) eqn:Ei; [|done]. bool_to_prop. subst q.
    cbn [offset SimCluster]. rewrite Hoff. apply lookup_lt_Some in Hl. lia.
  - exists batch, tenant, inputs. split; [exact Hk|]. split; [exact Hd|]. split; [exact Hne|exact Hrows].
Defined.
