(* ===== verification/Service.v ===== *)
(** * Processes: [internal/service]

    Diagnostics that log a bounded amount of fixed vocabulary, the health of
    the processing operations, the bounded shutdown and the supervision of
    the consumer's worker. *)
From S2P Require Import Prelude GoBytes Runtime.

(** ** diagnostics.go *)

Record diagnosticState := mkDiag { ds_failed : bool; ds_last : Z; ds_suppressed : Z }.
Definition zero_diag : diagnosticState := mkDiag false 0 0.

Record Diagnostics := mkDiagnostics { d_cooldown : Z; d_states : gmap string diagnosticState }.

Definition NewDiagnostics (cooldown : Z) : Diagnostics :=
  mkDiagnostics (if cooldown <=? 0 then 10 * Second else cooldown) ∅.

(** The attributes of a line; an attribute that is left out is [None]. *)
Record Attrs := mkAttrs {
  at_operation : string; at_partition : Z; at_offset : Z; at_suppressed : Z; at_topic : option bytes
}.

Inductive LogLine :=
  | LInfo (a : Attrs)
  | LWarn (a : Attrs) (error_class : string) (sqlstate : option string).

Definition diagnostic_kinds : list string := ["startup"; "storage"; "quarantine"; "progress"]%string.

Definition in_range (lo hi c : Z) : bool := (lo <=? c) && (c <=? hi).

(** [^[a-zA-Z0-9._-]{1,249}$]. *)
Definition topic_char (c : Z) : bool :=
  in_range 97 122 c || in_range 65 90 c || in_range 48 57 c || (c =? 46) || (c =? 95) || (c =? 45).
Definition diagnosticTopic (s : bytes) : bool :=
  forallb topic_char s && (1 <=? blen s) && (blen s <=? 249).

(** [^[A-Z0-9]{5}$]. *)
Definition diagnosticSQLState (s : string) : bool :=
  let s := lit s in forallb (fun c => in_range 65 90 c || in_range 48 57 c) s && (blen s =? 5).

(** [errors.As] for a [*pgconn.PgError], depth first: its code. *)
Fixpoint As_pg (e : error) : option string :=
  match e with
  | EPg code => Some code
  | EObservation c => As_pg c
  | EWrap _ c => As_pg c
  | EJoin es => (fix go l := match l with
                             | [] => None
                             | x :: r => match As_pg x with Some c => Some c | None => go r end
                             end) es
  | _ => None
  end.

(** [errors.As] for a [net.Error]. *)
Fixpoint As_net (e : error) : bool :=
  match e with
  | ENet _ | EDns => true
  | EObservation c => As_net c
  | EWrap _ c => As_net c
  | EJoin es => existsb As_net es
  | _ => false
  end.

Definition error_class (e : error) : string * option string :=
  if errors_Is e context_DeadlineExceeded then ("deadline"%string, None)
  else if errors_Is e context_Canceled then ("canceled"%string, None)
  else match As_pg e with
       | Some code => ("database"%string, if diagnosticSQLState code then Some code else None)
       | None => if As_net e then ("network"%string, None) else ("operation"%string, None)
       end.

(** The lines a report logs, and the state after it. *)
Definition Report (d : Diagnostics) (now : Z) (kind : string) (topic : bytes) (partition offset : Z) (err : goerr)
    : list LogLine * Diagnostics :=
  if negb (bool_decide (kind ∈ diagnostic_kinds)) then ([], d)
  else
    let state := default zero_diag (d_states d !! kind) in
    let set s := mkDiagnostics (d_cooldown d) (<[kind := s]> (d_states d)) in
    match err with
    | None =>
        if negb (ds_failed state) then ([], d)
        else
          let attrs := mkAttrs kind partition offset (ds_suppressed state)
                         (if diagnosticTopic topic then Some topic else None) in
          ([LInfo attrs], set zero_diag)
    | Some e =>
        if ds_failed state && (now - ds_last state <? d_cooldown d)
        then ([], set (mkDiag (ds_failed state) (ds_last state) (ds_suppressed state + 1)))
        else
          let attrs := mkAttrs kind partition offset (ds_suppressed state)
                         (if diagnosticTopic topic then Some topic else None) in
          let '(class, sqlstate) := error_class e in
          ([LWarn attrs class sqlstate], set (mkDiag true now 0))
    end.

(** ** logging.go *)

(** The levels of [log/slog]. *)
Definition LevelDebug : Z := -4.
Definition LevelInfo : Z := 0.
Definition LevelWarn : Z := 4.
Definition LevelError : Z := 8.

(** [ConfigureLogging]: the level of the handler it installs, from the
    environment. *)
Definition ConfigureLogging (get : string -> bytes) : Z :=
  let level := get "LOG_LEVEL"%string in
  if bool_decide (level = lit "debug") then LevelDebug
  else if bool_decide (level = lit "warn") then LevelWarn
  else if bool_decide (level = lit "error") then LevelError
  else LevelInfo.

Definition line_level (l : LogLine) : Z := match l with LInfo _ => LevelInfo | LWarn _ _ _ => LevelWarn end.

(** The lines a handler of that level writes. *)
Definition written (level : Z) (lines : list LogLine) : list LogLine := filter (fun l => level <= line_level l) lines.

(** ** health.go *)

Record ProcessingHealth := mkHealth { h_failed : gset string }.

Definition NewProcessingHealth : ProcessingHealth := mkHealth ∅.

Definition Health_Observe (h : ProcessingHealth) (operation : string) (err : goerr) : ProcessingHealth :=
  match err with
  | Some _ => mkHealth ({[operation]} ∪ h_failed h)
  | None => mkHealth (h_failed h ∖ {[operation]})
  end.

Definition Health_Ready (h : ProcessingHealth) : bool := bool_decide (h_failed h = ∅).

(** ** lifecycle.go *)

Section Lifecycle.
Context {Wd : World}.

(** [errors.Join] of two errors. *)
Definition join2 (a b : goerr) : goerr := errors_Join [a; b].

(** [close] runs in a goroutine of its own.  What the select of [Drain] sees:
    the goroutine has closed [done], or the context is done first, and then
    the goroutine may have got through [close] or not. *)
Inductive close_outcome := CloseDone | CloseLate (ran : bool).

Definition Drain (ctx : Context) (stop flush : Context -> W -> goerr * W) (close : W -> W)
    (await : Context -> W -> close_outcome * W) : W -> goerr * W := fun w =>
  let '(e1, w) := stop ctx w in
  let result := match e1 with Some _ => join2 None e1 | None => None end in
  let '(e2, w) := flush ctx w in
  let result := match e2 with Some _ => join2 result e2 | None => result end in
  match await ctx w with
  | (CloseDone, w) => (result, close w)
  | (CloseLate ran, w) => (join2 result (ctx_Err ctx (now w)), if ran then close w else w)
  end.

(** What ended the wait between two attempts. *)
Inductive wakeup := WStop | WWork | WTimer.

(** The loop of [Supervise]; [starts] records when attempts began. *)
Variable select_wakeup : Context -> Context -> Z -> W -> wakeup * W.

Fixpoint Supervise (fuel : nat) (stopCtx workCtx : Context) (attempt : Context -> W -> goerr * W) (backoff : Z)
    : M (W * list Z) goerr := fun '(w, starts) =>
  match fuel with
  | O => None
  | S fuel =>
      match ctx_Err workCtx (now w), ctx_Err stopCtx (now w) with
      | Some e, _ => Some (Some e, (w, starts))
      | None, Some _ => Some (None, (w, starts))
      | None, None =>
          let starts := starts ++ [now w] in
          let '(err, w) := attempt workCtx w in
          match ctx_Err workCtx (now w), ctx_Err stopCtx (now w) with
          | Some e, _ => Some (join2 err (Some e), (w, starts))
          | None, Some _ => Some (err, (w, starts))
          | None, None =>
              match select_wakeup stopCtx workCtx (now w + backoff) w with
              | (WStop, w) => Some (err, (w, starts))
              | (WWork, w) => Some (ctx_Err workCtx (now w), (w, starts))
              | (WTimer, w) => Supervise fuel stopCtx workCtx attempt backoff (w, starts)
              end
          end
      end
  end.
End Lifecycle.

(** [Check]: [splitHostPort], [joinHostPort] and [get] are [net]'s and
    [net/http]'s; [get] is the whole request, which yields a status. *)
Definition Check (splitHostPort : bytes -> res (bytes * bytes)) (joinHostPort : bytes -> bytes -> bytes)
    (get : bytes -> res Z) (address : bytes) : goerr :=
  match splitHostPort address with
  | Err err => Some err
  | Ok (host, port) =>
      let host := if bool_decide (host = []) || bool_decide (host = lit "0.0.0.0") then lit "127.0.0.1" else host in
      match get (lit "http://" ++ joinHostPort host port ++ lit "/ready") with
      | Err err => Some err
      | Ok status => if negb (status =? 200) then Some (ENew "service not ready") else None
      end
  end.
