(* ===== verification/ServiceProps.v ===== *)
(** * Properties of the process services *)
From S2P Require Import Prelude GoBytes Runtime Service.

(** ** Diagnostics *)

Record report := mkReport {
  rp_now : Z; rp_kind : string; rp_topic : bytes; rp_partition : Z; rp_offset : Z; rp_err : goerr
}.

(** A sequence of reports, with the time of each line. *)
Fixpoint report_all (d : Diagnostics) (rs : list report) : list (Z * LogLine) * Diagnostics :=
  match rs with
  | [] => ([], d)
  | r :: rest =>
      let '(ls, d1) := Report d (rp_now r) (rp_kind r) (rp_topic r) (rp_partition r) (rp_offset r) (rp_err r) in
      let '(out, d2) := report_all d1 rest in
      (map (fun l => (rp_now r, l)) ls ++ out, d2)
  end.

Definition attrs_of (l : LogLine) : Attrs := match l with LInfo a | LWarn a _ _ => a end.

(** The vocabulary of a line: nothing of it comes from the error's text. *)
Definition line_ok (l : LogLine) : Prop :=
  at_operation (attrs_of l) ∈ diagnostic_kinds /\
  (forall t, at_topic (attrs_of l) = Some t -> diagnosticTopic t = true) /\
  match l with
  | LInfo _ => True
  | LWarn _ class sqlstate =>
      class ∈ ["deadline"; "canceled"; "database"; "network"; "operation"]%string /\
      (forall c, sqlstate = Some c -> diagnosticSQLState c = true)
  end.

Definition of_kind (k : string) (l : LogLine) : bool := bool_decide (at_operation (attrs_of l) = k).

(** The failures a line stands for: itself, and those it says were dropped. *)
Definition accounts (k : string) (l : LogLine) : Z :=
  if of_kind k l then (match l with LWarn _ _ _ => 1 | LInfo _ => 0 end) + at_suppressed (attrs_of l) else 0.

Definition failure_of (k : string) (r : report) : Z :=
  if bool_decide (rp_kind r = k) then match rp_err r with Some _ => 1 | None => 0 end else 0.

Definition sumZ {A} (f : A -> Z) (l : list A) : Z := foldr (fun a n => f a + n) 0 l.

Lemma sumZ_app {A} (f : A -> Z) l l' : sumZ f (l ++ l') = sumZ f l + sumZ f l'.
Proof. induction l as [|a l IH]; cbn; [done|]. unfold sumZ in *. lia. Qed.

(** Failures of one kind, without a recovery between them, are logged at
    least a cooldown apart. *)
Fixpoint spaced (k : string) (cooldown : Z) (last : option Z) (out : list (Z * LogLine)) : Prop :=
  match out with
  | [] => True
  | (t, l) :: rest =>
      if of_kind k l then
        match l with
        | LInfo _ => spaced k cooldown None rest
        | LWarn _ _ _ =>
            (match last with Some t0 => cooldown <= t - t0 | None => True end) /\ spaced k cooldown (Some t) rest
        end
      else spaced k cooldown last rest
  end.

Definition state_of (d : Diagnostics) (k : string) : diagnosticState := default zero_diag (d_states d !! k).
Definition last_of (d : Diagnostics) (k : string) : option Z :=
  if ds_failed (state_of d k) then Some (ds_last (state_of d k)) else None.

Lemma error_class_ok e :
  fst (error_class e) ∈ ["deadline"; "canceled"; "database"; "network"; "operation"]%string /\
  (forall c, snd (error_class e) = Some c -> diagnosticSQLState c = true).
Proof.
  unfold error_class. destruct (errors_Is e _); [split; [set_solver|done]|].
  destruct (errors_Is e _); [split; [set_solver|done]|].
  destruct (As_pg e) as [code|]; [|destruct (As_net e); (split; [set_solver|done])].
  split; [set_solver|]. cbn. destruct (diagnosticSQLState code) eqn:Ed; [|done]. by intros c [= <-].
Qed.

Lemma topic_attr topic t : (if diagnosticTopic topic then Some topic else None) = Some t -> diagnosticTopic t = true.
Proof. destruct (diagnosticTopic topic) eqn:Ed; [|done]. by intros [= <-]. Qed.

Lemma state_of_set d k k' s :
  state_of (mkDiagnostics (d_cooldown d) (<[k := s]> (d_states d))) k' = if bool_decide (k = k') then s else state_of d k'.
Proof.
  unfold state_of. cbn [d_states]. case_bool_decide as Hk; [subst; by rewrite lookup_insert_eq|].
  by rewrite lookup_insert_ne.
Qed.

(** One report: at most one line, of the fixed vocabulary, that accounts for
    the failure or leaves it to the next line. *)
Lemma Report_spec d now kind topic partition offset err k :
  let '(ls, d') := Report d now kind topic partition offset err in
  d_cooldown d' = d_cooldown d /\ Forall line_ok ls /\
  (k ∈ diagnostic_kinds ->
   (if bool_decide (kind = k) then match err with Some _ => 1 | None => 0 end else 0) + ds_suppressed (state_of d k) =
   sumZ (accounts k) ls + ds_suppressed (state_of d' k)) /\
  (forall out, spaced k (d_cooldown d) (last_of d' k) out ->
     spaced k (d_cooldown d) (last_of d k) (map (fun l => (now, l)) ls ++ out)).
Proof.
  unfold Report. destruct (negb _) eqn:Ek.
  { bool_to_prop. split; [done|]. split; [constructor|]. split; [|done]. intros Hk.
    rewrite bool_decide_false by (intros ->; done). done. }
  bool_to_prop. cbv zeta. fold (state_of d kind). destruct err as [e|].
  - destruct (ds_failed _ && _) eqn:Es.
    + bool_to_prop. split; [done|]. split; [constructor|]. unfold last_of. rewrite state_of_set.
      case_bool_decide; [subst k|]; (split; [cbn; lia|]); intros out; cbn [map app ds_failed ds_last]; [|done].
      done.
    + pose proof (error_class_ok e) as [Hc Hq]. destruct (error_class e) as [class sqlstate]. cbn [fst snd] in *.
      split; [done|]. split; [constructor; [|constructor]; split; [done|]; split; [intros t; apply topic_attr|done]|].
      unfold last_of, accounts, of_kind. rewrite state_of_set. cbn [attrs_of at_operation map sumZ foldr at_suppressed app].
      case_bool_decide as Hk; [subst k|].
      * split; [cbn; lia|]. intros out. cbn [ds_failed ds_last spaced]. unfold of_kind. cbn [attrs_of at_operation].
        rewrite bool_decide_true by done. intros Hs. split; [|done].
        destruct (ds_failed (state_of d kind)) eqn:Ef; [|done]. cbn [andb] in Es. lia.
      * split; [lia|]. intros out Hs. cbn [spaced]. unfold of_kind. cbn [attrs_of at_operation].
        by rewrite bool_decide_false.
  - destruct (negb _) eqn:Ef; bool_to_prop.
    + split; [done|]. split; [constructor|]. split; [case_bool_decide; cbn; lia|done].
    + split; [done|]. split; [constructor; [|constructor]; split; [done|]; split; [intros t; apply topic_attr|done]|].
      unfold last_of, accounts, of_kind. rewrite state_of_set. cbn [attrs_of at_operation map sumZ foldr at_suppressed app].
      case_bool_decide as Hk; [subst k|].
      * split; [cbn; lia|]. intros out. cbn [spaced]. unfold of_kind. cbn [attrs_of at_operation].
        by rewrite bool_decide_true.
      * split; [lia|]. intros out Hs. cbn [spaced]. unfold of_kind. cbn [attrs_of at_operation].
        by rewrite bool_decide_false.
Qed.

(** Diagnostics are bounded and say nothing of an error but its class.
    Over any sequence of reports, every line uses the fixed vocabulary (and a
    topic or SQL state of the expected shape); the lines of a kind account,
    with their counts of suppressed ones, for every failure reported and not
    still pending; and failures of a kind are logged a cooldown apart unless
    it recovered in between. *)
Theorem diagnostics_bounded cooldown rs k :
  let '(out, d) := report_all (NewDiagnostics cooldown) rs in
  Forall (fun l => line_ok (snd l)) out /\
  (k ∈ diagnostic_kinds ->
   sumZ (failure_of k) rs = sumZ (fun l => accounts k (snd l)) out + ds_suppressed (state_of d k)) /\
  spaced k (d_cooldown (NewDiagnostics cooldown)) None out.
Proof.
  set (d0 := NewDiagnostics cooldown).
  assert (H : forall d, let '(out, d') := report_all d rs in
    Forall (fun l => line_ok (snd l)) out /\
    (k ∈ diagnostic_kinds -> sumZ (failure_of k) rs + ds_suppressed (state_of d k) =
       sumZ (fun l => accounts k (snd l)) out + ds_suppressed (state_of d' k)) /\
    spaced k (d_cooldown d) (last_of d k) out).
  2: { specialize (H d0). destruct (report_all d0 rs) as [out d]. destruct H as (H1 & H2 & H3).
       split; [done|]. split; [|exact H3]. intros Hk. rewrite <- (H2 Hk).
       change (ds_suppressed (state_of d0 k)) with 0. lia. }
  induction rs as [|r rs IH]; intros d; cbn [report_all]; [by split; [constructor|]|].
  pose proof (Report_spec d (rp_now r) (rp_kind r) (rp_topic r) (rp_partition r) (rp_offset r) (rp_err r) k) as Hr.
  destruct (Report d _ _ _ _ _ _) as [ls d1]. destruct Hr as (Hc & Hl & Ha & Hs). specialize (IH d1).
  destruct (report_all d1 rs) as [out d2]. destruct IH as (H1 & H2 & H3). split; [|split].
  - apply Forall_app_2; [|done]. apply List.Forall_map. by eapply Forall_impl; [exact Hl|].
  - intros Hk. rewrite sumZ_app. specialize (Ha Hk). specialize (H2 Hk).
    assert (Hm : sumZ (fun l => accounts k (snd l)) (map (fun l => (rp_now r, l)) ls) = sumZ (accounts k) ls).
    { clear. induction ls as [|l ls IH]; cbn; [done|]. unfold sumZ in IH. by rewrite IH. }
    rewrite Hm. cbn [sumZ foldr]. fold (sumZ (failure_of k) rs). unfold failure_of at 1. lia.
  - apply Hs. rewrite <- Hc. exact H3.
Qed.

(** ** Health *)

Definition observe_all (ops : list (string * goerr)) : ProcessingHealth :=
  foldl (fun h o => Health_Observe h (fst o) (snd o)) NewProcessingHealth ops.

(** The outcome an operation had last. *)
Fixpoint last_outcome (k : string) (ops : list (string * goerr)) : option goerr :=
  match ops with
  | [] => None
  | (o, e) :: rest =>
      match last_outcome k rest with
      | Some r => Some r
      | None => if bool_decide (o = k) then Some e else None
      end
  end.

Lemma observe_all_failed ops h k :
  k ∈ h_failed (foldl (fun h o => Health_Observe h (fst o) (snd o)) h ops) <->
  match last_outcome k ops with
  | Some e => e <> None
  | None => k ∈ h_failed h
  end.
Proof.
  revert h. induction ops as [|[o e] ops IH]; intros h; cbn [foldl last_outcome fst snd]; [done|].
  rewrite IH. destruct (last_outcome k ops); [done|].
  destruct e; cbn; case_bool_decide; set_solver.
Qed.

(** The consumer is ready exactly when no operation's last outcome was a
    failure: only the success of that operation clears it, not a probe or
    the success of another. *)
Lemma ready_iff_all_recovered ops :
  Health_Ready (observe_all ops) = true <-> forall k e, last_outcome k ops <> Some (Some e).
Proof.
  unfold Health_Ready. rewrite bool_decide_eq_true. split.
  - intros H k e Hl. pose proof (observe_all_failed ops NewProcessingHealth k) as Hf. rewrite Hl in Hf.
    unfold observe_all in H. rewrite H in Hf. set_solver.
  - intros H. apply set_eq. intros k. split; [|set_solver]. intros Hk%observe_all_failed. specialize (H k).
    destruct (last_outcome k ops) as [[e|]|]; [by destruct (H e)|done|done].
Qed.

(** ** Shutdown *)

Section Lifecycle.
Context {Wd : World}.

Lemma join2_None a b : join2 a b = None <-> a = None /\ b = None.
Proof. unfold join2, errors_Join. destruct a, b; cbn; naive_solver. Qed.

(** [Drain] stops admission, then flushes, then closes, each whatever
    the others returned, and returns nil exactly when both succeeded and the
    close ended within the context; only when it did not may something be
    left unclosed. *)
Theorem Drain_order ctx stop flush close await w :
  let '(e1, w1) := stop ctx w in
  let '(e2, w2) := flush ctx w1 in
  let '(closed, w3) := await ctx w2 in
  let '(result, w') := Drain ctx stop flush close await w in
  (w' = close w3 \/ w' = w3 /\ closed = CloseLate false) /\
  (result = None <-> e1 = None /\ e2 = None /\ (closed = CloseDone \/ ctx_Err ctx (now w3) = None)).
Proof.
  unfold Drain. destruct (stop ctx w) as [e1 w1]. destruct (flush ctx w1) as [e2 w2].
  destruct (await ctx w2) as [closed w3]. cbv zeta.
  destruct closed as [|ran]; (split; [destruct_and?; try destruct ran; auto|]); [|rewrite join2_None]; destruct e1, e2; rewrite ?join2_None; naive_solver.
Qed.

(** ** Supervision *)

Variable select_wakeup : Context -> Context -> Z -> W -> wakeup * W.
Variable attempt : Context -> W -> goerr * W.

(** The select statement: it takes a branch that is ready. *)
Class WakeupLaws := {
  wakeup_forward s k fire w : now w <= now (snd (select_wakeup s k fire w));
  wakeup_timer s k fire w w' : select_wakeup s k fire w = (WTimer, w') -> fire <= now w';
  wakeup_work s k fire w w' : select_wakeup s k fire w = (WWork, w') -> ctx_Err k (now w') <> None
}.
Context {WL : WakeupLaws}.
(** The worker's context, under which every attempt runs. *)
Variable work : Context.
Hypothesis attempt_forward : forall w, now w <= now (snd (attempt work w)).

(** Attempts begin before [T], at least a backoff apart. *)
Fixpoint paced (backoff : Z) (from T : Z) (starts : list Z) : Prop :=
  match starts with
  | [] => True
  | t :: rest => from <= t < T /\ paced backoff (t + backoff) T rest
  end.

Lemma Supervise_run stop e T backoff :
  done_at stop = Some (T, e) -> 0 < backoff -> forall fuel w starts,
  (Z.to_nat ((T - now w) / backoff + 1) < fuel)%nat ->
  exists err w' new,
    Supervise select_wakeup fuel stop work attempt backoff (w, starts) = Some (err, (w', starts ++ new)) /\
    paced backoff (now w) T new.
Proof.
  intros HT Hb. induction fuel as [|fuel IH]; intros w starts Hf; [lia|]. cbn [Supervise].
  assert (Hnil : forall (x : goerr) (w' : W), exists err w'' new, Some (x, (w', starts)) = Some (err, (w'', starts ++ new)) /\
            paced backoff (now w) T new) by (intros x w'; exists x, w', []; by rewrite app_nil_r).
  destruct (ctx_Err work (now w)); [apply Hnil|]. destruct (ctx_Err stop (now w)) eqn:Es; [apply Hnil|].
  assert (Hlt : now w < T).
  { unfold ctx_Err in Es. rewrite HT in Es. destruct (T <=? now w) eqn:El; [done|]. lia. }
  pose proof (attempt_forward w) as Ha. destruct (attempt work w) as [err w1]. cbn [snd] in Ha.
  assert (Hone : forall (x : goerr) (w' : W), exists err w'' new,
            Some (x, (w', starts ++ [now w])) = Some (err, (w'', starts ++ new)) /\ paced backoff (now w) T new)
    by (intros x w'; exists x, w', [now w]; split; [done|]; cbn; lia).
  destruct (ctx_Err work (now w1)); [apply Hone|]. destruct (ctx_Err stop (now w1)); [apply Hone|].
  destruct (select_wakeup stop work (now w1 + backoff) w1) as [[] w2] eqn:Ew; [apply Hone|apply Hone|].
  apply wakeup_timer in Ew.
  destruct (IH w2 (starts ++ [now w])) as (err' & w' & new & -> & Hp).
  { assert (H1 : (T - now w2) / backoff <= (T - now w) / backoff - 1).
    { replace ((T - now w) / backoff - 1) with ((T - now w + (-1) * backoff) / backoff) by (rewrite Z.div_add; lia).
      apply Z.div_le_mono; lia. }
    assert (0 <= (T - now w) / backoff) by (apply Z.div_pos; lia).
    lia. }
  exists err', w', (now w :: new). rewrite <- app_assoc. split; [done|]. cbn [paced]. split; [lia|].
  clear -Hp Ew Ha. destruct new as [|t new]; [done|]. cbn [paced] in *. destruct Hp as [? ?]. split; [lia|done].
Qed.

(** Supervision ends.  When the stop context is done at some instant,
    [Supervise] returns after at most one attempt per backoff until then
    (and the one running), no attempt begins after the stop, and attempts
    begin at least a backoff apart. *)
Theorem Supervise_terminates stop e T backoff fuel w :
  done_at stop = Some (T, e) -> 0 < backoff -> (Z.to_nat ((T - now w) / backoff + 1) < fuel)%nat ->
  exists err w' starts,
    Supervise select_wakeup fuel stop work attempt backoff (w, []) = Some (err, (w', starts)) /\
    paced backoff (now w) T starts.
Proof. intros HT Hb Hf. by apply (Supervise_run stop e T backoff HT Hb fuel w []). Qed.
End Lifecycle.
