(* ===== verification/Programs.v ===== *)
(** * The two programs: [cmd/consumer], [cmd/api]

    What the programs do around their components: the consumer's readiness,
    the attempts its supervisor makes, its shutdown; and, for both, which
    resources are opened and closed on each way out. *)
From S2P Require Import Prelude GoBytes GoTime GoJson Event Runtime RuntimeInfo Persistence Telemetry Publisher PublisherProps Reader Config Service ServiceProps Api.

(** ** cmd/consumer: readiness *)

(** [readiness], as the status it writes; a ping is not made when an earlier
    test has failed. *)
Definition readiness {W} (health : ProcessingHealth) (storePing readerPing : W -> goerr * W) (w : W) : Z * W :=
  if negb (Health_Ready health) then (503, w)
  else
    let '(e, w) := storePing w in
    match e with
    | Some _ => (503, w)
    | None =>
        let '(e, w) := readerPing w in
        match e with Some _ => (503, w) | None => (200, w) end
    end.

(** [Reader.Ping]: its topic, then its publisher's, the dead letters;
    [metadata] is the broker's answer to the request of [topicReady]. *)
Definition Reader_Ping {W} (metadata : Context -> bytes -> W -> res (list (Z * list (Z * Z))) * W) (ctx : Context)
    (c : ReaderConfig) (w : W) : goerr * W :=
  let '(r, w) := metadata ctx (rc_Topic c) w in
  match topicReady r with
  | Some err => (Some err, w)
  | None => let '(r, w) := metadata ctx (DLQTopic c) w in (topicReady r, w)
  end.

(** [current] holds the reader while one runs. *)
Definition reader_ping {W} (current : option (W -> goerr * W)) : W -> goerr * W :=
  match current with Some ping => ping | None => fun w => (Some (ENew "reader unavailable"), w) end.

(** The broker has the topic, all of whose partitions are led. *)
Definition led (response : res (list (Z * list (Z * Z)))) : Prop :=
  exists parts, response = Ok [(0, parts)] /\ parts <> [] /\ Forall (fun p => fst p = 0 /\ 0 <= snd p) parts.

(** C19: the consumer's readiness means what it says.  The endpoint answers
    200 or 503, and 200 exactly when no operation's last outcome was a
    failure, a reader runs, the store answered its ping, and the broker has
    both the event topic and the dead-letter topic with every partition led;
    a probe of the dependencies alone never clears a failed operation. *)
Theorem readiness_exact {W} ops (storePing : W -> goerr * W) metadata ctx current w :
  let status := fst (readiness (observe_all ops) storePing (reader_ping (option_map (Reader_Ping metadata ctx) current)) w) in
  (status = 200 \/ status = 503) /\
  (status = 200 <->
   (forall k e, last_outcome k ops <> Some (Some e)) /\
   exists c w1, current = Some c /\ storePing w = (None, w1) /\
     led (fst (metadata ctx (rc_Topic c) w1)) /\ led (fst (metadata ctx (DLQTopic c) (snd (metadata ctx (rc_Topic c) w1))))).
Proof.
  cbv zeta. pose proof (ready_iff_all_recovered ops) as Hr. unfold readiness. destruct (Health_Ready _); cbn [negb fst].
  2: { split; [by right|]. split; [done|]. intros [Hn _]. by apply Hr in Hn. }
  destruct (storePing w) as [[e|] w1] eqn:Es; cbn [fst].
  { split; [by right|]. split; [done|]. by intros (_ & c & w2 & _ & [=] & _). }
  destruct current as [c|]; cbn [reader_ping option_map fst].
  2: { split; [by right|]. split; [done|]. by intros (_ & c & w2 & [=] & _). }
  unfold Reader_Ping. destruct (metadata ctx (rc_Topic c) w1) as [r1 w2] eqn:E1. pose proof (topicReady_exact r1) as H1.
  destruct (metadata ctx (DLQTopic c) w2) as [r2 w3] eqn:E2. pose proof (topicReady_exact r2) as H2.
  assert (Hiff : (exists c0 w4, Some c = Some c0 /\ (None : goerr, w1) = (None, w4) /\ led (fst (metadata ctx (rc_Topic c0) w4)) /\
     led (fst (metadata ctx (DLQTopic c0) (snd (metadata ctx (rc_Topic c0) w4))))) <-> topicReady r1 = None /\ topicReady r2 = None).
  { rewrite H1, H2. split; [intros (? & ? & [= <-] & [= <-] & Ha & Hb)|intros [Ha Hb]; exists c, w1]; rewrite E1 in *; cbn [fst snd] in *; rewrite E2 in *; done. }
  rewrite Hiff. destruct (topicReady r1); cbn [fst]; [split; [by right|]; split; [done|]; by intros (_ & [=] & _)|].
  destruct (topicReady r2); cbn [fst]; [split; [by right|]; split; [done|]; by intros (_ & _ & [=])|].
  split; [by left|]. split; [|done]. intros _. split; [by apply Hr|done].
Qed.

(** ** cmd/consumer: one attempt of the worker *)

Section Attempt.
Context {Wd : World}.

(** A reader as the worker uses it: [Run] yields the operations it notified,
    each at an instant. *)
Record WorkerReader := mkWorkerReader {
  wr_Run : Context -> W -> goerr * list (Z * Operation) * W;
  wr_StopPolling : W -> W;
  wr_Close : W -> W
}.

Record Worker := mkWorker {
  w_world : W;
  w_health : ProcessingHealth;
  w_diag : Diagnostics;
  w_lines : list LogLine
}.

Definition worker_report (t : Z) (kind : string) (topic : bytes) (partition offset : Z) (err : goerr) (s : Worker) : Worker :=
  let '(ls, d) := Report (w_diag s) t kind topic partition offset err in
  mkWorker (w_world s) (w_health s) d (w_lines s ++ ls).

(** The [OnOperation] callback. *)
Definition on_operation (s : Worker) (top : Z * Operation) : Worker :=
  let '(t, op) := top in
  let s := mkWorker (w_world s) (Health_Observe (w_health s) (op_Kind op) (op_Err op)) (w_diag s) (w_lines s) in
  worker_report t (op_Kind op) (op_Topic op) (op_Partition op) (op_Offset op) (op_Err op) s.

Definition set_w_world (w : W) (s : Worker) : Worker := mkWorker w (w_health s) (w_diag s) (w_lines s).

(** The closure given to [Supervise]: [ctx] is the program's context, [c]
    the worker's. *)
Definition attempt (storePing : Context -> W -> goerr * W) (newReader : W -> res WorkerReader * W)
    (ctx c : Context) (s : Worker) : goerr * Worker :=
  let '(err, w) := storePing (WithTimeout c (now (w_world s)) Second) (w_world s) in
  let s := worker_report (now w) "startup" [] (-1) (-1) err (set_w_world w s) in
  match err with
  | Some err => (Some err, s)
  | None =>
      match ctx_Err ctx (now w) with
      | Some _ => (None, s)
      | None =>
          match newReader w with
          | (Err err, w) => (Some err, worker_report (now w) "startup" [] (-1) (-1) (Some err) (set_w_world w s))
          | (Ok rd, w) =>
              let w := match ctx_Err ctx (now w) with Some _ => wr_StopPolling rd w | None => w end in
              let '(err, ops, w) := wr_Run rd c w in
              let s := foldl on_operation (set_w_world w s) ops in
              (err, set_w_world (wr_Close rd (w_world s)) s)
          end
      end
  end.

(** [drainConsumer]: [await] is the select between the worker's end (with its
    error) and the end of the context. *)
Definition drainConsumer (ctx : Context) (stopPolling cancelWork : W -> W)
    (await : Context -> W -> option goerr * W) (w : W) : goerr * W :=
  match await ctx (stopPolling w) with
  | (Some err, w) => (err, w)
  | (None, w) => let w := cancelWork w in (ctx_Err ctx (now w), w)
  end.

(** ** cmd/consumer: [run]

    The calls [run] makes, on the world; the worker and the server run in
    goroutines of their own, as part of it. *)
Record ConsumerOps := mkConsumerOps {
  co_newPool : bytes -> W -> goerr * W;
  co_closePool : W -> W;
  co_listen : bytes -> W -> goerr * W;
  (** start the worker and the server; then the select between the server's
      end, with its error, and the program's context *)
  co_start : W -> W;
  co_serve_select : W -> option goerr * W;
  co_cancelWorker : W -> W;
  co_stopPolling : W -> W;
  co_worker_select : Context -> W -> option goerr * W;
  co_shutdown : Context -> W -> goerr * W;
  co_close_select : Context -> W -> close_outcome * W
}.

Definition consumer_run (o : ConsumerOps) (parseURL : bytes -> option (bytes * bytes)) (get : string -> bytes)
    (h : ProcessingHealth) (w : W) : goerr * ProcessingHealth * W :=
  match LoadConsumerEnv parseURL get with
  | Err err => (Some err, h, w)
  | Ok cfg =>
      match co_newPool o (ce_DatabaseURL cfg) w with
      | (Some err, w) => (Some err, h, w)
      | (None, w) =>
          match co_listen o (ce_ListenAddress cfg) w with
          | (Some err, w) => (Some err, h, co_closePool o w)
          | (None, w) =>
              let '(ended, w) := co_serve_select o (co_start o w) in
              let '(serveErr, w) := match ended with Some e => (e, co_cancelWorker o w) | None => (None, w) end in
              let h := Health_Observe h "shutdown" (Some context_Canceled) in
              let fin := WithTimeout Background (now w) (10 * Second) in
              let '(err, w) :=
                Drain fin
                  (fun c w => let '(drained, w) := drainConsumer c (co_stopPolling o) (co_cancelWorker o) (co_worker_select o) w in
                              let '(e, w) := co_shutdown o c w in (join2 drained e, w))
                  (fun _ w => (None, w)) (co_closePool o) (co_close_select o) w in
              (* the deferred cancelWorker *)
              (join2 serveErr err, h, co_cancelWorker o w)
          end
      end
  end.

(** ** cmd/api: [run] *)

Record ApiOps := mkApiOps {
  ao_newPublisher : PublisherConfig -> W -> goerr * W;
  ao_newApp : APIEnv -> W -> goerr * W;
  ao_clean : W -> W;
  ao_listen : bytes -> W -> goerr * W;
  ao_serve_select : W -> option goerr * W;
  ao_shutdown : Context -> W -> goerr * W;
  ao_closeListener : W -> W;
  ao_flush : Context -> W -> goerr * W;
  ao_closePublisher : W -> W;
  ao_close_select : Context -> W -> close_outcome * W
}.

Definition net_ErrClosed : error := ENew "use of closed network connection".
Definition ignore_closed (err : goerr) : goerr :=
  match err with Some e => if errors_Is e net_ErrClosed then None else Some e | None => None end.

Definition api_run (o : ApiOps) (get : string -> bytes) (w : W) : goerr * W :=
  match LoadAPIEnv get with
  | Err err => (Some err, w)
  | Ok cfg =>
      match ao_newPublisher o (mkPublisherConfig (ae_Brokers cfg) (ae_EventTopic cfg) 0 0 (ae_PublishTimeout cfg)) w with
      | (Some err, w) => (Some err, w)
      | (None, w) =>
          match ao_newApp o cfg w with
          | (Some err, w) => (Some err, ao_closePublisher o w)
          | (None, w) =>
              let '(err, w) :=
                match ao_listen o (ae_ListenAddress cfg) w with
                | (Some err, w) => (Some err, ao_closePublisher o w)
                | (None, w) =>
                    match ao_serve_select o w with
                    | (Some err, w) => (ignore_closed err, ao_closePublisher o w)
                    | (None, w) =>
                        let fin := WithTimeout Background (now w) (10 * Second) in
                        Drain fin
                          (fun c w => let '(err, w) := ao_shutdown o c w in
                                      (ignore_closed err, ao_closeListener o w))
                          (ao_flush o) (ao_closePublisher o) (ao_close_select o) w
                    end
                end in
              (* the deferred clean *)
              (err, ao_clean o w)
          end
      end
  end.

(** ** The [main] functions *)

Definition is_check (args : list bytes) : bool := match args with [_; a] => bool_decide (a = lit "check") | _ => false end.

(** The address the subcommand probes. *)
Definition check_address (get : string -> bytes) (name : string) (fallback : bytes) : bytes :=
  match get name with [] => fallback | addr => addr end.

Definition exit_status (err : goerr) : Z := match err with Some _ => 1 | None => 0 end.

(** The consumer's [main]: its exit status and the lines it logs; [check] is
    [service.Check] on an address. *)
Definition consumer_main (o : ConsumerOps) (parseURL : bytes -> option (bytes * bytes)) (check : bytes -> goerr)
    (args : list bytes) (get : string -> bytes) (w : W) : Z * list LogLine * W :=
  let level := ConfigureLogging get in
  if is_check args then (exit_status (check (check_address get "METRICS_ADDR" (lit ":8081"))), [], w)
  else
    let '(err, _, w) := consumer_run o parseURL get NewProcessingHealth w in
    match err with
    | Some err => (1, written level (fst (Report (NewDiagnostics (10 * Second)) (now w) "startup" [] (-1) (-1) (Some err))), w)
    | None => (0, [], w)
    end.

(** The API's: whether it logs that it stopped. *)
Definition api_main (o : ApiOps) (check : bytes -> goerr) (args : list bytes) (get : string -> bytes) (w : W) : Z * goerr * W :=
  if is_check args then (exit_status (check (check_address get "HTTP_ADDR" (lit ":8080"))), None, w)
  else let '(err, w) := api_run o get w in (exit_status err, err, w).
End Attempt.

(** A consumer that fails exits with status 1, and says so in one line of
    fixed vocabulary, except that LOG_LEVEL=error leaves it silent. *)
Lemma consumer_failure_logged {Wd : World} o parseURL check args get w e h w' :
  is_check args = false -> consumer_run o parseURL get NewProcessingHealth w = (Some e, h, w') ->
  consumer_main o parseURL check args get w =
    (1, if bool_decide (get "LOG_LEVEL"%string = lit "error") then []
        else [LWarn (mkAttrs "startup" (-1) (-1) 0 None) (fst (error_class e)) (snd (error_class e))], w').
Proof.
  intros Hc Hr. unfold consumer_main. rewrite Hc, Hr. cbv zeta. unfold Report. rewrite bool_decide_true by (unfold diagnostic_kinds; set_solver).
  cbn [negb]. destruct (error_class e) as [class sqlstate]. cbn [NewDiagnostics d_states fst snd]. rewrite lookup_empty. cbn [default zero_diag ds_failed andb].
  unfold ConfigureLogging. repeat case_bool_decide; try reflexivity;
    match goal with H1 : get _ = _, H2 : get _ = _ |- _ => rewrite H1 in H2; discriminate H2 end.
Qed.

(** ** Operations of the reader and the shutdown mark *)

Definition reader_kinds : list string := ["storage"; "quarantine"; "progress"]%string.

Section Kinds.
Context {U : UUIDLib} {Wd : World} {BS : BatchStore} {T : Timers}.
Variable rd : Reader.

(** A computation notifies only operations of those kinds. *)
Definition notifies {A} (m : M Sys A) : Prop := forall s a s',
  m s = Some (a, s') -> exists new, s_ops s' = s_ops s ++ new /\ Forall (fun op => op_Kind op ∈ reader_kinds) new.

Lemma notifies_bind {A C} (m : M Sys A) (k : A -> M Sys C) :
  notifies m -> (forall a, notifies (k a)) -> notifies (bind m k).
Proof.
  intros Hm Hk s c s' (a & s1 & H1 & H2)%bind_Some.
  destruct (Hm _ _ _ H1) as (n1 & E1 & F1). destruct (Hk _ _ _ _ H2) as (n2 & E2 & F2).
  exists (n1 ++ n2). rewrite E2, E1, app_assoc. split; [done|]. by apply Forall_app_2.
Qed.

Lemma notifies_quiet {A} (m : M Sys A) : (forall s a s', m s = Some (a, s') -> s_ops s' = s_ops s) -> notifies m.
Proof. intros H s a s' E. exists []. rewrite app_nil_r. split; [by eapply H | constructor]. Qed.

Lemma notifies_ret {A} (a : A) : notifies (ret a).
Proof. apply notifies_quiet. by intros s x s' [= _ <-]. Qed.

Lemma notifies_gets {A} (f : Sys -> A) : notifies (gets f).
Proof. apply notifies_quiet. by intros s x s' [= _ <-]. Qed.

Lemma notifies_call {A} (f : W -> A * W) log : notifies (call f log).
Proof. apply notifies_quiet. intros s x s'. unfold call. destruct (f _). by intros [= _ <-]. Qed.

Lemma notifies_measure f : notifies (measure f).
Proof. apply notifies_quiet. by intros s x s' [= _ <-]. Qed.

Lemma notifies_quarantine ctx r cause : notifies (do_quarantine rd ctx r cause).
Proof. apply notifies_quiet. intros s x s'. unfold do_quarantine. destruct (quarantine _ _ _ _ _) as [e [w m]]. by intros [= _ <-]. Qed.

Lemma notifies_notify kind r err : kind ∈ reader_kinds -> notifies (notify rd kind r err).
Proof.
  intros Hk s x s' [= _ <-]. destruct (has_OnOperation _).
  - eexists. split; [reflexivity|]. apply Forall_singleton. exact Hk.
  - exists []. by rewrite app_nil_r.
Qed.

Ltac quiet :=
  intros; repeat (cbv beta zeta; first
    [ apply notifies_ret | apply notifies_gets | apply notifies_call | apply notifies_measure
    | apply notifies_quarantine | apply notifies_notify; unfold reader_kinds; set_solver
    | apply notifies_bind; [|intros ?]
    | match goal with |- notifies (match ?x with _ => _ end) => destruct x end
    | assumption | match goal with IH : forall _, _ |- _ => solve [apply IH] end ]).

Lemma notifies_persist ctx es r : notifies (persist rd ctx es r).
Proof.
  unfold persist. apply notifies_bind; [apply notifies_gets|]. intros t.
  generalize (WithTimeout ctx t (RetryWindow (config rd))) (BackoffMin (config rd)). intros window.
  induction (persist_fuel rd) as [|fuel IH]; intros backoff; cbn [persist_loop]; [by intros s a s'|].
  unfold get_now, do_write. quiet.
Qed.

Lemma notifies_flush ctx valid source : notifies (flush rd ctx valid source).
Proof.
  unfold flush, get_now, do_commit. destruct source; [apply notifies_ret|].
  apply notifies_bind; [apply notifies_persist|]. intros ?. quiet.
Qed.

Lemma notifies_process ctx records : forall valid source, notifies (process_records rd ctx valid source records).
Proof.
  induction records as [|r rest IH]; intros valid source; cbn [process_records]; unfold get_now, do_commit.
  - apply notifies_bind; [apply notifies_flush|]. quiet.
  - apply notifies_bind; [apply notifies_gets|]. intros t. destruct (ctx_Err ctx t); [apply notifies_ret|].
    destruct (DecodeEnvelope _).
    + cbv zeta. destruct (_ <=? _); [|apply IH]. apply notifies_bind; [apply notifies_flush|]. quiet.
    + apply notifies_bind; [apply notifies_flush|]. quiet.
Qed.

Lemma notifies_Run cycles : forall ctx, notifies (Run rd cycles ctx).
Proof.
  assert (Hp : forall cycle ps result, notifies (each_partition rd cycle ps result)).
  { intros cycle ps. induction ps as [|p ps IH]; intros result; cbn [each_partition]; [apply notifies_ret|].
    destruct result; [apply IH|]. destruct p; [apply IH|]. apply notifies_bind; [apply notifies_process|]. apply IH. }
  induction cycles as [|cycles IH]; intros ctx; cbn [Run]; [by intros s a s'|]. unfold processFetched, get_now. quiet; apply Hp.
Qed.

(** Once the shutdown has begun the consumer never reports ready again:
    whatever the reader still notifies in any run, the readiness probe
    answers 503 without asking the store or the broker. *)
Theorem shutdown_stays_unready cycles ctx s err s' h W (storePing readerPing : W -> goerr * W) w :
  Run rd cycles ctx s = Some (err, s') ->
  exists new, s_ops s' = s_ops s ++ new /\
    let h' := foldl (fun h op => Health_Observe h (op_Kind op) (op_Err op))
                (Health_Observe h "shutdown" (Some context_Canceled)) new in
    readiness h' storePing readerPing w = (503, w).
Proof.
  intros (new & Hs & Hk)%notifies_Run. exists new. split; [done|]. cbv zeta. unfold readiness.
  set (h0 := Health_Observe h _ _). assert (H0 : ("shutdown"%string : string) ∈ h_failed h0) by (cbn; set_solver).
  clearbody h0. clear Hs. assert (Hf : ("shutdown"%string : string) ∈
    h_failed (foldl (fun h op => Health_Observe h (op_Kind op) (op_Err op)) h0 new)).
  { revert h0 H0. induction Hk as [|op new Hop _ IH]; intros h0 H0; [done|]. cbn [foldl]. apply IH.
    assert (Hne : op_Kind op <> "shutdown"%string)
      by (intros E; rewrite E in Hop; unfold reader_kinds in Hop; rewrite !elem_of_cons, elem_of_nil in Hop; intuition discriminate).
    unfold Health_Observe. destruct (op_Err op); cbn [h_failed]; set_solver. }
  unfold Health_Ready. rewrite bool_decide_false; [done|]. intros E. rewrite E in Hf. set_solver.
Qed.
End Kinds.

(** ** Nothing stays open *)

Section Release.
Context {Wd : World}.

(** The number of open clients (pools, publishers, readers' clients) of a
    world; a failed constructor leaves none behind.  A select ends with the
    context only when that is done. *)
Variable opened : W -> Z.

Class ConsumerOpsLaws (o : ConsumerOps) := {
  co_newPool_open url w : let '(e, w') := co_newPool o url w in
    opened w' = opened w + match e with None => 1 | Some _ => 0 end;
  co_closePool_open w : opened (co_closePool o w) = opened w - 1;
  co_listen_open a w : opened (snd (co_listen o a w)) = opened w;
  co_start_open w : opened (co_start o w) = opened w;
  co_serve_open w : opened (snd (co_serve_select o w)) = opened w;
  co_cancel_open w : opened (co_cancelWorker o w) = opened w;
  co_stop_open w : opened (co_stopPolling o w) = opened w;
  co_worker_open c w : opened (snd (co_worker_select o c w)) = opened w;
  co_shutdown_open c w : opened (snd (co_shutdown o c w)) = opened w;
  co_close_open c w : opened (snd (co_close_select o c w)) = opened w;
  co_close_late c w ran w' : co_close_select o c w = (CloseLate ran, w') -> ctx_Err c (now w') <> None
}.

Class ApiOpsLaws (o : ApiOps) := {
  ao_newPublisher_open c w : let '(e, w') := ao_newPublisher o c w in
    opened w' = opened w + match e with None => 1 | Some _ => 0 end;
  ao_closePublisher_open w : opened (ao_closePublisher o w) = opened w - 1;
  ao_newApp_open c w : opened (snd (ao_newApp o c w)) = opened w;
  ao_clean_open w : opened (ao_clean o w) = opened w;
  ao_listen_open a w : opened (snd (ao_listen o a w)) = opened w;
  ao_serve_open w : opened (snd (ao_serve_select o w)) = opened w;
  ao_shutdown_open c w : opened (snd (ao_shutdown o c w)) = opened w;
  ao_closeListener_open w : opened (ao_closeListener o w) = opened w;
  ao_flush_open c w : opened (snd (ao_flush o c w)) = opened w;
  ao_close_open c w : opened (snd (ao_close_select o c w)) = opened w;
  ao_close_late c w ran w' : ao_close_select o c w = (CloseLate ran, w') -> ctx_Err c (now w') <> None
}.

(** What the worker is made of: a new reader opens its client and the
    publisher of its dead letters, and closing it closes both. *)
Class WorkerOpsLaws (storePing : Context -> W -> goerr * W) (newReader : W -> res WorkerReader * W)
    (select_wakeup : Context -> Context -> Z -> Worker -> wakeup * Worker) := {
  ping_open c w : opened (snd (storePing c w)) = opened w;
  newReader_open w : match newReader w with
    | (Ok rd, w') => opened w' = opened w + 2 /\ (forall c w, opened (snd (wr_Run rd c w)) = opened w) /\
        (forall w, opened (wr_StopPolling rd w) = opened w) /\ (forall w, opened (wr_Close rd w) = opened w - 2)
    | (Err _, w') => opened w' = opened w
    end;
  wakeup_open s k fire x : opened (w_world (snd (select_wakeup s k fire x))) = opened (w_world x)
}.

(** An error that says the time was over. *)
Definition timed_out (err : goerr) : Prop := exists e, err = Some e /\ errors_Is e context_DeadlineExceeded = true.

Lemma timed_out_join a b : timed_out a \/ timed_out b -> timed_out (join2 a b).
Proof.
  unfold timed_out, join2, errors_Join. intros [(e & -> & He)|(e & -> & He)]; [destruct b as [x|]|destruct a as [x|]]; cbn [omap list_omap id];
    (eexists; split; [reflexivity|]); cbn; rewrite He; by rewrite ?orb_true_r.
Qed.

(** What a shutdown leaves open, of one thing it closes. *)
Definition released (err : goerr) (before after : Z) : Prop := after = before - 1 \/ timed_out err /\ after = before.

Lemma Drain_open t d stop flush close await w : let ctx := WithTimeout Background t d in
  (forall w, opened (snd (stop ctx w)) = opened w) -> (forall w, opened (snd (flush ctx w)) = opened w) ->
  (forall w, opened (close w) = opened w - 1) -> (forall w, opened (snd (await ctx w)) = opened w) ->
  (forall w ran w', await ctx w = (CloseLate ran, w') -> ctx_Err ctx (now w') <> None) ->
  let '(err, w') := Drain ctx stop flush close await w in released err (opened w) (opened w').
Proof.
  intros ctx Hs Hf Hc Ha Hl. unfold Drain. specialize (Hs w). destruct (stop ctx w) as [e1 w1]. specialize (Hf w1).
  destruct (flush ctx w1) as [e2 w2]. specialize (Ha w2). specialize (Hl w2).
  destruct (await ctx w2) as [[|ran] w3]; cbn [snd] in *; [left; rewrite Hc; lia|].
  specialize (Hl ran w3 eq_refl). destruct ran; [left; rewrite Hc; lia|right]. split; [|lia]. apply timed_out_join. right.
  revert Hl. unfold ctx, ctx_Err, WithTimeout. cbn [done_at Background]. destruct (_ <=? _); [|done]. intros _. by eexists.
Qed.

Lemma drainConsumer_open (o : ConsumerOps) {L : ConsumerOpsLaws o} c w :
  opened (snd (drainConsumer c (co_stopPolling o) (co_cancelWorker o) (co_worker_select o) w)) = opened w.
Proof.
  unfold drainConsumer. pose proof (co_worker_open c (co_stopPolling o w)) as H. pose proof (co_stop_open (o := o) w).
  destruct (co_worker_select o c _) as [[e|] w1]; cbn [snd] in *; [lia|]. rewrite co_cancel_open. lia.
Qed.

Lemma consumer_release (o : ConsumerOps) {CL : ConsumerOpsLaws o} parseURL get h w :
  let '(err, h', w') := consumer_run o parseURL get h w in
  (opened w' = opened w \/ timed_out err /\ opened w' = opened w + 1) /\ (h' = h /\ err <> None \/ Health_Ready h' = false).
Proof.
  unfold consumer_run. destruct (LoadConsumerEnv parseURL get) as [cfg|err]; [|by split; left].
  pose proof (co_newPool_open (ce_DatabaseURL cfg) w) as Hp. destruct (co_newPool o _ w) as [[e|] w1].
  { split; [left; lia|by left]. }
  pose proof (co_listen_open (ce_ListenAddress cfg) w1) as Hl. destruct (co_listen o _ w1) as [[e|] w2]; cbn [snd] in Hl.
  { rewrite co_closePool_open. split; [left; lia|by left]. }
  pose proof (co_serve_open (co_start o w2)) as Hs. pose proof (co_start_open (o := o) w2) as Hst.
  destruct (co_serve_select o (co_start o w2)) as [ended w3]. cbn [snd] in Hs.
  assert (Hc : exists e w4, (match ended with Some e => (e, co_cancelWorker o w3) | None => (None, w3) end) = (e, w4) /\
               opened w4 = opened w3).
  { destruct ended; eexists _, _; (split; [reflexivity|]); [apply co_cancel_open|done]. }
  destruct Hc as (e4 & w4 & -> & H4). set (stop := fun c w => _). cbv zeta.
  pose proof (Drain_open (now w4) (10 * Second) stop (fun _ w => (None, w)) (co_closePool o) (co_close_select o) w4) as Hd. cbv zeta in Hd.
  destruct (Drain _ _ _ _ _ w4) as [err w5]. rewrite co_cancel_open. split.
  + destruct Hd as [Hd|[Ht Hd]]; [|done|apply co_closePool_open|apply co_close_open|intros x ran x'; apply co_close_late|left; lia|right; split; [apply timed_out_join; auto|lia]].
    intros x. unfold stop. pose proof (drainConsumer_open o (WithTimeout Background (now w4) (10 * Second)) x) as Hx.
    destruct (drainConsumer _ _ _ _ x) as [dr y]. cbn [snd] in Hx.
    pose proof (co_shutdown_open (o := o) (WithTimeout Background (now w4) (10 * Second)) y) as Hy.
    destruct (co_shutdown o _ y) as [e z]. cbn [snd] in *. lia.
  + right. unfold Health_Ready. apply bool_decide_eq_false. cbn. set_solver.
Qed.

Lemma api_release (a : ApiOps) {AL : ApiOpsLaws a} get w :
  let '(err, w') := api_run a get w in opened w' = opened w \/ timed_out err /\ opened w' = opened w + 1.
Proof.
  unfold api_run. destruct (LoadAPIEnv get) as [cfg|err]; [|by left].
  pose proof (ao_newPublisher_open (mkPublisherConfig (ae_Brokers cfg) (ae_EventTopic cfg) 0 0 (ae_PublishTimeout cfg)) w) as Hp.
  destruct (ao_newPublisher a _ w) as [[e|] w1]; [left; lia|].
  pose proof (ao_newApp_open cfg w1) as Hn. destruct (ao_newApp a cfg w1) as [[e|] w2]; cbn [snd] in *.
  { left. rewrite ao_closePublisher_open. lia. }
  pose proof (ao_listen_open (ae_ListenAddress cfg) w2) as Hl. destruct (ao_listen a _ w2) as [[e|] w3]; cbn [snd] in *.
  { left. rewrite ao_clean_open, ao_closePublisher_open. lia. }
  pose proof (ao_serve_open w3) as Hs. destruct (ao_serve_select a w3) as [[e|] w4]; cbn [snd] in *.
  { left. rewrite ao_clean_open, ao_closePublisher_open. lia. }
  cbv zeta. match goal with |- context [Drain _ ?s ?f ?cl ?aw w4] => pose proof (Drain_open (now w4) (10 * Second) s f cl aw w4) as Hd end. cbv zeta in Hd.
  destruct (Drain _ _ _ _ _ w4) as [err w5]. rewrite ao_clean_open.
  destruct Hd as [Hd|[Ht Hd]]; [|apply ao_flush_open|apply ao_closePublisher_open|apply ao_close_open|intros x ran x'; apply ao_close_late|left; lia|right; split; [done|lia]].
  intros x. pose proof (ao_shutdown_open (o := a) (WithTimeout Background (now w4) (10 * Second)) x) as Hx.
  destruct (ao_shutdown a _ x) as [e y]. cbn [snd] in *. rewrite ao_closeListener_open. lia.
Qed.

(** The worker closes every reader it has made. *)
Section WorkerRelease.
Context (storePing : Context -> W -> goerr * W) (newReader : W -> res WorkerReader * W).
Context (select_wakeup : Context -> Context -> Z -> Worker -> wakeup * Worker) {WO : WorkerOpsLaws storePing newReader select_wakeup}.

Lemma release_report t kind topic partition off err s : w_world (worker_report t kind topic partition off err s) = w_world s.
Proof. unfold worker_report. by destruct (Report _ _ _ _ _ _ _). Qed.

Lemma release_operations ops s : w_world (foldl on_operation s ops) = w_world s.
Proof. revert s. induction ops as [|[t op] ops IH]; intros s; [done|]. cbn [foldl]. rewrite IH. cbn [on_operation]. by rewrite release_report. Qed.

Lemma attempt_open ctx c s : opened (w_world (snd (attempt storePing newReader ctx c s))) = opened (w_world s).
Proof.
  unfold attempt. pose proof (ping_open (WithTimeout c (now (w_world s)) Second) (w_world s)) as Hp.
  destruct (storePing _ _) as [[e|] w1]; cbn [snd] in *; [by rewrite release_report|].
  destruct (ctx_Err ctx (now w1)); [cbn [snd]; by rewrite release_report|].
  pose proof (newReader_open w1) as Hn. destruct (newReader w1) as [[rd|e] w2]; [|cbn [snd]; rewrite release_report; cbn [set_w_world w_world]; lia].
  destruct Hn as (Hn & Hr & Hs & Hc). set (w3 := match ctx_Err ctx (now w2) with Some _ => _ | None => _ end).
  assert (H3 : opened w3 = opened w2) by (unfold w3; destruct (ctx_Err ctx _); [apply Hs|done]).
  specialize (Hr c w3). destruct (wr_Run rd c w3) as [[err ops] w4]. cbn [snd set_w_world w_world] in *. rewrite Hc, release_operations. cbn [set_w_world w_world]. lia.
Qed.

Lemma Supervise_open fuel stop work backoff : forall s starts err s' starts',
  Supervise (Wd := {| W := Worker; now := fun s => now (w_world s) |}) select_wakeup fuel stop work (attempt storePing newReader stop) backoff (s, starts) =
    Some (err, (s', starts')) -> opened (w_world s') = opened (w_world s).
Proof.
  induction fuel as [|fuel IH]; intros s starts err s' starts'; cbn [Supervise]; [done|].
  destruct (ctx_Err work _); [by intros [= _ <- _]|]. destruct (ctx_Err stop _); [by intros [= _ <- _]|].
  pose proof (attempt_open stop work s) as Ha. cbn [W] in *.
  destruct (attempt storePing newReader stop work s) as [e s1]. cbn [snd] in Ha.
  destruct (ctx_Err work _); [by intros [= _ <- _]|]. destruct (ctx_Err stop _); [by intros [= _ <- _]|].
  pose proof (wakeup_open stop work (now (w_world s1) + backoff) s1) as Hw. cbn [now].
  destruct (select_wakeup _ _ _ s1) as [[] s2]; cbn [snd] in Hw; [intros [= _ <- _]; lia|intros [= _ <- _]; lia|].
  intros H. apply IH in H. lia.
Qed.
End WorkerRelease.

End Release.
