(* ===== verification/Supervision.v ===== *)
(** * The supervised consumer

    [cmd/consumer] runs its reader under [service.Supervise]: attempt after
    attempt, each with a new reader, until the program is told to stop.  The
    supervised worker is a life in the sense of [Delivery], so nothing is
    skipped from one attempt to the next. *)
From S2P Require Import Prelude GoBytes GoTime GoJson Event Runtime Persistence PersistenceProps Telemetry Publisher Reader ReaderFacts ReaderProps Delivery Config Service ServiceProps Programs.

(** The configuration the consumer gives its readers. *)
Definition consumer_reader_config (env : ConsumerEnv) : ReaderConfig :=
  mkReaderConfig true (ce_Brokers env) (ce_EventTopic env) (ce_DLQTopic env) (ce_GroupID env) 0 0 0 0 0.

(** Its defaults are valid. *)
Lemma consumer_config_valid env :
  valid_config (readerDefaults (consumer_reader_config env)) /\ no_overflow (readerDefaults (consumer_reader_config env)).
Proof. unfold valid_config, no_overflow. cbn. unfold Second, Millisecond. lia. Qed.

(** [NewReader] refuses none of what [LoadConsumerEnv] accepts. *)
Lemma consumer_reader_accepted parseURL get env :
  LoadConsumerEnv parseURL get = Ok env -> reader_config_ok (readerDefaults (consumer_reader_config env)) false = true.
Proof.
  unfold LoadConsumerEnv. cbv zeta. destruct (parseURL _) as [[scheme host]|]; [|done]. destruct (_ || _); [done|]. intros [= <-].
  assert (Hv : forall k d, lit d <> [] -> bool_decide (value get k d = []) = false).
  { intros k d Hd. apply bool_decide_eq_false. unfold value. by destruct (get k). }
  unfold reader_config_ok, readerDefaults, consumer_reader_config. cbn [rc_Brokers rc_Topic DLQTopic GroupID ce_Brokers ce_EventTopic ce_DLQTopic ce_GroupID
    BatchSize AttemptTimeout RetryWindow BackoffMin BackoffMax].
  rewrite !Hv by done. unfold brokers. destruct (Split _ _) eqn:E; [|reflexivity]. by revert E; destruct (value get "BROKERS" _) as [|x b]; cbn; repeat case_match.
Qed.

Section Supervised.
Context {U : UUIDLib} {Wd : World} {BS : BatchStore} {T : Timers} {C : Cluster}.

(** The supervisor's world is the worker's state. *)
Definition WorkerW : World := {| W := Worker; now := fun s => now (w_world s) |}.

(** The calls of a reader take time, a poll some of it. *)
Class ReaderClock (rd : Reader) := {
  poll_takes ctx n w : now w < now (snd (poll rd ctx n w));
  commit_takes ctx rs w : now w <= now (snd (commit rd ctx rs w));
  quarantine_takes ctx r c wm : now (fst wm) <= now (fst (snd (quarantine rd ctx r c wm)));
  allow_takes w : now w <= now (allow rd w)
}.

(** A reader of the worker, seen through its methods, is one of [reader.go]:
    when the loop of [Run] ends, so does the method, with that error, and has
    notified those operations. *)
Definition realises (rd : Reader) (wr : WorkerReader) : Prop :=
  (forall c w, exists m, forall cycles err s', Run_for rd cycles c (mkSys w m [] []) = Some (Some err, s') ->
     exists ops, wr_Run wr c w = (err, ops, s_world s') /\ s_ops s' = map snd ops) /\
  (forall w, obs (wr_StopPolling wr w) = obs w /\ position rd (wr_StopPolling wr w) = position rd w /\ now w <= now (wr_StopPolling wr w)) /\
  (forall w, obs (wr_Close wr w) = obs w /\ now w <= now (wr_Close wr w)).

(** The run of a reader ends when its context does: every cycle takes time. *)
Lemma Run_for_ends {BL : BatchStoreLaws BS} {TL : TimersLaws T} (rd : Reader) {RC : ReaderClock rd} c at_ e :
  valid_config (config rd) -> no_overflow (config rd) -> done_at c = Some (at_, e) ->
  forall n s, at_ - now (s_world s) <= Z.of_nat n ->
  exists err s', Run_for rd (S n) c s = Some (Some err, s') /\ now (s_world s) <= now (s_world s').
Proof.
  intros Hv Ho Hd. induction n as [|n IH]; intros s Hn.
  { cbn [Run_for]. unfold bind, get_now, gets, ctx_Err. rewrite Hd. destruct (_ <=? _) eqn:E; [by eexists _, _|]. bool_to_prop. lia. }
  remember (S n) as k eqn:Ek. cbn [Run_for]. unfold bind, get_now, gets. destruct (ctx_Err c _); [by eexists _, _|].
  destruct (stopping rd (s_world s)); [by eexists _, _|]. unfold call. pose proof (poll_takes c (BatchSize (config rd)) (s_world s)) as Hp.
  destruct (poll rd c _ (s_world s)) as [f w1]. cbn [snd s_world] in *. set (s1 := mkSys w1 _ _ _).
  destruct (cycle_trace rd Hv Ho c f (stopping rd w1) s1) as (perr & s2 & new & Hcy & _). rewrite Hcy.
  assert (Hk : now w1 <= now (s_world s2)).
  { refine (keeps_processFetched rd (fun w => now w1 <= now w) _ _ _ _ _ _ _ Hcy (Z.le_refl _)). constructor; intros.
    - pose proof (WriteBatch_forward ctx es w). lia.
    - pose proof (timer_forward c0 fire w). lia.
    - pose proof (commit_takes ctx rs w). lia.
    - pose proof (quarantine_takes ctx r c0 wm). lia.
    - pose proof (allow_takes w). lia. }
  destruct perr as [e'|]; [eexists _, _; split; [done|lia]|]. destruct (stopping rd (s_world s2)); [eexists _, _; split; [done|lia]|].
  subst k. destruct (IH s2) as (err & s3 & Hr & H3); [lia|]. exists err, s3. split; [exact Hr|lia].
Qed.

Variables (env : ConsumerEnv) (L : Z -> Z -> option Rec).

(** The readers of this consumer on this topic. *)
Definition consumer_reader (rd : Reader) : Prop :=
  config rd = readerDefaults (consumer_reader_config env) /\ ClusterLaws C rd L.

Context (storePing : Context -> W -> goerr * W) (newReader : W -> res WorkerReader * W).
Variable select_wakeup : Context -> Context -> Z -> Worker -> wakeup * Worker.

(** Pinging the store, making clients and waiting leave the table, the dead
    letters and the offsets alone, and take time; the client of a new reader
    has no partition yet. *)
Class SupervisedLaws := {
  ping_frame c w : obs (snd (storePing c w)) = obs w;
  ping_forward c w : now w <= now (snd (storePing c w));
  newReader_frame w : obs (snd (newReader w)) = obs w;
  newReader_forward w : now w <= now (snd (newReader w));
  newReader_reads w wr w' : newReader w = (Ok wr, w') ->
    exists rd, consumer_reader rd /\ ReaderClock rd /\ realises rd wr /\ new_client rd w';
  wakeup_frame s k fire w : obs (w_world (snd (select_wakeup s k fire w))) = obs (w_world w)
}.

Context {SL : SupervisedLaws} {WL : WakeupLaws (Wd := WorkerW) select_wakeup}.
Abbreviation alive := (life consumer_reader).

Lemma report_world t kind topic partition off err s : w_world (worker_report t kind topic partition off err s) = w_world s.
Proof. unfold worker_report. by destruct (Report _ _ _ _ _ _ _). Qed.

Lemma on_operations_world ops s : w_world (foldl on_operation s ops) = w_world s.
Proof. revert s. induction ops as [|[t op] ops IH]; intros s; [done|]. cbn [foldl]. rewrite IH. cbn [on_operation]. by rewrite report_world. Qed.

(** The health is what the operations made of it. *)
Lemma on_operations_health ops s :
  w_health (foldl on_operation s ops) = foldl (fun h op => Health_Observe h (op_Kind op) (op_Err op)) (w_health s) (map snd ops).
Proof.
  revert s. induction ops as [|[t op] ops IH]; intros s; [done|]. cbn [foldl map snd]. rewrite IH. f_equal.
  cbn [on_operation]. unfold worker_report. by destruct (Report _ _ _ _ _ _ _).
Qed.

Context {BL : BatchStoreLaws BS} {TL : TimersLaws T}.

Lemma consumer_reader_ok rd : consumer_reader rd -> ClusterLaws C rd L /\ valid_config (config rd) /\ no_overflow (config rd).
Proof. intros [E CL]. split; [done|]. rewrite E. apply consumer_config_valid. Qed.

(** The worker's context is cancelled at some point: by the shutdown when it
    runs out of time. *)
Variables (work_end : Z) (work_err : error).

(** What a run of a new reader does, under a context that ends. *)
Lemma worker_run_life rd wr c w :
  done_at c = Some (work_end, work_err) ->
  consumer_reader rd -> ReaderClock rd -> realises rd wr -> new_client rd w ->
  let '(err, ops, w') := wr_Run wr c w in alive w w' /\ now w <= now w'.
Proof.
  intros Hd Hg RC (Hrun & _) Hn. destruct (consumer_reader_ok rd Hg) as (CL & Hv & Ho). destruct (Hrun c w) as [m Hm].
  destruct (Run_for_ends rd c work_end work_err Hv Ho Hd (Z.to_nat (work_end - now w)) (mkSys w m [] [])) as (err & s' & Hr & Hle); [cbn [s_world]; lia|].
  destruct (Hm _ _ _ Hr) as (ops & -> & _). split; [|exact Hle].
  change w with (s_world (mkSys w m [] [] : Sys)). eapply life_run; [exact Hg|by apply new_client_in_step|exact Hr|apply life_refl].
Qed.

Lemma attempt_alive ctx c s : done_at c = Some (work_end, work_err) -> alive (w_world s) (w_world (snd (attempt storePing newReader ctx c s))).
Proof.
  intros Hd. unfold attempt. pose proof (ping_frame (WithTimeout c (now (w_world s)) Second) (w_world s)) as Hp.
  destruct (storePing _ _) as [[e|] w1]; cbn [snd] in Hp; [cbn [snd]; rewrite report_world; by apply life_frame|].
  eapply life_idle; [exact Hp|].
  destruct (ctx_Err ctx (now w1)); [cbn [snd]; rewrite report_world; apply life_refl|].
  pose proof (newReader_frame w1) as Hn. destruct (newReader w1) as [[wr|e] w2] eqn:En; cbn [snd] in Hn.
  2: { cbn [snd]. rewrite report_world. by apply life_frame. }
  eapply life_idle; [exact Hn|]. apply newReader_reads in En as (rd & Hg & RC & Hre & Hnew). pose proof Hre as (_ & Hstop & Hclose).
  set (w3 := match ctx_Err ctx (now w2) with Some _ => _ | None => _ end).
  assert (H3 : obs w3 = obs w2) by (unfold w3; destruct (ctx_Err ctx _); [apply (proj1 (Hstop w2))|done]). eapply life_idle; [exact H3|].
  assert (Hn3 : new_client rd w3) by (unfold w3; destruct (ctx_Err ctx _); [intros p; rewrite (proj1 (proj2 (Hstop w2))); apply Hnew|done]).
  pose proof (worker_run_life rd wr c w3 Hd Hg RC Hre Hn3) as Hrun. destruct (wr_Run wr c w3) as [[err ops] w4]. destruct Hrun as [Hl _].
  cbn [snd set_w_world w_world]. rewrite on_operations_world. cbn [set_w_world w_world].
  eapply life_trans; [exact Hl|]. apply life_frame, (proj1 (Hclose _)).
Qed.

Lemma attempt_forward ctx c s : done_at c = Some (work_end, work_err) -> now (w_world s) <= now (w_world (snd (attempt storePing newReader ctx c s))).
Proof.
  intros Hd. unfold attempt. pose proof (ping_forward (WithTimeout c (now (w_world s)) Second) (w_world s)) as Hp.
  destruct (storePing _ _) as [[e|] w1]; cbn [snd] in Hp; [cbn [snd]; by rewrite report_world|].
  destruct (ctx_Err ctx (now w1)); [cbn [snd]; by rewrite report_world|].
  pose proof (newReader_forward w1) as Hn. destruct (newReader w1) as [[wr|e] w2] eqn:En; cbn [snd] in Hn.
  2: { cbn [snd]. rewrite report_world. cbn [set_w_world w_world]. lia. }
  apply newReader_reads in En as (rd & Hg & RC & Hre & Hnew). pose proof Hre as (_ & Hstop & Hclose).
  set (w3 := match ctx_Err ctx (now w2) with Some _ => _ | None => _ end).
  assert (H3 : now w2 <= now w3) by (unfold w3; destruct (ctx_Err ctx _); [apply Hstop|lia]).
  assert (Hn3 : new_client rd w3) by (unfold w3; destruct (ctx_Err ctx _); [intros p; rewrite (proj1 (proj2 (Hstop w2))); apply Hnew|done]).
  pose proof (worker_run_life rd wr c w3 Hd Hg RC Hre Hn3) as Hrun. destruct (wr_Run wr c w3) as [[err ops] w4]. destruct Hrun as [_ H4].
  cbn [snd set_w_world w_world]. rewrite on_operations_world. cbn [set_w_world w_world]. pose proof (proj2 (Hclose w4)). lia.
Qed.

Lemma Supervise_alive fuel stop work backoff : done_at work = Some (work_end, work_err) -> forall s starts err s' starts',
  Supervise (Wd := WorkerW) select_wakeup fuel stop work (attempt storePing newReader stop) backoff (s, starts) =
    Some (err, (s', starts')) -> alive (w_world s) (w_world s').
Proof.
  intros Hd. induction fuel as [|fuel IH]; intros s starts err s' starts'; cbn [Supervise]; [done|].
  destruct (ctx_Err work _); [intros [= _ <- _]; apply life_refl|]. destruct (ctx_Err stop _); [intros [= _ <- _]; apply life_refl|].
  pose proof (attempt_alive stop work s Hd) as Ha. change (@W WorkerW) with Worker in *.
  destruct (attempt storePing newReader stop work s) as [e s1]. cbn [snd] in Ha.
  destruct (ctx_Err work _); [by intros [= _ <- _]|]. destruct (ctx_Err stop _); [by intros [= _ <- _]|].
  pose proof (wakeup_frame stop work (now (World := WorkerW) s1 + backoff) s1) as Hw.
  destruct (select_wakeup _ _ _ s1) as [[] s2]; cbn [snd] in Hw; [intros [= _ <- _]|intros [= _ <- _]|].
  1,2: eapply life_trans; [exact Ha|by apply life_frame].
  intros H. eapply life_trans; [exact Ha|]. eapply life_idle; [exact Hw|]. by eapply IH.
Qed.

(** C4: the consumer skips nothing from one attempt to the next.  The worker
    under its supervisor, with however many attempts, each with a new reader
    whose client has no partition yet, and each ended by a failed ping, a
    client that could not be made, an error of the run or a stop, is a life of
    readers; when it returns, every record below a committed offset is stored
    or quarantined, and nothing stored before is gone.  It does return, when
    the program is told to stop and the worker's context is cancelled some
    time (the shutdown does so when its time is over): no run outlasts its
    context, every poll taking some time, and there is at most one attempt per
    backoff until the stop and the one running. *)
Theorem supervised_never_skips fuel stop e at_ work backoff s :
  Inv L (obs (w_world s)) -> done_at work = Some (work_end, work_err) ->
  done_at stop = Some (at_, e) -> 0 < backoff -> (Z.to_nat ((at_ - now (w_world s)) / backoff + 1) < fuel)%nat ->
  exists err s' starts,
    Supervise (Wd := WorkerW) select_wakeup fuel stop work (attempt storePing newReader stop) backoff (s, []) = Some (err, (s', starts)) /\
    alive (w_world s) (w_world s') /\ Inv L (obs (w_world s')) /\ grows (obs (w_world s)) (obs (w_world s')) /\
    paced backoff (now (w_world s)) at_ starts.
Proof.
  intros HI Hd HT Hb Hf.
  destruct (Supervise_run (Wd := WorkerW) select_wakeup (attempt storePing newReader stop) work (fun s => attempt_forward stop work s Hd) stop e at_ backoff HT Hb fuel s [] Hf)
    as (err & s' & starts & H & Hp).
  exists err, s', starts. split; [exact H|]. apply Supervise_alive in H; [|done]. split; [done|].
  destruct (life_safe consumer_reader L consumer_reader_ok _ _ H HI) as [H1 H2]. split; [exact H1|]. split; [exact H2|exact Hp].
Qed.
End Supervised.
