(* ===== verification/SimService.v ===== *)
(** * The services and programs in concrete worlds *)
From S2P Require Import Prelude GoBytes GoTime GoJson Event EventProps Runtime Persistence Telemetry PersistenceProps Publisher Reader ReaderFacts ReaderProps Delivery Progress Config Instances Sim Service ServiceProps Programs Supervision.

Lemma shutdown_stays_unready_witness :
  exists err s' new, sim_run [FailsAfter; FailsBefore] = Some (err, s') /\ s_ops s' = [] ++ new /\
    readiness (foldl (fun h op => Health_Observe h (op_Kind op) (op_Err op))
                 (Health_Observe NewProcessingHealth "shutdown" (Some context_Canceled)) new)
      (fun w : unit => (None, w)) (fun w => (None, w)) tt = (503, tt).
Proof.
  destruct sim_run_returns as [[err s'] E]. exists err, s'.
  edestruct (shutdown_stays_unready (sim_reader sim_topic) 5 Background (sim_sys [FailsAfter; FailsBefore]) err s'
              NewProcessingHealth unit (fun w => (None, w)) (fun w => (None, w)) tt) as (new & Hs & Hr); [exact E|].
  exists new. split; [exact E|]. split; [exact Hs|exact Hr].
Defined.

(** ** A supervised reader

    A poll takes a second, and polling is stopped three seconds after the
    start. *)
Definition slow_poll (ctx : Context) (n : Z) (w : SimWorld) : Fetches * SimWorld :=
  let '(f, w) := sim_poll sim_topic ctx n w in
  (f, mkSim (sim_clock w + Second) (sim_table w) (sim_dlq w) (sim_offset w) (sim_position w) (sim_broker w) (sim_script w)).

Definition stop_at : Z := 1767225604 * Second.
Definition slow_reader : Reader :=
  mkReader sim_config slow_poll sim_commit (fun w => w) sim_quarantine (fun w => stop_at <=? sim_clock w).

Lemma slow_laws : ClusterLaws SimCluster slow_reader (sim_log sim_topic).
Proof.
  destruct (SimUntilLaws sim_topic (fun w => stop_at <=? sim_clock w) sim_topic_wf) as [L1 L2 L3 L4 L5 L6 L7 L8 L9 L10 L11 L12 L13 L14 L15]. by constructor.
Qed.

#[local] Instance slow_takes : ReaderClock slow_reader.
Proof.
  constructor; cbn.
  - intros ctx n w. unfold Second. lia.
  - intros ctx rs w. unfold sim_commit. destruct (next_outcome w); cbn; unfold Millisecond; lia.
  - intros ctx r c [w m]. unfold sim_quarantine. cbn. destruct (next_outcome w); cbn; unfold Millisecond; lia.
  - intros w. lia.
Qed.
(** No call turns the clock back. *)
Lemma slow_clock K : calls_keep slow_reader (fun w => K <= sim_clock w).
Proof.
  constructor; cbn.
  - intros ctx es w H. unfold EventStore_WriteBatch. destruct es as [|e es]; [done|]. destruct (build 0 (e :: es)) as [v a]. cbn.
    unfold sim_exec. destruct (insert_rows _ _) as [t n]. destruct (next_outcome w); cbn; unfold Millisecond; lia.
  - intros c fire w H. unfold sim_select. destruct (ctx_Err c _); cbn; lia.
  - intros ctx rs w H. unfold sim_commit. destruct (next_outcome w); cbn; unfold Millisecond; lia.
  - intros ctx r c [w m] H. unfold sim_quarantine. cbn in *. destruct (next_outcome w); cbn; unfold Millisecond; lia.
  - done.
Qed.

Lemma slow_run_ends cycles : forall c s,
  stop_at <= sim_clock (s_world s) + Z.of_nat cycles * Second ->
  exists err s', Run_for slow_reader (S cycles) c s = Some (Some err, s') /\ sim_clock (s_world s) <= sim_clock (s_world s').
Proof.
  induction cycles as [|cycles IH]; intros c s Hc.
  { cbn [Run_for]. unfold bind, get_now, gets. destruct (ctx_Err c _); [eexists _, _; split; [done|lia]|]. cbn [stopping slow_reader].
    destruct (_ <=? _) eqn:E; [eexists _, _; split; [done|lia]|]. bool_to_prop. lia. }
  remember (S cycles) as n eqn:En. cbn [Run_for]. unfold bind, get_now, gets. destruct (ctx_Err c _); [eexists _, _; split; [done|lia]|].
  destruct (stopping slow_reader (s_world s)); [eexists _, _; split; [done|lia]|]. unfold call.
  set (q := poll slow_reader c _ (s_world s)). destruct q as [f w1] eqn:Eq. cbn [s_world].
  assert (Hw1 : sim_clock w1 = sim_clock (s_world s) + Second) by (by injection Eq as _ <-).
  set (s1 := mkSys w1 _ _ _). pose proof slow_laws as CL.
  destruct (cycle_trace slow_reader (proj1 sim_config_valid) (proj2 sim_config_valid) c f (stopping slow_reader w1) s1)
    as (perr & s2 & new & Hcy & _). rewrite Hcy.
  pose proof (keeps_processFetched slow_reader _ (slow_clock (sim_clock w1)) _ _ _ _ _ _ Hcy (Z.le_refl _)) as Hk. cbn beta in Hk.
  assert (Hle : sim_clock (s_world s) <= sim_clock (s_world s2)) by (unfold Second in Hw1; lia).
  destruct perr as [e|]; [by eexists _, _|]. destruct (stopping slow_reader (s_world s2)); [by eexists _, _|].
  subst n. destruct (IH c s2) as (err & s3 & Hr & H3); [rewrite Nat2Z.inj_succ in Hc; unfold Second in *; lia|].
  exists err, s3. split; [exact Hr|lia].
Qed.

(** The worker's view of it. *)
Definition slow_cycles (w : SimWorld) : nat := S (Z.to_nat ((stop_at - sim_clock w) / Second + 1)).
Definition slow_worker : WorkerReader :=
  mkWorkerReader
    (fun c w => match Run_for slow_reader (slow_cycles w) c (mkSys w None [] []) with
                | Some (Some err, s') => (err, map (pair (sim_clock (s_world s'))) (s_ops s'), s_world s')
                | _ => (None, [], w)
                end) (fun w => w) (fun w => w).

Definition slow_env : ConsumerEnv := mkConsumerEnv (lit ":8081") [lit "b"] (lit "t") (lit "d") (lit "g") (lit "postgres://h/d").

Lemma slow_realises : realises slow_reader slow_worker.
Proof.
  split; [|split; intros w; split; try done; apply Z.le_refl]. intros c w. exists None. cbn [wr_Run slow_worker]. intros cycles err1 s1 H1.
  destruct (slow_run_ends (Z.to_nat ((stop_at - sim_clock w) / Second + 1)) c (mkSys w None [] [])) as (err & s' & Hr & Hle).
  { cbn [s_world]. pose proof (Z.div_mod (stop_at - sim_clock w) Second ltac:(done)). pose proof (Z.mod_pos_bound (stop_at - sim_clock w) Second ltac:(done)).
    destruct (decide (0 <= (stop_at - sim_clock w) / Second + 1)); [rewrite Z2Nat.id by done; lia|].
    replace (Z.to_nat ((stop_at - sim_clock w) / Second + 1)) with 0%nat by lia. unfold Second in *. lia. }
  unfold slow_cycles. rewrite Hr. apply (Run_for_more _ _ cycles) in Hr. apply (Run_for_more _ _ (slow_cycles w)) in H1. unfold slow_cycles in H1.
  rewrite Nat.add_comm, Hr in H1. injection H1 as -> ->. eexists. split; [reflexivity|].
  rewrite map_map. symmetry. apply map_id.
Qed.

(** The supervisor's timer. *)
Definition worker_wakeup (s k : Context) (fire : Z) (x : Worker) : wakeup * Worker :=
  let w := w_world x in
  (WTimer, set_w_world (mkSim (Z.max fire (sim_clock w)) (sim_table w) (sim_dlq w) (sim_offset w) (sim_position w) (sim_broker w) (sim_script w)) x).

#[local] Instance slow_supervised :
  SupervisedLaws (C := SimCluster) slow_env (sim_log sim_topic) (fun _ w => (None, w)) (fun w => (Ok slow_worker, sim_client w)) worker_wakeup.
Proof.
  constructor; try done. intros w wr w' [= <- <-]. exists slow_reader.
  split; [split; [reflexivity|exact slow_laws]|]. split; [exact slow_takes|]. split; [exact slow_realises|done].
Qed.

#[local] Instance worker_wakeup_laws : WakeupLaws (Wd := WorkerW) worker_wakeup.
Proof. constructor; [intros s k fire w; cbn; lia|intros s k fire w w' [= <-]; cbn; lia|done]. Qed.

(** Three attempts: a commit fails in the first, and the last ends with the
    program. *)
Definition worker_start : Worker := mkWorker (sim_start [Succeeds; FailsBefore]) NewProcessingHealth (NewDiagnostics (10 * Second)) [].
Definition worker_stop : Context := mkContext (Some (stop_at + 2 * Second, context_Canceled)).
Definition worker_work : Context := mkContext (Some (stop_at + 12 * Second, context_Canceled)).
Definition worker_run : option (goerr * (Worker * list Z)) :=
  Supervise (Wd := WorkerW) worker_wakeup 9 worker_stop worker_work
    (attempt (fun _ w => (None, w)) (fun w => (Ok slow_worker, sim_client w)) worker_stop) Second (worker_start, []).

Definition worker_summary (r : option (goerr * (Worker * list Z))) : option (goerr * nat * nat * Z) :=
  match r with
  | Some (err, (s, starts)) => Some (err, length starts, size (sim_table (w_world s)), sim_offset (w_world s) 0)
  | None => None
  end.

Lemma worker_run_ends : worker_summary worker_run = Some (None, 3%nat, 1%nat, 3).
Proof. vm_compute. reflexivity. Qed.

Lemma supervised_never_skips_witness :
  exists err s' starts, worker_run = Some (err, (s', starts)) /\
    life (consumer_reader slow_env (sim_log sim_topic)) (w_world worker_start) (w_world s') /\
    Inv (sim_log sim_topic) (obs (w_world s')) /\ grows (obs (w_world worker_start)) (obs (w_world s')) /\
    paced Second (sim_clock (w_world worker_start)) (stop_at + 2 * Second) starts.
Proof.
  refine (supervised_never_skips slow_env (sim_log sim_topic) _ _ worker_wakeup (SL := slow_supervised) (WL := worker_wakeup_laws)
            (stop_at + 12 * Second) context_Canceled 9 worker_stop
            context_Canceled (stop_at + 2 * Second) worker_work Second worker_start _ eq_refl eq_refl _ _); [|done|vm_compute; lia].
  intros p i r Hi Hr. unfold sim_log in Hr. cbn in Hi. destruct ((p =? 0) && (0 <=? i)) eqn:Ei; [|discriminate Hr]. bool_to_prop. lia.
Defined.

(** A world that is a clock and a number of open connections. *)
#[local] Instance ClockW : World := {| W := Z * Z; now := fst |}.

Definition clock_wakeup (s k : Context) (fire : Z) (w : Z * Z) : wakeup * (Z * Z) := (WTimer, (Z.max fire (fst w), snd w)).
Definition clock_attempt (c : Context) (w : Z * Z) : goerr * (Z * Z) := (Some (ENew "temporary"), (fst w + 3, snd w)).

#[local] Instance clock_wakeup_laws : WakeupLaws (Wd := ClockW) clock_wakeup.
Proof.
  constructor.
  - intros s k fire w. cbn. lia.
  - intros s k fire w w' [= <-]. cbn. lia.
  - done.
Qed.

Lemma Supervise_terminates_witness :
  exists err w' starts,
    Supervise (Wd := ClockW) clock_wakeup 12 (mkContext (Some (100, context_Canceled))) Background clock_attempt 10 ((0, 0), []) =
      Some (err, (w', starts)) /\ paced 10 0 100 starts.
Proof.
  refine (Supervise_terminates (Wd := ClockW) clock_wakeup clock_attempt Background _ (mkContext (Some (100, context_Canceled)))
           context_Canceled 100 10 12 (0, 0) eq_refl _ _).
  - intros w. cbn. lia.
  - lia.
  - vm_compute. lia.
Defined.

Example supervise_starts :
  Supervise (Wd := ClockW) clock_wakeup 12 (mkContext (Some (30, context_Canceled))) Background clock_attempt 10 ((0, 0), []) =
    Some (None, ((39, 0), [0; 13; 26])).
Proof. vm_compute. reflexivity. Qed.

(** The select of a shutdown that ends in time, and of one whose close hangs
    for eleven seconds. *)
Definition clock_close (c : Context) (w : Z * Z) : close_outcome * (Z * Z) := (CloseDone, w).
Definition clock_hang (c : Context) (w : Z * Z) : close_outcome * (Z * Z) :=
  let w := (fst w + 11 * Second, snd w) in match ctx_Err c (fst w) with Some _ => (CloseLate false, w) | None => (CloseDone, w) end.

Definition clock_consumer : ConsumerOps (Wd := ClockW) :=
  mkConsumerOps (Wd := ClockW) (fun _ '(t, n) => (None, (t, n + 1))) (fun '(t, n) => (t, n - 1)) (fun _ w => (None, w)) (fun w => w)
    (fun w => (Some None, w)) (fun w => w) (fun w => w) (fun _ w => (Some None, w)) (fun _ w => (None, w)) clock_hang.

Definition clock_api : ApiOps (Wd := ClockW) :=
  mkApiOps (Wd := ClockW) (fun _ '(t, n) => (None, (t, n + 1))) (fun _ w => (Some (ENew "no"), w)) (fun w => w) (fun _ w => (None, w))
    (fun w => (None, w)) (fun _ w => (None, w)) (fun w => w) (fun _ w => (None, w)) (fun '(t, n) => (t, n - 1)) clock_close.

#[local] Instance clock_consumer_laws : ConsumerOpsLaws (Wd := ClockW) snd clock_consumer.
Proof.
  constructor; try done; try (intros; destruct w; cbn; lia); cbn; unfold clock_hang.
  - intros c [t n]. cbn. by destruct (ctx_Err c _).
  - intros c [t n] ran w'. cbn [fst snd]. destruct (ctx_Err c (t + 11 * Second)) eqn:E; [|done]. intros [= _ <-]. cbn. by rewrite E.
Qed.

#[local] Instance clock_api_laws : ApiOpsLaws (Wd := ClockW) snd clock_api.
Proof. constructor; try done; intros; destruct w; cbn; lia. Qed.

(** A worker whose readers fail at once. *)
Definition clock_reader : WorkerReader (Wd := ClockW) :=
  mkWorkerReader (Wd := ClockW) (fun _ '(t, n) => (Some (ENew "lost"), [], (t + 5, n))) (fun w => w) (fun '(t, n) => (t, n - 2)).
Definition clock_newReader (w : Z * Z) : res (WorkerReader (Wd := ClockW)) * (Z * Z) := (Ok clock_reader, (fst w, snd w + 2)).
Definition clock_ping (c : Context) (w : Z * Z) : goerr * (Z * Z) := (None, w).
Definition clock_worker_wakeup (s k : Context) (fire : Z) (x : Worker (Wd := ClockW)) : wakeup * Worker (Wd := ClockW) :=
  (WTimer, set_w_world (Wd := ClockW) (Z.max fire (fst (w_world x)), snd (w_world x)) x).

#[local] Instance clock_worker_laws : WorkerOpsLaws (Wd := ClockW) snd clock_ping clock_newReader clock_worker_wakeup.
Proof. constructor; [done| |done]. intros w. cbn. split; [done|]. split; [by intros c [t n]|]. split; [done|]. by intros [t n]. Qed.

(** The consumer hangs in its shutdown; the API could not be made; the worker
    makes two attempts. *)
Definition clock_worker : Worker (Wd := ClockW) := mkWorker (Wd := ClockW) (0, 1) NewProcessingHealth (NewDiagnostics (10 * Second)) [].
Definition clock_attempts :=
  Supervise (Wd := {| W := Worker (Wd := ClockW); now := fun s => fst (w_world s) |}) clock_worker_wakeup 9 (mkContext (Some (30, context_Canceled)))
    Background (attempt (Wd := ClockW) clock_ping clock_newReader (mkContext (Some (30, context_Canceled)))) 10 (clock_worker, []).

