(* ===== verification/BenchAccounting.v ===== *)
(** * Benchmark accounting: [internal/benchmark]

    What a measured run claims and how it is checked: percentiles, the
    reconciliation of identifier sets, the independent verification of the
    stored rows, and the errors that only concern observation.  Counts are
    numbers of events of one run and stay far below the width of an [int].
    The comparison of two JSON payloads as decoded values is a parameter. *)
From S2P Require Import Prelude GoBytes GoTime GoJson GoEncode GoSha256 Event Runtime GoFloat.
From Stdlib Require Import Sorting.Mergesort Orders.

(** ** pipeline.go: percentiles *)

Module ZOrder <: TotalLeBool.
Definition t := Z.
Definition leb := Z.leb.
Lemma leb_total x y : leb x y = true \/ leb y x = true.
Proof. unfold leb. lia. Qed.
End ZOrder.
Module ZSort := Sort ZOrder.

Record Latency := mkLatency { P50 : Z; P95 : Z; P99 : Z }.

(** The constants of the source as the doubles they denote. *)
Definition f50 : Q := rnd (1 # 2).
Definition f95 : Q := rnd (95 # 100).
Definition f99 : Q := rnd (99 # 100).

(** [max(0, int(math.Ceil(float64(n)*p))-1)]. *)
Definition rank_index (n : Z) (p : Q) : Z := Z.max 0 (Qceiling (fmul (float_of_int n) p) - 1).

Definition Percentiles (samples : list Z) : Latency :=
  let a := ZSort.sort samples in
  match a with
  | [] => mkLatency 0 0 0
  | _ =>
      let at_ p := nth (Z.to_nat (rank_index (Z.of_nat (length a)) p)) a 0 in
      mkLatency (at_ f50) (at_ f95) (at_ f99)
  end.

Section Accounting.
Context {U : UUIDLib}.
(** [sha256.Sum256] in hexadecimal. *)
Definition sha256_hex (s : bytes) : bytes := hex_bytes (Sha256.Sum256 s).

(** ** pipeline.go: reconciliation *)

Definition uniqueIDs (ids : list uuid) : gset uuid := list_to_set ids.

(** Also [IDSetHash] of calibration.go. *)
Definition IDSetHash (ids : list uuid) : bytes :=
  sha256_hex (JoinSep [10] (sort_strings (map uuid_String (elements (uniqueIDs ids))))).

(** The measured part of a [PipelineRun], which reconciliation only reads. *)
Record RunFacts := mkFacts {
  Repetition : Z;
  AttemptedIDs : list uuid;
  AcceptedIDs : list uuid;
  AmbiguousIDs : list uuid;
  GeneratorMissed : Z;
  LateSchedules : Z;
  Rejected : Z;
  Ambiguous : Z;
  AttemptedAfterWindow : Z;
  AcceptedAfterWindow : Z;
  AcceptedInWindow : Z;
  ObserverLatePolls : Z;
  ObserverOutages : Z;
  ObserverSlowQueries : Z;
  TotalNS : Z;
  WindowNS : Z;
  VisibilityNS : list Z
}.

(** The rest: what verification found and what reconciliation derives. *)
Record PipelineRun := mkRun {
  facts : RunFacts;
  StoredIDs : list uuid;
  ContentMismatch : Z;
  IDSetSHA256 : gmap string bytes;
  Missing : Z;
  Unexpected : Z;
  DuplicateRows : Z;
  AmbiguousPersisted : Z;
  AmbiguousUnobserved : Z;
  Accepted : Z;
  Persisted : Z;
  VerifiedCompletionEPS : Q;
  AcceptedEPS : Q;
  VisibilitySampleCount : Z;
  VisibilityMetric : option Latency;
  Correct : bool;
  LimitReasons : list string;
  LoadStatus : string;
  DeliveryStatus : string;
  ObservationStatus : string;
  Outcome : string
}.

Definition count_not (l : list uuid) (s : gset uuid) : Z :=
  Z.of_nat (length (filter (fun id => id ∉ s) l)).

(** A rate: [float64(n) * 1e9 / float64(ns)], kept as it was for [ns] = 0. *)
Definition eps_of (n ns : Z) (old : Q) : Q :=
  if 0 <? ns then fdiv (fmul (float_of_int n) (inject_Z 1000000000)) (float_of_int ns) else old.

Definition limit_reasons (f : RunFacts) (observation : string) : list string :=
  omap (fun '(count, reason) => if 0 <? count then Some reason else None)
    [(GeneratorMissed f, "generator_missed_events"); (LateSchedules f, "late_schedules"); (Rejected f, "http_rejections");
     (Ambiguous f, "ambiguous_delivery"); (AttemptedAfterWindow f, "request_queue_tail");
     (AcceptedAfterWindow f, "late_acknowledgements"); (ObserverLatePolls f, "observer_poll_delays");
     (ObserverOutages f, "observer_unavailable")]%string ++
  (if bool_decide (observation = "failed"%string) then ["observer_failed"%string] else []) ++
  (if bool_decide (observation = "partial"%string) then ["partial_observation"%string] else []) ++
  (if 0 <? ObserverSlowQueries f then ["observer_query_delays"%string] else []).

Definition Reconcile (r : PipelineRun) : goerr * PipelineRun :=
  let f := facts r in
  let accepted := uniqueIDs (AcceptedIDs f) in
  let attempted := uniqueIDs (AttemptedIDs f) in
  let ambiguous := uniqueIDs (AmbiguousIDs f) in
  let stored := uniqueIDs (StoredIDs r) in
  let hashes : gmap string bytes :=
    <["attempted"%string := IDSetHash (AttemptedIDs f)]> (<["accepted"%string := IDSetHash (AcceptedIDs f)]>
    (<["ambiguous"%string := IDSetHash (AmbiguousIDs f)]> {[ "stored"%string := IDSetHash (StoredIDs r) ]})) in
  let missing := count_not (elements accepted) stored in
  let unexpected := Z.of_nat (length (filter (fun id => (id ∉ attempted) /\ (id ∉ accepted)) (elements stored))) in
  let persistedAmbiguous := Z.of_nat (length (filter (fun id => id ∈ ambiguous) (elements stored))) in
  let duplicates := Z.of_nat (length (StoredIDs r)) - Z.of_nat (size stored) in
  let correct := (missing =? 0) && (unexpected =? 0) && (duplicates =? 0) && (ContentMismatch r =? 0) && (0 <? TotalNS f) in
  let load :=
    if negb (bool_decide (LoadStatus r = "aborted"%string)) then
      if 0 <? GeneratorMissed f + LateSchedules f + Rejected f + Ambiguous f + AttemptedAfterWindow f + AcceptedAfterWindow f
      then "limited"%string else "met"%string
    else LoadStatus r in
  let delivery := if bool_decide (DeliveryStatus r = ""%string) then "not_run"%string else DeliveryStatus r in
  let observation := if bool_decide (ObservationStatus r = ""%string) then "not_run"%string else ObservationStatus r in
  let reasons := limit_reasons f observation in
  let outcome := match reasons with [] => "complete"%string | _ => "limited"%string end in
  let outcome := if bool_decide (load = "aborted"%string) then "failed"%string else outcome in
  let outcome := if negb correct then "failed"%string else outcome in
  (if negb correct then Some (ENew "reconciliation") else None,
   mkRun f (StoredIDs r) (ContentMismatch r) hashes missing unexpected duplicates persistedAmbiguous
     (Z.of_nat (size ambiguous) - persistedAmbiguous) (Z.of_nat (size accepted)) (Z.of_nat (size stored))
     (eps_of (Z.of_nat (size stored)) (TotalNS f) (VerifiedCompletionEPS r))
     (eps_of (AcceptedInWindow f) (WindowNS f) (AcceptedEPS r))
     (Z.of_nat (length (VisibilityNS f)))
     (if bool_decide (observation = "complete"%string) then VisibilityMetric r else None)
     correct reasons load delivery observation outcome).

(** ** verification.go *)

Record PipelineVerification := mkVerification {
  v_StoredIDs : list uuid; v_Missing : Z; v_Unexpected : Z; v_ContentMismatch : Z
}.

Definition set_stored (ids : list uuid) (mismatch : Z) (r : PipelineRun) : PipelineRun :=
  mkRun (facts r) ids mismatch (IDSetSHA256 r) (Missing r) (Unexpected r) (DuplicateRows r) (AmbiguousPersisted r)
    (AmbiguousUnobserved r) (Accepted r) (Persisted r) (VerifiedCompletionEPS r) (AcceptedEPS r)
    (VisibilitySampleCount r) (VisibilityMetric r) (Correct r) (LimitReasons r) (LoadStatus r) (DeliveryStatus r)
    (ObservationStatus r) (Outcome r).

Definition set_verdict (correct : bool) (delivery outcome : string) (r : PipelineRun) : PipelineRun :=
  mkRun (facts r) (StoredIDs r) (ContentMismatch r) (IDSetSHA256 r) (Missing r) (Unexpected r) (DuplicateRows r)
    (AmbiguousPersisted r) (AmbiguousUnobserved r) (Accepted r) (Persisted r) (VerifiedCompletionEPS r)
    (AcceptedEPS r) (VisibilitySampleCount r) (VisibilityMetric r) correct (LimitReasons r) (LoadStatus r) delivery
    (ObservationStatus r) outcome.

Definition finalizePipelineVerification (r : PipelineRun) (verified : PipelineVerification) (verifyErr : goerr)
    : goerr * PipelineRun :=
  let r := set_stored (v_StoredIDs verified) (v_ContentMismatch verified) r in
  let '(reconcileErr, r) := Reconcile r in
  let failed := match verifyErr, reconcileErr with None, None => false | _, _ => true end in
  (errors_Join [verifyErr; reconcileErr],
   if failed then set_verdict false "failed" "failed" r
   else set_verdict (Correct r) "passed" (Outcome r) r).

(** [expectedEvents] of workload.go: the first event of each identifier. *)
Definition expectedEvents (es : list Envelope) : gmap uuid Envelope :=
  foldl (fun m e => let id := EventID (env_Input e) in match m !! id with Some _ => m | None => <[id := e]> m end) ∅ es.

(** A row of the selection. *)
Record StoredRow := mkStoredRow { row_id : uuid; row_type : bytes; row_occurred : Time; row_payload : bytes }.

(** [json.Unmarshal] of both payloads and [reflect.DeepEqual]. *)
Variable same_json : bytes -> bytes -> bool.

Definition row_matches (row : StoredRow) (e : Envelope) : bool :=
  same_json (row_payload row) (Payload (env_Input e)) && bool_decide (row_type row = EventType (env_Input e)) &&
  Equal (row_occurred row) (OccurredAt (env_Input e)).

Definition row_unexpected (want : gmap uuid Envelope) (row : StoredRow) : bool :=
  match want !! row_id row with Some _ => false | None => true end.
Definition row_mismatch (want : gmap uuid Envelope) (row : StoredRow) : bool :=
  match want !! row_id row with Some e => negb (row_matches row e) | None => false end.

(** [verifySelectedRows] on the outcome of its query: the rows read, and the
    error that ended them. *)
Definition verifySelectedRows (expected : list Envelope) (required : list uuid) (query : res (list StoredRow * goerr))
    : goerr * PipelineVerification :=
  match query with
  | Err err => (Some err, mkVerification [] 0 0 0)
  | Ok (rows, err) =>
      let want := expectedEvents expected in
      let stored := map row_id rows in
      let unexpected := Z.of_nat (length (filter (fun row => row_unexpected want row = true) rows)) in
      let mismatch := Z.of_nat (length (filter (fun row => row_mismatch want row = true) rows)) in
      match err with
      | Some err => (Some err, mkVerification stored 0 unexpected mismatch)
      | None =>
          let missing := count_not required (uniqueIDs stored) in
          let v := mkVerification stored missing unexpected mismatch in
          if 0 <? missing + unexpected + mismatch
          then (Some (ENew "independent pipeline ID/content verification failed"), v)
          else (None, v)
      end
  end.

(** ** pipeline_observer.go *)

Fixpoint observationOnly_err (e : error) : bool :=
  match e with
  | EObservation _ => true
  | EJoin es => negb (match es with [] => true | _ => false end) && forallb observationOnly_err es
  | _ => false
  end.

Definition observationOnly (err : goerr) : bool :=
  match err with None => false | Some e => observationOnly_err e end.
End Accounting.
