(* ===== verification/BenchProps.v ===== *)
(** * Properties of the benchmark's accounting *)
From S2P Require Import Prelude GoBytes GoTime GoJson Event Runtime GoFloat BenchAccounting.
From Stdlib Require Import Sorted.

(** ** Nearest-rank percentiles *)

Lemma div_even_le N d K : 0 < d -> N <= K * d -> div_even N d <= K.
Proof.
  intros Hd HN. unfold div_even. cbv zeta. pose proof (Z.div_mod N d ltac:(lia)). pose proof (Z.mod_pos_bound N d Hd).
  destruct (Z.eq_dec (N / d) K) as [E|E].
  - assert (N mod d = 0) by nia. replace (2 * (N mod d) <? d) with true by lia. lia.
  - assert (N / d < K) by (pose proof (Z.div_le_upper_bound N d K Hd); nia). repeat case_match; lia.
Qed.

(** Rounding never passes an integer of 53 bits. *)
Lemma rnd_le_int x k : (0 <= x <= inject_Z k)%Q -> 0 <= k < 2 ^ 53 -> (rnd x <= inject_Z k)%Q.
Proof.
  destruct x as [[|p|p] d]; intros [H0 Hx] Hk; unfold rnd; cbn [Qnum Qden].
  - unfold Qle. cbn. lia.
  - rewrite Qred_correct. unfold rnd_pos. cbv zeta. set (e := exponent (Zpos p) (Zpos d)).
    destruct (exponent_spec (Zpos p) (Zpos d) ltac:(lia) ltac:(lia)) as [Hp _]. fold e in Hp.
    unfold Qle in Hx. cbn [Qnum Qden inject_Z] in Hx. rewrite Z.mul_1_r in Hx. unfold scale.
    destruct (0 <=? e) eqn:E; bool_to_prop.
    + specialize (Hp E). assert (e = 0) as ->.
      { destruct (Z.eq_dec e 0) as [|Hne]; [done|]. exfalso. assert (2 <= 2 ^ e) by (change 2 with (2 ^ 1) at 1; apply Z.pow_le_mono_r; lia).
        change (2 ^ 53) with (2 * 2 ^ 52) in Hk. nia. }
      change (2 ^ 0) with 1. rewrite !Z.mul_1_r. rewrite <- Zle_Qle. apply div_even_le; lia.
    + assert (0 < 2 ^ (- e)) by (apply Z.pow_pos_nonneg; lia). unfold Qle. cbn [Qnum Qden inject_Z]. rewrite Z2Pos.id by lia.
      rewrite Z.mul_1_r. apply div_even_le; [lia|]. nia.
  - unfold Qle in H0. cbn in H0. lia.
Qed.

Lemma rank_index_exact n a f :
  1 <= n < 2 ^ 40 -> 1 <= a <= 100 -> (0 <= f)%Q -> ((a # 100) * (1 - eps) <= f <= (a # 100))%Q ->
  rank_index n f = (a * n + 99) / 100 - 1.
Proof.
  intros Hn Ha Hf0 [Hf1 Hf2]. set (k := (a * n + 99) / 100).
  assert (Hk : 100 * k <= a * n + 99 < 100 * k + 100).
  { unfold k. pose proof (Z.div_mod (a * n + 99) 100). pose proof (Z.mod_pos_bound (a * n + 99) 100). lia. }
  assert (Hk1 : 1 <= k <= n) by nia.
  unfold rank_index. replace (Qceiling (fmul (float_of_int n) f)) with k; [lia|].
  assert (Hfl : float_of_int n = inject_Z n) by (apply float_of_int_eq; lia). rewrite Hfl.
  assert (Hx0 : (0 <= inject_Z n)%Q) by (change 0%Q with (inject_Z 0); rewrite <- Zle_Qle; lia).
  assert (Hu : (fmul (inject_Z n) f <= inject_Z k)%Q).
  { apply rnd_le_int; [|lia]. split; [by apply Qmult_le_0_compat|].
    apply Qle_trans with (inject_Z n * (a # 100))%Q; [rewrite !(Qmult_comm (inject_Z n)); by apply Qmult_le_compat_r|].
    unfold Qle. cbn [Qnum Qden Qmult inject_Z]. lia. }
  assert (Hl : (inject_Z (k - 1) < fmul (inject_Z n) f)%Q).
  { destruct (fmul_error (inject_Z n) f Hx0 Hf0) as [[He _] _]. eapply Qlt_le_trans; [|exact He].
    assert (Hg : (inject_Z n * ((a # 100) * (1 - eps)) <= inject_Z n * f)%Q)
      by (rewrite !(Qmult_comm (inject_Z n)); by apply Qmult_le_compat_r).
    apply Qlt_le_trans with (inject_Z n * ((a # 100) * (1 - eps)) * (1 - eps))%Q.
    - unfold eps, Qlt. cbn [Qnum Qden Qmult Qminus Qplus Qopp inject_Z]. rewrite ?Pos2Z.inj_mul. lia.
    - apply Qmult_le_compat_r; [exact Hg|]. unfold eps, Qle. cbn. lia. }
  apply Z.le_antisymm.
  - assert (Hc : (inject_Z (k - 1) < inject_Z (Qceiling (fmul (inject_Z n) f)))%Q)
      by (eapply Qlt_le_trans; [exact Hl | apply Qle_ceiling]).
    rewrite <- Zlt_Qlt in Hc. lia.
  - apply Qceiling_resp_le in Hu. by rewrite Qceiling_Z in Hu.
Qed.

Lemma f_bounds :
  ((50 # 100) * (1 - eps) <= f50 <= (50 # 100))%Q /\ ((95 # 100) * (1 - eps) <= f95 <= (95 # 100))%Q /\
  ((99 # 100) * (1 - eps) <= f99 <= (99 # 100))%Q /\ (0 <= f50)%Q /\ (0 <= f95)%Q /\ (0 <= f99)%Q.
Proof.
  assert (H : forall a b, Qle_bool a b = true -> (a <= b)%Q) by (intros; by apply Qle_bool_iff).
  split_and!; apply H; vm_compute; reflexivity.
Qed.

(** Percentiles are nearest-rank: of the sorted samples, the one at
    position ceil(n/2), ceil(95n/100) and ceil(99n/100), although the code
    computes the position in floating point. *)
Theorem Percentiles_nearest_rank samples :
  samples <> [] -> Z.of_nat (length samples) < 2 ^ 40 ->
  exists a, Permutation samples a /\ Sorted (fun x y => x <= y) a /\
    let at_percent p := nth (Z.to_nat ((p * Z.of_nat (length samples) + 99) / 100 - 1)) a 0 in
    Percentiles samples = mkLatency (at_percent 50) (at_percent 95) (at_percent 99).
Proof.
  intros Hne Hlen. exists (ZSort.sort samples). pose proof (ZSort.Permuted_sort samples) as Hp.
  split; [exact Hp|]. split.
  { pose proof (ZSort.Sorted_sort samples) as Hs. clear Hp. induction Hs as [|x l Hs IH Hd]; [apply Sorted_nil|].
    apply Sorted_cons; [done|]. destruct Hd as [|y l Hd]; [apply HdRel_nil|]. apply HdRel_cons.
    unfold is_true, ZOrder.leb in Hd. lia. }
  unfold Percentiles. pose proof (Permutation_length Hp) as Hl. destruct (ZSort.sort samples) as [|x l] eqn:Es.
  { apply Permutation_sym, Permutation_nil in Hp. done. }
  cbv zeta. rewrite <- Hl. destruct f_bounds as (H1 & H2 & H3 & H4 & H5 & H6).
  assert (Hn : 1 <= Z.of_nat (length samples) < 2 ^ 40) by (destruct samples; [done|cbn [length] in *; lia]).
  rewrite (rank_index_exact _ 50 f50 Hn ltac:(lia) H4 H1), (rank_index_exact _ 95 f95 Hn ltac:(lia) H5 H2),
    (rank_index_exact _ 99 f99 Hn ltac:(lia) H6 H3).
  exact eq_refl.
Qed.

Lemma Percentiles_nearest_rank_witness :
  exists a, Permutation [30; 10; 20] a /\ Sorted (fun x y => x <= y) a /\
    let at_percent p := nth (Z.to_nat ((p * 3 + 99) / 100 - 1)) a 0 in
    Percentiles [30; 10; 20] = mkLatency (at_percent 50) (at_percent 95) (at_percent 99).
Proof. apply (Percentiles_nearest_rank [30; 10; 20]); [discriminate | reflexivity]. Defined.

(** ** Reconciliation and verification *)

Section Accounting.
Context {U : UUIDLib}.
Variable same_json : bytes -> bytes -> bool.

Lemma length_filter_zero {A} (P : A -> Prop) `{forall x, Decision (P x)} (l : list A) :
  Z.of_nat (length (filter P l)) = 0 <-> forall x, x ∈ l -> ~ P x.
Proof.
  split.
  - intros Hz x Hx Hp. assert (Hin : x ∈ filter P l) by (by apply list_elem_of_filter).
    destruct (filter P l); [by apply not_elem_of_nil in Hin | cbn [length] in Hz; lia].
  - intros Hn. destruct (filter P l) as [|x r] eqn:E; [done|]. exfalso. apply (Hn x).
    + assert (Hin : x ∈ filter P l) by (rewrite E; by left). by apply list_elem_of_filter in Hin as [_ ?].
    + assert (Hin : x ∈ filter P l) by (rewrite E; by left). by apply list_elem_of_filter in Hin as [? _].
Qed.

Lemma size_set_le (l : list uuid) : (size (list_to_set (C := gset uuid) l) <= length l)%nat.
Proof.
  induction l as [|b l IHl]; cbn [list_to_set length]; [by rewrite size_empty|].
  destruct (decide (b ∈ (list_to_set l : gset uuid))) as [Hb|Hb].
  - rewrite (subseteq_union_1_L {[b]} (list_to_set l)) by set_solver. lia.
  - rewrite size_union by set_solver. rewrite size_singleton. lia.
Qed.

Lemma size_uniqueIDs ids : Z.of_nat (length ids) - Z.of_nat (size (uniqueIDs ids)) = 0 <-> NoDup ids.
Proof.
  unfold uniqueIDs. split.
  - intros H. assert (Hl : size (list_to_set (C := gset uuid) ids) = length ids) by lia. clear H.
    induction ids as [|a ids IH]; [constructor|]. cbn [list_to_set foldr length] in Hl.
    cbn [list_to_set] in Hl. destruct (decide (a ∈ (list_to_set ids : gset uuid))) as [Ha|Ha].
    + rewrite (subseteq_union_1_L {[a]} (list_to_set ids)) in Hl by set_solver. pose proof (size_set_le ids). lia.
    + rewrite size_union, size_singleton in Hl by set_solver. constructor; [set_solver|]. apply IH. lia.
  - intros H. rewrite size_list_to_set by done. lia.
Qed.

(** What a correct run is: every acknowledged event stored, nothing stored
    that was not attempted, each once, with the right content, and time
    passed. *)
Definition exact_run (r : PipelineRun) : Prop :=
  (forall id, id ∈ AcceptedIDs (facts r) -> id ∈ StoredIDs r) /\
  (forall id, id ∈ StoredIDs r -> id ∈ AttemptedIDs (facts r) \/ id ∈ AcceptedIDs (facts r)) /\
  NoDup (StoredIDs r) /\ ContentMismatch r = 0 /\ 0 < TotalNS (facts r).

Lemma Reconcile_correct r :
  let '(err, r') := Reconcile r in
  (Correct r' = true <-> exact_run r) /\ (err = None <-> Correct r' = true) /\ facts r' = facts r /\
  StoredIDs r' = StoredIDs r /\ (Correct r' = false -> Outcome r' = "failed"%string).
Proof.
  unfold Reconcile. cbv zeta. set (correct := _ && (0 <? TotalNS (facts r))).
  assert (Hc : correct = true <-> exact_run r).
  { unfold correct, exact_run, count_not.
    rewrite !andb_true_iff, !Z.eqb_eq, Z.ltb_lt, !length_filter_zero, size_uniqueIDs.
    unfold uniqueIDs. split.
    - intros ((((H1 & H2) & H3) & H4) & H5). split; [|split; [|done]].
      + intros id Hid. destruct (decide (id ∈ StoredIDs r)) as [|Hn]; [done|]. exfalso. apply (H1 id); set_solver.
      + intros id Hid. destruct (decide (id ∈ AttemptedIDs (facts r))) as [|Hn]; [by left|].
        destruct (decide (id ∈ AcceptedIDs (facts r))) as [|Hn']; [by right|]. exfalso. apply (H2 id); set_solver.
    - intros (H1 & H2 & H3 & H4 & H5). split; [|done]. split; [|done]. split; [|done]. split.
      + intros id Hid Hn. apply Hn. set_solver.
      + intros id Hid [Hn Hn']. rewrite elem_of_elements, elem_of_list_to_set in Hid.
        destruct (H2 id Hid); set_solver. }
  cbn [Correct facts StoredIDs Outcome]. split; [exact Hc|]. clearbody correct.
  destruct correct; cbn [negb]; split_and!; try done.
Qed.

(** ** The first event of an identifier is the expected one *)

Lemma expectedEvents_in es id e :
  expectedEvents es !! id = Some e -> e ∈ es /\ EventID (env_Input e) = id.
Proof.
  unfold expectedEvents. assert (H : forall l (m : gmap uuid Envelope), (forall id e, m !! id = Some e -> e ∈ es /\ EventID (env_Input e) = id) ->
    (forall e, e ∈ l -> e ∈ es) ->
    foldl (fun m e => match m !! EventID (env_Input e) with Some _ => m | None => <[EventID (env_Input e) := e]> m end) m l !! id = Some e ->
    e ∈ es /\ EventID (env_Input e) = id).
  { intros l. induction l as [|x l IH]; intros m Hm Hl; cbn [foldl]; [apply Hm|]. apply IH.
    - intros i y. destruct (m !! EventID (env_Input x)) eqn:E; [apply Hm|].
      destruct (decide (EventID (env_Input x) = i)) as [<-|Hne].
      + rewrite lookup_insert_eq. intros [= <-]. split; [apply Hl; by left | done].
      + rewrite lookup_insert_ne by done. apply Hm.
    - intros y Hy. apply Hl. by right. }
  apply (H es ∅); [|done]. intros i y Hy. by rewrite lookup_empty in Hy.
Qed.

(** A verification without error: all required identifiers are among the
    rows, and every row is that of an expected event with its content. *)
Lemma verifySelectedRows_ok expected required query v :
  verifySelectedRows same_json expected required query = (None, v) ->
  exists rows, query = Ok (rows, None) /\ v_StoredIDs v = map row_id rows /\ v_ContentMismatch v = 0 /\
    (forall id, id ∈ required -> id ∈ map row_id rows) /\
    Forall (fun row => exists e, e ∈ expected /\ EventID (env_Input e) = row_id row /\ row_matches same_json row e = true) rows.
Proof.
  unfold verifySelectedRows. destruct query as [[rows [err|]]|err]; [done| |done]. cbv zeta.
  destruct (0 <? _) eqn:E; [done|]. intros [= <-]. exists rows. cbn [v_StoredIDs v_ContentMismatch].
  assert (Hz : forall a : nat, 0 <= Z.of_nat a) by lia.
  unfold count_not in E. apply Z.ltb_ge in E.
  set (a := length (filter _ required)) in E. set (b := length (filter _ rows)) in E.
  set (c := length (filter (fun row => row_mismatch _ _ _ = true) rows)) in *.
  assert (Ha : Z.of_nat a = 0) by lia. assert (Hb : Z.of_nat b = 0) by lia. assert (Hc : Z.of_nat c = 0) by lia.
  split; [done|]. split; [done|]. split; [done|]. subst a b c.
  pose proof (proj1 (length_filter_zero (fun id => id ∉ uniqueIDs (map row_id rows)) required) Ha) as Ha'.
  pose proof (proj1 (length_filter_zero (fun row => row_unexpected (expectedEvents expected) row = true) rows) Hb) as Hb'.
  pose proof (proj1 (length_filter_zero (fun row => row_mismatch same_json (expectedEvents expected) row = true) rows) Hc) as Hc'.
  clear Ha Hb Hc. split.
  - intros id Hid. destruct (decide (id ∈ map row_id rows)) as [|Hn]; [done|]. exfalso. apply (Ha' id Hid).
    unfold uniqueIDs. by rewrite elem_of_list_to_set.
  - apply Forall_forall. intros row Hrow. specialize (Hb' row Hrow). specialize (Hc' row Hrow).
    unfold row_unexpected in Hb'. unfold row_mismatch in Hc'.
    destruct (expectedEvents expected !! row_id row) as [e|] eqn:Ee; [|done].
    apply expectedEvents_in in Ee as [Hin Hid]. exists e. split; [done|]. split; [done|].
    by destruct (row_matches same_json row e).
Qed.

(** A delivery is passed only on evidence.  When the independent
    verification and the reconciliation of a run return no error, the run is
    marked correct and passed, every acknowledged event has exactly one row,
    every row is of an attempted event of the workload, and its type, time
    and payload are the event's; and any error marks the run failed. *)
Lemma passed_run_is_exact r expected query :
  let '(verifyErr, v) := verifySelectedRows same_json expected (AcceptedIDs (facts r)) query in
  let '(err, r') := finalizePipelineVerification r v verifyErr in
  facts r' = facts r /\
  (err <> None -> Correct r' = false /\ DeliveryStatus r' = "failed"%string /\ Outcome r' = "failed"%string) /\
  (err = None ->
   Correct r' = true /\ DeliveryStatus r' = "passed"%string /\
   exists rows, query = Ok (rows, None) /\ StoredIDs r' = map row_id rows /\ NoDup (map row_id rows) /\
     (forall id, id ∈ AcceptedIDs (facts r) -> id ∈ map row_id rows) /\
     Forall (fun row => (row_id row ∈ AttemptedIDs (facts r) \/ row_id row ∈ AcceptedIDs (facts r)) /\
                        exists e, e ∈ expected /\ EventID (env_Input e) = row_id row /\ row_matches same_json row e = true) rows).
Proof.
  destruct (verifySelectedRows _ _ _ _) as [verifyErr v] eqn:Ev. unfold finalizePipelineVerification.
  set (r1 := set_stored _ _ r). pose proof (Reconcile_correct r1) as Hr.
  destruct (Reconcile r1) as [recErr r2]. destruct Hr as (Hc & He & Hf & Hs & _). cbv zeta.
  assert (Hj : errors_Join [verifyErr; recErr] = None <-> verifyErr = None /\ recErr = None).
  { unfold errors_Join. destruct verifyErr, recErr; cbn; naive_solver. }
  assert (Hfacts : forall b d o, facts (set_verdict b d o r2) = facts r) by done. split; [by destruct verifyErr, recErr|]. split.
  - intros Hne. destruct verifyErr, recErr; cbn [Correct DeliveryStatus Outcome set_verdict]; try done.
  - intros [-> ->]%Hj. cbn [Correct DeliveryStatus set_verdict].
    assert (Hcor : Correct r2 = true) by (by apply He). split; [done|]. split; [done|].
    apply Hc in Hcor as (H1 & H2 & H3 & H4 & H5). cbn [r1 set_stored facts StoredIDs] in H1, H2, H3.
    apply verifySelectedRows_ok in Ev as (rows & -> & Hst & _ & Hreq & Hrows). rewrite Hst in *. exists rows.
    split; [done|]. split; [cbn [StoredIDs set_verdict]; by rewrite Hs|]. split; [done|]. split; [done|]. apply Forall_forall. intros row Hrow.
    split; [apply H2; by apply list_elem_of_fmap_2 | by eapply Forall_forall in Hrows].
Qed.
End Accounting.

(** The errors that may be set aside: one or more observation errors,
    joined, and nothing else. *)
Inductive observation_tree : error -> Prop :=
  | ot_leaf cause : observation_tree (EObservation cause)
  | ot_join e es : observation_tree e -> Forall observation_tree es -> observation_tree (EJoin (e :: es)).

Lemma observationOnly_tree e : observationOnly_err e = true <-> observation_tree e.
Proof.
  induction e using error_nested_ind; cbn [observationOnly_err]; try (split; [done | by inversion 1]).
  - split; [intros _; constructor | done].
  - split.
    + destruct es as [|e es]; [done|]. cbn [negb andb forallb]. rewrite andb_true_iff. intros [He Hes].
      inversion H as [|? ? H1 H2]; subst. constructor; [by apply H1|].
      apply Forall_forall. intros x Hx. eapply Forall_forall in H2; [|exact Hx]. apply H2.
      eapply forallb_forall in Hes; [exact Hes|]. by apply list_elem_of_In.
    + inversion 1 as [|x xs Hx Hxs]; subst. inversion H as [|? ? H1 H2]; subst. cbn [negb andb forallb].
      rewrite andb_true_iff. split; [by apply H1|]. apply forallb_forall. intros y Hy%list_elem_of_In.
      eapply Forall_forall in H2; [|exact Hy]. apply H2. by eapply Forall_forall in Hxs.
Qed.
