(* ===== verification/LoadGen.v ===== *)
(** * The load generator: [runPipelineSample] of [internal/benchmark/pipeline.go]

    One measured sample: a scheduler offers batches of identifiers at their
    due times to a bounded queue, workers send them, an observer looks for
    the stored rows, and an accounting loop collects what both report until
    the window is over and the workers are done, then until all
    acknowledged events were seen or the drain deadline passes.  Each step of
    a goroutine between two channel operations is an event; the instants the
    code reads from the clock and what [send] and [observe] return come with
    the events.  Instants and durations are nanoseconds of the monotonic
    clock. *)
From S2P Require Import Prelude GoBytes GoTime GoJson GoEncode Event Runtime GoFloat BenchAccounting.
From Stdlib Require Import Sorting.Mergesort Orders.

Record SampleConfig := mkSampleConfig {
  g_Concurrency : nat;
  g_BatchSize : nat;
  g_Duration : Z;
  g_DrainDeadline : Z;
  g_PollInterval : Z;
  g_Pattern : bytes;
  g_ReconnectObserver : bool
}.

(** Changes of the number of acknowledged events not yet observed, in the
    order of their instants. *)
Module ChangeOrder <: TotalLeBool.
Definition t : Type := Z * Z.
Definition leb (x y : t) : bool := fst x <=? fst y.
Definition leb_total (x y : t) : leb x y = true \/ leb y x = true := ZOrder.leb_total (fst x) (fst y).
End ChangeOrder.
Module ChangeSort := Sort ChangeOrder.

Definition errObserverUnavailable : error := ENew "observer temporarily unavailable".

Section Sample.
Context {U : UUIDLib}.

Record sendResult := mkSendResult {
  sr_Status : Z; sr_IDs : list uuid; sr_Accepted : bool; sr_Ambiguous : bool; sr_ElapsedNS : Z; sr_Started : Z; sr_Finished : Z
}.

(** ** The scheduler and the workers *)

Inductive worker := Waiting | Sending (job : list uuid) (at_ : Z) | Exited.

Record Generator := mkGenerator {
  g_next : nat;                    (** the scheduler's [i] *)
  g_missed : Z;
  g_late : Z;
  g_scheduled : bool;              (** it has reported and closed [jobs] *)
  g_jobs : list (list uuid);
  g_workers : list worker;
  g_results : list sendResult;
  g_closed : bool                  (** [results] is closed *)
}.

Variables (c : SampleConfig) (ids : list uuid) (started : Z).

Definition active : Z := if bool_decide (g_Pattern c = lit "burst") then Z.quot (g_Duration c) 4 else g_Duration c.
Definition windowEnd : Z := started + g_Duration c.
Definition planned : nat := length ids.

Definition share (n : nat) : Z :=
  int_of_float (fmul (fdiv (float_of_int (Z.of_nat n)) (float_of_int (Z.of_nat planned))) (float_of_int active)).

Definition due (i : nat) : Z := started + share i.
Definition interval : Z := share (g_BatchSize c).

Definition new_generator : Generator :=
  mkGenerator 0 0 0 false [] (replicate (g_Concurrency c) Waiting) [] false.

(** One iteration of the scheduler: whether its select took the end of the
    context, which it waits for only before the due time; the instant it read
    for [time.Until] then, for [time.Since] otherwise; and that for
    [time.Now].  A read before the due time is one that has not waited. *)
Definition schedule (cancelled : bool) (t1 t2 : Z) (g : Generator) : option Generator :=
  if g_scheduled g then None
  else
    let i := g_next g in
    if (planned <=? i)%nat then
      Some (mkGenerator i (g_missed g) (g_late g) true (g_jobs g) (g_workers g) (g_results g) (g_closed g))
    else if cancelled && (t1 <? due i) then
      Some (mkGenerator i (g_missed g + Z.of_nat (planned - i)) (g_late g) true (g_jobs g) (g_workers g) (g_results g) (g_closed g))
    else if t1 <? due i then None
    else
      let job := firstn (g_BatchSize c) (skipn i ids) in
      let late := if interval <? t1 - due i then g_late g + 1 else g_late g in
      if started + active <? t2 then
        Some (mkGenerator i (g_missed g + Z.of_nat (planned - i)) late true (g_jobs g) (g_workers g) (g_results g) (g_closed g))
      else if (length (g_jobs g) <? g_Concurrency c * 2)%nat then
        Some (mkGenerator (i + g_BatchSize c) (g_missed g) late false (g_jobs g ++ [job]) (g_workers g) (g_results g) (g_closed g))
      else
        Some (mkGenerator (i + g_BatchSize c) (g_missed g + Z.of_nat (length job)) late false (g_jobs g) (g_workers g) (g_results g) (g_closed g)).

(** A worker receives from [jobs], or finds it closed. *)
Definition take_job (k : nat) (t : Z) (g : Generator) : option Generator :=
  match g_workers g !! k, g_jobs g with
  | Some Waiting, job :: rest =>
      Some (mkGenerator (g_next g) (g_missed g) (g_late g) (g_scheduled g) rest (<[k := Sending job t]> (g_workers g)) (g_results g) (g_closed g))
  | Some Waiting, [] =>
      if g_scheduled g then
        Some (mkGenerator (g_next g) (g_missed g) (g_late g) (g_scheduled g) [] (<[k := Exited]> (g_workers g)) (g_results g) (g_closed g))
      else None
  | _, _ => None
  end.

(** The capacity of [results]. *)
Definition capacity : nat := ((planned + g_BatchSize c - 1) / g_BatchSize c)%nat.

(** [send] has returned [v] to a worker, which sends it on [results]. *)
Definition finish_job (k : nat) (v : sendResult) (t : Z) (g : Generator) : option Generator :=
  match g_workers g !! k with
  | Some (Sending job at_) =>
      if (length (g_results g) <? capacity)%nat && (at_ <=? t) then
        let v := mkSendResult (sr_Status v) job (sr_Accepted v) (sr_Ambiguous v) (t - at_) at_ t in
        Some (mkGenerator (g_next g) (g_missed g) (g_late g) (g_scheduled g) (g_jobs g) (<[k := Waiting]> (g_workers g)) (g_results g ++ [v]) (g_closed g))
      else None
  | _ => None
  end.

(** [wg.Wait(); close(results)]. *)
Definition close_results (g : Generator) : option Generator :=
  if negb (g_closed g) && forallb (fun w => match w with Exited => true | _ => false end) (g_workers g) then
    Some (mkGenerator (g_next g) (g_missed g) (g_late g) (g_scheduled g) (g_jobs g) (g_workers g) (g_results g) true)
  else None.

(** ** What the accounting loop keeps of the requests *)

Record RequestObservation := mkRequestObservation {
  ro_StartedNS : Z; ro_FinishedNS : Z; ro_ElapsedNS : Z; ro_Events : Z; ro_Status : Z; ro_Accepted : bool; ro_Ambiguous : bool
}.

Record Account := mkAccount {
  RequestSamples : list RequestObservation;
  HTTPCompletedNS : Z;
  a_AttemptedIDs : list uuid;
  a_Attempted : Z;
  a_AttemptedInWindow : Z;
  a_AttemptedAfterWindow : Z;
  a_AcceptedInWindow : Z;
  a_AcceptedAfterWindow : Z;
  a_AcceptedIDs : list uuid;
  a_AckNS : list Z;
  acceptedAt : gmap uuid Z;
  a_Ambiguous : Z;
  a_AmbiguousIDs : list uuid;
  a_Rejected : Z
}.

Definition new_account : Account := mkAccount [] 0 [] 0 0 0 0 0 [] [] ∅ 0 [] 0.

Definition recordRequest (v : sendResult) (a : Account) : Account :=
  let n := Z.of_nat (length (sr_IDs v)) in
  let point := mkRequestObservation (sr_Started v - started) (sr_Finished v - started) (sr_ElapsedNS v) n (sr_Status v) (sr_Accepted v) (sr_Ambiguous v) in
  let afterStart := windowEnd <? sr_Started v in
  let afterEnd := windowEnd <? sr_Finished v in
  let a := mkAccount (RequestSamples a ++ [point]) (Z.max (HTTPCompletedNS a) (ro_FinishedNS point))
             (a_AttemptedIDs a ++ sr_IDs v) (a_Attempted a + n)
             (if afterStart then a_AttemptedInWindow a else a_AttemptedInWindow a + n)
             (if afterStart then a_AttemptedAfterWindow a + n else a_AttemptedAfterWindow a)
             (a_AcceptedInWindow a) (a_AcceptedAfterWindow a) (a_AcceptedIDs a) (a_AckNS a) (acceptedAt a)
             (a_Ambiguous a) (a_AmbiguousIDs a) (a_Rejected a) in
  if sr_Accepted v then
    mkAccount (RequestSamples a) (HTTPCompletedNS a) (a_AttemptedIDs a) (a_Attempted a) (a_AttemptedInWindow a) (a_AttemptedAfterWindow a)
      (if afterEnd then a_AcceptedInWindow a else a_AcceptedInWindow a + n)
      (if afterEnd then a_AcceptedAfterWindow a + n else a_AcceptedAfterWindow a)
      (a_AcceptedIDs a ++ sr_IDs v) (a_AckNS a ++ [sr_ElapsedNS v])
      (foldl (fun m id => <[id := sr_Finished v]> m) (acceptedAt a) (sr_IDs v))
      (a_Ambiguous a) (a_AmbiguousIDs a) (a_Rejected a)
  else if sr_Ambiguous v then
    mkAccount (RequestSamples a) (HTTPCompletedNS a) (a_AttemptedIDs a) (a_Attempted a) (a_AttemptedInWindow a) (a_AttemptedAfterWindow a)
      (a_AcceptedInWindow a) (a_AcceptedAfterWindow a) (a_AcceptedIDs a) (a_AckNS a) (acceptedAt a)
      (a_Ambiguous a + n) (a_AmbiguousIDs a ++ sr_IDs v) (a_Rejected a)
  else
    mkAccount (RequestSamples a) (HTTPCompletedNS a) (a_AttemptedIDs a) (a_Attempted a) (a_AttemptedInWindow a) (a_AttemptedAfterWindow a)
      (a_AcceptedInWindow a) (a_AcceptedAfterWindow a) (a_AcceptedIDs a) (a_AckNS a) (acceptedAt a)
      (a_Ambiguous a) (a_AmbiguousIDs a) (a_Rejected a + n).

(** ** What it keeps of the observations *)

(** [so_ObservedAt] is [None] for the zero time. *)
Record StoredObservation := mkStoredObservation { so_ID : uuid; so_ReceivedAt : Z; so_ObservedAt : option Z }.
Record observationResult := mkObservationResult { or_started : Z; or_finished : Z; or_rows : list StoredObservation; or_err : goerr }.

Record BacklogSample := mkBacklogSample {
  PendingAcknowledged : Z; ObservationAvailable : bool; FinalVerification : bool; b_ElapsedNS : Z; b_Accepted : Z; b_Visible : Z
}.

Record Observing := mkObserving {
  inFlight : bool;
  observationError : goerr;
  previousPoll : option Z;
  ObserverPolls : Z;
  ObserverQueryNS : Z;
  ObserverMaxQueryNS : Z;
  o_SlowQueries : Z;
  ObserverMaxGapNS : Z;
  o_LatePolls : Z;
  o_Outages : Z;
  seen : gset uuid;
  observedAt : gmap uuid Z;
  o_StoredIDs : list uuid;
  o_VisibilityNS : list Z;
  Backlog : list BacklogSample
}.

Definition new_observing : Observing := mkObserving false None None 0 0 0 0 0 0 0 ∅ ∅ [] [] [].

(** One row of an observation. *)
Definition record_row (finished : Z) (o : Observing) (row : StoredObservation) : Observing :=
  if bool_decide (so_ID row ∈ seen o) then o
  else
    let latency := default finished (so_ObservedAt row) - so_ReceivedAt row in
    let bad := latency <? 0 in
    mkObserving (inFlight o) (if bad then Some (ENew "negative visibility latency: clocks disagree") else observationError o) (previousPoll o)
      (ObserverPolls o) (ObserverQueryNS o) (ObserverMaxQueryNS o) (o_SlowQueries o) (ObserverMaxGapNS o) (o_LatePolls o) (o_Outages o)
      ({[so_ID row]} ∪ seen o) (<[so_ID row := finished]> (observedAt o)) (o_StoredIDs o ++ [so_ID row])
      (if bad then o_VisibilityNS o else o_VisibilityNS o ++ [latency]) (Backlog o).

Definition recordObservation (v : observationResult) (expectedCancel : bool) (o : Observing) : Observing :=
  let elapsed := or_finished v - or_started v in
  let slow := 2 * g_PollInterval c in
  let gap := match previousPoll o with Some p => or_started v - p | None => 0 end in
  let gapped := match previousPoll o with Some _ => true | None => false end in
  let outage := match or_err v with Some e => g_ReconnectObserver c && errors_Is e errObserverUnavailable | None => false end in
  let err := match or_err v with
             | Some e => if outage || (expectedCancel && errors_Is e context_Canceled) then observationError o else Some e
             | None => observationError o
             end in
  let o := mkObserving false err (Some (or_started v)) (ObserverPolls o + 1) (ObserverQueryNS o + elapsed)
             (Z.max (ObserverMaxQueryNS o) elapsed) (if slow <? elapsed then o_SlowQueries o + 1 else o_SlowQueries o)
             (if gapped then Z.max (ObserverMaxGapNS o) gap else ObserverMaxGapNS o)
             (if gapped && (slow <? gap) then o_LatePolls o + 1 else o_LatePolls o)
             (if outage then o_Outages o + 1 else o_Outages o) (seen o) (observedAt o) (o_StoredIDs o) (o_VisibilityNS o) (Backlog o) in
  let o := foldl (record_row (or_finished v)) o (or_rows v) in
  mkObserving (inFlight o) (observationError o) (previousPoll o) (ObserverPolls o) (ObserverQueryNS o) (ObserverMaxQueryNS o) (o_SlowQueries o)
    (ObserverMaxGapNS o) (o_LatePolls o) (o_Outages o) (seen o) (observedAt o) (o_StoredIDs o) (o_VisibilityNS o)
    (Backlog o ++ [mkBacklogSample 0 (match or_err v with None => true | Some _ => false end) false (or_finished v - started) 0 (Z.of_nat (size (seen o)))]).

Definition needsObservation (a : Account) (o : Observing) : bool :=
  negb (bool_decide (dom (acceptedAt a) ⊆ seen o)) || negb (bool_decide (Forall (fun id => id ∈ seen o) (a_AmbiguousIDs a))).

(** ** The accounting loop *)

(** The observer's goroutine: the request waiting for it, the start of the
    query it is in, the result waiting for the loop, the last instant it
    read. *)
Record Probe := mkProbe {
  p_request : bool; p_running : option Z; p_results : list observationResult; p_exited : bool; p_clock : Z
}.

Inductive phase := PWindow | PDrain | PDrained.

Record Sample := mkSample {
  s_gen : Generator;
  s_account : Account;
  s_obs : Observing;
  s_probe : Probe;
  s_phase : phase;
  s_windowElapsed : bool;
  s_workersDone : bool;
  s_result : goerr;
  s_aborted : bool;
  s_missed : Z;
  s_late : Z;
  s_accountedNS : Z;
  s_expectedCancel : bool
}.

Definition new_sample : Sample :=
  mkSample (new_generator) new_account new_observing (mkProbe false None [] false started) PWindow false false None false 0 0 0 false.

Definition set_gen (g : Generator) (s : Sample) : Sample :=
  mkSample g (s_account s) (s_obs s) (s_probe s) (s_phase s) (s_windowElapsed s) (s_workersDone s) (s_result s) (s_aborted s) (s_missed s) (s_late s)
    (s_accountedNS s) (s_expectedCancel s).
Definition set_account (a : Account) (s : Sample) : Sample :=
  mkSample (s_gen s) a (s_obs s) (s_probe s) (s_phase s) (s_windowElapsed s) (s_workersDone s) (s_result s) (s_aborted s) (s_missed s) (s_late s)
    (s_accountedNS s) (s_expectedCancel s).
Definition set_observing (o : Observing) (p : Probe) (s : Sample) : Sample :=
  mkSample (s_gen s) (s_account s) o p (s_phase s) (s_windowElapsed s) (s_workersDone s) (s_result s) (s_aborted s) (s_missed s) (s_late s)
    (s_accountedNS s) (s_expectedCancel s).
Definition set_loop (ph : phase) (windowElapsed workersDone : bool) (result : goerr) (aborted : bool) (s : Sample) : Sample :=
  mkSample (s_gen s) (s_account s) (s_obs s) (s_probe s) ph windowElapsed workersDone result aborted (s_missed s) (s_late s)
    (s_accountedNS s) (s_expectedCancel s).

Definition set_inFlight (b : bool) (o : Observing) : Observing :=
  mkObserving b (observationError o) (previousPoll o) (ObserverPolls o) (ObserverQueryNS o) (ObserverMaxQueryNS o) (o_SlowQueries o)
    (ObserverMaxGapNS o) (o_LatePolls o) (o_Outages o) (seen o) (observedAt o) (o_StoredIDs o) (o_VisibilityNS o) (Backlog o).
Definition set_observationError (e : goerr) (o : Observing) : Observing :=
  mkObserving (inFlight o) e (previousPoll o) (ObserverPolls o) (ObserverQueryNS o) (ObserverMaxQueryNS o) (o_SlowQueries o)
    (ObserverMaxGapNS o) (o_LatePolls o) (o_Outages o) (seen o) (observedAt o) (o_StoredIDs o) (o_VisibilityNS o) (Backlog o).

(** [None] when the send on [requests] would block. *)
Definition requestObservation (s : Sample) : option Sample :=
  if negb (inFlight (s_obs s)) && bool_decide (observationError (s_obs s) = None) then
    let p := s_probe s in
    if p_request p then None
    else Some (set_observing (set_inFlight true (s_obs s)) (mkProbe true (p_running p) (p_results p) (p_exited p) (p_clock p)) s)
  else Some s.

Inductive event :=
  | ESchedule (cancelled : bool) (t1 t2 : Z)
  | ETake (k : nat) (t : Z)
  | EFinish (k : nat) (v : sendResult) (t : Z)
  | EClose
  | EProbe (t : Z)                                             (** the observer takes a request *)
  | EProbed (rows : list StoredObservation) (err : goerr) (t : Z)
  | EProbeExit
  | ECtx (err : error)                                         (** the loop's select *)
  | EWindow
  | EResult
  | ESeen
  | ETick
  | EAccounted (t : Z)                                         (** its first loop is over *)
  | EDeadline
  | EDrained.                                                  (** its second loop is over *)

Definition allSeen (s : Sample) : bool := bool_decide (dom (acceptedAt (s_account s)) ⊆ seen (s_obs s)).

Definition load_event (o : option Generator) (s : Sample) : option Sample := option_map (fun g => set_gen g s) o.

Definition window_open (s : Sample) : bool := negb (s_windowElapsed s) || negb (s_workersDone s).
Definition drain_open (s : Sample) : bool :=
  bool_decide (s_result s = None) && bool_decide (observationError (s_obs s) = None) && needsObservation (s_account s) (s_obs s).

(** [cancelObservation], with what the end of the observer is expected to
    say. *)
Definition drained (s : Sample) : Sample :=
  mkSample (s_gen s) (s_account s) (s_obs s) (s_probe s) PDrained (s_windowElapsed s) (s_workersDone s) (s_result s) (s_aborted s) (s_missed s)
    (s_late s) (s_accountedNS s)
    (bool_decide (s_result s = None) && bool_decide (observationError (s_obs s) = None) && allSeen s).

(** [None] when the goroutine of the event is not there to take it. *)
Definition step_sample (s : Sample) (e : event) : option Sample :=
  let p := s_probe s in
  match e, s_phase s with
  | ESchedule cancelled t1 t2, _ => load_event (schedule cancelled t1 t2 (s_gen s)) s
  | ETake k t, _ => load_event (take_job k t (s_gen s)) s
  | EFinish k v t, _ => load_event (finish_job k v t (s_gen s)) s
  | EClose, _ => load_event (close_results (s_gen s)) s
  | EProbe t, _ =>
      if p_request p && negb (p_exited p) && bool_decide (p_running p = None) && (p_clock p <=? t)
      then Some (set_observing (s_obs s) (mkProbe false (Some t) (p_results p) false t) s) else None
  | EProbed rows err t, _ =>
      match p_running p with
      | Some start => if bool_decide (p_results p = []) && (p_clock p <=? t) then   (* the channel holds one result *)
          Some (set_observing (s_obs s) (mkProbe (p_request p) None (p_results p ++ [mkObservationResult start t rows err]) (p_exited p) t) s) else None
      | None => None
      end
  | EProbeExit, _ =>
      if bool_decide (p_running p = None) && negb (p_exited p)
      then Some (set_observing (s_obs s) (mkProbe (p_request p) None (p_results p) true (p_clock p)) s) else None
  | ECtx err, PWindow => if window_open s && bool_decide (s_result s = None) then Some (set_loop PWindow true (s_workersDone s) (Some err) true s) else None
  | EWindow, PWindow => if window_open s then Some (set_loop PWindow true (s_workersDone s) (s_result s) (s_aborted s) s) else None
  | EResult, PWindow =>
      if negb (window_open s) || s_workersDone s then None
      else match g_results (s_gen s) with
           | v :: rest =>
               let g := s_gen s in
               Some (set_account (recordRequest v (s_account s))
                 (set_gen (mkGenerator (g_next g) (g_missed g) (g_late g) (g_scheduled g) (g_jobs g) (g_workers g) rest (g_closed g)) s))
           | [] => if g_closed (s_gen s) then Some (set_loop PWindow (s_windowElapsed s) true (s_result s) (s_aborted s) s) else None
           end
  | ESeen, PWindow =>
      if window_open s then
        match p_results p with
        | v :: rest => Some (set_observing (recordObservation v false (s_obs s)) (mkProbe (p_request p) (p_running p) rest (p_exited p) (p_clock p)) s)
        | [] => None
        end
      else None
  | ETick, PWindow =>
      if window_open s then
        if (size (seen (s_obs s)) <? planned)%nat && (negb (s_workersDone s) || needsObservation (s_account s) (s_obs s))
        then requestObservation s else Some s
      else None
  | EAccounted t, PWindow =>
      if window_open s || negb (g_scheduled (s_gen s)) then None
      else
        let s := mkSample (s_gen s) (s_account s) (s_obs s) (s_probe s) PDrain (s_windowElapsed s) (s_workersDone s) (s_result s) (s_aborted s)
                   (g_missed (s_gen s)) (g_late (s_gen s)) (t - started) false in
        if needsObservation (s_account s) (s_obs s) then requestObservation s else Some s
  | ECtx err, PDrain => if drain_open s then Some (set_loop PDrain (s_windowElapsed s) (s_workersDone s) (Some err) true s) else None
  | EDeadline, PDrain =>
      if drain_open s then
        Some (drained (if allSeen s then s else
          set_observing (set_observationError (Some (ENew "acknowledged events not observed before deadline")) (s_obs s)) (s_probe s) s))
      else None
  | ESeen, PDrain =>
      if drain_open s then
        match p_results p with
        | v :: rest => Some (set_observing (recordObservation v false (s_obs s)) (mkProbe (p_request p) (p_running p) rest (p_exited p) (p_clock p)) s)
        | [] => None
        end
      else None
  | ETick, PDrain => if drain_open s then requestObservation s else None
  | EDrained, PDrain => if drain_open s then None else Some (drained s)
  | _, _ => None
  end.

Fixpoint run_sample (s : Sample) (es : list event) : option Sample :=
  match es with
  | [] => Some s
  | e :: rest => match step_sample s e with Some s' => run_sample s' rest | None => None end
  end.

(** ** The end of a sample *)

(** The instants of a list up to [at_], counted, and the rest. *)
Fixpoint advance {A} (time : A -> Z) (at_ : Z) (l : list A) : list A * list A :=
  match l with
  | x :: rest => if at_ <? time x then ([], l) else let '(passed, rest) := advance time at_ rest in (x :: passed, rest)
  | [] => ([], [])
  end.

(** [changes]: an acknowledged event is pending from its acknowledgement to
    its observation, if that came later. *)
Definition pending_changes (accepted observed : gmap uuid Z) : list (Z * Z) :=
  flat_map (fun '(id, at_) =>
    match observed !! id with
    | Some o => if at_ <? o then [(at_, 1); (o, -1)] else []
    | None => [(at_, 1)]
    end) (map_to_list accepted).

(** The loop with its two indexes. *)
Fixpoint rebuild (backlog : list BacklogSample) (finishes : list Z) (fi : Z) (changes : list (Z * Z)) (pendingCount : Z) : list BacklogSample :=
  match backlog with
  | [] => []
  | b :: rest =>
      let at_ := started + b_ElapsedNS b in
      let '(f, finishes) := advance (fun x => x) at_ finishes in
      let '(ch, changes) := advance fst at_ changes in
      let fi := fi + Z.of_nat (length f) in
      let pendingCount := foldl (fun n x => n + snd x) pendingCount ch in
      mkBacklogSample pendingCount (ObservationAvailable b) (FinalVerification b) (b_ElapsedNS b) fi (b_Visible b)
        :: rebuild rest finishes fi changes pendingCount
  end.

Definition rebuild_backlog (a : Account) (o : Observing) : list BacklogSample :=
  rebuild (Backlog o) (ZSort.sort (map snd (map_to_list (acceptedAt a)))) 0 (ChangeSort.sort (pending_changes (acceptedAt a) (observedAt o))) 0.

(** The number of events acknowledged in the window and not observed in
    it. *)
Definition backlog_at_window_end (a : Account) (o : Observing) : Z :=
  Z.of_nat (length (List.filter (fun kv => negb (windowEnd <? snd kv) &&
     match observedAt o !! fst kv with Some visible => windowEnd <? visible | None => true end) (map_to_list (acceptedAt a)))).

(** When the last acknowledged event was observed, if all were. *)
Definition observation_completed (a : Account) (o : Observing) : option Z :=
  if bool_decide (acceptedAt a = ∅) then None
  else if bool_decide (dom (acceptedAt a) ⊆ dom (observedAt o)) then
    match omap (fun id => observedAt o !! id) (elements (dom (acceptedAt a))) with
    | at_ :: rest => Some (foldl Z.max at_ rest - started)
    | [] => None
    end
  else None.

Record SampleReport := mkSampleReport {
  sp_run : PipelineRun;
  sp_Planned : Z;
  sp_Attempted : Z;
  sp_AttemptedInWindow : Z;
  sp_ObservedEvents : Z;
  sp_BacklogAtWindowEnd : Z;
  sp_DrainNS : Z;
  sp_ObservationErrorClass : string;
  sp_ObservationCompletedNS : option Z;
  sp_Ack : Latency;
  sp_AckNS : list Z;
  sp_Backlog : list BacklogSample
}.

Variable rep : Z.

(** The observations left in the channel when the observer has exited. *)
Definition final_observing (s : Sample) : Observing :=
  foldl (fun o v => recordObservation v (s_expectedCancel s) o) (s_obs s) (p_results (s_probe s)).

(** The rest of [runPipelineSample], when the observer has exited, at an
    instant. *)
Definition finish_sample (s : Sample) (end_ : Z) : option (SampleReport * goerr) :=
  match s_phase s, p_exited (s_probe s) with
  | PDrained, true =>
      let o := final_observing s in
      let a := s_account s in
      let failed := match observationError o, s_result s with None, None => false | _, _ => true end in
      let status := if failed then "failed"%string else if needsObservation a o then "partial"%string else "complete"%string in
      let class := if failed then
          match observationError o with Some e => if errors_Is e context_DeadlineExceeded then "timeout"%string else "query_failed"%string
                                      | None => "query_failed"%string end
        else ""%string in
      let visibility := Percentiles (o_VisibilityNS o) in
      let total := end_ - started in
      let f := mkFacts rep (a_AttemptedIDs a) (a_AcceptedIDs a) (a_AmbiguousIDs a) (s_missed s) (s_late s) (a_Rejected a) (a_Ambiguous a)
                 (a_AttemptedAfterWindow a) (a_AcceptedAfterWindow a) (a_AcceptedInWindow a) (o_LatePolls o) (o_Outages o) (o_SlowQueries o)
                 total (g_Duration c) (o_VisibilityNS o) in
      let metric := if bool_decide (status = "complete"%string) && negb (bool_decide (o_VisibilityNS o = [])) then Some visibility else None in
      let r := mkRun f (o_StoredIDs o) 0 ∅ 0 0 0 0 0 0 0 0 0 0 metric false []
                 (if s_aborted s then "aborted"%string else ""%string) "not_run" status "" in
      let '(reconcileErr, r) := Reconcile r in
      Some (mkSampleReport r (Z.of_nat planned) (a_Attempted a) (a_AttemptedInWindow a) (Z.of_nat (size (seen o))) (backlog_at_window_end a o)
              (Z.max 0 (end_ - windowEnd)) class (observation_completed a o) (Percentiles (a_AckNS a)) (a_AckNS a) (rebuild_backlog a o),
            match observationError o with
            | Some e => errors_Join [s_result s; Some (EObservation e)]
            | None => errors_Join [s_result s; reconcileErr]
            end)
  | _, _ => None
  end.
End Sample.
