(* ===== verification/LoadGenProps.v ===== *)
(** * The load generator's books balance

    Invariants of a sample over every interleaving of its goroutines:
    nothing that was planned is lost or counted twice, and nobody waits on a
    full channel; and the reconstruction of the backlog. *)
From S2P Require Import Prelude GoBytes GoTime GoJson GoEncode Event Runtime GoFloat BenchAccounting BenchProps LoadGen.
From Stdlib Require Import Sorting.Permutation Sorting.Sorted Sorting.Mergesort.

Section Books.
Context {U : UUIDLib}.
Context (c : SampleConfig) (ids : list uuid) (started : Z) (Hc : (0 < g_Concurrency c)%nat) (Hb : (0 < g_BatchSize c)%nat).

(** ** The events of the generator *)

Definition job_of (w : worker) : list uuid := match w with Sending job _ => job | _ => [] end.
Definition sending (ws : list worker) : list uuid := concat (map job_of ws).
Definition is_sending (w : worker) : bool := match w with Sending _ _ => true | _ => false end.
Definition busy (ws : list worker) : nat := length (List.filter is_sending ws).

Lemma sending_insert ws k w w0 : ws !! k = Some w0 -> sending (<[k := w]> ws) ++ job_of w0 ≡ₚ sending ws ++ job_of w.
Proof.
  revert k. induction ws as [|x ws IH]; intros k Hk; [done|]. unfold sending in *. destruct k as [|k]; cbn [list_insert insert map concat] in *.
  - injection Hk as ->. rewrite <- !app_assoc, !(Permutation_app_comm (concat _)), !app_assoc. f_equiv. apply Permutation_app_comm.
  - specialize (IH k Hk). rewrite <- !app_assoc. by f_equiv.
Qed.

Lemma busy_insert ws k w w0 : ws !! k = Some w0 ->
  (busy (<[k := w]> ws) + Nat.b2n (is_sending w0) = busy ws + Nat.b2n (is_sending w))%nat.
Proof.
  unfold busy. revert k. induction ws as [|x ws IH]; intros k Hk; [done|]. destruct k as [|k]; cbn [list_insert insert List.filter] in *.
  - injection Hk as ->. destruct (is_sending w), (is_sending w0); cbn; lia.
  - specialize (IH k Hk). destruct (is_sending x); cbn [length]; [rewrite !Nat.add_succ_l; f_equal|]; exact IH.
Qed.

Lemma insert_nonempty (ws : list worker) k w : ws <> [] -> <[k := w]> ws <> [].
Proof. by destruct ws, k. Qed.

(** What was taken from the plan is attempted, on its way or missed. *)
Definition conserved (attempted : list uuid) (g : Generator) : Prop :=
  exists skipped, Z.of_nat (length skipped) = g_missed g /\
    attempted ++ concat (map sr_IDs (g_results g)) ++ sending (g_workers g) ++ concat (g_jobs g) ++ skipped ≡ₚ
      (if g_scheduled g then ids else firstn (g_next g) ids).

(** The workers leave when the queue is closed and empty, and [results] is
    closed when they have. *)
Definition orderly (g : Generator) : Prop :=
  g_workers g <> [] /\
  (Exited ∈ g_workers g -> g_scheduled g = true /\ g_jobs g = []) /\
  (g_closed g = true -> Forall (fun w => w = Exited) (g_workers g)).

(** The requests made so far fit the batches scheduled so far. *)
Definition counted (collected : nat) (g : Generator) : Prop :=
  exists q, (g_next g = q * g_BatchSize c)%nat /\ (q <= capacity c ids)%nat /\
    (collected + length (g_results g) + busy (g_workers g) + length (g_jobs g) <= q)%nat.

Definition balanced (attempted : list uuid) (collected : nat) (g : Generator) : Prop :=
  conserved attempted g /\ orderly g /\ counted collected g.

Lemma balanced_new : balanced [] 0 (new_generator c).
Proof.
  assert (Hs : sending (replicate (g_Concurrency c) Waiting) = []) by (generalize (g_Concurrency c); intros n; induction n as [|n IH]; [done|exact IH]).
  assert (Hbusy : busy (replicate (g_Concurrency c) Waiting) = 0%nat) by (generalize (g_Concurrency c); intros n; induction n as [|n IH]; [done|exact IH]).
  split; [|split].
  - exists []. split; [done|]. cbn [new_generator g_results g_workers g_jobs g_scheduled g_next map concat app firstn]. by rewrite Hs.
  - split; [cbn; destruct (g_Concurrency c); [lia|done]|]. split; [|done]. intros E%elem_of_replicate. by destruct E.
  - exists 0%nat. cbn [new_generator g_results g_workers g_jobs g_next length]. rewrite Hbusy. lia.
Qed.

Lemma capacity_batch q : (q * g_BatchSize c < length ids)%nat -> (S q <= capacity c ids)%nat.
Proof.
  intros H. unfold capacity, planned. apply Nat.div_le_lower_bound; nia.
Qed.

Lemma balanced_schedule attempted collected cancelled t1 t2 g g' :
  schedule c ids started cancelled t1 t2 g = Some g' -> balanced attempted collected g -> balanced attempted collected g'.
Proof.
  unfold schedule. destruct (g_scheduled g) eqn:Es; [done|]. cbv zeta. intros H ((sk & Hm & Hp) & (W1 & W2 & W3) & (q & Q1 & Q2 & Q3)).
  rewrite Es in Hp. assert (Hno : ~ Exited ∈ g_workers g) by (intros E; apply W2 in E as [? _]; congruence).
  assert (Hclosed : g_closed g = false).
  { destruct (g_closed g); [|done]. specialize (W3 eq_refl). destruct (g_workers g) as [|w ws]; [done|]. apply Forall_cons in W3 as [-> _]. set_solver. }
  assert (Hend : forall late, balanced attempted collected (mkGenerator (g_next g) (g_missed g + Z.of_nat (planned ids - g_next g)) late true
    (g_jobs g) (g_workers g) (g_results g) (g_closed g))).
  { intros late. split; [|split; [split; [done|split; [done|by rewrite Hclosed]]|by exists q]].
    exists (sk ++ skipn (g_next g) ids). cbn. rewrite length_app, length_skipn. unfold planned. split; [lia|].
    rewrite <- (take_drop (g_next g) ids) at 2. rewrite <- Hp. by rewrite !app_assoc. }
  destruct (planned ids <=? g_next g)%nat eqn:Ep.
  { injection H as <-. apply Nat.leb_le in Ep. specialize (Hend (g_late g)). rewrite (proj2 (Nat.sub_0_le _ _) Ep), Z.add_0_r in Hend. exact Hend. }
  apply Nat.leb_gt in Ep. destruct (cancelled && _); [injection H as <-; apply Hend|]. destruct (t1 <? _); [done|].
  destruct (_ <? t2); [injection H as <-; apply Hend|].
  set (job := firstn (g_BatchSize c) (skipn (g_next g) ids)) in *.
  assert (Hjob : firstn (g_next g + g_BatchSize c) ids = firstn (g_next g) ids ++ job) by (unfold job; symmetry; apply take_take_drop).
  assert (Hq : (S q <= capacity c ids)%nat) by (apply capacity_batch; unfold planned in Ep; lia).
  destruct (length (g_jobs g) <? _)%nat; injection H as <-.
  - split; [|split; [split; [done|split; [done|by rewrite Hclosed]]|]].
    + exists sk. cbn. split; [done|]. rewrite Hjob, <- Hp, concat_app. cbn [concat]. rewrite app_nil_r. rewrite <- !app_assoc.
      do 3 f_equiv. f_equiv. apply Permutation_app_comm.
    + exists (S q). cbn [g_next g_results g_workers g_jobs]. rewrite length_app, Q1. cbn [length]. split; [lia|]. split; [exact Hq|lia].
  - split; [|split; [split; [done|split; [done|by rewrite Hclosed]]|]].
    + exists (sk ++ job). cbn. rewrite length_app. split; [lia|]. rewrite Hjob, <- Hp. by rewrite <- !app_assoc.
    + exists (S q). cbn [g_next g_results g_workers g_jobs]. rewrite Q1. split; [lia|]. split; [exact Hq|lia].
Qed.

Lemma balanced_take attempted collected k t g g' :
  take_job k t g = Some g' -> balanced attempted collected g -> balanced attempted collected g'.
Proof.
  unfold take_job. destruct (g_workers g !! k) as [w|] eqn:Ek; [|done]. destruct w; try done.
  intros H ((sk & Hm & Hp) & (W1 & W2 & W3) & (q & Q1 & Q2 & Q3)).
  assert (Hopen : g_closed g = false).
  { destruct (g_closed g); [|done]. specialize (W3 eq_refl). eapply Forall_lookup_1 in W3; [|exact Ek]. done. }
  destruct (g_jobs g) as [|job rest] eqn:Ej.
  - destruct (g_scheduled g) eqn:Es; [|done]. injection H as <-.
    pose proof (sending_insert _ _ Exited _ Ek) as Hs. pose proof (busy_insert _ _ Exited _ Ek) as Hbu. cbn [job_of is_sending Nat.b2n] in *. rewrite !app_nil_r in Hs.
    split; [|split].
    + exists sk. cbn. split; [done|]. rewrite Hs. exact Hp.
    + split; [by apply insert_nonempty|]. split; [done|]. cbn. by rewrite Hopen.
    + exists q. cbn [g_next g_results g_workers g_jobs length] in *. split; [done|]. split; [done|lia].
  - injection H as <-.
    pose proof (sending_insert _ _ (Sending job t) _ Ek) as Hs. pose proof (busy_insert _ _ (Sending job t) _ Ek) as Hbu.
    cbn [job_of is_sending Nat.b2n] in *. rewrite app_nil_r in Hs. split; [|split].
    + exists sk. cbn [g_missed g_results g_workers g_jobs g_scheduled g_next]. split; [done|]. rewrite Hs, <- Hp. cbn [concat]. by rewrite <- !app_assoc.
    + split; [by apply insert_nonempty|]. split; [|cbn; by rewrite Hopen]. cbn. intros E. exfalso.
      apply list_elem_of_lookup in E as [j Hj]. apply list_lookup_insert_Some in Hj as [(_ & [=] & _)|[_ Hj]].
      apply list_elem_of_lookup_2, W2 in Hj as [_ [=]].
    + exists q. cbn [g_next g_results g_workers g_jobs length] in *. split; [done|]. split; [done|lia].
Qed.

Lemma balanced_finish attempted collected k v t g g' :
  finish_job c ids k v t g = Some g' -> balanced attempted collected g -> balanced attempted collected g'.
Proof.
  unfold finish_job. destruct (g_workers g !! k) as [w|] eqn:Ek; [|done]. destruct w as [|job at_|]; try done.
  destruct (_ && _); [|done]. intros [= <-] ((sk & Hm & Hp) & (W1 & W2 & W3) & (q & Q1 & Q2 & Q3)).
  pose proof (sending_insert _ _ Waiting _ Ek) as Hs. pose proof (busy_insert _ _ Waiting _ Ek) as Hbu.
  cbn [job_of is_sending Nat.b2n] in *. rewrite app_nil_r in Hs. split; [|split].
  - exists sk. cbn [g_missed g_results g_workers g_jobs g_scheduled g_next]. split; [done|]. rewrite <- Hp, map_app, concat_app. cbn [map concat sr_IDs].
    rewrite app_nil_r, <- Hs, <- !app_assoc. do 2 f_equiv. rewrite !app_assoc. do 2 f_equiv. apply Permutation_app_comm.
  - split; [by apply insert_nonempty|]. split.
    + cbn. intros E. apply W2. apply list_elem_of_lookup in E as [j Hj].
      apply list_lookup_insert_Some in Hj as [(_ & [=] & _)|[_ Hj]]. by eapply list_elem_of_lookup_2.
    + cbn. intros E. specialize (W3 E). eapply Forall_lookup_1 in W3; [|exact Ek]. done.
  - exists q. cbn [g_next g_results g_workers g_jobs]. rewrite length_app. cbn [length]. split; [done|]. split; [done|lia].
Qed.

Lemma balanced_close attempted collected g g' :
  close_results g = Some g' -> balanced attempted collected g -> balanced attempted collected g'.
Proof.
  unfold close_results. destruct (negb _ && _) eqn:E; [|done]. intros [= <-] (H1 & (W1 & W2 & W3) & H3).
  apply andb_true_iff in E as [_ E]. rewrite forallb_forall in E. split; [done|]. split; [|done]. split; [done|]. split; [done|].
  intros _. apply Forall_forall. intros w Hw%list_elem_of_In. specialize (E w Hw). by destruct w.
Qed.

(** ** The accounts *)

(** Every attempted event was accepted, is ambiguous or was rejected, and the
    counts agree with the lists. *)
Record account_ok (a : Account) : Prop := {
  acc_split : exists rejected, Z.of_nat (length rejected) = a_Rejected a /\
    a_AttemptedIDs a ≡ₚ a_AcceptedIDs a ++ a_AmbiguousIDs a ++ rejected;
  acc_attempted : a_Attempted a = Z.of_nat (length (a_AttemptedIDs a));
  acc_window : a_AttemptedInWindow a + a_AttemptedAfterWindow a = a_Attempted a;
  acc_accepted : a_AcceptedInWindow a + a_AcceptedAfterWindow a = Z.of_nat (length (a_AcceptedIDs a));
  acc_ambiguous : a_Ambiguous a = Z.of_nat (length (a_AmbiguousIDs a));
  acc_requests : length (a_AckNS a) = length (List.filter ro_Accepted (RequestSamples a));
  acc_at : dom (acceptedAt a) = (list_to_set (a_AcceptedIDs a) : gset uuid)
}.

Lemma account_new : account_ok new_account.
Proof. split; try done. exists []. done. Qed.

Lemma dom_record (l : list uuid) t (m : gmap uuid Z) : dom (foldl (fun m id => <[id := t]> m) m l) = dom m ∪ list_to_set l.
Proof. revert m. induction l as [|id l IH]; intros m; cbn [foldl list_to_set]; [set_solver|]. rewrite IH, dom_insert_L. set_solver. Qed.

Lemma account_record v a : account_ok a -> account_ok (recordRequest c started v a).
Proof.
  intros [(rej & Hr & Hp) A2 A3 A4 A5 A6 A7]. unfold recordRequest. cbv zeta. cbn [RequestSamples HTTPCompletedNS a_AttemptedIDs a_Attempted
    a_AttemptedInWindow a_AttemptedAfterWindow a_AcceptedInWindow a_AcceptedAfterWindow a_AcceptedIDs a_AckNS acceptedAt a_Ambiguous a_AmbiguousIDs a_Rejected].
  destruct (sr_Accepted v) eqn:Ea; [|destruct (sr_Ambiguous v)]; split; cbn [RequestSamples a_AttemptedIDs a_Attempted
    a_AttemptedInWindow a_AttemptedAfterWindow a_AcceptedInWindow a_AcceptedAfterWindow a_AcceptedIDs a_AckNS acceptedAt a_Ambiguous a_AmbiguousIDs a_Rejected];
    rewrite ?List.filter_app, ?length_app; cbn [List.filter ro_Accepted]; try (rewrite Ea); cbn [length]; try (destruct (_ <? _); lia); try lia.
  - exists rej. split; [done|]. rewrite Hp, <- !app_assoc. f_equiv. rewrite !app_assoc. rewrite Permutation_app_comm, !app_assoc. by f_equiv.
  - rewrite dom_record, A7, list_to_set_app_L. done.
  - exists rej. split; [done|]. rewrite Hp, <- !app_assoc. do 2 f_equiv. apply Permutation_app_comm.
  - exact A7.
  - exists (rej ++ sr_IDs v). rewrite length_app. split; [lia|]. by rewrite Hp, <- !app_assoc.
  - exact A7.
Qed.

(** ** Every event of a sample *)

(** What waits for, is in, or comes from the observer's query. *)
Definition outstanding (p : Probe) : nat :=
  (Nat.b2n (p_request p) + match p_running p with Some _ => 1 | None => 0 end + length (p_results p))%nat.

Record sample_ok (s : Sample) : Prop := {
  ok_books : balanced (a_AttemptedIDs (s_account s)) (length (RequestSamples (s_account s))) (s_gen s);
  ok_account : account_ok (s_account s);
  ok_done : s_workersDone s = true -> g_closed (s_gen s) = true /\ g_results (s_gen s) = [];
  ok_phase : s_phase s = PWindow \/ (s_workersDone s = true /\ s_missed s = g_missed (s_gen s));
  ok_probe : (outstanding (s_probe s) <= Nat.b2n (inFlight (s_obs s)))%nat
}.

(** The state when the workers are done. *)
Lemma books_closed a n g :
  balanced a n g -> g_closed g = true -> g_scheduled g = true /\ g_jobs g = [] /\ sending (g_workers g) = [].
Proof.
  intros (_ & (W1 & W2 & W3) & _) Hcl. specialize (W3 Hcl). destruct (g_workers g) as [|w ws] eqn:E; [done|].
  assert (Hex : Exited ∈ w :: ws) by (apply Forall_cons in W3 as [-> _]; set_solver).
  destruct (W2 Hex) as [H1 H2]. split; [done|]. split; [done|]. clear -W3. unfold sending.
  induction W3 as [|x l -> _ IH]; [done|exact IH].
Qed.

(** After that the generator's books do not change. *)
Lemma closed_final g g' : g_scheduled g = true -> forall cancelled t1 t2, schedule c ids started cancelled t1 t2 g = Some g' -> False.
Proof. intros H cancelled t1 t2. unfold schedule. by rewrite H. Qed.

Lemma load_event_ok s (o : option Generator) s' :
  load_event o s = Some s' -> sample_ok s ->
  (forall g', o = Some g' -> balanced (a_AttemptedIDs (s_account s)) (length (RequestSamples (s_account s))) g' /\
     (g_closed (s_gen s) = true -> g_results g' = g_results (s_gen s) /\ g_closed g' = true /\ g_missed g' = g_missed (s_gen s))) ->
  sample_ok s'.
Proof.
  unfold load_event. destruct o as [g'|]; [|done]. cbn [option_map]. intros [= <-] [S1 S2 S3 S4 S5] H. destruct (H g' eq_refl) as [Hbal Hcl].
  split; cbn [set_gen s_account s_gen s_workersDone s_phase s_missed s_probe s_obs]; try done.
  - intros Hd. destruct (S3 Hd) as [E1 E2]. destruct (Hcl E1) as (-> & -> & _). done.
  - destruct S4 as [S4|[Hd S4]]; [by left|right]. split; [done|]. destruct (S3 Hd) as [E1 _]. destruct (Hcl E1) as (_ & _ & ->). done.
Qed.

(** No worker is left when [results] is closed. *)
Lemma closed_workers a n g k w : balanced a n g -> g_closed g = true -> g_workers g !! k = Some w -> w = Exited.
Proof. intros (_ & (_ & _ & W3) & _) Hcl Hk. specialize (W3 Hcl). by eapply Forall_lookup_1 in W3. Qed.

Lemma record_observation_flight v b o : inFlight (recordObservation c started v b o) = false.
Proof.
  unfold recordObservation. cbv zeta. cbn [inFlight]. set (o0 := mkObserving _ _ _ _ _ _ _ _ _ _ _ _ _ _ _).
  assert (H : inFlight o0 = false) by done. clearbody o0. revert o0 H. induction (or_rows v) as [|row rows IH]; intros o0 H; [done|].
  cbn [foldl]. apply IH. unfold record_row. case_bool_decide; done.
Qed.

(** Taking a result from the observer makes room for a request. *)
Lemma observation_ok s v rest :
  p_results (s_probe s) = v :: rest -> sample_ok s ->
  sample_ok (set_observing (recordObservation c started v false (s_obs s))
    (mkProbe (p_request (s_probe s)) (p_running (s_probe s)) rest (p_exited (s_probe s)) (p_clock (s_probe s))) s).
Proof.
  intros E [S1 S2 S3 S4 S5]. split; try done. cbn [set_observing s_probe s_obs]. rewrite record_observation_flight. unfold outstanding in *. rewrite E in S5.
  cbn [p_request p_running p_results length] in *. destruct (inFlight (s_obs s)); cbn [Nat.b2n] in *; lia.
Qed.

Lemma request_ok s s' : requestObservation s = Some s' -> sample_ok s -> sample_ok s'.
Proof.
  unfold requestObservation. destruct (negb _ && _) eqn:E; [|by intros [= <-]]. cbv zeta. destruct (p_request _) eqn:Er; [done|].
  intros [= <-] [S1 S2 S3 S4 S5]. split; try done. apply andb_true_iff in E as [E _]. apply negb_true_iff in E. rewrite E in S5.
  unfold outstanding in *. cbn in *. rewrite Er in S5. cbn in S5. lia.
Qed.

Lemma probe_ok s p : (outstanding p <= outstanding (s_probe s))%nat -> sample_ok s -> sample_ok (set_observing (s_obs s) p s).
Proof. intros Hp [S1 S2 S3 S4 S5]. split; try done. cbn. lia. Qed.

Lemma loop_ok s ph elapsed workersDone result aborted :
  sample_ok s -> (workersDone = true -> g_closed (s_gen s) = true /\ g_results (s_gen s) = []) ->
  ph = PWindow \/ (workersDone = true /\ s_missed s = g_missed (s_gen s)) -> sample_ok (set_loop ph elapsed workersDone result aborted s).
Proof. intros [S1 S2 S3 S4 S5] Hd Hp. by split. Qed.

(** The loop takes a result from the workers. *)
Lemma result_ok s v rest g :
  g = s_gen s -> g_results g = v :: rest -> s_workersDone s = false -> s_phase s = PWindow -> sample_ok s ->
  sample_ok (set_account (recordRequest c started v (s_account s))
    (set_gen (mkGenerator (g_next g) (g_missed g) (g_late g) (g_scheduled g) (g_jobs g) (g_workers g) rest (g_closed g)) s)).
Proof.
  intros -> Er Hd Hp [((sk & Hm & Hperm) & Ho & (q & Q1 & Q2 & Q3)) S2 S3 S4 S5].
  assert (Ha : a_AttemptedIDs (recordRequest c started v (s_account s)) = a_AttemptedIDs (s_account s) ++ sr_IDs v /\
               length (RequestSamples (recordRequest c started v (s_account s))) = S (length (RequestSamples (s_account s)))).
  { unfold recordRequest. cbv zeta. destruct (sr_Accepted v); [|destruct (sr_Ambiguous v)]; cbn; rewrite length_app; cbn; split; [done|lia|done|lia|done|lia]. }
  destruct Ha as [Ha Hn]. split; cbn [set_account set_gen s_account s_gen s_workersDone s_phase s_missed s_probe s_obs]; try done.
  - split; [|split; [exact Ho|]].
    + exists sk. split; [done|]. cbn [g_results g_workers g_jobs g_scheduled g_next]. rewrite Ha, <- Hperm, Er. cbn [map concat]. by rewrite <- !app_assoc.
    + exists q. cbn [g_results g_workers g_jobs g_next]. rewrite Hn. rewrite Er in Q3. cbn [length] in Q3. split; [done|]. split; [done|lia].
  - by apply account_record.
  - by rewrite Hd.
Qed.

Lemma sample_ok_new : sample_ok (new_sample c started).
Proof. split; [exact balanced_new|exact account_new|done|by left|cbn; lia]. Qed.

Lemma step_sample_ok s e s' : step_sample c ids started s e = Some s' -> sample_ok s -> sample_ok s'.
Proof.
  intros H S. pose proof S as [S1 S2 S3 S4 S5]. destruct e; cbn [step_sample] in H.
  - eapply load_event_ok; [exact H|done|]. intros g' Hg. split; [by eapply balanced_schedule|].
    intros Hcl. destruct (books_closed _ _ _ S1 Hcl) as [Hs _]. by eapply closed_final in Hg.
  - eapply load_event_ok; [exact H|done|]. intros g' Hg. split; [by eapply balanced_take|]. intros Hcl. revert Hg. unfold take_job.
    destruct (g_workers (s_gen s) !! k) eqn:Ek; [|done]. by rewrite (closed_workers _ _ _ _ _ S1 Hcl Ek).
  - eapply load_event_ok; [exact H|done|]. intros g' Hg. split; [by eapply balanced_finish|]. intros Hcl. revert Hg. unfold finish_job.
    destruct (g_workers (s_gen s) !! k) eqn:Ek; [|done]. by rewrite (closed_workers _ _ _ _ _ S1 Hcl Ek).
  - eapply load_event_ok; [exact H|done|]. intros g' Hg. split; [by eapply balanced_close|]. intros Hcl. revert Hg. unfold close_results. by rewrite Hcl.
  - destruct (p_request (s_probe s)) eqn:Er; [|done]. cbn [andb] in H. destruct (_ && _) eqn:E; [|done]. injection H as <-.
    apply probe_ok; [|done]. apply andb_true_iff in E as [[_ E]%andb_true_iff _]. apply bool_decide_eq_true in E.
    unfold outstanding. rewrite Er, E. cbn. lia.
  - destruct (p_running (s_probe s)) eqn:Er; [|done]. destruct (bool_decide _ && _); [|done]. injection H as <-. apply probe_ok; [|done].
    unfold outstanding. rewrite Er. cbn. rewrite length_app. cbn. lia.
  - destruct (bool_decide _) eqn:Er; [|done]. cbn [andb] in H. destruct (negb _); [|done]. injection H as <-. apply probe_ok; [|done].
    apply bool_decide_eq_true in Er. unfold outstanding. by rewrite Er.
  - destruct (s_phase s) eqn:Ep; [| |done].
    + destruct (_ && _); [|done]. injection H as <-. apply loop_ok; [done|done|by left].
    + destruct (drain_open s); [|done]. injection H as <-. apply loop_ok; [done|done|]. destruct S4 as [S4|S4]; [congruence|by right].
  - destruct (s_phase s) eqn:Ep; try done. destruct (window_open s); [|done]. injection H as <-. apply loop_ok; [done|done|by left].
  - destruct (s_phase s) eqn:Ep; try done. destruct (s_workersDone s) eqn:Ed; [by rewrite orb_true_r in H|]. rewrite orb_false_r in H.
    destruct (negb (window_open s)); [done|]. destruct (g_results (s_gen s)) as [|v rest] eqn:Er.
    + destruct (g_closed (s_gen s)) eqn:Ecl; [|done]. injection H as <-. apply loop_ok; [done|done|by left].
    + injection H as <-. by apply result_ok.
  - destruct (s_phase s) eqn:Ep; try done; [destruct (window_open s)|destruct (drain_open s)]; try done;
      (destruct (p_results (s_probe s)) as [|v rest] eqn:Er; [done|]); injection H as <-; by apply observation_ok.
  - destruct (s_phase s) eqn:Ep; try done; [destruct (window_open s)|destruct (drain_open s)]; try done; [|by eapply request_ok].
    destruct (_ && _) in H; [by eapply request_ok|by injection H as <-].
  - destruct (s_phase s) eqn:Ep; try done. destruct (window_open s) eqn:Ew; [done|]. cbn [orb] in H. destruct (negb _); [done|].
    apply orb_false_iff in Ew as [_ Ew]. apply negb_false_iff in Ew. cbv zeta in H. cbn [s_account s_obs] in H.
    assert (Hok : sample_ok (mkSample (s_gen s) (s_account s) (s_obs s) (s_probe s) PDrain (s_windowElapsed s) (s_workersDone s) (s_result s)
      (s_aborted s) (g_missed (s_gen s)) (g_late (s_gen s)) (t - started) false)) by (split; try done; by right).
    destruct (needsObservation _ _); [by eapply request_ok|by injection H as <-].
  - destruct (s_phase s) eqn:Ep; try done. destruct (drain_open s); [|done]. injection H as <-.
    destruct S4 as [S4|S4]; [congruence|]. destruct (allSeen s); split; try done; by right.
  - destruct (s_phase s) eqn:Ep; try done. destruct (drain_open s); [done|]. injection H as <-.
    destruct S4 as [S4|S4]; [congruence|]. split; try done; by right.
Qed.

Lemma run_sample_ok es s s' : run_sample c ids started s es = Some s' -> sample_ok s -> sample_ok s'.
Proof.
  revert s. induction es as [|e es IH]; intros s; cbn [run_sample]; [by intros [= <-]|].
  destruct (step_sample c ids started s e) as [s1|] eqn:E; [|done]. intros H S. eapply IH; [exact H|]. by eapply step_sample_ok.
Qed.

(** The books at the end of the accounting. *)
Lemma books_balance s :
  sample_ok s -> s_phase s <> PWindow ->
  exists skipped rejected,
    Z.of_nat (length skipped) = s_missed s /\ Z.of_nat (length rejected) = a_Rejected (s_account s) /\
    a_AttemptedIDs (s_account s) ++ skipped ≡ₚ ids /\
    a_AttemptedIDs (s_account s) ≡ₚ a_AcceptedIDs (s_account s) ++ a_AmbiguousIDs (s_account s) ++ rejected.
Proof.
  intros [S1 [(rej & Hr & Hsp) _ _ _ _ _ _] S3 S4 _] Hp. destruct S4 as [?|[Hd Hm]]; [done|]. destruct (S3 Hd) as [Hcl Hres].
  destruct (books_closed _ _ _ S1 Hcl) as (Hs & Hj & Hse). destruct S1 as ((sk & Hsk & Hperm) & _).
  rewrite Hs, Hj, Hse, Hres in Hperm. exists sk, rej. rewrite Hm. split; [done|]. split; [done|]. split; [exact Hperm|done].
Qed.

(** C30: the report of a sample accounts for every planned event exactly once.
    However the goroutines interleave, whatever requests and queries return,
    and if the run is aborted: the planned events are those attempted and
    those the generator missed; the attempted ones are those accepted, those
    whose delivery is ambiguous and those rejected, none of them twice; both
    counts split at the end of the window; and each accepted request gave one
    latency. *)
Theorem sample_books_balance rep es s end_ r err :
  NoDup ids -> run_sample c ids started (new_sample c started) es = Some s ->
  finish_sample c ids started rep s end_ = Some (r, err) ->
  let f := facts (sp_run r) in
  sp_Planned r = sp_Attempted r + GeneratorMissed f /\
  sp_Attempted r = Accepted (sp_run r) + Ambiguous f + Rejected f /\
  sp_AttemptedInWindow r + AttemptedAfterWindow f = sp_Attempted r /\
  AcceptedInWindow f + AcceptedAfterWindow f = Accepted (sp_run r) /\
  (exists skipped, AttemptedIDs f ++ skipped ≡ₚ ids) /\
  (exists rejected, AttemptedIDs f ≡ₚ AcceptedIDs f ++ AmbiguousIDs f ++ rejected) /\
  length (sp_AckNS r) = length (List.filter ro_Accepted (RequestSamples (s_account s))).
Proof.
  intros Hnd Hrun Hfin. pose proof (run_sample_ok _ _ _ Hrun sample_ok_new) as S. unfold finish_sample in Hfin.
  destruct (s_phase s) eqn:Ep; [done|done|]. destruct (p_exited _); [|done]. cbv zeta in Hfin.
  destruct (books_balance s S ltac:(congruence)) as (sk & rej & H1 & H2 & H3 & H4). destruct (ok_account s S) as [_ A2 A3 A4 A5 A6 _].
  assert (Hacc : Z.of_nat (size (uniqueIDs (a_AcceptedIDs (s_account s)))) = Z.of_nat (length (a_AcceptedIDs (s_account s)))).
  { pose proof (proj2 (size_uniqueIDs (a_AcceptedIDs (s_account s)))) as Hs. rewrite <- H3, H4 in Hnd.
    apply NoDup_app in Hnd as [Hnd _]. apply NoDup_app in Hnd as [Hnd _]. specialize (Hs Hnd). lia. }
  assert (Hl1 := Permutation_length H3). assert (Hl2 := Permutation_length H4). rewrite ?length_app in Hl1. rewrite !length_app in Hl2.
  unfold Reconcile in Hfin. injection Hfin as <- _. cbn [sp_Planned sp_Attempted sp_AttemptedInWindow sp_AckNS sp_run facts Accepted GeneratorMissed Ambiguous Rejected
    AttemptedAfterWindow AcceptedInWindow AcceptedAfterWindow AttemptedIDs AcceptedIDs AmbiguousIDs]. unfold planned. rewrite Hacc.
  split; [lia|]. split; [lia|]. split; [lia|]. split; [lia|]. split; [by exists sk|]. split; [by exists rej|exact A6].
Qed.

(** The observer, cancelled, ends: it finds room for the result of a query
    that is running. *)
Lemma observer_ends s rows err t : sample_ok s -> p_clock (s_probe s) <= t ->
  exists es s', run_sample c ids started s es = Some s' /\ p_exited (s_probe s') = true /\ Forall (fun e => e = EProbed rows err t \/ e = EProbeExit) es.
Proof.
  intros S Ht. destruct (p_exited (s_probe s)) eqn:Ex; [by exists [], s|]. destruct (p_running (s_probe s)) as [start|] eqn:Er.
  - pose proof (ok_probe s S) as Ho. unfold outstanding in Ho. rewrite Er in Ho.
    assert (Hres : p_results (s_probe s) = []).
    { destruct (p_results (s_probe s)); [done|]. cbn in Ho. destruct (inFlight _), (p_request _); cbn in Ho; lia. }
    eexists [EProbed rows err t; EProbeExit], _. split; [|split; [|by repeat constructor; auto]].
    + cbn [run_sample step_sample]. rewrite Er, Hres, (proj2 (Z.leb_le _ _) Ht), bool_decide_true by done. cbn [andb].
      cbn [set_observing s_probe p_running p_exited s_phase]. rewrite Ex. reflexivity.
    + reflexivity.
  - eexists [EProbeExit], _. split; [|split; [|by repeat constructor; auto]].
    + cbn [run_sample step_sample]. rewrite Er, Ex. reflexivity.
    + reflexivity.
Qed.

(** C31: nobody waits for ever on a channel.  At every point of a sample a
    worker whose request has returned finds room for the result, the
    accounting loop room for its request to the observer, and the observer
    room for what its query returned, whatever that is, so that it ends when
    it is cancelled; as long as the loop waits for workers, one of the
    scheduler, the workers, the closer and the loop can go on, whatever the
    pending request returns and as soon as the clock allows; when the workers
    are done and the window is over, the scheduler's counts are there to be
    received; and the loop that waits for the last observations always has a
    way on, its deadline if no other. *)
Theorem sample_never_blocks es s :
  run_sample c ids started (new_sample c started) es = Some s ->
  (forall k job at_ v t, g_workers (s_gen s) !! k = Some (Sending job at_) -> at_ <= t -> is_Some (finish_job c ids k v t (s_gen s))) /\
  is_Some (requestObservation s) /\
  (forall rows err t, p_clock (s_probe s) <= t -> exists es' s', run_sample c ids started s es' = Some s' /\
     p_exited (s_probe s') = true /\ Forall (fun e => e = EProbed rows err t \/ e = EProbeExit) es') /\
  (forall t, s_phase s = PWindow -> window_open s = false ->
   is_Some (step_sample c ids started s (EAccounted t))) /\
  (s_phase s = PDrain -> is_Some (step_sample c ids started s EDeadline) \/ is_Some (step_sample c ids started s EDrained)) /\
  (s_phase s = PWindow -> s_workersDone s = false ->
   is_Some (schedule c ids started false (due c ids started (g_next (s_gen s))) (started + active c) (s_gen s)) \/
   (exists k, is_Some (take_job k started (s_gen s))) \/
   (exists k job at_, g_workers (s_gen s) !! k = Some (Sending job at_)) \/
   is_Some (close_results (s_gen s)) \/
   is_Some (step_sample c ids started s EResult)).
Proof.
  intros Hrun. pose proof (run_sample_ok _ _ _ Hrun sample_ok_new) as S. pose proof S as [(Hcons & (W1 & W2 & W3) & (q & Q1 & Q2 & Q3)) _ S3 S4 S5].
  assert (Hreq : is_Some (requestObservation s)).
  { unfold requestObservation. destruct (negb _ && _) eqn:E; [|by eexists]. apply andb_true_iff in E as [E _]. apply negb_true_iff in E.
    rewrite E in S5. unfold outstanding in S5. destruct (p_request (s_probe s)); [cbn in S5; lia|by eexists]. }
  assert (Hsched : g_scheduled (s_gen s) = false -> is_Some (schedule c ids started false (due c ids started (g_next (s_gen s))) (started + active c) (s_gen s))).
  { intros Es. unfold schedule. rewrite Es. cbv zeta. destruct (_ <=? _)%nat; [by eexists|]. cbn [andb]. rewrite Z.ltb_irrefl.
    rewrite Z.ltb_irrefl. destruct (_ <? _)%nat; by eexists. }
  split; [|split; [exact Hreq|split; [intros; by apply observer_ends|split; [|split]]]].
  - intros k job at_ v t Hk Ht. unfold finish_job. rewrite Hk.
    assert (Hbusy : (1 <= busy (g_workers (s_gen s)))%nat).
    { pose proof (busy_insert _ _ Waiting _ Hk) as E. cbn [is_sending Nat.b2n] in E. lia. }
    rewrite (proj2 (Nat.ltb_lt _ _)), (proj2 (Z.leb_le _ _) Ht) by lia. by eexists.
  - intros t Hph Hw. assert (Hd : s_workersDone s = true) by (unfold window_open in Hw; by destruct (s_workersDone s); [|destruct (s_windowElapsed s)]).
    destruct (ok_done s S Hd) as [Hcl _]. destruct (books_closed _ _ _ (ok_books s S) Hcl) as (Es & _).
    cbn [step_sample]. rewrite Hph, Hw, Es. cbn [orb negb]. cbv zeta. case_match; [|by eexists].
    unfold requestObservation in *. cbn [s_obs s_probe] in *. destruct (negb _ && _); [|by eexists].
    destruct (p_request (s_probe s)); [by destruct Hreq|by eexists].
  - intros Hph. cbn [step_sample]. rewrite Hph. destruct (drain_open s); [left|right]; by eexists.
  - intros Hph Hd. destruct (g_scheduled (s_gen s)) eqn:Es.
    + right. destruct (forallb (fun w => match w with Exited => true | _ => false end) (g_workers (s_gen s))) eqn:Ef.
      * right. right. destruct (g_closed (s_gen s)) eqn:Ecl; [right|left; unfold close_results; rewrite Ecl, Ef; by eexists].
        cbn [step_sample]. rewrite Hph, Hd, orb_false_r. unfold window_open. rewrite Hd, orb_true_r. cbn [negb].
        destruct (g_results (s_gen s)); [rewrite Ecl|]; by eexists.
      * assert (Hw : exists k w, g_workers (s_gen s) !! k = Some w /\ w <> Exited).
        { clear -Ef. induction (g_workers (s_gen s)) as [|w ws IH]; [done|]. cbn [forallb] in Ef. destruct w; [by exists 0%nat, Waiting|by exists 0%nat; eexists|].
          cbn [andb] in Ef. destruct (IH Ef) as (k & w & Hk & Hne). by exists (S k), w. }
        destruct Hw as (k & w & Hk & Hne). destruct w as [|job at_|]; [left|right; left; eauto|done].
        exists k. unfold take_job. rewrite Hk. destruct (g_jobs (s_gen s)); [rewrite Es|]; by eexists.
    + left. by apply Hsched.
Qed.
End Books.

(** ** The backlog over time *)

(** The weight of what happened by [t]. *)
Definition weight_by {A} (time weight : A -> Z) (t : Z) (l : list A) : Z :=
  foldr (fun x n => (if time x <=? t then weight x else 0) + n) 0 l.

Lemma weight_by_app {A} (time weight : A -> Z) t l l' :
  weight_by time weight t (l ++ l') = weight_by time weight t l + weight_by time weight t l'.
Proof. unfold weight_by. induction l as [|x l IH]; cbn [foldr app]; [lia|]. rewrite IH. lia. Qed.

#[global] Instance weight_by_proper {A} (time weight : A -> Z) t : Proper (Permutation ==> eq) (weight_by time weight t).
Proof. unfold weight_by. intros l l' H. induction H; cbn [foldr]; lia. Qed.

Lemma sorted_weaken {A} (R R' : A -> A -> Prop) l : (forall x y, R x y -> R' x y) -> StronglySorted R l -> StronglySorted R' l.
Proof. intros H. induction 1 as [|x l Hs IH Hx]; constructor; [done|]. eapply Forall_impl; [exact Hx|]. auto. Qed.

(** Advancing over a list in order of time. *)
Lemma advance_spec {A} (time weight : A -> Z) at_ l :
  StronglySorted (fun x y => time x <= time y) l ->
  let '(passed, rest) := advance time at_ l in
  l = passed ++ rest /\ Forall (fun x => time x <= at_) passed /\ Forall (fun x => at_ < time x) rest /\
  StronglySorted (fun x y => time x <= time y) rest.
Proof.
  induction 1 as [|x l Hs IH Hx]; cbn [advance]; [by repeat constructor|]. destruct (at_ <? time x) eqn:E.
  - bool_to_prop. split; [done|]. split; [constructor|]. split; [|by constructor].
    constructor; [done|]. eapply Forall_impl; [exact Hx|]. cbn. intros y Hy. lia.
  - destruct (advance time at_ l) as [passed rest]. bool_to_prop. destruct IH as (-> & H1 & H2 & H3). split; [done|]. split; [by constructor|done].
Qed.

(** The part of a list that is left of an index, for later instants. *)
Definition left_over {A} (time weight : A -> Z) (at0 : Z) (all rest : list A) (n : Z) : Prop :=
  StronglySorted (fun x y => time x <= time y) rest /\ forall t, at0 <= t -> weight_by time weight t all = n + weight_by time weight t rest.

Lemma left_over_advance {A} (time weight : A -> Z) at0 at_ all rest n :
  at0 <= at_ -> left_over time weight at0 all rest n ->
  let '(passed, rest') := advance time at_ rest in
  let n' := n + foldr (fun x n => weight x + n) 0 passed in
  left_over time weight at_ all rest' n' /\ weight_by time weight at_ all = n'.
Proof.
  intros Hle [Hs Hw]. pose proof (advance_spec time weight at_ rest Hs) as Ha. destruct (advance time at_ rest) as [passed rest'].
  destruct Ha as (-> & Hp & Hr & Hs'). cbv zeta.
  assert (Hpw : forall t, at_ <= t -> weight_by time weight t passed = foldr (fun x n => weight x + n) 0 passed).
  { intros t Ht. clear -Hp Ht. unfold weight_by. induction Hp as [|x l Hx _ IH]; [done|]. cbn [foldr].
    rewrite (proj2 (Z.leb_le _ _)) by lia. lia. }
  assert (Hrw : weight_by time weight at_ rest' = 0).
  { clear -Hr. unfold weight_by. induction Hr as [|x l Hx _ IH]; [done|]. cbn [foldr].
    rewrite (proj2 (Z.leb_gt _ _)) by lia. lia. }
  split; [split; [done|]|].
  - intros t Ht. rewrite Hw by lia. rewrite weight_by_app, Hpw by lia. lia.
  - rewrite Hw by lia. rewrite weight_by_app, Hpw by lia. lia.
Qed.

Section Backlog.
Context {U : UUIDLib} (c : SampleConfig) (ids : list uuid) (started : Z).

(** How many events were acknowledged by an instant, and how many of those
    were not yet observed. *)
Definition acknowledged_by (accepted : gmap uuid Z) (t : Z) : Z :=
  Z.of_nat (length (List.filter (fun kv => snd kv <=? t) (map_to_list accepted))).
Definition pending_at (accepted observed : gmap uuid Z) (t : Z) : Z :=
  Z.of_nat (length (List.filter (fun kv => (snd kv <=? t) && match observed !! fst kv with Some o => t <? o | None => true end)
    (map_to_list accepted))).

Lemma finishes_weight accepted t :
  weight_by (fun x => x) (fun _ => 1) t (ZSort.sort (map snd (map_to_list accepted))) = acknowledged_by accepted t.
Proof.
  rewrite <- ZSort.Permuted_sort. unfold acknowledged_by, weight_by. induction (map_to_list accepted) as [|[id at_] l IH]; [done|].
  cbn [map snd foldr List.filter]. rewrite IH. destruct (at_ <=? t); cbn [length]; lia.
Qed.

Lemma changes_weight accepted observed t :
  weight_by fst snd t (ChangeSort.sort (pending_changes accepted observed)) = pending_at accepted observed t.
Proof.
  rewrite <- ChangeSort.Permuted_sort. unfold pending_at, pending_changes. induction (map_to_list accepted) as [|[id at_] l IH]; [done|].
  cbn [flat_map fst snd List.filter]. rewrite weight_by_app, IH. clear IH.
  destruct (observed !! id) as [o|]; [destruct (at_ <? o) eqn:E1|]; cbn [weight_by foldr fst snd];
    destruct (at_ <=? t) eqn:E2; try destruct (o <=? t) eqn:E3; try destruct (t <? o) eqn:E4; bool_to_prop; cbn [andb length]; lia.
Qed.

(** The entry of one poll, counted directly. *)
Definition counted_sample (a : Account) (o : Observing) (b : BacklogSample) : BacklogSample :=
  let t := started + b_ElapsedNS b in
  mkBacklogSample (pending_at (acceptedAt a) (observedAt o) t) (ObservationAvailable b) (FinalVerification b) (b_ElapsedNS b)
    (acknowledged_by (acceptedAt a) t) (b_Visible b).

Lemma rebuild_exact finishes changes backlog : forall at0 frest fi crest n,
  StronglySorted (fun x y => b_ElapsedNS x <= b_ElapsedNS y) backlog -> Forall (fun b => at0 <= started + b_ElapsedNS b) backlog ->
  left_over (fun x => x) (fun _ => 1) at0 finishes frest fi -> left_over fst snd at0 changes crest n ->
  rebuild started backlog frest fi crest n =
  map (fun b => let t := started + b_ElapsedNS b in
         mkBacklogSample (weight_by fst snd t changes) (ObservationAvailable b) (FinalVerification b) (b_ElapsedNS b)
           (weight_by (fun x => x) (fun _ => 1) t finishes) (b_Visible b)) backlog.
Proof.
  induction backlog as [|b backlog IH]; intros at0 frest fi crest n Hs Hat HF HC; [done|]. cbn [rebuild map]. cbv zeta.
  apply StronglySorted_inv in Hs as [Hs Hb]. apply Forall_cons in Hat as [Hat _].
  pose proof (left_over_advance _ _ at0 _ _ _ _ Hat HF) as HF'. pose proof (left_over_advance _ _ at0 _ _ _ _ Hat HC) as HC'.
  destruct (advance (fun x => x) (started + b_ElapsedNS b) frest) as [f frest']. destruct (advance fst (started + b_ElapsedNS b) crest) as [ch crest'].
  cbv zeta in HF', HC'. destruct HF' as [HF' EF]. destruct HC' as [HC' EC].
  assert (Ef : foldr (fun _ n => 1 + n) 0 f = Z.of_nat (length f)) by (clear; induction f as [|x f IHf]; [done|]; cbn [foldr length]; lia).
  assert (Ech : forall m, foldl (fun n x => n + snd x) m ch = m + foldr (fun x n => snd x + n) 0 ch).
  { clear. induction ch as [|x ch IHc]; intros m; cbn [foldl foldr]; [lia|]. rewrite IHc. lia. }
  rewrite Ef in *. rewrite Ech. f_equal; [by rewrite EF, EC|]. apply (IH (started + b_ElapsedNS b)); [done| |done|done].
  eapply Forall_impl; [exact Hb|]. cbn. intros x Hx. lia.
Qed.

(** The entries the loop writes are the direct counts, for polls in order. *)
Lemma rebuild_backlog_exact a o :
  StronglySorted (fun x y => b_ElapsedNS x <= b_ElapsedNS y) (Backlog o) ->
  rebuild_backlog started a o = map (counted_sample a o) (Backlog o).
Proof.
  intros Hs. unfold rebuild_backlog.
  assert (HF : forall t0, left_over (fun x => x) (fun _ => 1) t0 (ZSort.sort (map snd (map_to_list (acceptedAt a))))
    (ZSort.sort (map snd (map_to_list (acceptedAt a)))) 0).
  { intros t0. split; [|intros; lia]. eapply sorted_weaken; [|apply ZSort.StronglySorted_sort; intros x y z; unfold is_true, ZOrder.leb; lia].
    unfold is_true, ZOrder.leb. intros x y H. lia. }
  assert (HC : forall t0, left_over fst snd t0 (ChangeSort.sort (pending_changes (acceptedAt a) (observedAt o)))
    (ChangeSort.sort (pending_changes (acceptedAt a) (observedAt o))) 0).
  { intros t0. split; [|intros; lia]. eapply sorted_weaken; [|apply ChangeSort.StronglySorted_sort; intros x y z; unfold is_true, ChangeOrder.leb; lia].
    unfold is_true, ChangeOrder.leb. intros x y H. lia. }
  assert (Hlow : exists t0, Forall (fun b => t0 <= started + b_ElapsedNS b) (Backlog o)).
  { destruct Hs as [|b l Hs Hb]; [exists 0; constructor|]. exists (started + b_ElapsedNS b). constructor; [lia|].
    eapply Forall_impl; [exact Hb|]. cbn. intros x Hx. lia. }
  destruct Hlow as [t0 Hlow]. rewrite (rebuild_exact _ _ _ t0 _ _ _ _ Hs Hlow (HF t0) (HC t0)).
  apply map_ext. intros b. cbv zeta. unfold counted_sample. cbv zeta. by rewrite changes_weight, finishes_weight.
Qed.

(** The polls come in the order of time: those recorded, then those waiting,
    none later than the observer's clock. *)
Definition polled (o : Observing) (p : Probe) : list Z :=
  map b_ElapsedNS (Backlog o) ++ map (fun v => or_finished v - started) (p_results p).
Definition in_order (s : Sample) : Prop :=
  StronglySorted Z.le (polled (s_obs s) (s_probe s)) /\ Forall (fun t => t <= p_clock (s_probe s) - started) (polled (s_obs s) (s_probe s)).

Lemma record_observation_backlog v b o :
  map b_ElapsedNS (Backlog (recordObservation c started v b o)) = map b_ElapsedNS (Backlog o) ++ [or_finished v - started].
Proof.
  unfold recordObservation. cbv zeta. cbn [Backlog]. set (o0 := mkObserving _ _ _ _ _ _ _ _ _ _ _ _ _ _ _).
  assert (H : Backlog o0 = Backlog o) by done. clearbody o0. rewrite map_app. cbn [map b_ElapsedNS]. f_equal. rewrite <- H. clear H.
  revert o0. induction (or_rows v) as [|row rows IH]; intros o0; [done|]. cbn [foldl]. rewrite IH. unfold record_row. by case_bool_decide.
Qed.

Lemma polled_record v rest b o p ex : p_results p = v :: rest ->
  polled (recordObservation c started v b o) (mkProbe (p_request p) (p_running p) rest ex (p_clock p)) = polled o p.
Proof. intros E. unfold polled. rewrite record_observation_backlog, E. cbn [p_results map]. by rewrite <- app_assoc. Qed.

Lemma sorted_snoc (l : list Z) t : StronglySorted Z.le l -> Forall (fun x => x <= t) l -> StronglySorted Z.le (l ++ [t]).
Proof.
  induction 1 as [|x l Hs IH Hx]; cbn [app]; intros Hle; [repeat constructor|]. apply Forall_cons in Hle as [Ht Hle].
  constructor; [by apply IH|]. apply Forall_app_2; [done|by constructor].
Qed.

(** Events that leave the polls alone. *)
Lemma in_order_keep s s' :
  polled (s_obs s') (s_probe s') = polled (s_obs s) (s_probe s) -> p_clock (s_probe s') = p_clock (s_probe s) -> in_order s -> in_order s'.
Proof. unfold in_order. by intros -> ->. Qed.

Lemma request_polled s s' : requestObservation s = Some s' ->
  polled (s_obs s') (s_probe s') = polled (s_obs s) (s_probe s) /\ p_clock (s_probe s') = p_clock (s_probe s).
Proof. unfold requestObservation. destruct (_ && _); [destruct (p_request _); [done|]|]; by intros [= <-]. Qed.

Lemma step_in_order s e s' : step_sample c ids started s e = Some s' -> in_order s -> in_order s'.
Proof.
  assert (Hload : forall o s', load_event o s = Some s' -> in_order s -> in_order s').
  { intros o s1. unfold load_event. destruct o; [|done]. by intros [= <-]. }
  assert (Hreq : forall s0 s', polled (s_obs s0) (s_probe s0) = polled (s_obs s) (s_probe s) -> p_clock (s_probe s0) = p_clock (s_probe s) ->
    requestObservation s0 = Some s' -> in_order s -> in_order s').
  { intros s0 s1 E1 E2 [F1 F2]%request_polled. apply in_order_keep; congruence. }
  intros H I. destruct e; cbn [step_sample] in H; try (by eapply Hload).
  - destruct (_ && (p_clock _ <=? t)) eqn:E; [|done]. injection H as <-. apply andb_true_iff in E as [_ E]. bool_to_prop.
    destruct I as [I1 I2]. split; [exact I1|]. eapply Forall_impl; [exact I2|]. cbn. intros x Hx. lia.
  - destruct (p_running _); [|done]. destruct (_ && (_ <=? t)) eqn:E; [|done]. injection H as <-. apply andb_true_iff in E as [_ E]. bool_to_prop. destruct I as [I1 I2].
    assert (Hp : polled (s_obs s) (mkProbe (p_request (s_probe s)) None (p_results (s_probe s) ++ [mkObservationResult z t rows err]) (p_exited (s_probe s)) t) =
      polled (s_obs s) (s_probe s) ++ [t - started]) by (unfold polled; cbn [p_results]; by rewrite map_app, app_assoc).
    unfold in_order. cbn [set_observing s_obs s_probe p_clock]. rewrite Hp.
    assert (Hle : Forall (fun x => x <= t - started) (polled (s_obs s) (s_probe s))) by (eapply Forall_impl; [exact I2|]; cbn; intros x Hx; lia).
    split; [by apply sorted_snoc|]. apply Forall_app_2; [done|by repeat constructor].
  - destruct (_ && _); [|done]. by injection H as <-.
  - destruct (s_phase s); [destruct (_ && _)|destruct (drain_open s)|]; try done; by injection H as <-.
  - destruct (s_phase s); try done. destruct (window_open s); [|done]. by injection H as <-.
  - destruct (s_phase s); try done. destruct (_ || _); [done|]. destruct (g_results _); [destruct (g_closed _); [|done]|]; by injection H as <-.
  - destruct (s_phase s); try done; [destruct (window_open s)|destruct (drain_open s)]; try done;
      (destruct (p_results (s_probe s)) as [|v rest] eqn:Er; [done|]); injection H as <-;
      (apply (in_order_keep s); [|done|exact I]; cbn [set_observing s_obs s_probe]; by apply polled_record).
  - destruct (s_phase s); try done; [destruct (window_open s)|destruct (drain_open s)]; try done; [|by eapply (Hreq s)].
    destruct (_ && _) in H; [by eapply (Hreq s)|by injection H as <-].
  - destruct (s_phase s); try done. destruct (_ || _); [done|]. cbv zeta in H. cbn [s_account s_obs] in H.
    destruct (needsObservation _ _); [eapply Hreq; [| |exact H|exact I]; done|by injection H as <-].
  - destruct (s_phase s); try done. destruct (drain_open s); [|done]. injection H as <-. by destruct (allSeen s).
  - destruct (s_phase s); try done. destruct (drain_open s); [done|]. by injection H as <-.
Qed.

Lemma final_in_order s : in_order s -> StronglySorted (fun x y => b_ElapsedNS x <= b_ElapsedNS y) (Backlog (final_observing c started s)).
Proof.
  intros [I _]. assert (H : map b_ElapsedNS (Backlog (final_observing c started s)) = polled (s_obs s) (s_probe s)).
  { unfold final_observing, polled. generalize (s_obs s) (s_expectedCancel s). clear I. induction (p_results (s_probe s)) as [|v vs IH]; intros o b; cbn [foldl map].
    - by rewrite app_nil_r.
    - rewrite IH, record_observation_backlog. by rewrite <- app_assoc. }
  rewrite <- H in I. clear H. induction (Backlog _) as [|b l IH]; [constructor|]. cbn [map] in I. apply StronglySorted_inv in I as [I Hb].
  constructor; [by apply IH|]. rewrite Forall_map in Hb. exact Hb.
Qed.

(** C32: the backlog of a report is exact.  The loop that reconstructs it walks
    the acknowledgements and the changes of the pending set once, with two
    indexes; each entry has the number of events acknowledged by the end of
    its poll and the number of those not observed by then, as counted
    directly from the instants of each event. *)
Theorem backlog_exact rep es s end_ r err :
  run_sample c ids started (new_sample c started) es = Some s ->
  finish_sample c ids started rep s end_ = Some (r, err) ->
  sp_Backlog r = map (counted_sample (s_account s) (final_observing c started s)) (Backlog (final_observing c started s)).
Proof.
  intros Hrun Hfin. assert (Ho : in_order s).
  { assert (H0 : in_order (new_sample c started)) by (split; constructor). revert Hrun H0. generalize (new_sample c started).
    induction es as [|e es IH]; intros s0; cbn [run_sample]; [by intros [= <-]|].
    destruct (step_sample c ids started s0 e) eqn:E; [|done]. intros Hr H0. eapply IH; [exact Hr|]. by eapply step_in_order. }
  unfold finish_sample in Hfin. destruct (s_phase s); [done|done|]. destruct (p_exited _); [|done]. cbv zeta in Hfin.
  unfold Reconcile in Hfin. injection Hfin as <- _. cbn [sp_Backlog]. by apply rebuild_backlog_exact, final_in_order.
Qed.
End Backlog.
