(* ===== verification/BenchConnections.v ===== *)
(** * The connection recorder: [internal/benchmark/connections.go]

    A state machine driven by the callbacks of [net/http]: requests start,
    wait for a connection, get one and finish; connections are dialled and
    closed.  Each closure's variables are the entry of its request ([trace])
    or connection; the mutex makes each callback one step. *)
From S2P Require Import Prelude GoBytes Runtime Service.

Record ConnectionSnapshot := mkSnapshot {
  ActiveRequests : Z;
  PeakActiveRequests : Z;
  OpenTCP : Z;
  PeakOpenTCP : Z;
  Dials : Z;
  Reused : Z;
  ConnectionAcquireNS : Z;
  WaitingForConnection : Z;
  PeakWaitingForConnection : Z;
  MaxConnsPerHost : Z;
  MaxIdleConnsPerHost : Z;
  Protocols : gmap string Z;
  Errors : gmap string Z;
  TLSVersions : gmap string Z;
  TCPTrackingStatus : string
}.

Definition empty_snapshot : ConnectionSnapshot :=
  mkSnapshot 0 0 0 0 0 0 0 0 0 0 0 ∅ ∅ ∅ "not_configured".

(** The variables of one [TraceRequest]: [once] is [finished]. *)
Record trace := mkTrace { began : Z; waiting : bool; finished : bool }.

(** The recorder, with the requests and connections it has seen; a connection
    maps to whether it is still open. *)
Record ConnectionRecorder := mkRecorder {
  state : ConnectionSnapshot;
  traces : gmap nat trace;
  conns : gmap nat bool
}.

Definition NewConnectionRecorder : ConnectionRecorder := mkRecorder empty_snapshot ∅ ∅.

Definition bump (k : string) (m : gmap string Z) : gmap string Z := <[k := default 0 (m !! k) + 1]> m.

(** Updates of the counters a callback touches. *)
Definition add_active (d : Z) (s : ConnectionSnapshot) : ConnectionSnapshot :=
  let n := ActiveRequests s + d in
  mkSnapshot n (if 0 <? d then Z.max (PeakActiveRequests s) n else PeakActiveRequests s) (OpenTCP s) (PeakOpenTCP s)
    (Dials s) (Reused s) (ConnectionAcquireNS s) (WaitingForConnection s) (PeakWaitingForConnection s)
    (MaxConnsPerHost s) (MaxIdleConnsPerHost s) (Protocols s) (Errors s) (TLSVersions s) (TCPTrackingStatus s).

Definition add_waiting (d acquired : Z) (s : ConnectionSnapshot) : ConnectionSnapshot :=
  let n := WaitingForConnection s + d in
  mkSnapshot (ActiveRequests s) (PeakActiveRequests s) (OpenTCP s) (PeakOpenTCP s) (Dials s) (Reused s)
    (ConnectionAcquireNS s + acquired) n (if 0 <? d then Z.max (PeakWaitingForConnection s) n else PeakWaitingForConnection s)
    (MaxConnsPerHost s) (MaxIdleConnsPerHost s) (Protocols s) (Errors s) (TLSVersions s) (TCPTrackingStatus s).

Definition add_open (d : Z) (s : ConnectionSnapshot) : ConnectionSnapshot :=
  let n := OpenTCP s + d in
  mkSnapshot (ActiveRequests s) (PeakActiveRequests s) n (if 0 <? d then Z.max (PeakOpenTCP s) n else PeakOpenTCP s)
    (Dials s) (Reused s) (ConnectionAcquireNS s) (WaitingForConnection s) (PeakWaitingForConnection s)
    (MaxConnsPerHost s) (MaxIdleConnsPerHost s) (Protocols s) (Errors s) (TLSVersions s) (TCPTrackingStatus s).

Definition add_counts (dials reused : Z) (p e t : option string) (s : ConnectionSnapshot) : ConnectionSnapshot :=
  let up k m := match k with Some k => bump k m | None => m end in
  mkSnapshot (ActiveRequests s) (PeakActiveRequests s) (OpenTCP s) (PeakOpenTCP s) (Dials s + dials) (Reused s + reused)
    (ConnectionAcquireNS s) (WaitingForConnection s) (PeakWaitingForConnection s) (MaxConnsPerHost s)
    (MaxIdleConnsPerHost s) (up p (Protocols s)) (up e (Errors s)) (up t (TLSVersions s)) (TCPTrackingStatus s).

(** [WrapTransport]: the settings of the cloned transport; 2 is
    [http.DefaultMaxIdleConnsPerHost]. *)
Definition WrapTransport (maxConns maxIdle : Z) (customTLSDial : bool) (r : ConnectionRecorder) : ConnectionRecorder :=
  let s := state r in
  mkRecorder
    (mkSnapshot (ActiveRequests s) (PeakActiveRequests s) (OpenTCP s) (PeakOpenTCP s) (Dials s) (Reused s)
       (ConnectionAcquireNS s) (WaitingForConnection s) (PeakWaitingForConnection s) maxConns
       (if maxIdle =? 0 then 2 else maxIdle) (Protocols s) (Errors s) (TLSVersions s)
       (if customTLSDial then "unavailable_custom_tls_dial" else "transport_owned_connected_tcp"))
    (traces r) (conns r).

(** The wrapped [DialContext]: [result] is the inner dial's, [c] the name of
    the new connection. *)
Definition DialContext (network : string) (result : goerr) (c : nat) (r : ConnectionRecorder) : ConnectionRecorder :=
  let s := add_counts 1 0 None None None (state r) in
  match result with
  | Some _ => mkRecorder s (traces r) (conns r)
  | None =>
      if negb (bool_decide (network ∈ ["tcp"; "tcp4"; "tcp6"]%string)) then mkRecorder s (traces r) (conns r)
      else mkRecorder (add_open 1 s) (traces r) (<[c := true]> (conns r))
  end.

(** [recordedConn.Close]: the [closed] function runs once. *)
Definition recordedConn_Close (c : nat) (r : ConnectionRecorder) : ConnectionRecorder :=
  match conns r !! c with
  | Some true => mkRecorder (add_open (-1) (state r)) (traces r) (<[c := false]> (conns r))
  | _ => r
  end.

Definition TraceRequest (i : nat) (r : ConnectionRecorder) : ConnectionRecorder :=
  mkRecorder (add_active 1 (state r)) (<[i := mkTrace 0 false false]> (traces r)) (conns r).

Definition GetConn (i : nat) (now : Z) (r : ConnectionRecorder) : ConnectionRecorder :=
  match traces r !! i with
  | Some t =>
      if negb (waiting t)
      then mkRecorder (add_waiting 1 0 (state r)) (<[i := mkTrace now true (finished t)]> (traces r)) (conns r)
      else r
  | None => r
  end.

Definition GotConn (i : nat) (reused : bool) (now : Z) (r : ConnectionRecorder) : ConnectionRecorder :=
  match traces r !! i with
  | Some t =>
      let r := if waiting t
               then mkRecorder (add_waiting (-1) (now - began t) (state r)) (<[i := mkTrace (began t) false (finished t)]> (traces r)) (conns r)
               else r in
      if reused then mkRecorder (add_counts 0 1 None None None (state r)) (traces r) (conns r) else r
  | None => r
  end.

Definition TLSHandshakeDone (version : string) (err : goerr) (r : ConnectionRecorder) : ConnectionRecorder :=
  match err with
  | None => mkRecorder (add_counts 0 0 None None (Some version) (state r)) (traces r) (conns r)
  | Some _ => r
  end.

(** The system errors of [connectionErrorClass]. *)
Definition syscall_EMFILE : error := ENew "too many open files".
Definition syscall_ENFILE : error := ENew "too many open files in system".
Definition syscall_EADDRNOTAVAIL : error := ENew "cannot assign requested address".
Definition syscall_EADDRINUSE : error := ENew "address already in use".
Definition syscall_ECONNREFUSED : error := ENew "connection refused".

(** [errors.As] for a [net.Error], and what its [Timeout] says; a name error
    that is a timeout is [ENet true]. *)
Fixpoint As_net_timeout (e : error) : option bool :=
  match e with
  | ENet t => Some t
  | EDns => Some false
  | EObservation c => As_net_timeout c
  | EWrap _ c => As_net_timeout c
  | EJoin es => (fix go l := match l with
                             | [] => None
                             | x :: r => match As_net_timeout x with Some c => Some c | None => go r end
                             end) es
  | _ => None
  end.

Fixpoint As_dns (e : error) : bool :=
  match e with
  | EDns => true
  | EObservation c => As_dns c
  | EWrap _ c => As_dns c
  | EJoin es => existsb As_dns es
  | _ => false
  end.

Definition connectionErrorClass (e : error) : string :=
  if errors_Is e syscall_EMFILE || errors_Is e syscall_ENFILE then "fd_limit"
  else if errors_Is e syscall_EADDRNOTAVAIL || errors_Is e syscall_EADDRINUSE then "address_unavailable"
  else if errors_Is e syscall_ECONNREFUSED then "connection_refused"
  else if errors_Is e context_Canceled then "cancelled"
  else if errors_Is e context_DeadlineExceeded || bool_decide (As_net_timeout e = Some true) then "timeout"
  else if As_dns e then "dns"
  else "other".

Definition protocol_name (p : string) : string :=
  if bool_decide (p ∈ ["HTTP/1.1"; "HTTP/2.0"; "HTTP/1.0"]%string) then p else "other".

(** The [finish] function of a request: [res] is the protocol of the
    response, if there was one. *)
Definition finish (i : nat) (res : option string) (err : goerr) (now : Z) (r : ConnectionRecorder) : ConnectionRecorder :=
  match traces r !! i with
  | Some t =>
      if finished t then r
      else
        let s := add_active (-1) (state r) in
        let s := if waiting t then add_waiting (-1) (now - began t) s else s in
        let s := add_counts 0 0 (option_map protocol_name res) (option_map connectionErrorClass err) None s in
        mkRecorder s (<[i := mkTrace (began t) false true]> (traces r)) (conns r)
  | None => r
  end.

Definition Snapshot (r : ConnectionRecorder) : ConnectionSnapshot := state r.

Definition BeginWindow (r : ConnectionRecorder) : ConnectionRecorder :=
  let s := state r in
  mkRecorder (mkSnapshot 0 0 (OpenTCP s) (OpenTCP s) 0 0 0 0 0 (MaxConnsPerHost s) (MaxIdleConnsPerHost s) ∅ ∅ ∅
                (TCPTrackingStatus s)) (traces r) (conns r).

(** ** The protocol

    Names of requests and connections are fresh, a request only asks for
    connections before it finishes, and a window begins when all requests
    have finished, as the comment on [BeginWindow] demands. *)
Inductive recorder_step (r : ConnectionRecorder) : ConnectionRecorder -> Prop :=
  | rs_wrap a b c : recorder_step r (WrapTransport a b c r)
  | rs_dial network result c : conns r !! c = None -> recorder_step r (DialContext network result c r)
  | rs_close c : recorder_step r (recordedConn_Close c r)
  | rs_trace i : traces r !! i = None -> recorder_step r (TraceRequest i r)
  | rs_get i now : (forall t, traces r !! i = Some t -> finished t = false) -> recorder_step r (GetConn i now r)
  | rs_got i reused now : recorder_step r (GotConn i reused now r)
  | rs_tls v err : recorder_step r (TLSHandshakeDone v err r)
  | rs_finish i res err now : recorder_step r (finish i res err now r)
  | rs_window : map_Forall (fun _ t => finished t = true) (traces r) -> recorder_step r (BeginWindow r).

(** ** The counters are what they say *)

Definition count {A} (P : A -> bool) (m : gmap nat A) : Z := Z.of_nat (size (filter (fun kx => P (snd kx) = true) m)).

Definition is_open (b : bool) : bool := b.
Definition is_active (t : trace) : bool := negb (finished t).

Lemma count_insert_fresh {A} (P : A -> bool) (m : gmap nat A) k x :
  m !! k = None -> count P (<[k := x]> m) = count P m + if P x then 1 else 0.
Proof.
  intros Hk. unfold count. destruct (P x) eqn:E.
  - rewrite map_filter_insert_True by done. rewrite map_size_insert_None; [lia|].
    apply map_lookup_filter_None. by left.
  - rewrite map_filter_insert_False by (cbn [snd]; rewrite E; done). rewrite delete_id by done. lia.
Qed.

Lemma count_insert {A} (P : A -> bool) (m : gmap nat A) k x y :
  m !! k = Some y -> count P (<[k := x]> m) = count P m - (if P y then 1 else 0) + if P x then 1 else 0.
Proof.
  intros Hk. pose proof (count_insert_fresh P (delete k m) k x (lookup_delete_eq m k)) as H1.
  pose proof (count_insert_fresh P (delete k m) k y (lookup_delete_eq m k)) as H2.
  rewrite insert_delete_eq in H1, H2. rewrite (insert_id m k y Hk) in H2. lia.
Qed.

Definition error_classes : list string :=
  ["fd_limit"; "address_unavailable"; "connection_refused"; "cancelled"; "timeout"; "dns"; "other"]%string.
Definition protocol_names : list string := ["HTTP/1.1"; "HTTP/2.0"; "HTTP/1.0"; "other"]%string.

Record recorder_ok (r : ConnectionRecorder) : Prop := {
  ok_active : ActiveRequests (state r) = count is_active (traces r);
  ok_waiting : WaitingForConnection (state r) = count waiting (traces r);
  ok_open : OpenTCP (state r) = count is_open (conns r);
  ok_done : map_Forall (fun _ t => waiting t = true -> finished t = false) (traces r);
  ok_peaks : ActiveRequests (state r) <= PeakActiveRequests (state r) /\
             WaitingForConnection (state r) <= PeakWaitingForConnection (state r) /\
             OpenTCP (state r) <= PeakOpenTCP (state r);
  ok_errors : forall k, is_Some (Errors (state r) !! k) -> k ∈ error_classes;
  ok_protocols : forall k, is_Some (Protocols (state r) !! k) -> k ∈ protocol_names
}.

Lemma count_nonneg {A} (P : A -> bool) (m : gmap nat A) : 0 <= count P m.
Proof. unfold count. lia. Qed.

Lemma bump_keys (l : list string) k m :
  k ∈ l -> (forall x, is_Some (m !! x) -> x ∈ l) -> forall x, is_Some (bump k m !! x) -> x ∈ l.
Proof.
  intros Hk Hm x Hx. unfold bump in Hx. destruct (decide (k = x)) as [<-|Hne]; [done|].
  rewrite lookup_insert_ne in Hx by done. by apply Hm.
Qed.

Lemma connectionErrorClass_in e : connectionErrorClass e ∈ error_classes.
Proof. unfold connectionErrorClass, error_classes. repeat case_match; set_solver. Qed.

Lemma protocol_name_in p : protocol_name p ∈ protocol_names.
Proof. unfold protocol_name, protocol_names. case_bool_decide; set_solver. Qed.

Lemma map_Forall_set {A} (P : A -> Prop) (m : gmap nat A) k x :
  map_Forall (fun _ => P) m -> P x -> map_Forall (fun _ => P) (<[k := x]> m).
Proof. intros Hm Hx. by apply map_Forall_insert_2. Qed.

(** Dials and closes. *)
Lemma dial_ok r network result c : recorder_ok r -> conns r !! c = None -> recorder_ok (DialContext network result c r).
Proof.
  intros [H1 H2 H3 H4 H5 H6 H7] Hc. unfold DialContext. destruct result; [by constructor|].
  destruct (negb _); [by constructor|]. constructor; cbn; try done.
  - rewrite count_insert_fresh by done. cbn. lia.
  - cbn in *. lia.
Qed.

Lemma close_ok r c : recorder_ok r -> recorder_ok (recordedConn_Close c r).
Proof.
  intros [H1 H2 H3 H4 H5 H6 H7]. unfold recordedConn_Close.
  destruct (conns r !! c) as [[]|] eqn:E; [|by constructor|by constructor]. constructor; cbn; try done.
  - rewrite (count_insert _ _ _ _ _ E). cbn. lia.
  - cbn in *. lia.
Qed.

Lemma is_active_eq t : is_active t = negb (finished t).
Proof. done. Qed.

(** The callbacks of a request. *)
Lemma trace_ok r i : recorder_ok r -> traces r !! i = None -> recorder_ok (TraceRequest i r).
Proof.
  intros [H1 H2 H3 H4 H5 H6 H7] Hi. constructor; cbn; try done.
  - rewrite count_insert_fresh by done. cbn. lia.
  - rewrite count_insert_fresh by done. cbn. lia.
  - by apply map_Forall_set.
  - lia.
Qed.

Lemma get_ok r i now :
  recorder_ok r -> (forall t, traces r !! i = Some t -> finished t = false) -> recorder_ok (GetConn i now r).
Proof.
  intros [H1 H2 H3 H4 H5 H6 H7] Hf. unfold GetConn. destruct (traces r !! i) as [t|] eqn:E; [|by constructor].
  specialize (Hf t eq_refl). destruct (waiting t) eqn:Ew; cbn [negb]; [by constructor|]. constructor; cbn; try done.
  - rewrite (count_insert _ _ _ _ _ E). rewrite !is_active_eq. cbn. rewrite Hf. cbn. lia.
  - rewrite (count_insert _ _ _ _ _ E). rewrite Ew. cbn. lia.
  - by apply map_Forall_set.
  - lia.
Qed.

Lemma counts_ok r d u t : recorder_ok r -> recorder_ok (mkRecorder (add_counts d u None None t (state r)) (traces r) (conns r)).
Proof. intros [H1 H2 H3 H4 H5 H6 H7]. by constructor. Qed.

Lemma got_ok r i reused now : recorder_ok r -> recorder_ok (GotConn i reused now r).
Proof.
  intros Hr. unfold GotConn. destruct (traces r !! i) as [t|] eqn:E; [|done]. cbv zeta.
  set (r1 := if waiting t then _ else r). assert (Hr1 : recorder_ok r1).
  { unfold r1. destruct (waiting t) eqn:Ew; [|done]. destruct Hr as [H1 H2 H3 H4 H5 H6 H7]. constructor; cbn; try done.
    - rewrite (count_insert _ _ _ _ _ E). rewrite !is_active_eq. cbn. destruct (finished t); cbn; lia.
    - rewrite (count_insert _ _ _ _ _ E), Ew. cbn. lia.
    - by apply map_Forall_set.
    - lia. }
  destruct reused; [by apply counts_ok | done].
Qed.

Lemma finish_ok r i res err now : recorder_ok r -> recorder_ok (finish i res err now r).
Proof.
  intros Hr. unfold finish. destruct (traces r !! i) as [t|] eqn:E; [|done].
  destruct (finished t) eqn:Ef; [done|]. destruct Hr as [H1 H2 H3 H4 H5 H6 H7]. cbv zeta.
  set (s := if waiting t then _ else _).
  assert (Hs : ActiveRequests s = ActiveRequests (state r) - 1 /\
               WaitingForConnection s = WaitingForConnection (state r) - (if waiting t then 1 else 0) /\
               OpenTCP s = OpenTCP (state r) /\ PeakActiveRequests s = PeakActiveRequests (state r) /\
               PeakWaitingForConnection s = PeakWaitingForConnection (state r) /\ PeakOpenTCP s = PeakOpenTCP (state r) /\
               Errors s = Errors (state r) /\ Protocols s = Protocols (state r)).
  { unfold s. destruct (waiting t); cbn; split_and!; lia || done. }
  destruct Hs as (S1 & S2 & S3 & S4 & S5 & S6 & S7 & S8). clearbody s. constructor; cbn.
  - rewrite (count_insert _ _ _ _ _ E), S1. rewrite !is_active_eq. cbn. rewrite Ef. cbn. lia.
  - rewrite (count_insert _ _ _ _ _ E), S2. cbn. lia.
  - lia.
  - by apply map_Forall_set.
  - rewrite S1, S2, S3, S4, S5, S6. destruct (waiting t); lia.
  - rewrite S7. destruct err as [e|]; cbn [option_map]; [|done]. apply bump_keys; [apply connectionErrorClass_in|done].
  - rewrite S8. destruct res as [p|]; cbn [option_map]; [|done]. apply bump_keys; [apply protocol_name_in|done].
Qed.

Lemma count_zero {A} (P : A -> bool) (m : gmap nat A) : map_Forall (fun _ x => P x = false) m -> count P m = 0.
Proof.
  intros H. induction m as [|k x m Hk IH] using map_ind; [done|].
  rewrite count_insert_fresh by done. apply map_Forall_insert in H as [Hx Hm]; [|done]. rewrite Hx, (IH Hm). done.
Qed.

Lemma window_ok r : recorder_ok r -> map_Forall (fun _ t => finished t = true) (traces r) -> recorder_ok (BeginWindow r).
Proof.
  intros [H1 H2 H3 H4 H5 H6 H7] Hf. constructor; cbn; try done.
  - symmetry. apply count_zero. intros k t Hk. unfold is_active. by rewrite (Hf k t Hk).
  - symmetry. apply count_zero. intros k t Hk. specialize (Hf k t Hk). specialize (H4 k t Hk). cbn in *.
    destruct (waiting t); [|done]. specialize (H4 eq_refl). congruence.
  - by intros k [x Hx].
  - by intros k [x Hx].
Qed.

Lemma step_ok r r' : recorder_step r r' -> recorder_ok r -> recorder_ok r'.
Proof.
  intros H Hr. destruct H.
  - by destruct Hr; constructor.
  - by apply dial_ok.
  - by apply close_ok.
  - by apply trace_ok.
  - by apply get_ok.
  - by apply got_ok.
  - unfold TLSHandshakeDone. destruct err; [done|]. by apply counts_ok.
  - by apply finish_ok.
  - by apply window_ok.
Qed.

Lemma count_le {A} (P Q : A -> bool) (m : gmap nat A) :
  map_Forall (fun _ x => P x = true -> Q x = true) m -> count P m <= count Q m.
Proof.
  intros H. induction m as [|k x m Hk IH] using map_ind; [done|].
  rewrite !count_insert_fresh by done. apply map_Forall_insert in H as [Hx Hm]; [|done]. specialize (IH Hm).
  destruct (P x), (Q x); lia.
Qed.

(** The recorder's numbers are true at every moment.  However callbacks
    of concurrent requests interleave, the active requests are those started
    and not finished, the open connections those dialled and not closed,
    the waiting ones are active, nothing is negative, a peak is never below
    its current value, and errors and protocols are counted under fixed
    names. *)
Theorem recorder_counts_exact r :
  rtc recorder_step NewConnectionRecorder r ->
  recorder_ok r /\ 0 <= WaitingForConnection (Snapshot r) <= ActiveRequests (Snapshot r) /\ 0 <= OpenTCP (Snapshot r).
Proof.
  intros H. assert (H0 : recorder_ok NewConnectionRecorder).
  { constructor; cbn; try done; try (by intros k [x Hx]). }
  assert (Hr : recorder_ok r) by (induction H as [|a b c Hab _ IH]; [done|]; apply IH; by eapply step_ok).
  split; [done|]. unfold Snapshot. destruct Hr as [H1 H2 H3 H4 _ _ _]. rewrite H1, H2, H3.
  split; [split; [apply count_nonneg|]|apply count_nonneg]. apply count_le. intros k t Hk Hw.
  unfold is_active. by rewrite (H4 k t Hk Hw).
Qed.

Definition recorder_sample : ConnectionRecorder :=
  finish 0 (Some "HTTP/2.0"%string) (Some (ENet true)) 9 (GotConn 0 false 7 (GetConn 0 5 (TraceRequest 0 NewConnectionRecorder))).

Lemma recorder_counts_exact_witness :
  recorder_ok recorder_sample /\
  0 <= WaitingForConnection (Snapshot recorder_sample) <= ActiveRequests (Snapshot recorder_sample) /\
  0 <= OpenTCP (Snapshot recorder_sample).
Proof.
  apply recorder_counts_exact. unfold recorder_sample.
  eapply rtc_l; [by apply (rs_trace _ 0)|]. eapply rtc_l; [apply (rs_get _ 0 5)|].
  { intros t. cbn [traces TraceRequest]. rewrite lookup_insert_eq. by intros [= <-]. }
  eapply rtc_l; [apply (rs_got _ 0 false 7)|]. eapply rtc_l; [apply (rs_finish _ 0 (Some "HTTP/2.0"%string) (Some (ENet true)) 9)|].
  apply rtc_refl.
Defined.
