(* ===== verification/Deployment.v ===== *)
(** * Deployment and manifest inputs

    [internal/runenv/deployment_config.go], and the parts of
    [internal/benchmark/manifest.go] that read the running broker's arguments
    and the API container's environment. *)
From S2P Require Import Prelude GoBytes GoTime GoJson Event RuntimeInfo Runtime Persistence Telemetry Publisher RateLimit Config Service Api.

(** ** Strings *)

(** [strings.Cut] at a byte. *)
Fixpoint Cut (s : bytes) (sep : Z) : option (bytes * bytes) :=
  match s with
  | [] => None
  | c :: r => if c =? sep then Some ([], r)
              else match Cut r sep with Some (a, b) => Some (c :: a, b) | None => None end
  end.

(** [strings.TrimSpace]: white space as in [RuntimeInfo.space_len]. *)
Fixpoint trim_left (skip : nat) (s : bytes) : bytes :=
  match s with
  | [] => []
  | c :: r =>
      match skip with
      | S k => trim_left k r
      | O => match space_len s with O => s | S k => trim_left k r end
      end
  end.

(** The length of the white-space rune a reversed text starts with. *)
Definition space_len_rev (s : bytes) : nat :=
  match s with
  | c :: r =>
      if (space_len [c] =? 1)%nat then 1%nat
      else match r with
           | c1 :: r1 =>
               if (space_len [c1; c] =? 2)%nat then 2%nat
               else match r1 with
                    | c2 :: _ => if (space_len [c2; c1; c] =? 3)%nat then 3%nat else 0%nat
                    | [] => 0%nat
                    end
           | [] => 0%nat
           end
  | [] => 0%nat
  end.

Fixpoint trim_right_rev (skip : nat) (s : bytes) : bytes :=
  match s with
  | [] => []
  | c :: r =>
      match skip with
      | S k => trim_right_rev k r
      | O => match space_len_rev s with O => s | S k => trim_right_rev k r end
      end
  end.

Definition TrimSpace (s : bytes) : bytes := reverse (trim_right_rev 0 (reverse (trim_left 0 s))).

(** [strings.TrimRight(s, "\x00")]. *)
Fixpoint drop_zeros (s : bytes) : bytes := match s with 0 :: r => drop_zeros r | _ => s end.
Definition TrimRightZeros (s : bytes) : bytes := reverse (drop_zeros (reverse s)).

Definition in_lits (s : bytes) (l : list string) : bool := existsb (fun x => bool_decide (s = lit x)) l.

(** [strconv.ParseBool]. *)
Definition ParseBool (s : bytes) : option bool :=
  if in_lits s ["1"; "t"; "T"; "TRUE"; "true"; "True"] then Some true
  else if in_lits s ["0"; "f"; "F"; "FALSE"; "false"; "False"] then Some false
  else None.

(** [net.SplitHostPort]. *)
Definition has_byte (c : Z) (s : bytes) : bool := existsb (Z.eqb c) s.
Definition SplitHostPort (hostport : bytes) : option (bytes * bytes) :=
  match Cut (reverse hostport) 58 with
  | None => None
  | Some (port_rev, host_rev) =>
      let port := reverse port_rev in
      let before := reverse host_rev in
      match hostport with
      | 91 :: rest =>
          match Cut rest 93 with
          | Some (host, after) =>
              (* the bracket must be right before the last colon *)
              if bool_decide (after = 58 :: port) && negb (has_byte 91 rest) && negb (has_byte 93 after)
              then Some (host, port) else None
          | None => None
          end
      | _ => if has_byte 58 before || has_byte 91 hostport || has_byte 93 hostport then None else Some (before, port)
      end
  end.

(** ** manifest.go *)

Definition fsync_flag : bytes := lit "--unsafe-bypass-fsync".
Definition fsync_prefix : bytes := lit "--unsafe-bypass-fsync=".

(** The loop over the arguments; [acc] is the value seen. *)
Fixpoint fsync_loop (args : list bytes) (acc : option bool) : res (option bool) :=
  let set text rest k :=
    match acc with
    | Some _ => Err (ENew "ambiguous broker fsync arguments")
    | None => match ParseBool text with
              | Some v => k rest (Some v)
              | None => Err (ENew "invalid broker fsync argument")
              end
    end in
  match args with
  | [] => Ok acc
  | arg :: rest =>
      if bool_decide (arg = fsync_flag) then
        match rest with
        | [] => Err (ENew "broker fsync argument has no value")
        | text :: rest => set text rest fsync_loop
        end
      else if HasPrefix arg fsync_prefix then set (TrimPrefix arg fsync_prefix) rest fsync_loop
      else fsync_loop rest acc
  end.

Definition brokerFsyncBypass (raw : bytes) : res bool :=
  match fsync_loop (Split raw 0) None with
  | Err e => Err e
  | Ok None => Err (ENew "could not confirm explicit broker fsync bypass setting")
  | Ok (Some v) => Ok v
  end.

(** The values a flag has among the arguments, in either form. *)
Fixpoint flag_values (name : bytes) (args : list bytes) : list bytes :=
  match args with
  | [] => []
  | arg :: rest =>
      (if HasPrefix arg (name ++ [61]) then [TrimPrefix arg (name ++ [61])] else []) ++
      (if bool_decide (arg = name) then match rest with v :: _ => [v] | [] => [] end else []) ++
      flag_values name rest
  end.

Definition runtimeFlag (raw name : bytes) : res bytes :=
  match flag_values name (Split (TrimRightZeros raw) 0) with
  | [v] => if bool_decide (v = []) then Err (ENew "missing or ambiguous broker runtime flag") else Ok v
  | _ => Err (ENew "missing or ambiguous broker runtime flag")
  end.

(** [^[1-9][0-9]*(?:[KMGTP](?:i?B)?)?$]. *)
Fixpoint memory_rest (s : bytes) : bool :=
  match s with
  | [] => true
  | c :: r =>
      if in_range 48 57 c then memory_rest r
      else has_byte c (lit "KMGTP") && in_lits r [""; "B"; "iB"]
  end.
Definition brokerMemory (s : bytes) : bool :=
  match s with c :: r => in_range 49 57 c && memory_rest r | [] => false end.

Definition brokerResources (raw : bytes) : res (bytes * Z) :=
  let? memory := runtimeFlag raw (lit "--memory") in
  if negb (brokerMemory memory) then Err (ENew "invalid broker memory runtime flag")
  else
    let? cpu := runtimeFlag raw (lit "--smp") in
    match Atoi cpu with
    | Some cores => if cores <=? 0 then Err (ENew "invalid broker smp runtime flag") else Ok (memory, cores)
    | None => Err (ENew "invalid broker smp runtime flag")
    end.

(** [json.Unmarshal] into a slice of strings. *)
Fixpoint json_strings (vs : list json) : option (list bytes) :=
  match vs with
  | [] => Some []
  | JStr r :: rest => option_map (cons (unquote r)) (json_strings rest)
  | JNull :: rest => option_map (cons []) (json_strings rest)
  | _ => None
  end.
Definition string_slice (raw : bytes) : option (list bytes) :=
  match parse_doc raw with
  | Some (JArr vs) => json_strings vs
  | Some JNull => Some []
  | _ => None
  end.

Definition api_controls : list string := ["RATE_LIMIT_RPS"; "HTTP_ADDR"; "LOG_LEVEL"]%string.

Fixpoint select_controls (env : list bytes) (selected : gmap bytes bytes) : res (gmap bytes bytes) :=
  match env with
  | [] => Ok selected
  | assignment :: rest =>
      match Cut assignment 61 with
      | Some (key, value) =>
          if in_lits key api_controls then
            match selected !! key with
            | Some _ => Err (ENew "duplicate runtime API control")
            | None => select_controls rest (<[key := value]> selected)
            end
          else select_controls rest selected
      | None => select_controls rest selected
      end
  end.

Record ApiSettings := mkApiSettings { api_rate_limit_rps : Z; api_internal_port : Z; api_log_level : bytes }.

Definition safeAPISettings (raw : bytes) : res ApiSettings :=
  match string_slice raw with
  | None => Err (ENew "cannot read runtime API settings")
  | Some env =>
      let? selected := select_controls env ∅ in
      let get k := default [] (selected !! lit k) in
      match Atoi (get "RATE_LIMIT_RPS"%string) with
      | None => Err (ENew "invalid runtime RATE_LIMIT_RPS")
      | Some rate =>
          if rate <=? 0 then Err (ENew "invalid runtime RATE_LIMIT_RPS")
          else match SplitHostPort (get "HTTP_ADDR"%string) with
               | None => Err (ENew "invalid runtime HTTP_ADDR")
               | Some (_, port) =>
                   match Atoi port with
                   | None => Err (ENew "invalid runtime HTTP_ADDR port")
                   | Some number =>
                       if (number <=? 0) || (65535 <? number) then Err (ENew "invalid runtime HTTP_ADDR port")
                       else
                         let level := get "LOG_LEVEL"%string in
                         if in_lits level ["debug"; "info"; "warn"; "error"]
                         then Ok (mkApiSettings rate number level)
                         else Err (ENew "invalid runtime LOG_LEVEL")
                   end
               end
      end
  end.

(** ** deployment_config.go *)

Record DeploymentConfig := mkDeployment {
  dc_Domain : bytes; dc_APIKeys : gmap bytes bytes; dc_AdminPassword : bytes; dc_WriterPassword : bytes
}.

Definition hex_char (c : Z) : bool := in_range 48 57 c || in_range 97 102 c || in_range 65 70 c.
Definition alnum (c : Z) : bool := in_range 65 90 c || in_range 97 122 c || in_range 48 57 c.

(** [^[0-9a-fA-F]{64}$]. *)
Definition deploymentSecret (s : bytes) : bool := forallb hex_char s && (blen s =? 64).

(** [^[A-Za-z0-9](?:[A-Za-z0-9-]{0,61}[A-Za-z0-9])?$]. *)
Definition hostnameLabel (s : bytes) : bool :=
  match s with
  | [] => false
  | c :: r =>
      alnum c &&
      match r with
      | [] => true
      | _ => (blen r <=? 62) && forallb (fun c => alnum c || (c =? 45)) r && alnum (List.last r 0)
      end
  end.

Definition validDeploymentDomain (domain : bytes) : bool :=
  negb ((blen domain =? 0) || (253 <? blen domain) ||
        (negb (bool_decide (domain = lit "localhost")) && negb (has_byte 46 domain))) &&
  forallb hostnameLabel (Split domain 46).

(** [bufio.ScanLines]: lines without their end of line, and a last empty one
    is not a line; a line that fills the buffer of 65536 bytes is an error. *)
Definition drop_cr (s : bytes) : bytes := match reverse s with 13 :: r => reverse r | _ => s end.
Definition scan_lines (data : bytes) : list bytes :=
  let ls := Split data 10 in
  match reverse ls with [] :: r => reverse r | _ => ls end.

Definition maxLine : Z := 65535.

Fixpoint dotenv (lines : list bytes) (values : gmap bytes bytes) : res (gmap bytes bytes) :=
  match lines with
  | [] => Ok values
  | text :: rest =>
      if maxLine <? blen text then Err (ENew "cannot read deployment configuration")
      else
        let line := TrimSpace (drop_cr text) in
        if bool_decide (line = []) || HasPrefix line [35] then dotenv rest values
        else
          match Cut line 61 with
          | None => Err (ENew "invalid deployment configuration assignment")
          | Some (key, value) =>
              let key := TrimSpace key in
              if bool_decide (key = []) then Err (ENew "invalid deployment configuration assignment")
              else match values !! key with
                   | Some _ => Err (ENew "duplicate deployment configuration assignment")
                   | None => dotenv rest (<[key := TrimSpace value]> values)
                   end
          end
  end.

(** The file: whether it is regular, its permission bits, its contents. *)
Definition ReadDeploymentConfig (file : res (bool * Z * bytes)) : res DeploymentConfig :=
  match file with
  | Err _ => Err (ENew "cannot open deployment configuration")
  | Ok (regular, perm, data) =>
      if negb regular || negb (Z.land perm 63 =? 0)
      then Err (ENew "deployment configuration must be a private regular file (0600)")
      else
        let? values := dotenv (scan_lines data) ∅ in
        let get k := default [] (values !! lit k) in
        let domain := get "DOMAIN"%string in
        let admin := get "POSTGRES_ADMIN_PASSWORD"%string in
        let writer := get "POSTGRES_WRITER_PASSWORD"%string in
        if negb (validDeploymentDomain domain) then Err (ENew "invalid or missing DOMAIN hostname")
        else if negb (deploymentSecret admin) then Err (ENew "invalid or missing POSTGRES_ADMIN_PASSWORD; use a generated 64-hex secret")
        else if negb (deploymentSecret writer) then Err (ENew "invalid or missing POSTGRES_WRITER_PASSWORD; use a generated 64-hex secret")
        else match ParseAPIKeys (get "API_KEYS"%string) with
             | Err _ => Err (ENew "invalid or missing API_KEYS mapping")
             | Ok keys =>
                 if bool_decide (keys = ∅) then Err (ENew "invalid or missing API_KEYS mapping")
                 else if negb (bool_decide (map_Forall (fun key tenant => deploymentSecret key = true /\ ValidTenant tenant = true) keys))
                      then Err (ENew "invalid API_KEYS key or tenant")
                      else Ok (mkDeployment domain keys admin writer)
             end
  end.

(** ** The broker's fsync setting *)

(** The argument at [i] sets the flag, in one of its two forms, to [v]: [None]
    stands for a value that is missing or not a boolean. *)
Definition sets_fsync (args : list bytes) (i : nat) (v : option bool) : Prop :=
  (args !! i = Some fsync_flag /\ v = (text ← args !! S i; ParseBool text)) \/
  (exists text, args !! i = Some (fsync_prefix ++ text) /\ v = ParseBool text).

Definition sets_once (args : list bytes) (v : bool) : Prop :=
  exists i, sets_fsync args i (Some v) /\ forall j x, sets_fsync args j x -> j = i.

Lemma ParseBool_flags t : ParseBool fsync_flag = None /\ ParseBool (fsync_prefix ++ t) = None.
Proof. split; reflexivity. Qed.

Lemma fsync_prefix_not_flag t : fsync_prefix ++ t <> fsync_flag.
Proof. intros H. apply (f_equal (@length Z)) in H. rewrite length_app in H. unfold fsync_prefix, fsync_flag in H. cbn in H. lia. Qed.

Lemma fsync_prefix_has t : HasPrefix (fsync_prefix ++ t) fsync_prefix = true.
Proof. apply HasPrefix_spec. by eexists. Qed.

#[local] Opaque fsync_flag fsync_prefix.

Lemma sets_fsync_cons arg args i v : sets_fsync (arg :: args) (S i) v <-> sets_fsync args i v.
Proof. reflexivity. Qed.

(** The first argument sets the flag only in one of its forms. *)
Lemma sets_fsync_head arg args v :
  sets_fsync (arg :: args) 0 v -> arg = fsync_flag \/ HasPrefix arg fsync_prefix = true.
Proof.
  intros [[H _]|(t & H & _)]; cbn in H; apply (inj Some) in H as ->; [by left|right; apply fsync_prefix_has].
Qed.

(** A boolean does not set the flag. *)
Lemma sets_fsync_bool text args v x : ParseBool text = Some v -> ~ sets_fsync (text :: args) 0 x.
Proof.
  intros Hv [[H _]|(t & H & _)]; cbn in H; apply (inj Some) in H as ->;
    [destruct (ParseBool_flags []) as [Hp _] | destruct (ParseBool_flags t) as [_ Hp]]; congruence.
Qed.

(** After a value has been seen, no further argument sets the flag. *)
Lemma fsync_loop_seen args v out :
  fsync_loop args (Some v) = Ok out -> out = Some v /\ forall i x, ~ sets_fsync args i x.
Proof.
  induction args as [|arg rest IH]; cbn [fsync_loop].
  - intros [= <-]. split; [done|]. intros i x [[H _]|(t & H & _)]; by rewrite lookup_nil in H.
  - destruct (bool_decide (arg = fsync_flag)) eqn:Ef; [by destruct rest|].
    destruct (HasPrefix arg fsync_prefix) eqn:Ep; [done|]. bool_to_prop. intros (-> & Hn)%IH. split; [done|].
    intros [|i] x Hx; [|by apply (Hn i x)]. apply sets_fsync_head in Hx as [Hx|Hx]; congruence.
Qed.

Lemma fsync_loop_spec args out : fsync_loop args None = Ok (Some out) -> sets_once args out.
Proof.
  induction args as [|arg rest IH]; cbn [fsync_loop]; [done|].
  destruct (bool_decide (arg = fsync_flag)) eqn:Ef; bool_to_prop.
  - subst arg. destruct rest as [|text rest]; [done|]. clear IH. destruct (ParseBool text) as [v|] eqn:Ev; [|done].
    intros ([= ->] & Hn)%fsync_loop_seen. exists 0%nat. split; [left; cbn; by rewrite Ev|].
    intros [|[|j]] x Hx; [done| |]; exfalso; [by apply (sets_fsync_bool text rest v x Ev) | by apply (Hn j x)].
  - destruct (HasPrefix arg fsync_prefix) eqn:Ep.
    + apply HasPrefix_spec in Ep as [t ->]. assert (Ht : TrimPrefix (fsync_prefix ++ t) fsync_prefix = t).
      { unfold TrimPrefix. rewrite fsync_prefix_has. apply drop_app_length. }
      rewrite Ht. destruct (ParseBool t) as [v|] eqn:Ev; [|done]. intros ([= ->] & Hn)%fsync_loop_seen.
      exists 0%nat. split; [right; cbn; eauto|]. intros [|j] x Hx; [done|]. exfalso. by apply (Hn j x).
    + intros (i & Hi & Hall)%IH. exists (S i). split; [done|].
      intros [|j] x Hx; [apply sets_fsync_head in Hx as [Hx|Hx]; congruence | f_equal; by apply (Hall j x)].
Qed.

(** The durability check of a benchmark fails closed: it answers only
    when exactly one argument of the broker sets the fsync bypass, and with
    its value; an absent, malformed, valueless or repeated setting is an
    error. *)
Theorem brokerFsyncBypass_fails_closed raw v : brokerFsyncBypass raw = Ok v -> sets_once (Split raw 0) v.
Proof.
  unfold brokerFsyncBypass. destruct (fsync_loop (Split raw 0) None) as [[out|]|] eqn:E; [|done|done].
  intros [= <-]. by apply fsync_loop_spec.
Qed.

Definition broker_args : bytes := lit "redpanda" ++ [0] ++ lit "--smp" ++ [0] ++ lit "1" ++ [0] ++ lit "--unsafe-bypass-fsync=false" ++ [0].

Lemma brokerFsyncBypass_fails_closed_witness : sets_once (Split broker_args 0) false.
Proof. apply brokerFsyncBypass_fails_closed. vm_compute. reflexivity. Defined.

(** ** A deployment the API accepts *)

Lemma add_all_ok l keys :
  Forall (fun kt => fst kt <> [] /\ ValidTenant (snd kt) = true) l -> exists out, add_all l keys = Ok out.
Proof.
  intros H. revert keys. induction H as [|[k t] l [Hk Ht] _ IH]; intros keys; cbn [add_all]; [by eexists|].
  cbn [fst snd] in *. rewrite bool_decide_false by done. rewrite Ht. cbn. apply IH.
Qed.

(** A deployment configuration that loads starts an API: its file is
    private, its domain a hostname, its secrets 64 hexadecimal digits, and
    [NewApp] accepts its keys under any positive rate and timeout. *)
Theorem deployment_starts_api {U : UUIDLib} {Wd : World} file cfg (E : EventPublisher) p rate timeout :
  ReadDeploymentConfig file = Ok cfg -> 0 < rate -> 0 < timeout ->
  validDeploymentDomain (dc_Domain cfg) = true /\ deploymentSecret (dc_AdminPassword cfg) = true /\
  deploymentSecret (dc_WriterPassword cfg) = true /\
  (exists perm data, file = Ok (true, perm, data) /\ Z.land perm 63 = 0) /\
  exists app s, NewApp (mkConfig (dc_APIKeys cfg) rate timeout) (Some E) p = Ok (app, s).
Proof.
  intros H Hr Ht. unfold ReadDeploymentConfig in H. destruct file as [[[regular perm] data]|]; [|done].
  destruct (negb regular || negb (Z.land perm 63 =? 0)) eqn:Ep; [done|]. bool_to_prop.
  destruct (dotenv _ _) as [values|]; [|done]. cbn [res_bind] in H.
  destruct (negb (validDeploymentDomain _)) eqn:E1; [done|].
  destruct (negb (deploymentSecret _)) eqn:E2; [done|]. destruct (negb (deploymentSecret (default [] (values !! lit "POSTGRES_WRITER_PASSWORD")))) eqn:E3; [done|].
  destruct (ParseAPIKeys _) as [keys|]; [|done]. destruct (bool_decide (keys = ∅)) eqn:E4; [done|].
  destruct (negb (bool_decide _)) eqn:E5; [done|]. injection H as <-. bool_to_prop.
  cbn [dc_Domain dc_AdminPassword dc_WriterPassword dc_APIKeys].
  split; [done|]. split; [done|]. split; [done|].
  split; [exists perm, data; split; [by destruct regular|done]|].
  unfold NewApp. cbn [cfg_APIKeys cfg_RateLimitRPS cfg_PublishTimeout]. rewrite bool_decide_false by done.
  replace (rate <=? 0) with false by lia. replace (timeout <=? 0) with false by lia. cbn [orb].
  destruct (add_all_ok (map_to_list keys) NewAPIKeyConfig) as [out ->]; [|by eexists _, _].
  apply Forall_forall. intros [k t] Hkt%elem_of_map_to_list. cbn [fst snd].
  match goal with Hf : map_Forall _ keys |- _ => destruct (Hf k t Hkt) as [Hs Hv] end. split; [|done].
  intros ->. done.
Qed.
