(* ===== verification/RunEnv.v ===== *)
(** * Owned stacks: [internal/runenv/compose.go], [deployment.go]

    A [Stack] is a Compose project that a demo, a test or a measurement
    starts, controls and removes.  Docker, the shell, the file system, the
    network and the source of fresh identifiers are the host, a parameter
    ([Host]); every operation is a computation on the world. *)
From S2P Require Import Prelude GoBytes GoTime GoJson GoEncode GoPath Event RuntimeInfo Runtime Persistence Telemetry Publisher Reader RateLimit Config Service Api Deployment.

Record Options := mkOptions {
  o_Purpose : bytes; o_OutputDirectory : bytes; o_Profile : bytes; o_ExposeDependencies : bool
}.

Record Stack := mkStack {
  APIURL : bytes; APIProbeURL : bytes; ConsumerURL : bytes; DatabaseURL : bytes; Brokers : bytes;
  Project : bytes; Directory : bytes;
  st_root : bytes; st_token : bytes; st_identity : bytes;
  st_env : list bytes;
  st_owned : bool;
  st_profile : bytes; st_caPath : bytes;
  st_expose : bool
}.

(** An HTTP client: its timeout, and the certificate authority it trusts
    instead of the system's. *)
Record Client := mkClient { cl_Timeout : Z; cl_roots : option bytes }.

(** The calls of the package on the host. *)
Class Host {Wd : World} := {
  (** [exec.CommandContext(ctx, "docker", args...)] in a directory and an
      environment: its combined output and its error *)
  h_docker : Context -> bytes -> list bytes -> list bytes -> W -> (bytes * goerr) * W;
  h_sh : Context -> list bytes -> W -> (bytes * goerr) * W;
  h_environ : W -> list bytes;
  h_getwd : W -> res bytes;
  h_stat : bytes -> W -> goerr;
  h_abs : bytes -> W -> res bytes;
  h_mkdirAll : bytes -> W -> goerr * W;
  (** [os.WriteFile] with mode 0600 *)
  h_writeFile : bytes -> bytes -> W -> goerr * W;
  h_readFile : bytes -> W -> res bytes;
  (** what [ReadDeploymentConfig] sees of a file *)
  h_openConfig : bytes -> W -> res (bool * Z * bytes);
  (** [net.Listen("tcp", "127.0.0.1:0")]: the port it got *)
  h_listen : W -> res Z * W;
  h_closeListener : Z -> W -> W;
  (** [uuid.NewString] *)
  h_newUUID : W -> bytes * W;
  (** [AppendCertsFromPEM] on an empty pool *)
  h_validPEM : bytes -> bool;
  (** [client.Get]: the status of the answer *)
  h_get : Client -> bytes -> W -> res Z * W;
  (** the order in which a map is ranged over *)
  h_range : forall {A}, list A -> W -> list A
}.

(** ** Names *)

Definition project_char (c : Z) : bool := in_range 97 122 c || in_range 48 57 c || (c =? 45).

(** [strings.ToLower], then without what is not [a-z0-9-].  Beyond ASCII only
    U+0130 and U+212A have a lower case that is kept. *)
Fixpoint project_chars (s : bytes) : bytes :=
  match s with
  | [] => []
  | 196 :: 176 :: r => 105 :: project_chars r
  | 226 :: 132 :: 170 :: r => 107 :: project_chars r
  | c :: r =>
      let c := if in_range 65 90 c then c + 32 else c in
      if project_char c then c :: project_chars r else project_chars r
  end.

(** [id] is the identifier [uuid.NewString] returned. *)
Definition projectName (purpose id : bytes) : bytes :=
  let purpose := project_chars purpose in
  let purpose := if 20 <? blen purpose then take 20 purpose else purpose in
  lit "ingestkit-" ++ purpose ++ lit "-" ++ take 8 id.

Definition apiAddress (port : bytes) : bytes := lit "http://" ++ TrimSpace port.

Definition selfhost : bytes := lit "selfhost".

Definition composeArgs (s : Stack) (args : list bytes) : list bytes :=
  let base :=
    if bool_decide (st_profile s = selfhost) then
      [lit "compose"; lit "--project-directory"; Join [st_root s; lit "deploy"]; lit "-p"; Project s;
       lit "-f"; Join [st_root s; lit "deploy/compose.yml"];
       lit "-f"; Join [st_root s; lit "tests/fixtures/deployment/local.yml"]] ++
      (if st_expose s then [lit "-f"; Join [st_root s; lit "tests/fixtures/deployment/probes.yml"]] else [])
    else [lit "compose"; lit "--project-directory"; st_root s; lit "-p"; Project s;
          lit "-f"; Join [st_root s; lit "docker-compose.yml"]] in
  let base := if bool_decide (Directory s = []) then base
              else base ++ [lit "--env-file"; Join [Directory s; lit "run.env"]] in
  base ++ args.

Definition assign (name : string) (value : bytes) : bytes := lit name ++ lit "=" ++ value.
Definition env_file (env : list bytes) : bytes := JoinSep [10] env ++ [10].

Section RunEnv.
Context {Wd : World} {H : Host} {T : Timers}.

Definition io {A} (f : W -> A * W) : M W A := fun w => Some (f w).
Definition clock_now : M W Z := gets now.

(** [Root]: up from the working directory; absolute paths have at most as
    many ancestors as bytes. *)
Fixpoint find_root (fuel : nat) (p : bytes) (w : W) : option (res bytes) :=
  match fuel with
  | O => None
  | S fuel =>
      match h_stat (Join [p; lit "go.mod"]) w, h_stat (Join [p; lit "docker-compose.yml"]) w with
      | None, None => Some (Ok p)
      | _, _ =>
          let parent := Dir p in
          if bool_decide (parent = p) then Some (Err (ENew "run inside the IngestKit checkout"))
          else find_root fuel parent w
      end
  end.

Definition Root : M W (res bytes) := fun w =>
  match h_getwd w with
  | Err err => Some (Err err, w)
  | Ok p => match find_root (S (length p)) p w with Some r => Some (r, w) | None => None end
  end.

(** ** Commands *)

Definition deployment_env (cfg : DeploymentConfig) : list bytes :=
  [assign "DOMAIN" (dc_Domain cfg); assign "API_KEYS" (json_map (dc_APIKeys cfg));
   assign "POSTGRES_ADMIN_PASSWORD" (dc_AdminPassword cfg); assign "POSTGRES_WRITER_PASSWORD" (dc_WriterPassword cfg)].

Definition run_env (s : Stack) : bytes := Join [Directory s; lit "run.env"].

(** The last 5000 bytes of an output. *)
Definition output_tail (out : bytes) : bytes :=
  if 5000 <? blen out then drop (length out - 5000) out else out.

Definition docker (s : Stack) (ctx : Context) (args : list bytes) : M W (bytes * goerr) :=
  let! environ := gets h_environ in
  let! extra := gets (fun w => if bool_decide (st_profile s = selfhost)
                               then let? cfg := ReadDeploymentConfig (h_openConfig (run_env s) w) in Ok (deployment_env cfg)
                               else Ok []) in
  match extra with
  | Err e => ret ([], Some e)
  | Ok extra =>
      let! (out, err) := io (h_docker ctx (st_root s) (environ ++ st_env s ++ extra) args) in
      match err with
      | Some err => ret (out, Some (EWrap (String.append "docker command failed: " (text (output_tail out))) err))
      | None => ret (out, None)
      end
  end.

Definition Compose (s : Stack) (ctx : Context) (args : list bytes) : M W (bytes * goerr) :=
  if negb (st_owned s) || negb (bool_decide (Project s = st_identity s))
  then ret ([], Some (ENew "stack ownership identity mismatch"))
  else docker s ctx (composeArgs s args).

Definition Compose_ (s : Stack) (ctx : Context) (args : list bytes) : M W goerr :=
  let! (_, err) := Compose s ctx args in ret err.

(** ** Ownership *)

Definition run_label : bytes := quoted (lit "io.ingestkit.run").
Definition container_label : bytes := lit "{{index .Config.Labels " ++ run_label ++ lit "}}".
Definition volume_label : bytes := lit "{{index .Labels " ++ run_label ++ lit "}}".

(** The loops of [verifyOwner]: every listed resource carries the token. *)
Fixpoint check_labels (token : bytes) (inspect : bytes -> M W (bytes * goerr)) (message : string) (ids : list bytes) : M W goerr :=
  match ids with
  | [] => ret None
  | id :: rest =>
      let! (out, err) := inspect id in
      match err with
      | Some err => ret (Some err)
      | None => if negb (bool_decide (TrimSpace out = token)) then ret (Some (ENew message))
                else check_labels token inspect message rest
      end
  end.

Definition inspect_container (s : Stack) (ctx : Context) (id : bytes) : M W (bytes * goerr) :=
  docker s ctx [lit "inspect"; lit "--format"; container_label; id].
Definition inspect_volume (s : Stack) (ctx : Context) (v : bytes) : M W (bytes * goerr) :=
  docker s ctx [lit "volume"; lit "inspect"; lit "--format"; volume_label; v].
Definition list_volumes (s : Stack) (ctx : Context) : M W (bytes * goerr) :=
  docker s ctx [lit "volume"; lit "ls"; lit "--filter"; lit "label=com.docker.compose.project=" ++ Project s;
                lit "--format"; lit "{{.Name}}"].
Definition list_containers (s : Stack) (ctx : Context) : M W (bytes * goerr) :=
  Compose s ctx [lit "ps"; lit "-a"; lit "-q"].

Definition verifyOwner (s : Stack) (ctx : Context) : M W goerr :=
  if negb (st_owned s) || bool_decide (st_token s = []) || negb (HasPrefix (Project s) (lit "ingestkit-"))
  then ret (Some (ENew "refusing unowned resource operation"))
  else
    let! (ids, err) := list_containers s ctx in
    match err with
    | Some err => ret (Some err)
    | None =>
        let! err := check_labels (st_token s) (inspect_container s ctx) "container ownership label mismatch" (Fields ids) in
        match err with
        | Some err => ret (Some err)
        | None =>
            let! (volumes, err) := list_volumes s ctx in
            match err with
            | Some err => ret (Some err)
            | None => check_labels (st_token s) (inspect_volume s ctx) "volume ownership label mismatch" (Fields volumes)
            end
        end
    end.

(** What follows a successful verification. *)
Definition as_owner (s : Stack) (ctx : Context) (args : list bytes) : M W goerr :=
  let! err := verifyOwner s ctx in
  match err with Some err => ret (Some err) | None => Compose_ s ctx args end.

Definition Stop (s : Stack) (ctx : Context) : M W goerr := as_owner s ctx [lit "stop"].
Definition Destroy (s : Stack) (ctx : Context) : M W goerr := as_owner s ctx [lit "down"; lit "-v"; lit "--remove-orphans"].

Definition SetServiceRunning (s : Stack) (ctx : Context) (name : bytes) (running : bool) : M W goerr :=
  if negb (in_lits name ["api"; "consumer"; "postgres"; "redpanda"]) then ret (Some (ENew "unsupported service control"))
  else as_owner s ctx [if running then lit "start" else lit "stop"; name].

(** [KillConsumer]. *)
Definition KillConsumer (s : Stack) (ctx : Context) : M W goerr :=
  as_owner s ctx [lit "kill"; lit "-s"; lit "KILL"; lit "consumer"].

Fixpoint collect_files (s : Stack) (ctx : Context) (directory : bytes) (files : list (bytes * list bytes)) : M W goerr :=
  match files with
  | [] => ret None
  | (name, args) :: rest =>
      let! (out, err) := Compose s ctx args in
      match err with
      | Some err => ret (Some err)
      | None =>
          let! err := io (h_writeFile (Join [directory; name]) out) in
          match err with Some err => ret (Some err) | None => collect_files s ctx directory rest end
      end
  end.

Definition evidence_files : list (bytes * list bytes) :=
  [(lit "containers.txt", [lit "ps"; lit "-a"]); (lit "services.log", [lit "logs"; lit "--no-color"; lit "--tail"; lit "100"]);
   (lit "images.txt", [lit "images"])].

Definition CollectEvidence (s : Stack) (ctx : Context) (directory : bytes) : M W goerr :=
  if negb (st_owned s) then ret (Some (ENew "unowned stack"))
  else
    let! err := io (h_mkdirAll directory) in
    match err with
    | Some err => ret (Some err)
    | None => let! files := gets (h_range evidence_files) in collect_files s ctx directory files
    end.

(** ** deployment.go *)

(** The key of the tenant [default]. *)
Definition APIKey (s : Stack) : M W bytes :=
  if negb (bool_decide (st_profile s = selfhost)) then ret (lit "local-demo-key")
  else fun w =>
    match ReadDeploymentConfig (h_openConfig (run_env s) w) with
    | Err _ => Some ([], w)
    | Ok cfg =>
        Some (match list_find (fun kt => snd kt = lit "default") (h_range (map_to_list (dc_APIKeys cfg)) w) with
              | Some (_, (key, _)) => key
              | None => []
              end, w)
    end.

Definition HTTPClient (s : Stack) (w : W) : res Client :=
  if negb (bool_decide (st_profile s = selfhost)) then Ok (mkClient (8 * Second) None)
  else match h_readFile (st_caPath s) w with
       | Err _ => Err (ENew "cannot read deployment CA")
       | Ok raw => if negb (h_validPEM raw) then Err (ENew "invalid deployment CA")
                   else Ok (mkClient (8 * Second) (Some raw))
       end.

(** Listen on [n] free ports: the ports so far, and the error that ended it. *)
Fixpoint reserve (n : nat) (ports : list Z) : M W (list Z * goerr) :=
  match n with
  | O => ret (ports, None)
  | S n =>
      let! l := io h_listen in
      match l with
      | Err e => ret (ports, Some e)
      | Ok port => reserve n (ports ++ [port])
      end
  end.

Definition release (ports : list Z) : M W unit := fun w => Some (tt, foldl (fun w p => h_closeListener p w) w ports).

Definition port_of (ports : list Z) (i : nat) : bytes := itoa (nth i ports 0).

(** [prepareDeployment]: the stack it leaves and its error. *)
Definition deployment_ports (s : Stack) (ports : list Z) : list bytes :=
  [assign "API_PROBE_PORT" (port_of ports 5); assign "INGESTKIT_HTTP_PORT" (port_of ports 0);
   assign "INGESTKIT_HTTPS_PORT" (port_of ports 1); assign "POSTGRES_PORT" (port_of ports 2);
   assign "METRICS_PORT" (port_of ports 3); assign "INGESTKIT_BROKER_PORT" (port_of ports 4);
   assign "INGESTKIT_REPO_ROOT" (st_root s); assign "INGESTKIT_RUN_ID" (st_token s); lit "RATE_LIMIT_RPS=10000";
   lit "LOG_LEVEL=info"; lit "RETENTION_MS=604800000"; lit "CONSUMER_GROUP=ingestkit-consumer"].

Definition set_profile (profile : bytes) (expose : bool) (s : Stack) : Stack :=
  mkStack (APIURL s) (APIProbeURL s) (ConsumerURL s) (DatabaseURL s) (Brokers s) (Project s) (Directory s) (st_root s)
    (st_token s) (st_identity s) (st_env s) (st_owned s) profile (st_caPath s) expose.
Definition set_env (env : list bytes) (s : Stack) : Stack :=
  mkStack (APIURL s) (APIProbeURL s) (ConsumerURL s) (DatabaseURL s) (Brokers s) (Project s) (Directory s) (st_root s)
    (st_token s) (st_identity s) env (st_owned s) (st_profile s) (st_caPath s) (st_expose s).
Definition set_directory (dir : bytes) (s : Stack) : Stack :=
  mkStack (APIURL s) (APIProbeURL s) (ConsumerURL s) (DatabaseURL s) (Brokers s) (Project s) dir (st_root s)
    (st_token s) (st_identity s) (st_env s) (st_owned s) (st_profile s) (st_caPath s) (st_expose s).
Definition set_urls (api probe consumer database brokers caPath : bytes) (s : Stack) : Stack :=
  mkStack api probe consumer database brokers (Project s) (Directory s) (st_root s)
    (st_token s) (st_identity s) (st_env s) (st_owned s) (st_profile s) caPath (st_expose s).

Definition local_url (ports : list Z) (i : nat) : bytes := lit "127.0.0.1:" ++ port_of ports i.

(** After the ports are reserved. *)
Definition prepare_files (o : Options) (cfg : bytes) (ports : list Z) (s : Stack) : M W (Stack * goerr) :=
  let s := set_env (deployment_ports s ports) s in
  let! err := io (h_writeFile (run_env s) (cfg ++ env_file (st_env s))) in
  match err with
  | Some err => ret (s, Some err)
  | None =>
      let s := set_urls (lit "https://localhost:" ++ port_of ports 1) (APIProbeURL s) (ConsumerURL s) (DatabaseURL s)
                 (Brokers s) (Join [Directory s; lit "root.crt"]) s in
      if negb (o_ExposeDependencies o) then ret (s, None)
      else
        let s := set_urls (APIURL s) (lit "http://" ++ local_url ports 5) (ConsumerURL s) (DatabaseURL s) (Brokers s) (st_caPath s) s in
        let! c := gets (fun w => ReadDeploymentConfig (h_openConfig (run_env s) w)) in
        match c with
        | Err e => ret (s, Some e)
        | Ok c =>
            ret (set_urls (APIURL s) (APIProbeURL s) (lit "http://" ++ local_url ports 3)
                   (lit "postgres://ingestkit_admin:" ++ QueryEscape (dc_AdminPassword c) ++ lit "@" ++ local_url ports 2 ++
                    lit "/ingestkit?sslmode=disable") (local_url ports 4) (st_caPath s) s, None)
        end
  end.

Definition prepareDeployment (ctx : Context) (o : Options) (s : Stack) : M W (Stack * goerr) :=
  let s := set_profile selfhost (o_ExposeDependencies o) s in
  let! (out, err) := io (h_sh ctx [Join [st_root s; lit "deploy/configure.sh"]; lit "localhost"; Directory s]) in
  match err with
  | Some err => ret (s, Some (EWrap (String.append "configure owned deployment: " (text out)) err))
  | None =>
      let! cfg := gets (h_readFile (Join [Directory s; lit ".env"])) in
      match cfg with
      | Err err => ret (s, Some err)
      | Ok cfg =>
          let! (ports, err) := reserve 6 [] in
          let! r := match err with Some err => ret (s, Some err) | None => prepare_files o cfg ports s end in
          release ports ;; ret r
      end
  end.

(** The end of a round of [startDeployment]'s loop: give up after the
    deadline, or wait 100 ms for the [next]. *)
Definition next_round (ctx : Context) (deadline : Z) (next : M W goerr) : M W goerr :=
  let! t := clock_now in
  if deadline <? t then ret (Some (ENew "local TLS deployment did not become healthy"))
  else
    let! ended := io (select_timer ctx (t + 100 * Millisecond)) in
    if ended then let! t := clock_now in ret (ctx_Err ctx t) else next.

(** What the round found: whether the deployment is healthy, or an error. *)
Definition probe_health (s : Stack) (ctx : Context) : M W (res bool) :=
  let! err := Compose_ s ctx [lit "cp"; lit "gateway:/data/caddy/pki/authorities/local/root.crt"; st_caPath s] in
  match err with
  | Some _ => ret (Ok false)
  | None =>
      let! client := gets (HTTPClient s) in
      match client with
      | Err e => ret (Err e)
      | Ok client =>
          let! r := io (h_get client (APIURL s ++ lit "/health")) in
          ret (Ok match r with Ok status => status =? 200 | Err _ => false end)
      end
  end.

Fixpoint await_healthy (fuel : nat) (s : Stack) (ctx : Context) (deadline : Z) : M W goerr :=
  match fuel with
  | O => diverge
  | S fuel =>
      let! healthy := probe_health s ctx in
      match healthy with
      | Err e => ret (Some e)
      | Ok true => ret None
      | Ok false => next_round ctx deadline (await_healthy fuel s ctx deadline)
      end
  end.

(** Fifteen seconds of rounds, and one at each end. *)
Definition healthy_fuel : nat := 153.

Definition startDeployment (s : Stack) (ctx : Context) : M W goerr :=
  let! err := Compose_ s ctx [lit "up"; lit "-d"; lit "--build"; lit "--wait"; lit "--wait-timeout"; lit "100"] in
  match err with
  | Some err => ret (Some err)
  | None => let! t := clock_now in await_healthy healthy_fuel s ctx (t + 15 * Second)
  end.

(** ** Start *)

Definition errStartupCleanup : error := ENew "startup cleanup failed".

Definition development_env (s : Stack) (ports : list Z) : list bytes :=
  [assign "INGESTKIT_BROKER_PORT" (port_of ports 0); assign "API_PORT" (port_of ports 1);
   assign "METRICS_PORT" (port_of ports 2); assign "POSTGRES_PORT" (port_of ports 3);
   lit "POSTGRES_DB=ingestkit_test"; lit "POSTGRES_PASSWORD=local-test-only";
   assign "API_KEYS" (lit "{" ++ quoted (lit "local-demo-key") ++ lit ":" ++ quoted (lit "demo") ++ lit "," ++
                      quoted (lit "local-second-key") ++ lit ":" ++ quoted (lit "second") ++ lit "}");
   assign "INGESTKIT_RUN_ID" (st_token s)].

Definition service_ports : list (bytes * bytes) :=
  [(lit "api", lit "8080"); (lit "consumer", lit "8081"); (lit "postgres", lit "5432")].

(** The endpoints of the services, asked in some order. *)
Fixpoint discover (s : Stack) (ctx : Context) (services : list (bytes * bytes)) (endpoints : gmap bytes bytes)
    : M W (res (gmap bytes bytes)) :=
  match services with
  | [] => ret (Ok endpoints)
  | (service, port) :: rest =>
      let! (out, err) := Compose s ctx [lit "port"; service; port] in
      match err with
      | Some e => ret (Err e)
      | None => discover s ctx rest (<[service := TrimSpace out]> endpoints)
      end
  end.

Definition stack_manifest (s : Stack) : gmap bytes bytes :=
  <[lit "project" := Project s]> (<[lit "api_url" := APIURL s]> (<[lit "consumer_url" := ConsumerURL s]>
  {[ lit "broker" := Brokers s ]})).

(** The development stack, once its containers are up. *)
Definition finish_development (ctx : Context) (ports : list Z) (s : Stack) : M W (Stack * goerr) :=
  let! order := gets (h_range service_ports) in
  let! found := discover s ctx order ∅ in
  match found with
  | Err e => ret (s, Some e)
  | Ok endpoints =>
      let at_ name := default [] (endpoints !! lit name) in
      let s := set_urls (apiAddress (at_ "api"%string)) (APIProbeURL s) (apiAddress (at_ "consumer"%string))
                 (lit "postgres://ingestkit:local-test-only@" ++ at_ "postgres"%string ++ lit "/ingestkit_test?sslmode=disable")
                 (local_url ports 0) (st_caPath s) s in
      let! err := io (h_writeFile (Join [Directory s; lit "stack.json"]) (json_map_indent (stack_manifest s))) in
      ret (s, err)
  end.

(** The body of [startAttempt]: the stack, whether resources may exist, and
    the error, for its deferred function. *)
Definition start_development (ctx : Context) (s : Stack) : M W (Stack * bool * goerr) :=
  let! (ports, e) := reserve 4 [] in
  match e with
  | Some e => release ports ;; ret (s, false, Some e)
  | None =>
      let s := set_env (development_env s ports) s in
      let! err := io (h_writeFile (run_env s) (env_file (st_env s))) in
      release ports ;;
      match err with
      | Some err => ret (s, false, Some err)
      | None =>
          let! err := Compose_ s ctx [lit "up"; lit "-d"; lit "--build"; lit "--wait"; lit "--wait-timeout"; lit "90"] in
          match err with
          | Some err => ret (s, true, Some err)
          | None => let! (s, err) := finish_development ctx ports s in ret (s, true, err)
          end
      end
  end.

Definition start_body (ctx : Context) (o : Options) (s : Stack) : M W (Stack * bool * goerr) :=
  let dir := if bool_decide (o_OutputDirectory o = []) then Join [st_root s; lit "tmp"; lit "runs"; Project s]
             else o_OutputDirectory o in
  let! abs := gets (h_abs dir) in
  match abs with
  | Err err => ret (set_directory [] s, false, Some err)
  | Ok dir =>
      let s := set_directory dir s in
      let! err := io (h_mkdirAll dir) in
      match err with
      | Some err => ret (s, false, Some err)
      | None =>
          if bool_decide (o_Profile o = selfhost) then
            let! (s, err) := prepareDeployment ctx o s in
            match err with
            | Some err => ret (s, false, Some err)
            | None => let! err := startDeployment s ctx in ret (s, true, err)
            end
          else start_development ctx s
      end
  end.

(** A new stack: [Project] is evaluated before [token]. *)
Definition new_stack (root purpose : bytes) : M W Stack :=
  let! id := io h_newUUID in
  let! token := io h_newUUID in
  let project := projectName purpose id in
  ret (mkStack [] [] [] [] [] project [] root token project [] true [] [] false).

Definition startAttempt (ctx : Context) (root : bytes) (o : Options) : M W (res Stack) :=
  let! s := new_stack root (o_Purpose o) in
  let! (s, resourcesMayExist, err) := start_body ctx o s in
  match err with
  | None => ret (Ok s)
  | Some err =>
      if negb resourcesMayExist then ret (Err err)
      else
        let! t := clock_now in
        let cleanup := WithTimeout Background t (20 * Second) in
        let! evidenceErr := CollectEvidence s cleanup (Directory s) in
        let! destroyErr := Destroy s cleanup in
        let destroyErr := match destroyErr with
                          | Some e => errors_Join [Some errStartupCleanup; Some e]
                          | None => None
                          end in
        ret (Err (EWrap (text (lit "start " ++ Project s ++ lit " failed; evidence " ++ Directory s))
                    (EJoin (omap id [Some err; evidenceErr; destroyErr]))))
  end.

(** The text of an error. *)
Variable errtext : error -> bytes.

Definition retryable (e : error) : bool :=
  Contains (errtext e) (lit "address already in use") && negb (errors_Is e errStartupCleanup).

Fixpoint start_attempts (attempts : nat) (ctx : Context) (root : bytes) (o : Options) (last : error) : M W (res Stack) :=
  match attempts with
  | O => ret (Err last)
  | S attempts =>
      let! r := startAttempt ctx root o in
      match r with
      | Ok s => ret (Ok s)
      | Err e => if negb (retryable e) then ret (Err e) else start_attempts attempts ctx root o e
      end
  end.

Definition Start (ctx : Context) (o : Options) : M W (res Stack) :=
  if negb (in_lits (o_Profile o) [""; "development"; "selfhost"]) then ret (Err (ENew "unsupported deployment profile"))
  else if o_ExposeDependencies o && negb (bool_decide (o_Profile o = selfhost))
  then ret (Err (ENew "dependency probes require selfhost profile"))
  else
    let! root := Root in
    match root with
    | Err err => ret (Err err)
    | Ok root => start_attempts 3 ctx root o (ENew "")
    end.
End RunEnv.
