(* ===== verification/RunEnvProps.v ===== *)
(** * Properties of owned stacks

    Docker as the containers and volumes it holds, each with the project it
    belongs to and the value of the run label, and what the program relies on
    of its commands; then what the operations of a stack may touch, and what
    a start that failed leaves behind. *)
From S2P Require Import Prelude GoBytes GoTime GoJson GoEncode GoPath Event RuntimeInfo Runtime Persistence Telemetry Publisher Reader RateLimit Config Service Api Deployment RunEnv.

(** ** Docker *)

Record Resource := mkResource { r_project : bytes; r_label : bytes; r_state : Z }.

Inductive kind := KContainer | KVolume.

Class DockerState {Wd : World} := {
  resources : kind -> W -> gmap bytes Resource
}.

(** The options of [docker compose] that take a value: [Some true] is the
    project. *)
Definition flag_kind (flag : bytes) : option bool :=
  if bool_decide (flag = lit "-p") then Some true
  else if in_lits flag ["--project-directory"; "-f"; "--env-file"] then Some false
  else None.

Fixpoint compose_flags (args : list bytes) (project : bytes) : bytes * list bytes :=
  match args with
  | flag :: value :: rest =>
      match flag_kind flag with
      | Some true => compose_flags rest value
      | Some false => compose_flags rest project
      | None => (project, args)
      end
  | _ => (project, args)
  end.

(** The project of a [docker compose] command line and its command. *)
Definition compose_command (args : list bytes) : option (bytes * list bytes) :=
  match args with
  | c :: rest => if bool_decide (c = lit "compose") then Some (compose_flags rest []) else None
  | [] => None
  end.

(** Commands that change no container and no volume. *)
Definition reads (args : list bytes) : bool :=
  match args with
  | c :: d :: _ =>
      bool_decide (c = lit "inspect") ||
      (bool_decide (c = lit "volume") && in_lits d ["ls"; "inspect"]) ||
      match compose_command args with
      | Some (_, cmd :: _) => in_lits cmd ["ps"; "port"; "logs"; "images"; "cp"]
      | _ => false
      end
  | _ => false
  end.

(** Nothing of Docker changes. *)
Definition same {Wd : World} {D : DockerState} (w w' : W) : Prop := forall k, resources k w' = resources k w.

(** Nothing outside a project changes. *)
Definition outside {Wd : World} {D : DockerState} (p : bytes) (w w' : W) : Prop :=
  forall k id r, r_project r <> p -> resources k w !! id = Some r <-> resources k w' !! id = Some r.

(** What is relied on of Docker and of the other calls of the host. *)
Class HostLaws {Wd : World} (H : Host) (T : Timers) (D : DockerState) := {
  law_scope ctx dir env args w p cmd :
    compose_command args = Some (p, cmd) -> outside p w (snd (h_docker ctx dir env args w));
  law_reads ctx dir env args w : reads args = true -> same w (snd (h_docker ctx dir env args w));
  (** [ps -a -q] lists every container of the project *)
  law_ps ctx dir env args w p out id r :
    compose_command args = Some (p, [lit "ps"; lit "-a"; lit "-q"]) -> fst (h_docker ctx dir env args w) = (out, None) ->
    resources KContainer w !! id = Some r -> r_project r = p -> id ∈ Fields out;
  law_volume_ls ctx dir env w p out id r :
    fst (h_docker ctx dir env [lit "volume"; lit "ls"; lit "--filter"; lit "label=com.docker.compose.project=" ++ p;
                               lit "--format"; lit "{{.Name}}"] w) = (out, None) ->
    resources KVolume w !! id = Some r -> r_project r = p -> id ∈ Fields out;
  law_inspect ctx dir env w out id r :
    fst (h_docker ctx dir env [lit "inspect"; lit "--format"; container_label; id] w) = (out, None) ->
    resources KContainer w !! id = Some r -> TrimSpace out = TrimSpace (r_label r);
  law_volume_inspect ctx dir env w out id r :
    fst (h_docker ctx dir env [lit "volume"; lit "inspect"; lit "--format"; volume_label; id] w) = (out, None) ->
    resources KVolume w !! id = Some r -> TrimSpace out = TrimSpace (r_label r);
  (** [down -v --remove-orphans] leaves nothing of the project: the compose
      files of the repository declare all the volumes its stacks have *)
  law_down ctx dir env args w p out k id r :
    compose_command args = Some (p, [lit "down"; lit "-v"; lit "--remove-orphans"]) ->
    fst (h_docker ctx dir env args w) = (out, None) ->
    resources k (snd (h_docker ctx dir env args w)) !! id = Some r -> r_project r <> p;
  law_sh ctx args w : same w (snd (h_sh ctx args w));
  law_mkdirAll d w : same w (snd (h_mkdirAll d w));
  law_writeFile p d w : same w (snd (h_writeFile p d w));
  law_listen w : same w (snd (h_listen w));
  law_closeListener p w : same w (h_closeListener p w);
  law_newUUID w : same w (snd (h_newUUID w));
  law_get c u w : same w (snd (h_get c u w));
  law_timer c fire w : same w (snd (select_timer c fire w));
  (** the clock *)
  law_docker_forward ctx dir env args : forward (h_docker ctx dir env args);
  law_get_forward c u : forward (h_get c u);
  (** fresh identifiers, working directories, absolute paths, ranges *)
  law_uuid w : length (fst (h_newUUID w)) = 36%nat /\
    Forall (fun c => c = 45 \/ 48 <= c <= 57 \/ 97 <= c <= 102) (fst (h_newUUID w));
  law_getwd w p : h_getwd w = Ok p -> absolute p;
  law_abs d w p : h_abs d w = Ok p -> absolute p;
  law_range A (l : list A) w : Permutation l (h_range l w)
}.

(** ** Command lines *)

Lemma compose_flags_end c cmd p : flag_kind c = None -> compose_flags (c :: cmd) p = (p, c :: cmd).
Proof. intros H. cbn [compose_flags]. rewrite H. by destruct cmd. Qed.

(** Every command of a stack names its project. *)
Lemma composeArgs_command s c cmd :
  flag_kind c = None -> compose_command (composeArgs s (c :: cmd)) = Some (Project s, c :: cmd).
Proof.
  intros H. unfold composeArgs, compose_command. destruct (bool_decide (st_profile s = selfhost)), (st_expose s), (bool_decide (Directory s = []));
    cbn [app]; rewrite bool_decide_true by reflexivity; cbn [compose_flags];
    repeat match goal with
    | |- context [flag_kind (lit ?f)] => let v := eval vm_compute in (flag_kind (lit f)) in change (flag_kind (lit f)) with v
    end; cbv iota; rewrite ?H; by destruct cmd.
Qed.

Section Keeps.
Context {Wd : World} {D : DockerState}.

(** ** What a computation leaves alone *)

Definition keeps {A} (R : W -> W -> Prop) (m : M W A) : Prop := forall w a w', m w = Some (a, w') -> R w w'.

#[global] Instance same_preorder : PreOrder same.
Proof. split; [by intros w k|]. intros a b c H1 H2 k. by rewrite H2, H1. Qed.

#[global] Instance outside_preorder p : PreOrder (outside p).
Proof. split; [by intros w k|]. intros a b c H1 H2 k id r Hr. rewrite (H1 k id r Hr). by apply H2. Qed.

Lemma same_outside p w w' : same w w' -> outside p w w'.
Proof. intros Hs k id r _. by rewrite Hs. Qed.

Lemma keeps_weaken {A} (R R' : W -> W -> Prop) (m : M W A) : (forall w w', R w w' -> R' w w') -> keeps R m -> keeps R' m.
Proof. intros Hr Hm w a w' E. by eapply Hr, Hm. Qed.

Lemma keeps_ret {A} R `{!PreOrder R} (a : A) : keeps R (ret a).
Proof. intros w x w' [= _ <-]. reflexivity. Qed.

Lemma keeps_gets {A} R `{!PreOrder R} (f : W -> A) : keeps R (gets f).
Proof. intros w x w' [= _ <-]. reflexivity. Qed.

Lemma keeps_io {A} R (f : W -> A * W) : (forall w, R w (snd (f w))) -> keeps R (io f).
Proof. intros Hf w x w'. unfold io. intros [= E]. specialize (Hf w). by rewrite E in Hf. Qed.

Lemma keeps_bind {A C} R `{!PreOrder R} (m : M W A) (k : A -> M W C) :
  keeps R m -> (forall a, keeps R (k a)) -> keeps R (bind m k).
Proof.
  intros Hm Hk w c w' (a & w1 & H1 & H2)%bind_Some. transitivity w1; [by eapply Hm | by eapply Hk].
Qed.

(** A computation without a loop returns. *)
Definition total {A} (m : M W A) : Prop := forall w, exists a w', m w = Some (a, w').

Lemma returns_ret {A} (a : A) : total (ret a).
Proof. intros w. by eexists _, _. Qed.

Lemma total_gets {A} (f : W -> A) : total (gets f).
Proof. intros w. by eexists _, _. Qed.

Lemma total_io {A} (f : W -> A * W) : total (io f).
Proof. intros w. unfold io. destruct (f w). by eexists _, _. Qed.

Lemma returns_bind {A C} (m : M W A) (k : A -> M W C) : total m -> (forall a, total (k a)) -> total (bind m k).
Proof. intros Hm Hk w. destruct (Hm w) as (a & w1 & E). unfold bind. rewrite E. apply Hk. Qed.
End Keeps.

(** Go through a computation, solving its calls with the lemmas given by
    [tac]. *)
Ltac walk tac :=
  intros; repeat (cbv beta zeta; first
    [ apply keeps_ret; exact _ | apply keeps_gets; exact _ | tac
    | apply keeps_bind; [exact _| |intros]
    | match goal with |- keeps _ (match ?x with _ => _ end) => destruct x end
    | match goal with |- keeps _ (if ?x then _ else _) => destruct x end ]).


(** The same for the fact that it returns. *)
Ltac returns tac :=
  intros; repeat (cbv beta zeta; first
    [ apply returns_ret | apply total_gets | apply total_io | tac
    | apply returns_bind; [|intros]
    | match goal with |- total (match ?x with _ => _ end) => destruct x end
    | match goal with |- total (if ?x then _ else _) => destruct x end ]).

Section RunEnvProps.
Context {Wd : World} {H : Host} {T : Timers} {D : DockerState} {L : HostLaws H T D}.

(** ** Commands *)

Lemma docker_keeps R `{!PreOrder R} s ctx args :
  (forall dir env w, R w (snd (h_docker ctx dir env args w))) -> keeps R (docker s ctx args).
Proof. intros Hd. unfold docker. walk ltac:(apply keeps_io; intros; apply Hd). Qed.

Lemma docker_reads s ctx args : reads args = true -> keeps same (docker s ctx args).
Proof. intros Hr. apply docker_keeps; [exact _|]. intros. by apply law_reads. Qed.

Lemma Compose_outside s ctx c cmd : flag_kind c = None -> keeps (outside (Project s)) (Compose s ctx (c :: cmd)).
Proof.
  intros Hc. unfold Compose. walk ltac:(apply docker_keeps; [exact _|]; intros; eapply law_scope; by apply composeArgs_command).
Qed.

Lemma composeArgs_reads s c cmd :
  flag_kind c = None -> in_lits c ["ps"; "port"; "logs"; "images"; "cp"] = true -> reads (composeArgs s (c :: cmd)) = true.
Proof.
  intros Hf Hc. pose proof (composeArgs_command s c cmd Hf) as E. unfold reads.
  destruct (composeArgs s (c :: cmd)) as [|x [|y args]] eqn:Ea.
  - done.
  - unfold composeArgs in Ea. repeat case_match; done.
  - rewrite E, Hc. by rewrite !orb_true_r.
Qed.

Lemma Compose_reads s ctx c cmd :
  flag_kind c = None -> in_lits c ["ps"; "port"; "logs"; "images"; "cp"] = true -> keeps same (Compose s ctx (c :: cmd)).
Proof. intros Hf Hc. unfold Compose. walk ltac:(by apply docker_reads, composeArgs_reads). Qed.

Lemma Compose__keeps R `{!PreOrder R} s ctx args : keeps R (Compose s ctx args) -> keeps R (Compose_ s ctx args).
Proof. intros Hc. unfold Compose_. walk ltac:(apply Hc). Qed.

Lemma Compose__outside s ctx c cmd : flag_kind c = None -> keeps (outside (Project s)) (Compose_ s ctx (c :: cmd)).
Proof. intros Hc. apply Compose__keeps; [exact _|]. by apply Compose_outside. Qed.

(** The output of a command that succeeded is what the host returned. *)
Lemma docker_ok s ctx args w out w' :
  docker s ctx args w = Some ((out, None), w') ->
  exists dir env, fst (h_docker ctx dir env args w) = (out, None) /\ snd (h_docker ctx dir env args w) = w'.
Proof.
  unfold docker. intros (environ & w1 & [= <- <-] & H1)%bind_Some. apply bind_Some in H1 as (extra & w1 & [= <- <-] & H1).
  case_match; [|done]. apply bind_Some in H1 as ([o e] & w2 & Hd & H1). unfold io in Hd. injection Hd as Hd.
  destruct e; [done|]. injection H1 as <- <-. eexists _, _. by rewrite Hd.
Qed.

Lemma Compose_ok s ctx args w out w' :
  Compose s ctx args w = Some ((out, None), w') -> docker s ctx (composeArgs s args) w = Some ((out, None), w').
Proof. unfold Compose. by case_match. Qed.

(** ** Verification of ownership *)

Lemma check_labels_spec token inspect message ids w err w' :
  (forall id, keeps same (inspect id)) -> check_labels token inspect message ids w = Some (err, w') ->
  same w w' /\
  (err = None -> forall id, id ∈ ids -> exists w0 out w1, same w w0 /\ inspect id w0 = Some ((out, None), w1) /\ TrimSpace out = token).
Proof.
  intros Hi. revert w. induction ids as [|x ids IH]; intros w; cbn [check_labels].
  { intros [= <- <-]. split; [done|]. set_solver. }
  intros ([out e] & w1 & E1 & E2)%bind_Some. pose proof (Hi x _ _ _ E1) as H1. destruct e as [e|].
  { injection E2 as <- <-. done. }
  destruct (negb _) eqn:Et; [injection E2 as <- <-; done|]. bool_to_prop. apply IH in E2 as [H2 Hall].
  split; [by transitivity w1|]. intros He id [->|Hid]%elem_of_cons; [by exists w, out, w1|].
  destruct (Hall He id Hid) as (w0 & o & w2 & Hs & Ho & Ht). exists w0, o, w2. split; [by transitivity w1|done].
Qed.

(** Every resource of the project carries the stack's token. *)
Definition labelled (s : Stack) (w : W) : Prop :=
  forall k id r, resources k w !! id = Some r -> r_project r = Project s -> TrimSpace (r_label r) = st_token s.

Lemma verifyOwner_spec s ctx w err w' :
  verifyOwner s ctx w = Some (err, w') -> same w w' /\ (err = None -> labelled s w /\ HasPrefix (Project s) (lit "ingestkit-") = true).
Proof.
  unfold verifyOwner. destruct (_ || _) eqn:Eg; [by intros [= <- <-]|]. bool_to_prop.
  intros ([ids e1] & w1 & E1 & E2)%bind_Some.
  assert (S1 : same w w1) by (eapply (Compose_reads s ctx); [| |exact E1]; reflexivity).
  destruct e1 as [e1|]; [by injection E2 as <- <-|].
  apply bind_Some in E2 as (e2 & w2 & E2 & E3). apply check_labels_spec in E2 as [S2 C2]; [|intros id; by apply docker_reads].
  destruct e2 as [e2|]; [injection E3 as <- <-; split; [by transitivity w1|done]|].
  apply bind_Some in E3 as ([vols e3] & w3 & E3 & E4).
  assert (S3 : same w2 w3) by (by eapply (docker_reads s ctx); [|exact E3]).
  assert (S13 : same w w3) by (transitivity w1; [done|]; by transitivity w2).
  destruct e3 as [e3|]; [by injection E4 as <- <-|].
  apply check_labels_spec in E4 as [S4 C4]; [|intros id; by apply docker_reads].
  split; [by transitivity w3|]. intros He. split; [|done]. intros k id r Hr Hp. destruct k.
  - apply Compose_ok, docker_ok in E1 as (dir & env & E1 & _). unfold list_containers in E1.
    eapply law_ps in E1; [|by apply composeArgs_command|exact Hr|exact Hp].
    destruct (C2 eq_refl id E1) as (w0 & out & w0' & S0 & E0 & Ht). apply docker_ok in E0 as (dir0 & env0 & E0 & _).
    eapply law_inspect in E0; [|rewrite S0, S1; exact Hr]. congruence.
  - apply docker_ok in E3 as (dir & env & E3 & _). eapply law_volume_ls in E3; [|rewrite S2, S1; exact Hr|exact Hp].
    destruct (C4 He id E3) as (w0 & out & w0' & S0 & E0 & Ht). apply docker_ok in E0 as (dir0 & env0 & E0 & _).
    eapply law_volume_inspect in E0; [|rewrite S0, S13; exact Hr]. congruence.
Qed.

(** ** Operations spare what is not the stack's *)

(** Every resource that does not carry the token stays as it is. *)
Definition spares (token : bytes) (w w' : W) : Prop :=
  forall k id r, TrimSpace (r_label r) <> token -> resources k w !! id = Some r -> resources k w' !! id = Some r.

#[global] Instance spares_preorder token : PreOrder (spares token).
Proof. split; [by intros w k|]. intros a b c H1 H2 k id r Hr Hl. by apply H2, H1. Qed.

Lemma same_spares token w w' : same w w' -> spares token w w'.
Proof. intros Hs k id r _. by rewrite Hs. Qed.

Lemma as_owner_spec s ctx c cmd w err w' :
  flag_kind c = None -> as_owner s ctx (c :: cmd) w = Some (err, w') ->
  outside (Project s) w w' /\ spares (st_token s) w w'.
Proof.
  intros Hc. unfold as_owner. intros (e & w1 & E1 & E2)%bind_Some. apply verifyOwner_spec in E1 as [S1 V].
  destruct e as [e|]; [injection E2 as <- <-; split; [by apply same_outside | by apply same_spares]|].
  destruct (V eq_refl) as [V' _]. pose proof (Compose__outside s ctx c cmd Hc _ _ _ E2) as Ho.
  split; [transitivity w1; [by apply same_outside|done]|].
  intros k id r Hl Hr. apply Ho; [|by rewrite S1]. intros Hp. by apply Hl, (V' k id r).
Qed.

Lemma Destroy_spec s ctx w w' :
  Destroy s ctx w = Some (None, w') -> forall k id r, resources k w' !! id = Some r -> r_project r <> Project s.
Proof.
  unfold Destroy, as_owner. intros (e & w1 & _ & E2)%bind_Some. destruct e as [e|]; [done|].
  unfold Compose_ in E2. apply bind_Some in E2 as ([out e] & w2 & E2 & [= -> <-]). intros k id r.
  apply Compose_ok, docker_ok in E2 as (dir & env & E & <-).
  eapply law_down; [by apply composeArgs_command|exact E].
Qed.

Lemma collect_files_same s ctx dir files :
  Forall (fun f => exists c cmd, snd f = c :: cmd /\ flag_kind c = None /\ in_lits c ["ps"; "port"; "logs"; "images"; "cp"] = true) files ->
  keeps same (collect_files s ctx dir files).
Proof.
  induction 1 as [|[name args] files (c & cmd & Ea & Hf & Hc) _ IH]; cbn [collect_files]; [walk fail|]. cbn [snd] in Ea. subst args.
  walk ltac:(first [exact IH | by apply Compose_reads | apply keeps_io, law_writeFile]).
Qed.

Lemma CollectEvidence_same s ctx dir : keeps same (CollectEvidence s ctx dir).
Proof.
  unfold CollectEvidence. destruct (negb _); [walk fail|]. apply keeps_bind; [exact _|apply keeps_io, law_mkdirAll|]. intros [e|]; [walk fail|].
  intros w a w' (files & w1 & [= <- <-] & E)%bind_Some. eapply collect_files_same; [|exact E].
  rewrite <- (law_range _ evidence_files w). repeat constructor; eexists _, _; split; reflexivity || (split; reflexivity).
Qed.

(** The exported methods on a stack that run commands.  [OpCompose] is
    [Compose] with the arguments [command :: args]. *)
Inductive operation :=
  | OpStop | OpDestroy | OpSetService (name : bytes) (running : bool) | OpKillConsumer | OpCollectEvidence (directory : bytes)
  | OpCompose (command : bytes) (args : list bytes).

Definition run_operation (s : Stack) (op : Context * operation) : M W goerr :=
  let '(ctx, op) := op in
  match op with
  | OpStop => Stop s ctx
  | OpDestroy => Destroy s ctx
  | OpSetService name running => SetServiceRunning s ctx name running
  | OpKillConsumer => KillConsumer s ctx
  | OpCollectEvidence dir => CollectEvidence s ctx dir
  | OpCompose command args => let! r := Compose s ctx (command :: args) in ret (snd r)
  end.

(** An operation that asks [verifyOwner] first, or changes nothing.  [Compose]
    asks nobody. *)
Definition guarded (op : operation) : bool := match op with OpCompose _ _ => false | _ => true end.

(** What is given to [Compose] begins with a command; the options before it
    are the stack's own. *)
Definition is_command (op : operation) : Prop := match op with OpCompose command _ => flag_kind command = None | _ => True end.

(** One after the other, whatever each of them returns. *)
Fixpoint run_operations (s : Stack) (ops : list (Context * operation)) : M W unit :=
  match ops with
  | [] => ret tt
  | op :: ops => run_operation s op ;; run_operations s ops
  end.

Lemma run_operation_spares s op : guarded (snd op) = true ->
  keeps (outside (Project s)) (run_operation s op) /\ keeps (spares (st_token s)) (run_operation s op).
Proof.
  intros Hg.
  destruct op as [ctx op]. assert (Ho : forall c cmd, flag_kind c = None ->
    keeps (outside (Project s)) (as_owner s ctx (c :: cmd)) /\ keeps (spares (st_token s)) (as_owner s ctx (c :: cmd))).
  { intros c cmd Hc. split; intros w a w' E; by eapply as_owner_spec in E as [? ?]. }
  destruct op as [| |name running| |dir|c cmd]; cbn [run_operation]; [| | | | |done].
  - by apply Ho.
  - by apply Ho.
  - unfold SetServiceRunning. destruct (negb _); [split; apply keeps_ret; exact _|]. apply Ho. by destruct running.
  - by apply Ho.
  - split; eapply keeps_weaken; [| apply CollectEvidence_same | | apply CollectEvidence_same].
    + apply same_outside.
    + apply same_spares.
Qed.

Lemma run_operation_outside s op : is_command (snd op) -> keeps (outside (Project s)) (run_operation s op).
Proof.
  intros Hc. destruct (guarded (snd op)) eqn:Hg; [by apply run_operation_spares|]. destruct op as [ctx []]; try discriminate Hg. cbn [run_operation].
  apply keeps_bind; [exact _|by apply Compose_outside|intros r; apply keeps_ret; exact _].
Qed.

Lemma docker_total s ctx args : total (docker s ctx args).
Proof. unfold docker. returns fail. Qed.

Lemma Compose_total s ctx args : total (Compose s ctx args).
Proof. unfold Compose. returns ltac:(apply docker_total). Qed.

Lemma Compose__total s ctx args : total (Compose_ s ctx args).
Proof. unfold Compose_. returns ltac:(apply Compose_total). Qed.

Lemma as_owner_total s ctx args : total (as_owner s ctx args).
Proof.
  assert (Hc : forall token inspect message ids, (forall id, total (inspect id)) -> total (check_labels token inspect message ids)).
  { intros token inspect message ids Hi. induction ids as [|x ids IH]; cbn [check_labels]; [apply returns_ret|]. returns ltac:(apply Hi || exact IH). }
  unfold as_owner, verifyOwner, inspect_container, inspect_volume, list_volumes, list_containers.
  returns ltac:(first [apply Hc; intros | apply docker_total | apply Compose_total | apply Compose__total]).
Qed.

Lemma CollectEvidence_total s ctx dir : total (CollectEvidence s ctx dir).
Proof.
  assert (Hf : forall files, total (collect_files s ctx dir files)).
  { induction files as [|[name args] files IH]; cbn [collect_files]; returns ltac:(apply Compose_total || exact IH). }
  unfold CollectEvidence. returns ltac:(apply Hf).
Qed.

Lemma run_operation_total s op : total (run_operation s op).
Proof.
  destruct op as [ctx [| |name running| |dir|c cmd]]; cbn [run_operation]; try apply as_owner_total.
  - unfold SetServiceRunning. returns ltac:(apply as_owner_total).
  - apply CollectEvidence_total.
  - returns ltac:(apply Compose_total).
Qed.

(** Every operation of the list leaves alone what [R] says. *)
Lemma run_operations_keeps R `{!PreOrder R} s ops : Forall (fun op => keeps R (run_operation s op)) ops -> keeps R (run_operations s ops).
Proof.
  induction 1 as [|op ops Hop _ IH]; cbn [run_operations]; [apply keeps_ret; exact _|]. apply keeps_bind; [exact _|exact Hop|by intros].
Qed.

End RunEnvProps.
