(* ===== verification/RunEnvStart.v ===== *)
(** * Starting a stack

    That [Start] returns, what kind of stack it returns, and what it leaves
    of Docker when it fails. *)
From S2P Require Import Prelude GoBytes GoTime GoJson GoEncode GoPath Event RuntimeInfo Runtime Persistence Telemetry Publisher Reader RateLimit Config Service Api Deployment RunEnv RunEnvProps.

(** ** Project names *)

Lemma project_chars_ok s : Forall (fun c => project_char c = true) (project_chars s).
Proof.
  remember (length s) as n eqn:Hn. revert s Hn. induction (lt_wf n) as [n _ IH]; intros s ->.
  assert (Hr : forall r, (length r < length s)%nat -> Forall (fun c => project_char c = true) (project_chars r)) by (intros; by eapply IH).
  clear IH. destruct s as [|c r]; [constructor|]. cbn [length] in Hr.
  assert (Hd : Forall (fun c => project_char c = true)
    (let c := if in_range 65 90 c then c + 32 else c in if project_char c then c :: project_chars r else project_chars r)).
  { cbv zeta. destruct (project_char _) eqn:E; [constructor; [done|]|]; apply Hr; lia. }
  cbn [project_chars]. repeat (case_match; try exact Hd); (constructor; [reflexivity|]); apply Hr; cbn [length]; lia.
Qed.

Lemma projectName_ok purpose id :
  length id = 36%nat -> Forall (fun c => c = 45 \/ 48 <= c <= 57 \/ 97 <= c <= 102) id ->
  HasPrefix (projectName purpose id) (lit "ingestkit-") = true /\
  Forall (fun c => project_char c = true) (projectName purpose id) /\ blen (projectName purpose id) <= 39.
Proof.
  intros Hl Hc. unfold projectName. cbv zeta. set (p := if 20 <? _ then _ else _).
  assert (Hp : Forall (fun c => project_char c = true) p /\ blen p <= 20).
  { pose proof (project_chars_ok purpose) as Hok. unfold p. destruct (20 <? _) eqn:E; bool_to_prop; [|done].
    split; [by apply Forall_take|]. unfold blen. rewrite length_take. lia. }
  destruct Hp as [Hp Hlen]. split; [apply HasPrefix_spec; by eexists|]. split.
  - apply Forall_app_2; [by repeat constructor|]. apply Forall_app_2; [done|]. apply Forall_app_2; [by repeat constructor|].
    apply Forall_take. eapply Forall_impl; [exact Hc|]. intros c Hx. cbv beta in Hx |- *. unfold project_char, in_range. lia.
  - unfold blen in *. rewrite !length_app, length_take, Hl. change (length (lit "ingestkit-")) with 10%nat.
    change (length (lit "-")) with 1%nat. lia.
Qed.

(** ** Well-formed stacks *)

Record stack_ok (s : Stack) : Prop := {
  ok_owned : st_owned s = true;
  ok_identity : st_identity s = Project s;
  ok_token : length (st_token s) = 36%nat;
  ok_prefix : HasPrefix (Project s) (lit "ingestkit-") = true;
  ok_chars : Forall (fun c => project_char c = true) (Project s);
  ok_length : blen (Project s) <= 39
}.

(** Stacks that differ in their addresses and environment at most. *)
Definition same_stack (s s' : Stack) : Prop :=
  exists api probe consumer database brokers caPath env, s' = set_env env (set_urls api probe consumer database brokers caPath s).

#[global] Instance same_stack_preorder : PreOrder same_stack.
Proof.
  split.
  - intros []. by eexists _, _, _, _, _, _, _.
  - intros a b c (? & ? & ? & ? & ? & ? & ? & ->) (? & ? & ? & ? & ? & ? & ? & ->). by eexists _, _, _, _, _, _, _.
Qed.

Lemma same_stack_urls a b c d e f s s' : same_stack s s' -> same_stack s (set_urls a b c d e f s').
Proof. intros (? & ? & ? & ? & ? & ? & ? & ->). by eexists _, _, _, _, _, _, _. Qed.

Lemma same_stack_env env s s' : same_stack s s' -> same_stack s (set_env env s').
Proof. intros (? & ? & ? & ? & ? & ? & ? & ->). by eexists _, _, _, _, _, _, _. Qed.

Lemma same_stack_refl s : same_stack s s.
Proof. reflexivity. Qed.
#[local] Hint Resolve same_stack_refl same_stack_urls same_stack_env : ingest.

Section Start.
Context {Wd : World} {H : Host} {T : Timers} {D : DockerState} {TL : TimersLaws T} {L : HostLaws H T D}.
Variable errtext : error -> bytes.

(** ** Termination *)

Lemma find_root_total fuel p w : absolute p -> (length p < fuel)%nat -> exists r, find_root fuel p w = Some r.
Proof.
  revert p. induction fuel as [|fuel IH]; intros p Ha Hf; [lia|]. cbn [find_root]. repeat case_match; try (by eexists).
  all: bool_to_prop; destruct (Dir_shorter p Ha) as [E|Hs]; [congruence|]; apply IH; [by apply Dir_absolute|lia].
Qed.

Lemma Root_total : total Root.
Proof.
  intros w. unfold Root. destruct (h_getwd w) as [p|e] eqn:E; [|by eexists _, _].
  destruct (find_root_total (S (length p)) p w) as [r ->]; [by eapply law_getwd|lia|]. by eexists _, _.
Qed.

(** The clock does not run backwards. *)
Definition advances (w w' : W) : Prop := now w <= now w'.
#[local] Instance advances_preorder : PreOrder advances.
Proof. split; [intros w; unfold advances; lia|]. intros a b c. unfold advances. lia. Qed.

Lemma probe_health_total s ctx : total (probe_health s ctx).
Proof. unfold probe_health. returns ltac:(apply Compose__total). Qed.

Lemma probe_health_advances s ctx : keeps advances (probe_health s ctx).
Proof.
  unfold probe_health. walk ltac:(first [apply Compose__keeps; [exact _|]; unfold Compose
    | apply docker_keeps; [exact _|]; intros; apply law_docker_forward | apply keeps_io, law_get_forward]).
Qed.

Lemma await_healthy_total fuel s ctx deadline w :
  deadline - now w < Z.of_nat fuel * (100 * Millisecond) -> exists a w', await_healthy (S fuel) s ctx deadline w = Some (a, w').
Proof.
  revert w. induction fuel as [|fuel IH]; intros w Hf.
  all: cbn [await_healthy]; destruct (probe_health_total s ctx w) as (r & w1 & E1);
    pose proof (probe_health_advances _ _ _ _ _ E1) as H1; unfold bind at 1; rewrite E1; unfold advances in H1;
    destruct r as [[]|e]; try (by eexists _, _);
    unfold next_round, bind at 1, clock_now, gets; destruct (deadline <? now w1) eqn:Ed; [by eexists _, _|]; bool_to_prop.
  - unfold Millisecond in Hf. lia.
  - unfold bind at 1, io. destruct (select_timer ctx (now w1 + 100 * Millisecond) w1) as [[] w3] eqn:Es; [by eexists _, _|].
    apply timer_fired in Es. apply IH. unfold Millisecond in *. lia.
Qed.

Lemma startDeployment_total s ctx : total (startDeployment s ctx).
Proof.
  unfold startDeployment. apply returns_bind; [apply Compose__total|]. intros [e|]; [apply returns_ret|].
  intros w. unfold bind, clock_now, gets. apply (await_healthy_total 152). unfold Second, Millisecond. lia.
Qed.

(** ** What the parts of a start change

    [ensures]: of Docker, and what holds of the result. *)
Definition ensures {A} (R : W -> W -> Prop) (P : A -> Prop) (m : M W A) : Prop :=
  forall w a w', m w = Some (a, w') -> R w w' /\ P a.

Lemma ensures_ret {A} R `{!PreOrder R} (P : A -> Prop) a : P a -> ensures R P (ret a).
Proof. intros Hp w x w' [= <- <-]. by split. Qed.

Lemma ensures_bind {A C} R `{!PreOrder R} (P : A -> Prop) (Q : C -> Prop) (m : M W A) (k : A -> M W C) :
  ensures R P m -> (forall a, P a -> ensures R Q (k a)) -> ensures R Q (bind m k).
Proof.
  intros Hm Hk w c w' (a & w1 & H1 & H2)%bind_Some. destruct (Hm _ _ _ H1) as [R1 P1]. destruct (Hk _ P1 _ _ _ H2) as [R2 Q2].
  split; [by transitivity w1|done].
Qed.

Lemma ensures_keeps {A} R (m : M W A) : keeps R m -> ensures R (fun _ => True) m.
Proof. intros Hm w a w' E. split; [by eapply Hm|done]. Qed.

Lemma reserve_same n ports : keeps same (reserve n ports).
Proof. revert ports. induction n as [|n IH]; intros ports; cbn [reserve]; walk ltac:(apply IH || apply keeps_io, law_listen). Qed.

Lemma release_same ports : keeps same (release ports).
Proof.
  intros w a w' [= _ <-]. revert w. induction ports as [|p ports IH]; intros w; [done|]. cbn [foldl].
  transitivity (h_closeListener p w); [apply law_closeListener | apply IH].
Qed.

Ltac calm := apply ensures_keeps; walk ltac:(first [apply keeps_io; first [apply law_writeFile | apply law_sh | apply law_mkdirAll | apply law_newUUID]
  | apply reserve_same | apply release_same]).

(** [prepareDeployment] starts nothing, and keeps the stack's identity. *)
Lemma prepare_files_spec o cfg ports s : ensures same (fun r => same_stack s (fst r)) (prepare_files o cfg ports s).
Proof.
  unfold prepare_files. cbv zeta. eapply ensures_bind; [exact _|calm|]. intros [e|] _; [apply ensures_ret; [exact _|]; cbn [fst]; eauto with ingest|].
  destruct (negb _); [apply ensures_ret; [exact _|]; cbn [fst]; eauto with ingest|].
  eapply ensures_bind; [exact _|calm|]. intros [c|e] _; apply ensures_ret; [exact _| |exact _|]; cbn [fst]; eauto 6 with ingest.
Qed.

Lemma prepareDeployment_spec ctx o s :
  ensures same (fun r => same_stack (set_profile selfhost (o_ExposeDependencies o) s) (fst r)) (prepareDeployment ctx o s).
Proof.
  unfold prepareDeployment. cbv zeta. set (s1 := set_profile _ _ s).
  eapply ensures_bind; [exact _|calm|]. intros [out [e|]] _; [by apply ensures_ret; [exact _|]|].
  eapply ensures_bind; [exact _|calm|]. intros [cfg|e] _; [|by apply ensures_ret; [exact _|]].
  eapply ensures_bind; [exact _|calm|]. intros [ports e] _.
  eapply (ensures_bind _ (fun r => same_stack s1 (fst r))).
  - destruct e as [e|]; [by apply ensures_ret; [exact _|] | apply prepare_files_spec].
  - intros r Hr. eapply ensures_bind; [exact _|calm|]. intros _ _. by apply ensures_ret; [exact _|].
Qed.

Lemma startDeployment_outside s ctx : keeps (outside (Project s)) (startDeployment s ctx).
Proof.
  assert (Hr : forall next, keeps (outside (Project s)) next -> forall deadline, keeps (outside (Project s)) (next_round ctx deadline next)).
  { intros next Hn deadline. unfold next_round, clock_now.
    walk ltac:(exact Hn || (apply keeps_io; intros; apply same_outside, law_timer)). }
  assert (Hh : forall fuel deadline, keeps (outside (Project s)) (await_healthy fuel s ctx deadline)).
  { induction fuel as [|fuel IH]; intros deadline; [by intros w a w'|]. cbn [await_healthy]. unfold probe_health.
    walk ltac:(first [by apply Compose__outside | apply keeps_io; intros; apply same_outside, law_get | apply Hr, IH]). }
  unfold startDeployment, clock_now. walk ltac:(first [by apply Compose__outside | apply Hh]).
Qed.

Lemma finish_development_spec ctx ports s :
  ensures (outside (Project s)) (fun r => same_stack s (fst r)) (finish_development ctx ports s).
Proof.
  assert (Hd : forall services endpoints, keeps (outside (Project s)) (discover s ctx services endpoints)).
  { induction services as [|[service port] services IH]; intros endpoints; cbn [discover]; walk ltac:(by apply Compose_outside || apply IH). }
  unfold finish_development. eapply ensures_bind; [exact _|by apply ensures_keeps, keeps_gets; exact _|]. intros order _.
  eapply ensures_bind; [exact _|apply ensures_keeps, Hd|]. intros [endpoints|e] _; [|by apply ensures_ret; [exact _|]].
  eapply ensures_bind; [exact _| |].
  - apply ensures_keeps, keeps_io. intros. apply same_outside, law_writeFile.
  - intros e _. apply ensures_ret; [exact _|]. cbn [fst]. eauto with ingest.
Qed.

(** The directory and profile a start gives the stack. *)
Definition placed (o : Options) (dir : bytes) (s : Stack) : Stack :=
  if bool_decide (o_Profile o = selfhost) then set_profile selfhost (o_ExposeDependencies o) (set_directory dir s)
  else set_directory dir s.

Lemma start_development_spec ctx s w s' b err w' :
  start_development ctx s w = Some ((s', b, err), w') ->
  same_stack s s' /\ outside (Project s) w w' /\ (b = false -> same w w' /\ err <> None).
Proof.
  unfold start_development. intros ([ports e] & w1 & E1 & E2)%bind_Some. apply reserve_same in E1.
  destruct e as [e|]; apply bind_Some in E2 as (r & w2 & E2 & E3).
  { apply release_same in E2. injection E3 as <- <- <- <-. assert (Hs : same w w2) by (by transitivity w1).
    split; [done|]. split; [by apply same_outside|done]. }
  assert (S2 : same w1 w2) by (eapply (keeps_io same); [apply law_writeFile|exact E2]).
  apply bind_Some in E3 as ([] & w3 & E3 & E4). apply release_same in E3.
  assert (S3 : same w w3) by (transitivity w1; [done|]; by transitivity w2). clear E1 E2 E3 S2.
  set (s1 := set_env _ s) in *. assert (H1 : same_stack s s1) by (unfold s1; eauto with ingest).
  destruct r as [e|].
  { injection E4 as <- <- <- <-. split; [done|]. split; [by apply same_outside|done]. }
  apply bind_Some in E4 as (e & w4 & E4 & E5). apply Compose__outside in E4; [|reflexivity].
  assert (O4 : outside (Project s) w w4) by (transitivity w3; [by apply same_outside|exact E4]).
  destruct e as [e|]; [by injection E5 as <- <- <- <-|].
  apply bind_Some in E5 as ([s2 e] & w5 & E5 & [= <- <- <- <-]). apply finish_development_spec in E5 as [O5 H5].
  split; [by transitivity s1|]. split; [by transitivity w4|done].
Qed.

Lemma start_body_spec ctx o s w s' b err w' :
  start_body ctx o s w = Some ((s', b, err), w') ->
  (exists dir s0, (s0 = placed o dir s \/ err <> None /\ s0 = set_directory dir s) /\ same_stack s0 s' /\ (err = None -> absolute dir)) /\
  outside (Project s) w w' /\ (b = false -> same w w' /\ err <> None).
Proof.
  unfold start_body. intros (abs & w1 & [= <- <-] & E)%bind_Some.
  match type of E with context [h_abs ?d w] => destruct (h_abs d w) as [dir|e] eqn:Ea end.
  2: { injection E as <- <- <- <-. split; [|by split]. eexists _, _. split; [by right|done]. }
  apply law_abs in Ea. apply bind_Some in E as (e & w1 & E1 & E).
  assert (S1 : same w w1) by (eapply (keeps_io same); [apply law_mkdirAll|exact E1]). clear E1.
  destruct e as [e|].
  { injection E as <- <- <- <-. split; [eexists _, _; by split; [right|]|]. by split; [apply same_outside|]. }
  destruct (bool_decide (o_Profile o = selfhost)) eqn:Ep.
  - apply bind_Some in E as ([s1 e] & w2 & E2 & E). apply prepareDeployment_spec in E2 as [S2 H2]. cbn [fst] in H2.
    assert (S12 : same w w2) by (by transitivity w1).
    assert (Hpl : placed o dir s = set_profile selfhost (o_ExposeDependencies o) (set_directory dir s)) by (unfold placed; by rewrite Ep).
    destruct e as [e|].
    + injection E as <- <- <- <-. split; [exists dir, (placed o dir s); split; [by left|by rewrite Hpl]|]. by split; [apply same_outside|].
    + apply bind_Some in E as (e & w3 & E3 & [= <- <- <- <-]). apply startDeployment_outside in E3.
      split; [exists dir, (placed o dir s); split; [by left|by rewrite Hpl]|]. split; [|done].
      transitivity w2; [by apply same_outside|]. destruct H2 as (? & ? & ? & ? & ? & ? & ? & ->). exact E3.
  - apply start_development_spec in E as (H2 & O2 & B2). split; [|split].
    + eexists dir, _. split; [by left|]. unfold placed. rewrite Ep. by split.
    + transitivity w1; [by apply same_outside|exact O2].
    + intros Hb. destruct (B2 Hb) as [S2 He]. split; [by transitivity w1|done].
Qed.

(** ** One attempt *)

Lemma new_stack_spec root purpose w s w' : new_stack root purpose w = Some (s, w') -> same w w' /\ stack_ok s.
Proof.
  unfold new_stack. intros (id & w1 & E1 & E2)%bind_Some. apply bind_Some in E2 as (token & w2 & E2 & [= <- <-]).
  unfold io in *. injection E1 as E1. injection E2 as E2.
  pose proof (law_newUUID w) as S1. pose proof (law_newUUID w1) as S2. pose proof (law_uuid w) as [L1 C1]. pose proof (law_uuid w1) as [L2 C2].
  rewrite E1 in S1, L1, C1. rewrite E2 in S2, L2, C2. cbn [fst snd] in *. split; [by transitivity w1|].
  pose proof (projectName_ok purpose id L1 C1) as (? & ? & ?). by split.
Qed.

(** Docker has nothing it did not have. *)
Definition no_new (w w' : W) : Prop := forall k, resources k w' ⊆ resources k w.

#[global] Instance no_new_preorder : PreOrder no_new.
Proof. split; [by intros w k|]. intros a b c H1 H2 k. by transitivity (resources k b). Qed.

Lemma same_no_new w w' : same w w' -> no_new w w'.
Proof. intros Hs k. by rewrite Hs. Qed.

Lemma outside_gone_no_new p w w' :
  outside p w w' -> (forall k id r, resources k w' !! id = Some r -> r_project r <> p) -> no_new w w'.
Proof. intros Ho Hg k. apply map_subseteq_spec. intros id r Hr. apply Ho; [by eapply Hg|done]. Qed.

(** The error of a failed start says whether its cleanup failed. *)
Lemma cleanup_reported msg err evidenceErr e :
  errors_Is (EWrap msg (EJoin (omap id [Some err; evidenceErr; errors_Join [Some errStartupCleanup; Some e]]))) errStartupCleanup = true.
Proof.
  cbn [errors_Is]. apply orb_true_iff. right. apply orb_true_iff. right. apply existsb_exists.
  exists (EJoin [errStartupCleanup; e]). split; [destruct evidenceErr; cbn; auto|]. cbn [errors_Is existsb].
  reflexivity.
Qed.

(** What a start promises of the stack it returns. *)
Definition started (o : Options) (s : Stack) : Prop :=
  stack_ok s /\ absolute (Directory s) /\ (st_profile s = selfhost <-> o_Profile o = selfhost) /\
  (st_profile s = selfhost -> st_expose s = o_ExposeDependencies o).

Lemma started_placed o dir s s' : stack_ok s -> st_profile s = [] -> absolute dir -> same_stack (placed o dir s) s' -> started o s'.
Proof.
  intros Hok Hn Hd (? & ? & ? & ? & ? & ? & ? & ->). unfold placed. destruct Hok as [O1 O2 O3 O4 O5 O6].
  destruct (bool_decide (o_Profile o = selfhost)) eqn:Ep; bool_to_prop; (split; [by split|]); (split; [done|]); cbn [st_profile set_env set_urls set_directory].
  - by split.
  - rewrite Hn. by split.
Qed.

Lemma startAttempt_spec ctx root o w r w' :
  startAttempt ctx root o w = Some (r, w') ->
  (exists p, HasPrefix p (lit "ingestkit-") = true /\ outside p w w' /\ forall s, r = Ok s -> Project s = p) /\
  match r with
  | Ok s => started o s
  | Err e => errors_Is e errStartupCleanup = false -> no_new w w'
  end.
Proof.
  unfold startAttempt. intros (s & w1 & E1 & E2)%bind_Some.
  assert (Hn : st_profile s = []).
  { unfold new_stack in E1. apply bind_Some in E1 as (? & ? & _ & E1). apply bind_Some in E1 as (? & ? & _ & [= <- _]). done. }
  apply new_stack_spec in E1 as [S1 Hok].
  apply bind_Some in E2 as ([[s2 b] err] & w2 & E2 & E3). apply start_body_spec in E2 as ((dir & s0 & H0 & H2 & Hd) & O2 & B2).
  assert (Hp : Project s2 = Project s).
  { destruct H2 as (? & ? & ? & ? & ? & ? & ? & ->). destruct H0 as [->|[_ ->]]; [|done]. unfold placed. destruct (bool_decide _); reflexivity. }
  assert (O12 : outside (Project s) w w2) by (transitivity w1; [by apply same_outside|done]).
  destruct err as [err|].
  - destruct b; cbn [negb] in E3.
    + apply bind_Some in E3 as (t & w2' & [= <- <-] & E3). apply bind_Some in E3 as (ev & w3 & E4 & E3).
      apply CollectEvidence_same in E4. apply bind_Some in E3 as (de & w4 & E5 & [= <- <-]).
      pose proof E5 as E6. apply as_owner_spec in E6 as [O5 _]; [|reflexivity]. rewrite Hp in O5.
      assert (O : outside (Project s) w w4) by (transitivity w2; [done|]; transitivity w3; [by apply same_outside|done]).
      split; [exists (Project s); split; [apply Hok|done]|]. intros He. destruct de as [de|]; [exfalso; exact (eq_true_false_abs _ (cleanup_reported _ err ev de) He)|].
      eapply outside_gone_no_new; [exact O|]. rewrite <- Hp. by eapply Destroy_spec.
    + injection E3 as <- <-. destruct (B2 eq_refl) as [S2 _]. split; [exists (Project s); split; [apply Hok|done]|].
      intros _. apply same_no_new. by transitivity w1.
  - injection E3 as <- <-. split; [exists (Project s); split; [apply Hok|]; split; [done|]; by intros ? [= <-]|].
    destruct H0 as [->|[? _]]; [|done]. eapply started_placed; [exact Hok|exact Hn|by apply Hd|exact H2].
Qed.

(** ** Start *)

(** Projects of others are as they were. *)
Definition others (w w' : W) : Prop := forall k id r,
  HasPrefix (r_project r) (lit "ingestkit-") = false -> resources k w !! id = Some r <-> resources k w' !! id = Some r.

Lemma outside_others p w w' : HasPrefix p (lit "ingestkit-") = true -> outside p w w' -> others w w'.
Proof. intros Hp Ho k id r Hr. apply Ho. congruence. Qed.

Definition start_result (o : Options) (w : W) (r : res Stack) (w' : W) : Prop :=
  others w w' /\
  match r with
  | Ok s => started o s /\ forall k id r, resources k w' !! id = Some r -> r_project r = Project s \/ resources k w !! id = Some r
  | Err e => errors_Is e errStartupCleanup = false -> no_new w w'
  end.

Lemma start_refused o w e : start_result o w (Err e) w.
Proof. split; [by intros k|]. intros _. reflexivity. Qed.

Lemma start_attempts_spec n ctx root o last w r w' :
  start_attempts errtext n ctx root o last w = Some (r, w') -> start_result o w r w'.
Proof.
  revert last w. induction n as [|n IH]; intros last w; cbn [start_attempts].
  { intros [= <- <-]. apply start_refused. }
  intros (r1 & w1 & E1 & E2)%bind_Some. apply startAttempt_spec in E1 as [(p & Hp & O1 & Hs) H1].
  pose proof (outside_others p w w1 Hp O1) as X1. destruct r1 as [s|e].
  - injection E2 as <- <-. split; [done|]. split; [done|]. intros k id r Hr. rewrite (Hs s eq_refl).
    destruct (decide (r_project r = p)); [by left|right]. by apply O1.
  - destruct (retryable errtext e) eqn:Er; cbn [negb] in E2; [|by injection E2 as <- <-].
    unfold retryable in Er. bool_to_prop. specialize (H1 ltac:(assumption)). apply IH in E2 as [X2 Y2].
    split; [intros k id r0 Hr; by rewrite (X1 k id r0 Hr), (X2 k id r0 Hr)|]. destruct r as [s|e'].
    + destruct Y2 as [? Y2]. split; [done|]. intros k id r Hr. destruct (Y2 k id r Hr) as [?|Hr1]; [by left|right].
      specialize (H1 k). rewrite map_subseteq_spec in H1. by apply H1.
    + intros He. transitivity w1; [done|by apply Y2].
Qed.

Lemma Start_spec ctx o w r w' : Start errtext ctx o w = Some (r, w') -> start_result o w r w'.
Proof.
  unfold Start. destruct (negb _); [intros [= <- <-]; apply start_refused|]. destruct (_ && _); [intros [= <- <-]; apply start_refused|].
  intros (root & w1 & E1 & E2)%bind_Some. assert (w1 = w) as ->.
  { unfold Root in E1. destruct (h_getwd w) as [p|]; [destruct (find_root _ p w); [|discriminate E1]|]; congruence. }
  destruct root as [root|e]; [by eapply start_attempts_spec | injection E2 as <- <-; apply start_refused].
Qed.

Lemma startAttempt_total ctx root o : total (startAttempt ctx root o).
Proof.
  assert (Hr : forall n ports, total (reserve n ports)) by (induction n as [|n IH]; intros ports; cbn [reserve]; returns ltac:(apply IH)).
  assert (Hl : forall ports, total (release ports)) by (intros ports w; by eexists _, _).
  assert (Hf : forall s services endpoints, total (discover s ctx services endpoints)).
  { intros s services. induction services as [|[service port] services IH]; intros endpoints; cbn [discover]; returns ltac:(apply Compose_total || apply IH). }
  unfold startAttempt, new_stack, start_body, prepareDeployment, prepare_files, start_development, finish_development, Destroy, clock_now.
  returns ltac:(first [apply Hr | apply Hl | apply Hf | apply startDeployment_total | apply CollectEvidence_total | apply as_owner_total | apply Compose__total]).
Qed.

Lemma Start_total ctx o : total (Start errtext ctx o).
Proof.
  assert (Ha : forall n root last, total (start_attempts errtext n ctx root o last)).
  { induction n as [|n IH]; intros root last; cbn [start_attempts]; returns ltac:(apply startAttempt_total || apply IH). }
  unfold Start. returns ltac:(apply Root_total || apply Ha).
Qed.

(** C15: a start leaks nothing.  [Start] always returns (its health loop and
    its retries are bounded); projects that are not IngestKit's are as they
    were; when it returns a stack, all that is new belongs to that stack, so
    failed attempts before it have left nothing; and when it fails, there is
    nothing new at all, unless the error says that the cleanup failed. *)
Theorem Start_leaks_nothing ctx o w :
  exists r w', Start errtext ctx o w = Some (r, w') /\ others w w' /\
  match r with
  | Ok s => forall k id r, resources k w' !! id = Some r -> r_project r = Project s \/ resources k w !! id = Some r
  | Err e => errors_Is e errStartupCleanup = false -> no_new w w'
  end.
Proof.
  destruct (Start_total ctx o w) as (r & w' & E). exists r, w'. split; [done|]. apply Start_spec in E as [Ho Hr].
  split; [done|]. destruct r; [apply Hr|done].
Qed.

(** C16: [Start] returns only stacks of the right shape: owned, with a
    36-character token, the profile asked for, an absolute directory of
    evidence and a project name of at most 39 characters of [a-z0-9-] that
    starts with "ingestkit-"; every Compose command of it names that project;
    and neither the guard of [Compose] nor that of [verifyOwner] refuses it. *)
Theorem started_stack_well_formed ctx o w s w' :
  Start errtext ctx o w = Some (Ok s, w') ->
  started o s /\
  (forall c cmd, flag_kind c = None -> compose_command (composeArgs s (c :: cmd)) = Some (Project s, c :: cmd)) /\
  (forall ctx args, Compose s ctx args = docker s ctx (composeArgs s args)) /\
  negb (st_owned s) || bool_decide (st_token s = []) || negb (HasPrefix (Project s) (lit "ingestkit-")) = false.
Proof.
  intros E. apply Start_spec in E as [_ [Hs _]]. split; [done|]. split; [intros; by apply composeArgs_command|].
  destruct Hs as [[O1 O2 O3 O4 _ _] _]. split.
  - intros ctx' args. unfold Compose. by rewrite O1, O2, bool_decide_true.
  - rewrite O1, O4, bool_decide_false; [done|]. intros Et. by rewrite Et in O3.
Qed.
End Start.
