(* ===== verification/Demo.v ===== *)
(** * The demonstration: [internal/runenv/demo.go]

    It starts a stack, sends the example's events to the API, optionally with
    the database stopped, waits until exactly the acknowledged events are
    stored, and removes or stops the stack.  PostgreSQL and the HTTP transport
    are parameters ([DemoHost]); what is printed is not modelled. *)
From S2P Require Import Prelude GoBytes GoTime GoJson GoEncode GoPath Event RuntimeInfo Runtime Persistence Telemetry Publisher Reader RateLimit Config Service Api Deployment RunEnv.

Section Demo.
Context {U : UUIDLib}.

(** ** reconcileIDs *)

Fixpoint reconcile_loop (want seen : gset uuid) (actual : list uuid) : option (gset uuid) :=
  match actual with
  | [] => Some seen
  | id :: rest => if bool_decide (id ∈ seen) || negb (bool_decide (id ∈ want)) then None
                  else reconcile_loop want ({[id]} ∪ seen) rest
  end.

Definition reconcileIDs (expected actual : list uuid) : goerr :=
  let want : gset uuid := list_to_set expected in
  match reconcile_loop want ∅ actual with
  | None => Some (ENew "unexpected or duplicate stored ID")
  | Some seen => if negb (size seen =? size want)%nat then Some (ENew "accepted IDs are missing from storage") else None
  end.

(** ** SendInputs *)

(** A raw message as [json.Marshal] writes it: compact, HTML escaped, and the
    line separators U+2028 and U+2029 too. *)
Fixpoint escape_raw (s : bytes) : bytes :=
  match s with
  | [] => []
  | 226 :: 128 :: 168 :: r => lit "\u2028" ++ escape_raw r
  | 226 :: 128 :: 169 :: r => lit "\u2029" ++ escape_raw r
  | c :: r => escape_html c ++ escape_raw r
  end.

Definition input_json (i : Input) : option bytes :=
  match Time_MarshalJSON (OccurredAt i), compact (Payload i) with
  | Some occurred, Some payload =>
      Some (LBRACE :: JoinSep [COMMA]
              [ field "event_id" (json_string_html (uuid_String (EventID i)));
                field "event_type" (json_string_html (EventType i));
                field "occurred_at" occurred;
                field "payload" (escape_raw payload) ] ++ [RBRACE])
  | _, _ => None
  end.

Definition batch_json (inputs : list Input) : option bytes :=
  match mapM input_json inputs with
  | Some es => Some (LBRACE :: field "events" (LBRACKET :: JoinSep [COMMA] es ++ [RBRACKET]) ++ [RBRACE])
  | None => None
  end.

(** [Decode] into a struct without [DisallowUnknownFields]. *)
Definition lenient_member {D} (names : list string) (set : nat -> bytes * json -> D -> option D)
    (d : option D) (m : bytes * (bytes * json)) : option D :=
  match d, field_index names (unquote (fst m)) with
  | Some d, Some i => set i (snd m) d
  | _, None => d
  | None, _ => None
  end.

(** A list of identifiers, over what an earlier member left. *)
Fixpoint set_ids (vs : list json) (old : list uuid) : option (list uuid) :=
  match vs with
  | [] => Some []
  | v :: rest =>
      match set_uuid v (match old with x :: _ => x | [] => uuid_Nil end), set_ids rest (tail old) with
      | Some id, Some ids => Some (id :: ids)
      | _, _ => None
      end
  end.

Definition set_ack (i : nat) (v : bytes * json) (old : list uuid) : option (list uuid) :=
  match snd v with
  | JNull => Some []
  | JArr vs => set_ids vs old
  | _ => None
  end.

(** The acknowledgement: the first value of at most 65536 bytes. *)
Definition decode_ack (body : bytes) : option (list uuid) :=
  match parse_top (take 65536 body) with
  | Some (TopObj ms, _) => foldl (lenient_member ["event_ids"%string] set_ack) (Some []) ms
  | Some (TopOther JNull, _) => Some []
  | _ => None
  end.

Class DemoHost {Wd : World} := {
  (** [pgxpool.New]; closing a pool *)
  d_newPool : bytes -> W -> goerr * W;
  d_closePool : W -> W;
  (** a POST with a content type, an authorization and a body: the status and
      the body of the answer *)
  d_post : Context -> bytes -> bytes -> bytes -> W -> res (Z * bytes) * W;
  (** a query for identifiers: the rows read, and the error that ended them *)
  d_queryIDs : Context -> W -> res (list uuid * goerr) * W;
  d_queryFunnel : Context -> W -> res (list (bytes * Z) * goerr) * W
}.

Record DemoOptions {Wd : World} := mkDemoOptions {
  do_Recovery : bool; do_Cleanup : bool; do_OutputDirectory : bytes;
  do_OnStage : option (string -> Stack -> W -> W)
}.

Record DemoReport := mkDemoReport {
  rp_Accepted : list uuid; rp_Stored : list uuid; rp_Funnel : option (gmap bytes Z);
  rp_Recovery : bool; rp_Completed : bool; rp_Error : bytes
}.

(** [json.MarshalIndent(report, "", "  ")]: a container's members on lines of
    their own, [deep] in; a nil slice or map is null. *)
Definition indented (open close : Z) (deep : nat) (members : list bytes) : bytes :=
  match members with
  | [] => [open; close]
  | _ => open :: 10 :: JoinSep [COMMA; 10] (map (fun m => replicate (2 * S deep) 32 ++ m) members) ++
         10 :: replicate (2 * deep) 32 ++ [close]
  end.

Definition member (key value : bytes) : bytes := json_string_html key ++ COLON :: 32 :: value.

Definition ids_json (ids : list uuid) : bytes :=
  match ids with
  | [] => lit "null"
  | _ => indented LBRACKET RBRACKET 1 (map (fun id => json_string_html (uuid_String id)) ids)
  end.

Definition funnel_json (f : option (gmap bytes Z)) : bytes :=
  match f with
  | None => lit "null"
  | Some m => indented LBRACE RBRACE 1 (map (fun k => member k (itoa (default 0 (m !! k)))) (sort_strings (map fst (map_to_list m))))
  end.

Definition bool_json (b : bool) : bytes := if b then lit "true" else lit "false".

Definition report_json (r : DemoReport) : bytes :=
  indented LBRACE RBRACE 0
    [ member (lit "Accepted") (ids_json (rp_Accepted r)); member (lit "Stored") (ids_json (rp_Stored r));
      member (lit "Funnel") (funnel_json (rp_Funnel r)); member (lit "Recovery") (bool_json (rp_Recovery r));
      member (lit "Completed") (bool_json (rp_Completed r)); member (lit "Error") (json_string_html (rp_Error r)) ].

Context {Wd : World} {H : Host} {T : Timers} {DH : DemoHost}.
Variable errtext : error -> bytes.

Definition SendInputs (ctx : Context) (url key : bytes) (inputs : list Input) : M W (res (list uuid)) :=
  match batch_json inputs with
  | None => ret (Err (ENew "json: error calling MarshalJSON"))
  | Some raw =>
      let! t := clock_now in
      let! r := io (d_post (WithTimeout ctx t (8 * Second)) (url ++ lit "/v1/events/batch") (lit "Bearer " ++ key) raw) in
      match r with
      | Err err => ret (Err err)
      | Ok (status, body) =>
          if negb (status =? 202) then ret (Err (ENew (text (lit "HTTP " ++ itoa status ++ lit ": retry uncertain delivery with the same event IDs"))))
          else match decode_ack body with
               | None => ret (Err (ENew "invalid acknowledgement"))
               | Some ids =>
                   if negb (length ids =? length inputs)%nat then ret (Err (ENew "acknowledgement ID count mismatch"))
                   else if negb (bool_decide (ids = map EventID inputs)) then ret (Err (ENew "acknowledgement ID mismatch"))
                   else ret (Ok ids)
               end
      end
  end.

(** ** RunDemo *)

(** What the deferred function of [RunDemo] looks at. *)
Record DemoState := mkDemoState { ds_report : DemoReport; ds_dbStopped : bool; ds_pool : bool }.

Definition set_report (f : DemoReport -> DemoReport) (d : DemoState) : DemoState :=
  mkDemoState (f (ds_report d)) (ds_dbStopped d) (ds_pool d).
Definition set_dbStopped (b : bool) (d : DemoState) : DemoState := mkDemoState (ds_report d) b (ds_pool d).

Definition on_stage (o : DemoOptions) (stage : string) (s : Stack) : M W unit :=
  match do_OnStage o with Some f => io (fun w => (tt, f stage s w)) | None => ret tt end.

(** The wait until storage has exactly the acknowledged events. *)
Fixpoint reconcile_wait (fuel : nat) (wait : Context) (ids : list uuid) : M W (res (list uuid)) :=
  match fuel with
  | O => diverge
  | S fuel =>
      let! q := io (d_queryIDs wait) in
      let again : M W (res (list uuid)) :=
        let! t := clock_now in
        let! ended := io (select_timer wait (t + 100 * Millisecond)) in
        if ended then
          let! t := clock_now in
          ret (Err match ctx_Err wait t with Some e => EWrap "reconciliation failed" e | None => ENew "reconciliation failed" end)
        else reconcile_wait fuel wait ids in
      match q with
      | Ok (actual, None) => match reconcileIDs ids actual with None => ret (Ok actual) | Some _ => again end
      | _ => again
      end
  end.

(** Thirty seconds of rounds of 100 ms, and one at each end. *)
Definition reconcile_fuel : nat := 302.

Definition set_accepted (ids : list uuid) (r : DemoReport) : DemoReport :=
  mkDemoReport ids (rp_Stored r) (rp_Funnel r) (rp_Recovery r) (rp_Completed r) (rp_Error r).
Definition set_stored (ids : list uuid) (r : DemoReport) : DemoReport :=
  mkDemoReport (rp_Accepted r) ids (rp_Funnel r) (rp_Recovery r) (rp_Completed r) (rp_Error r).
Definition set_funnel (f : option (gmap bytes Z)) (r : DemoReport) : DemoReport :=
  mkDemoReport (rp_Accepted r) (rp_Stored r) f (rp_Recovery r) (rp_Completed r) (rp_Error r).
Definition set_completed (result : goerr) (r : DemoReport) : DemoReport :=
  mkDemoReport (rp_Accepted r) (rp_Stored r) (rp_Funnel r) (rp_Recovery r)
    (match result with None => true | Some _ => false end)
    (match result with None => rp_Error r | Some e => errtext e end).

(** After the events are acknowledged and the database runs. *)
Definition demo_reconcile (ctx : Context) (ids : list uuid) (d : DemoState) : M W (goerr * DemoState) :=
  let! t := clock_now in
  let wait := WithTimeout ctx t (30 * Second) in
  let! stored := reconcile_wait reconcile_fuel wait ids in
  match stored with
  | Err e => ret (Some e, d)
  | Ok actual =>
      let d := set_report (set_stored actual) d in
      let! q := io (d_queryFunnel ctx) in
      match q with
      | Err e => ret (Some e, d)
      | Ok (rows, err) => ret (err, set_report (set_funnel (Some (foldl (fun m nk => <[fst nk := snd nk]> m) ∅ rows))) d)
      end
  end.

Definition describe_group : list bytes :=
  [lit "exec"; lit "-T"; lit "redpanda"; lit "rpk"; lit "group"; lit "describe"; lit "ingestkit-consumer"; lit "-X";
   lit "brokers=redpanda:9092"].

Definition demo_send (ctx : Context) (o : DemoOptions) (s : Stack) (inputs : list Input) (d : DemoState) : M W (goerr * DemoState) :=
  let! sent := SendInputs ctx (APIURL s) (lit "local-demo-key") inputs in
  match sent with
  | Err e => ret (Some e, d)
  | Ok ids =>
      let d := set_report (set_accepted ids) d in
      if do_Recovery o then
        let! _ := Compose s ctx describe_group in
        let! err := SetServiceRunning s ctx (lit "postgres") true in
        match err with
        | Some e => ret (Some e, d)
        | None => demo_reconcile ctx ids (set_dbStopped false d)
        end
      else demo_reconcile ctx ids d
  end.

(** The body of [RunDemo] after its [defer]. *)
Definition demo_body (ctx : Context) (o : DemoOptions) (s : Stack) (d : DemoState) : M W (goerr * DemoState) :=
  let! err := io (d_newPool (DatabaseURL s)) in
  match err with
  | Some e => ret (Some e, d)
  | None =>
      let d := mkDemoState (ds_report d) (ds_dbStopped d) true in
      let! raw := gets (h_readFile (Join [st_root s; lit "examples"; lit "checkout"; lit "events.json"])) in
      match raw with
      | Err e => ret (Some e, d)
      | Ok raw =>
          match DecodeBatch raw with
          | Err e => ret (Some e, d)
          | Ok inputs =>
              on_stage o "started" s ;;
              if do_Recovery o then
                let! err := SetServiceRunning s ctx (lit "postgres") false in
                match err with
                | Some e => ret (Some e, d)
                | None => on_stage o "database_unavailable" s ;; demo_send ctx o s inputs (set_dbStopped true d)
                end
              else demo_send ctx o s inputs d
          end
      end
  end.

(** [result = errors.Join(result, err)] when [err] is not nil. *)
Definition join_err (result err : goerr) : goerr :=
  match err with None => result | Some _ => join2 result err end.

(** The deferred function. *)
Definition demo_cleanup (o : DemoOptions) (s : Stack) (result : goerr) (d : DemoState) : M W (goerr * DemoReport) :=
  let! t := clock_now in
  let cleanup := WithTimeout Background t (30 * Second) in
  let! restartErr := if ds_dbStopped d then SetServiceRunning s cleanup (lit "postgres") true else ret None in
  let result := join_err result restartErr in
  let! _ := if ds_pool d then io (fun w => (tt, d_closePool w)) else ret tt in
  let! evidenceErr := CollectEvidence s cleanup (Directory s) in
  let result := join_err result evidenceErr in
  let! err := if do_Cleanup o then Destroy s cleanup else Stop s cleanup in
  let result := join_err result err in
  let report := set_completed result (ds_report d) in
  let! writeErr := io (h_writeFile (Join [Directory s; lit "demo.json"]) (report_json report)) in
  ret (join_err result writeErr, report).

(** [RunDemo]: its error, and the report it wrote when a stack started. *)
Definition RunDemo (ctx : Context) (o : DemoOptions) : M W (goerr * option DemoReport) :=
  let purpose := if do_Recovery o then lit "recovery" else lit "demo" in
  let! s := Start errtext ctx (mkOptions purpose (do_OutputDirectory o) [] false) in
  match s with
  | Err err => ret (Some err, None)
  | Ok s =>
      let! (result, d) := demo_body ctx o s (mkDemoState (mkDemoReport [] [] None (do_Recovery o) false []) false false) in
      let! (result, report) := demo_cleanup o s result d in
      ret (result, Some report)
  end.

(** ** cmd/demo

    The exit status of [main], on its parsed flags. *)
Definition demo_main (ctx : Context) (recovery cleanup : bool) (out : bytes) : M W Z :=
  let! (err, _) := RunDemo ctx (mkDemoOptions _ recovery cleanup out None) in
  ret match err with Some _ => 1 | None => 0 end.
End Demo.
