(* ===== verification/Workload.v ===== *)
(** * The benchmark's events: [internal/benchmark/workload.go] and
    [ValidatePipelineWorkload] of [connections_cases.go]

    google/uuid's [NewSHA1] is a parameter; of it the events rely on the
    version bits being set, so that the identifier is not the zero UUID. *)
From S2P Require Import Prelude GoBytes GoTime GoTimeFacts GoJson GoJsonFacts GoEncode GoSha256 Event EventFacts Envelope Runtime GoFloat Demo.

Record WorkloadConfig := mkWorkloadConfig {
  wl_Namespace : bytes;
  wl_PayloadProfile : bytes;
  wl_Seed : Z;
  wl_Count : Z;
  wl_PayloadBytes : Z;
  (** [None]: not a number, or infinite *)
  wl_DuplicateFraction : option Q
}.

(** [Time.Add]. *)
Definition Time_Add (t : Time) (d : Z) : Time :=
  let ns := t_nsec t + d in mkTime (t_sec t + ns / 1000000000) (ns mod 1000000000) (t_off t).

Definition alphabet : bytes := lit "ABCDEFGHIJKLMNOPQRSTUVWXYZabcdefghijklmnopqrstuvwxyz0123456789_-".

(** The loop over [data]: each sum fills 32 bytes, the last one what is
    left. *)
Fixpoint varied_data (fuel : nat) (prefix : bytes) (offset len : Z) : bytes :=
  match fuel with
  | O => []
  | S fuel =>
      if offset <? len then
        let chunk := firstn (Z.to_nat (len - offset)) (Sha256.Sum256 (prefix ++ itoa offset)) in
        map (fun b => nth (Z.to_nat (Z.land b 63)) alphabet 0) chunk ++ varied_data fuel prefix (offset + blen chunk) len
      else []
  end.

(** [json.Marshal] of the map with the key "data". *)
Definition data_payload (padding : bytes) : bytes := json_map {[ lit "data" := padding ]}.

Definition MaxWorkload : Z := 1000000.

Section Workload.
Context {U : UUIDLib} (NewSHA1 : bytes -> uuid).

Definition workload_at : Time := Date 2026 1 1 0 0 0 0 0.

Definition workload_ok (c : WorkloadConfig) : bool :=
  negb ((wl_Count c <=? 0) || (MaxWorkload <? wl_Count c) || (256 <? blen (wl_Namespace c)) ||
        (negb (bool_decide (wl_PayloadProfile c = [])) && negb (bool_decide (wl_PayloadProfile c = lit "fixed")) &&
         negb (bool_decide (wl_PayloadProfile c = lit "varied"))) ||
        match wl_DuplicateFraction c with None => true | Some _ => false end ||
        (wl_PayloadBytes c <? 16) || (MaxEventBytes - 2048 <? wl_PayloadBytes c) ||
        match wl_DuplicateFraction c with Some d => negb (Qle_bool 0 d) || Qle_bool 1 d | None => true end).

Definition unique_count (c : WorkloadConfig) : Z :=
  wl_Count c - int_of_float (fmul (float_of_int (wl_Count c)) (default 0%Q (wl_DuplicateFraction c))).

Definition workload_payload (c : WorkloadConfig) (i : Z) : bytes :=
  let prefix := hex_uint64 (Z.lxor (wl_Seed c mod 2 ^ 64) i) in
  let n := wl_PayloadBytes c - 11 in
  if bool_decide (wl_PayloadProfile c = lit "varied") then
    data_payload (varied_data (Z.to_nat n) (wl_Namespace c ++ lit "/" ++ itoa (wl_Seed c) ++ lit "/" ++ itoa i ++ lit "/") 0 n)
  else
    let padding := repeat 120 (Z.to_nat n) in
    if blen prefix <=? blen padding then data_payload (prefix ++ skipn (length prefix) padding) else data_payload padding.

Definition workload_type (c : WorkloadConfig) : bytes :=
  match wl_Namespace c with
  | [] => lit "checkout_event"
  | ns => lit "bench_" ++ hex_bytes (firstn 8 (Sha256.Sum256 ns))
  end.

Definition workload_identity (c : WorkloadConfig) (i : Z) : bytes :=
  let identity := itoa (wl_Seed c) ++ lit "/" ++ itoa i in
  match wl_Namespace c with [] => identity | ns => ns ++ lit "/" ++ identity end.

Definition workload_event (c : WorkloadConfig) (i : Z) : Envelope :=
  mkEnvelope (mkInput (NewSHA1 (workload_identity c i)) (workload_type c) (Time_Add workload_at (i * 1000)) (workload_payload c i))
    (lit "benchmark") workload_at.

(** [out]: the unique events, then the first of them again in turn. *)
Definition Workload (c : WorkloadConfig) : res (list Envelope) :=
  if negb (workload_ok c) then Err (ENew "invalid workload count, payload size or duplicate fraction")
  else
    let unique := unique_count c in
    let out := map (fun i => workload_event c (Z.of_nat i)) (seq 0 (Z.to_nat unique)) in
    Ok (out ++ map (fun i => workload_event c ((Z.of_nat i) mod unique)) (seq 0 (Z.to_nat (wl_Count c - unique)))).

(** ** [ValidatePipelineWorkload] *)

Record PipelineWindow := mkPipelineWindow {
  pw_Namespace : bytes; pw_Rate : Z; pw_Duration : Z; pw_BatchSize : Z; pw_PayloadBytes : Z
}.

Definition ValidatePipelineWorkload (c : PipelineWindow) : goerr :=
  let count := fmul (float_of_int (pw_Rate c)) (Seconds (pw_Duration c)) in
  if (pw_Rate c <=? 0) || (pw_Duration c <=? 0) || negb (Qle_bool 1 count) || negb (Qle_bool count (inject_Z 1000000)) then
    Some (ENew "pipeline window requires 1..1000000 events; sustained 60s/50k needs a separately bounded runner")
  else if (pw_BatchSize c <? 1) || (100 <? pw_BatchSize c) then Some (ENew "HTTP batch must contain 1..100 events")
  else
    match Workload (mkWorkloadConfig (pw_Namespace c) [] 0 (pw_BatchSize c) (pw_PayloadBytes c) (Some 0%Q)) with
    | Err err => Some err
    | Ok es =>
        match batch_json (map env_Input es) with
        | None => Some (ENew "json: error calling MarshalJSON")
        | Some raw => if MaxRequestBytes <? blen raw then Some (ENew "encoded request exceeds API body limit; reduce HTTP batch size") else None
        end
    end.
End Workload.

(** ** Payloads *)

(** A byte that [json.Marshal] writes as it is. *)
Definition safe_char (c : Z) : bool :=
  (32 <=? c) && (c <? 128) && negb (c =? QUOTE) && negb (c =? BACKSLASH) && negb (c =? 60) && negb (c =? 62) && negb (c =? 38).

Lemma safe_plain s : Forall (fun c => safe_char c = true) s -> Forall plainchar s.
Proof. intros H. eapply Forall_impl; [exact H|]. unfold safe_char, plainchar. cbn. intros c Hc. bool_to_prop. lia. Qed.

Lemma safe_quote s : Forall (fun c => safe_char c = true) s -> json_string_html s = quoted s.
Proof.
  intros H. unfold json_string_html. rewrite (plainchar_quote s (safe_plain s H)). f_equal.
  induction H as [|c s Hc _ IH]; [done|]. cbn [map concat]. rewrite IH. unfold safe_char in Hc. unfold escape_html.
  bool_to_prop. replace ((c =? 60) || (c =? 62) || (c =? 38)) with false by lia. done.
Qed.

(** The payload is the object the padding was put in, eleven bytes longer
    than it. *)
Lemma data_payload_print p : Forall (fun c => safe_char c = true) p -> data_payload p = print (JObj [(lit "data", JStr p)]).
Proof.
  intros H. unfold data_payload, json_map. rewrite map_to_list_singleton. cbn [map fst sort_strings foldr insert_sorted JoinSep].
  rewrite lookup_singleton_eq. cbn [default from_option]. unfold Datatypes.id. rewrite (safe_quote p H).
  rewrite (safe_quote (lit "data")) by (by repeat constructor). cbn [print map fst snd JoinSep]. unfold quoted. cbn [app].
  by rewrite <- !app_assoc.
Qed.

Lemma data_payload_good p :
  Forall (fun c => safe_char c = true) p ->
  blen (data_payload p) = blen p + 11 /\ good_payload (data_payload p) (JObj [(lit "data", JStr p)]).
Proof.
  intros H. rewrite (data_payload_print p H). split.
  - unfold blen. cbn. rewrite ?length_app. cbn. rewrite ?length_app. cbn. lia.
  - split; [apply parse_doc_print|].
    + apply (wfj_depth 10); [|vm_compute; discriminate]. apply wfj_obj. constructor; [|constructor]. split; [by apply plainchar_strbody, safe_plain; repeat constructor|].
      by apply plainchar_strbody, safe_plain.
    + split; [by eexists|]. split; [|reflexivity]. cbn [literals map concat fst snd app].
      apply Forall_cons; split; [apply plainchar_VU, safe_plain; by repeat constructor|]. apply Forall_singleton. by apply plainchar_VU, safe_plain.
Qed.

Lemma hex_char_safe v : 0 <= v < 16 -> safe_char (hex_char v) = true.
Proof. intros H. unfold hex_char, safe_char, QUOTE, BACKSLASH. destruct (v <? 10) eqn:E; bool_to_prop; lia. Qed.

Lemma hex_digits_safe fuel : forall n acc, Forall (fun c => safe_char c = true) acc -> Forall (fun c => safe_char c = true) (hex_digits fuel n acc).
Proof.
  induction fuel as [|fuel IH]; intros n acc H; [done|]. cbn [hex_digits]. cbv zeta.
  assert (H' : Forall (fun c => safe_char c = true) (hex_char (n mod 16) :: acc)) by (constructor; [apply hex_char_safe, Z.mod_pos_bound; lia|done]).
  destruct (n / 16 =? 0); [done|by apply IH].
Qed.

Lemma alphabet_safe b : 0 <= b < 256 -> safe_char (nth (Z.to_nat (Z.land b 63)) alphabet 0) = true.
Proof.
  intros Hb. assert (Hl : (Z.to_nat (Z.land b 63) < length alphabet)%nat).
  { change 63 with (Z.ones 6). rewrite Z.land_ones by lia. pose proof (Z.mod_pos_bound b (2 ^ 6) ltac:(lia)).
    change (length alphabet) with (Z.to_nat 64). apply Z2Nat.inj_lt; lia. }
  assert (Ha : Forall (fun c => safe_char c = true) alphabet) by (by repeat constructor).
  rewrite Forall_forall in Ha. apply Ha, list_elem_of_In. by apply nth_In.
Qed.

Lemma varied_data_good fuel : forall prefix offset len,
  0 <= offset -> len - offset <= Z.of_nat fuel ->
  blen (varied_data fuel prefix offset len) = Z.max 0 (len - offset) /\ Forall (fun c => safe_char c = true) (varied_data fuel prefix offset len).
Proof.
  induction fuel as [|fuel IH]; intros prefix offset len Ho Hf; cbn [varied_data]; [split; [change (blen []) with 0; lia|constructor]|].
  destruct (offset <? len) eqn:E; [|bool_to_prop; split; [change (blen []) with 0; lia|constructor]]. bool_to_prop.
  set (sum := Sha256.Sum256 _). assert (Hs : length sum = 32%nat) by apply Sum256_length.
  set (chunk := firstn _ sum). assert (Hc : blen chunk = Z.min (len - offset) 32).
  { unfold chunk, blen. rewrite length_firstn, Hs. lia. }
  destruct (IH prefix (offset + blen chunk) len ltac:(lia) ltac:(lia)) as [Hl Hsafe]. split.
  - unfold blen in *. rewrite length_app, length_map. lia.
  - apply Forall_app_2; [|done]. rewrite Forall_map. unfold chunk. apply Forall_take.
    eapply Forall_impl; [apply Sum256_bytes|]. apply alphabet_safe.
Qed.

(** The padding has the length asked for, and bytes that need no escape. *)
Lemma workload_padding c i :
  16 <= wl_PayloadBytes c ->
  exists p, Forall (fun c => safe_char c = true) p /\ blen p = wl_PayloadBytes c - 11 /\ workload_payload c i = data_payload p.
Proof.
  intros Hn. unfold workload_payload. cbv zeta. set (prefix := hex_uint64 _).
  assert (Hpre : Forall (fun c => safe_char c = true) prefix) by (apply hex_digits_safe; constructor).
  set (n := wl_PayloadBytes c - 11). assert (Hpad : Forall (fun c => safe_char c = true) (repeat 120 (Z.to_nat n))).
  { apply Forall_forall. intros x Hx%list_elem_of_In%repeat_spec. by subst x. }
  assert (Hlen : blen (repeat 120 (Z.to_nat n)) = n) by (unfold blen; rewrite repeat_length; lia).
  case_bool_decide.
  - destruct (varied_data_good (Z.to_nat n) (wl_Namespace c ++ lit "/" ++ itoa (wl_Seed c) ++ lit "/" ++ itoa i ++ lit "/") 0 n ltac:(lia) ltac:(lia)) as [Hl Hs].
    eexists. split; [exact Hs|]. split; [lia|reflexivity].
  - destruct (blen prefix <=? _) eqn:E; [|by eexists]. bool_to_prop. eexists. split; [|split; [|reflexivity]].
    + apply Forall_app_2; [done|]. by apply Forall_drop.
    + unfold blen in *. rewrite length_app, length_skipn, repeat_length in *. lia.
Qed.

Lemma workload_payload_good c i :
  16 <= wl_PayloadBytes c -> blen (workload_payload c i) = wl_PayloadBytes c /\ exists j, good_payload (workload_payload c i) j.
Proof.
  intros Hn. destruct (workload_padding c i Hn) as (p & Hp & Hl & ->). destruct (data_payload_good p Hp) as [Hb Hg]. split; [lia|eauto].
Qed.

(** ** Requests *)

(** What [json.Marshal] writes of a payload is the payload. *)
Lemma escape_raw_plain s : Forall (fun c => 0 <= c < 128 /\ c <> 60 /\ c <> 62 /\ c <> 38) s -> escape_raw s = s.
Proof.
  induction 1 as [|c s Hc _ IH]; [done|].
  assert (E : escape_raw (c :: s) = escape_html c ++ escape_raw s).
  { cbn [escape_raw]. destruct c as [|c|c]; [done| |done]. do 8 (destruct c; try done); lia. }
  rewrite E, IH. unfold escape_html. replace ((c =? 60) || (c =? 62) || (c =? 38)) with false by lia. done.
Qed.

Lemma workload_payload_raw c i : 16 <= wl_PayloadBytes c ->
  compact (workload_payload c i) = Some (workload_payload c i) /\ escape_raw (workload_payload c i) = workload_payload c i.
Proof.
  intros Hn. destruct (workload_padding c i Hn) as (p & Hp & Hl & ->). split.
  - apply compact_spec. eexists. split; [apply (proj1 (proj2 (data_payload_good p Hp)))|by apply data_payload_print].
  - rewrite (data_payload_print p Hp). apply escape_raw_plain. change (lit "data") with [100; 97; 116; 97].
    cbn [print print_scalar map fst snd JoinSep]. unfold quoted, LBRACE, RBRACE, QUOTE, COLON. cbn [app].
    repeat first [apply Forall_nil_2 | apply Forall_cons_2; [lia|] | apply Forall_app_2].
    eapply Forall_impl; [exact Hp|]. unfold safe_char. intros x Hx. bool_to_prop. cbn in *. lia.
Qed.

(** ** The events *)

Lemma hex_bytes_safe l : Forall (fun c => 0 <= c < 256) l -> Forall (fun c => safe_char c = true) (hex_bytes l) /\ blen (hex_bytes l) = 2 * blen l.
Proof.
  unfold hex_bytes, blen. induction 1 as [|x l Hx _ [IH1 IH2]]; [split; [constructor|done]|]. cbn [flat_map]. split.
  - apply Forall_app_2; [|done]. repeat constructor; apply hex_char_safe; [|apply Z.mod_pos_bound; lia].
    split; [apply Z.div_pos; lia|apply Z.div_lt_upper_bound; lia].
  - rewrite length_app. cbn [length]. lia.
Qed.

Lemma safe_text s : Forall (fun c => safe_char c = true) s -> validText s = true.
Proof.
  intros H%safe_plain. apply validText_spec. split; [by apply plainchar_utf8|]. eapply Forall_impl; [exact H|].
  unfold plainchar. cbn. lia.
Qed.

Lemma workload_type_good c : 1 <= blen (workload_type c) <= 128 /\ validText (workload_type c) = true.
Proof.
  unfold workload_type. destruct (wl_Namespace c) as [|x ns]; [by vm_compute|].
  destruct (hex_bytes_safe (firstn 8 (Sha256.Sum256 (x :: ns)))) as [Hs Hl]; [apply Forall_take, Sum256_bytes|].
  set (h := hex_bytes _) in *. assert (Hh : blen h = 16) by (rewrite Hl; unfold blen; rewrite length_firstn, Sum256_length; done).
  clearbody h. split.
  - unfold blen in *. rewrite length_app. change (length (lit "bench_")) with 6%nat. lia.
  - apply safe_text, Forall_app_2; [by repeat constructor|done].
Qed.

(** The times of the events: within a second of the start of 2026. *)
Lemma workload_time i : 0 <= i < MaxWorkload ->
  Time_Add workload_at (i * 1000) = mkTime 1767225600 (i * 1000) 0.
Proof.
  unfold MaxWorkload. intros H. unfold Time_Add. change (t_nsec workload_at) with 0. change (t_sec workload_at) with 1767225600. change (t_off workload_at) with 0.
  cbv zeta. rewrite Z.add_0_l, Z.div_small, Z.mod_small by lia. done.
Qed.

Section Facts.
Context {U : UUIDLib} {UL : UUIDLaws U} (NewSHA1 : bytes -> uuid).
(** A version 5 UUID is not the zero one. *)
Hypothesis NewSHA1_nonzero : forall s, NewSHA1 s <> uuid_Nil.

Abbreviation Workload := (Workload NewSHA1).
Abbreviation workload_event := (workload_event NewSHA1).

Lemma workload_ok_spec c : workload_ok c = true ->
  1 <= wl_Count c <= MaxWorkload /\ 16 <= wl_PayloadBytes c <= MaxEventBytes - 2048 /\
  exists d, wl_DuplicateFraction c = Some d /\ (0 <= d < 1)%Q.
Proof.
  unfold workload_ok. intros H. apply negb_true_iff in H. destruct (wl_DuplicateFraction c) as [d|].
  2: { rewrite !orb_true_r in H. done. }
  apply orb_false_iff in H as [H [H1%negb_false_iff H2]%orb_false_iff]. repeat (apply orb_false_iff in H as [H ?]). bool_to_prop.
  split; [lia|]. split; [lia|]. exists d. split; [done|]. apply Qle_bool_iff in H1. split; [done|]. apply Qnot_le_lt. intros Hd%Qle_bool_iff. congruence.
Qed.

(** The share of duplicates leaves at least one unique event: a float64 below
    one is at most 1 - 2^-53. *)
Lemma unique_count_bounds c d :
  1 <= wl_Count c <= MaxWorkload -> wl_DuplicateFraction c = Some d -> (0 <= d <= 1 - eps)%Q -> 1 <= unique_count c <= wl_Count c.
Proof.
  unfold MaxWorkload. intros Hn Ed Hd. unfold unique_count. rewrite Ed. cbn [default from_option]. unfold Datatypes.id.
  assert (Hf : float_of_int (wl_Count c) = inject_Z (wl_Count c)) by (apply float_of_int_eq; lia).
  assert (Hn0 : (1 <= inject_Z (wl_Count c))%Q) by (change 1%Q with (inject_Z 1); rewrite <- Zle_Qle; lia).
  destruct (fmul_error (float_of_int (wl_Count c)) d ltac:(rewrite Hf; lra) ltac:(lra)) as [[_ Hu] H0]. rewrite Hf in *.
  set (x := fmul _ d) in *. clearbody x. set (n := inject_Z (wl_Count c)) in *.
  assert (Hnd : (n * d <= n * (1 - eps))%Q) by (rewrite !(Qmult_comm n); apply Qmult_le_compat_r; lra).
  assert (Hx : (x < n)%Q).
  { eapply Qle_lt_trans; [exact Hu|]. set (y := (n * d)%Q) in *. unfold eps in *. lra. }
  unfold int_of_float. destruct (Qlt_le_dec x 0); [lra|]. pose proof (Qfloor_le x) as Hfl.
  assert (Hf0 : 0 <= Qfloor x) by (change 0 with (Qfloor 0); by apply Qfloor_resp_le).
  assert (Hf1 : Qfloor x < wl_Count c) by (rewrite Zlt_Qlt; eapply Qle_lt_trans; [exact Hfl|exact Hx]). lia.
Qed.

Lemma workload_event_good c i :
  16 <= wl_PayloadBytes c <= MaxEventBytes - 2048 -> 0 <= i < MaxWorkload ->
  validate (env_Input (workload_event c i)) = None /\ blen (Payload (env_Input (workload_event c i))) = wl_PayloadBytes c /\
  exists raw, EncodeEnvelope (workload_event c i) = Ok raw.
Proof.
  intros Hp Hi. destruct (workload_payload_good c i ltac:(lia)) as [Hl [j Hj]]. destruct (workload_type_good c) as [Ht Htx].
  assert (Hv : validate (env_Input (workload_event c i)) = None).
  { apply validate_spec. exists j. cbn [Workload.workload_event env_Input]. split; [apply NewSHA1_nonzero|]. split; [exact Ht|]. split; [exact Htx|].
    split; [|exact Hj]. cbn [OccurredAt]. rewrite workload_time by done. done. }
  split; [exact Hv|]. split; [exact Hl|]. apply EncodeEnvelope_total; [exact Hv|split; reflexivity| | |].
  - cbn [Workload.workload_event env_Input Payload]. lia.
  - cbn [Workload.workload_event env_Input OccurredAt]. rewrite workload_time by done. apply FormatRFC3339Nano_total; vm_compute; [split; discriminate|reflexivity].
  - apply FormatRFC3339Nano_total; vm_compute; [split; discriminate|reflexivity].
Qed.

(** The bytes of an event in a request: those of its identifier, its type and
    its time as they are written, of its payload, and 53 more. *)
Definition input_size (c : WorkloadConfig) (i : Z) : Z :=
  53 + blen (json_string_html (uuid_String (NewSHA1 (workload_identity c i)))) + blen (json_string_html (workload_type c)) +
  blen (default [] (Time_MarshalJSON (Time_Add workload_at (i * 1000)))) + wl_PayloadBytes c.

Lemma input_json_size c i : 16 <= wl_PayloadBytes c -> 0 <= i < MaxWorkload ->
  exists raw, input_json (env_Input (workload_event c i)) = Some raw /\ blen raw = input_size c i.
Proof.
  intros Hn Hi. unfold input_size. cbn [Workload.workload_event env_Input]. unfold input_json.
  cbn [EventID EventType OccurredAt Payload].
  destruct (workload_payload_raw c i Hn) as [-> ->]. rewrite workload_time by done.
  destruct (FormatRFC3339Nano_total (mkTime 1767225600 (i * 1000) 0)) as [t Ht]; [vm_compute; split; discriminate|reflexivity|].
  unfold Time_MarshalJSON. rewrite Ht. cbn [option_map default from_option]. eexists. split; [reflexivity|].
  destruct (workload_payload_good c i Hn) as [<- _]. cbn [JoinSep]. unfold field, quoted, Datatypes.id. rewrite ?blen_cons, ?blen_app.
  unfold blen. cbn. rewrite ?length_app. cbn. rewrite ?length_app. cbn. lia.
Qed.

(** And of a request. *)
Lemma JoinSep_size raws : raws <> [] -> blen (JoinSep [COMMA] raws) + 1 = foldr (fun r n => 1 + blen r + n) 0 raws.
Proof.
  induction raws as [|r raws IH]; [done|]. intros _. destruct raws as [|r' raws]; [cbn [JoinSep foldr]; lia|].
  specialize (IH ltac:(done)). change (JoinSep [COMMA] (r :: r' :: raws)) with (r ++ COMMA :: JoinSep [COMMA] (r' :: raws)).
  rewrite blen_app, blen_cons. cbn [foldr] in *. lia.
Qed.

Lemma request_size c idx : 16 <= wl_PayloadBytes c -> Forall (fun i => 0 <= i < MaxWorkload) idx -> idx <> [] ->
  exists raw, batch_json (map (fun i => env_Input (workload_event c i)) idx) = Some raw /\
    blen raw = 12 + foldr (fun i n => 1 + input_size c i + n) 0 idx.
Proof.
  intros Hn His Hne. assert (H : exists raws, Forall2 (fun x r => input_json x = Some r) (map (fun i => env_Input (workload_event c i)) idx) raws /\
    foldr (fun r n => 1 + blen r + n) 0 raws = foldr (fun i n => 1 + input_size c i + n) 0 idx).
  { clear Hne. induction His as [|i idx Hi _ (raws & IH & IHs)]; [by exists []; split; [constructor|]|].
    destruct (input_json_size c i Hn Hi) as (raw & E & Hs). exists (raw :: raws). split; [by constructor|]. cbn [foldr]. by rewrite Hs, IHs. }
  destruct H as (raws & E & <-). rewrite <- JoinSep_size by (intros ->; by destruct idx; [|inversion E]).
  unfold batch_json. rewrite (mapM_Some_2 _ _ _ E). eexists. split; [reflexivity|].
  generalize (JoinSep [COMMA] raws). intros body. unfold field, quoted, blen. cbn [app length]. repeat (rewrite ?length_app; cbn [length]).
  change (length (lit "events")) with 6%nat. lia.
Qed.

(** C33: the benchmark offers what it says.  A workload that is generated has
    exactly the requested number of submissions; each is an event the API
    accepts and the broker carries, with a payload of exactly the requested
    number of bytes, whatever the profile; and the duplicates are the unique
    events again, in turn, byte for byte. *)
Theorem workload_exact c es :
  (forall d, wl_DuplicateFraction c = Some d -> (d < 1)%Q -> (d <= 1 - eps)%Q) ->
  Workload c = Ok es ->
  Z.of_nat (length es) = wl_Count c /\
  Forall (fun e => validate (env_Input e) = None /\ blen (Payload (env_Input e)) = wl_PayloadBytes c /\ exists raw, EncodeEnvelope e = Ok raw) es /\
  1 <= unique_count c <= wl_Count c /\
  (forall i, unique_count c <= Z.of_nat i < wl_Count c -> es !! i = es !! Z.to_nat ((Z.of_nat i - unique_count c) mod unique_count c)).
Proof.
  intros Hfl. unfold Workload.Workload. destruct (workload_ok c) eqn:Eok; [|done]. cbn [negb]. cbv zeta. intros [= <-].
  apply workload_ok_spec in Eok as (Hc & Hp & d & Ed & Hd). pose proof (unique_count_bounds c d Hc Ed ltac:(split; [lra|apply Hfl; [done|lra]])) as Hu.
  set (u := unique_count c) in *. split; [|split; [|split; [done|]]].
  - rewrite length_app, !length_map, !length_seq. lia.
  - assert (Hg : forall i, 0 <= i < MaxWorkload -> validate (env_Input (workload_event c i)) = None /\
      blen (Payload (env_Input (workload_event c i))) = wl_PayloadBytes c /\ exists raw, EncodeEnvelope (workload_event c i) = Ok raw).
    { intros i Hi. by apply workload_event_good. }
    apply Forall_app_2; rewrite Forall_map, Forall_forall; intros i Hi%list_elem_of_In%in_seq; apply Hg; [lia|].
    pose proof (Z.mod_pos_bound (Z.of_nat i) u ltac:(lia)). lia.
  - intros i Hi. pose proof (Z.mod_pos_bound (Z.of_nat i - u) u ltac:(lia)) as Hm.
    rewrite lookup_app_r by (rewrite length_map, length_seq; lia). rewrite lookup_app_l by (rewrite length_map, length_seq; lia).
    rewrite !list_lookup_fmap || rewrite !list_lookup_map.
    rewrite length_map, length_seq. rewrite !lookup_seq_lt by lia.
    assert (E : Z.of_nat (0 + (i - Z.to_nat u)) mod u = Z.of_nat (0 + Z.to_nat ((Z.of_nat i - u) mod u))).
    { rewrite !Nat.add_0_l, Z2Nat.id by lia. f_equal. lia. }
    cbn [fmap option_fmap option_map]. rewrite E. reflexivity.
Qed.
End Facts.
