(* ===== verification/DemoProps.v ===== *)
(** * Properties of the demonstration *)
From S2P Require Import Prelude GoBytes GoTime GoJson GoEncode GoPath Event RuntimeInfo Runtime Persistence Telemetry Publisher Reader RateLimit Config Service Api Deployment RunEnv RunEnvProps RunEnvStart Demo.

Section DemoProps.
Context {U : UUIDLib}.

(** ** Reconciliation *)

Lemma reconcile_loop_spec want seen actual out :
  reconcile_loop want seen actual = Some out <->
  out = list_to_set actual ∪ seen /\ NoDup actual /\ Forall (fun id => id ∈ want /\ id ∉ seen) actual.
Proof.
  revert seen. induction actual as [|id actual IH]; intros seen; cbn [reconcile_loop].
  { split; [intros [= <-]|intros (-> & _)]; [|f_equal; set_solver]. split; [set_solver|]. by split; constructor. }
  destruct (_ || _) eqn:E.
  - split; [done|]. intros (_ & _ & F). apply Forall_cons in F as [[H1 H2] _]. rewrite bool_decide_false, bool_decide_true in E by done. done.
  - bool_to_prop. rewrite IH, NoDup_cons, Forall_cons. split.
    + intros (-> & Hn & F). split; [set_solver|]. rewrite Forall_forall in F. split.
      * split; [|done]. intros Hin. destruct (F id Hin). set_solver.
      * split; [done|]. apply Forall_forall. intros x Hx. destruct (F x Hx). set_solver.
    + intros (-> & [Hid Hn] & [_ F]). split; [set_solver|]. split; [done|]. rewrite Forall_forall in *. intros x Hx.
      destruct (F x Hx). split; [done|]. set_solver.
Qed.

(** The identifiers reconcile exactly when each expected one is there, once,
    and no other. *)
Lemma reconcileIDs_exact expected actual :
  reconcileIDs expected actual = None <-> NoDup actual /\ forall id, id ∈ actual <-> id ∈ expected.
Proof.
  unfold reconcileIDs. cbv zeta. set (want := list_to_set expected : gset uuid).
  assert (Hw : forall id, id ∈ want <-> id ∈ expected) by (intros id; unfold want; by rewrite elem_of_list_to_set).
  destruct (reconcile_loop want ∅ actual) as [seen|] eqn:E.
  - apply reconcile_loop_spec in E as (-> & Hn & F). rewrite union_empty_r_L. rewrite Forall_forall in F.
    assert (Hsub : (list_to_set actual : gset uuid) ⊆ want) by (intros x Hx%elem_of_list_to_set; by destruct (F x Hx)).
    destruct (negb _) eqn:Es; bool_to_prop.
    + split; [done|]. intros [_ Ha]. apply Nat.eqb_neq in Es. destruct Es. f_equal. apply set_eq. intros x.
      rewrite elem_of_list_to_set, Hw. apply Ha.
    + apply Nat.eqb_eq in Es. split; [|done]. intros _. split; [done|]. intros x. rewrite <- Hw, <- (elem_of_list_to_set (C := gset uuid)).
      assert (Heq : (list_to_set actual : gset uuid) = want) by (apply set_eq; apply set_subseteq_size_equiv; [done|]; lia). by rewrite Heq.
  - split; [done|]. intros [Hn Ha]. exfalso. assert (Hs : reconcile_loop want ∅ actual = Some (list_to_set actual ∪ ∅)).
    { apply reconcile_loop_spec. split; [done|]. split; [done|]. apply Forall_forall. intros x Hx. split; [by apply Hw, Ha|set_solver]. }
    congruence.
Qed.

Context {Wd : World} {H : Host} {T : Timers} {DH : DemoHost} {D : DockerState} {TL : TimersLaws T} {L : HostLaws H T D}.

(** What is relied on of the database and the transport. *)
Class DemoLaws : Prop := {
  law_newPool u w : same w (snd (d_newPool u w));
  law_closePool w : same w (d_closePool w);
  law_post c u a b w : same w (snd (d_post c u a b w));
  law_queryIDs c w : same w (snd (d_queryIDs c w));
  law_queryFunnel c w : same w (snd (d_queryFunnel c w));
  law_query_forward c : forward (d_queryIDs c)
}.
Context {DL : DemoLaws}.
Variable errtext : error -> bytes.

Definition good_report (r : DemoReport) : Prop :=
  (exists raw inputs, DecodeBatch raw = Ok inputs /\ rp_Accepted r = map EventID inputs) /\
  NoDup (rp_Stored r) /\ forall id, id ∈ rp_Stored r <-> id ∈ rp_Accepted r.

Lemma SendInputs_spec ctx url key inputs :
  ensures same (fun r => forall ids, r = Ok ids -> ids = map EventID inputs) (SendInputs ctx url key inputs).
Proof.
  unfold SendInputs. destruct (batch_json inputs) as [raw|]; [|by apply ensures_ret; [exact _|]].
  eapply ensures_bind; [exact _|apply ensures_keeps, keeps_gets; exact _|]. intros t _.
  eapply ensures_bind; [exact _|apply ensures_keeps, keeps_io, law_post|]. intros [[status body]|e] _; [|by apply ensures_ret; [exact _|]].
  destruct (negb (status =? 202)); [by apply ensures_ret; [exact _|]|]. destruct (decode_ack body) as [ids|]; [|by apply ensures_ret; [exact _|]].
  destruct (negb _); [by apply ensures_ret; [exact _|]|]. destruct (negb (bool_decide _)) eqn:E; [by apply ensures_ret; [exact _|]|].
  bool_to_prop. apply ensures_ret; [exact _|]. by intros ? [= <-].
Qed.

Lemma reconcile_wait_spec fuel wait ids :
  ensures same (fun r => forall actual, r = Ok actual -> NoDup actual /\ forall id, id ∈ actual <-> id ∈ ids) (reconcile_wait fuel wait ids).
Proof.
  induction fuel as [|fuel IH]; [by intros w a w'|]. cbn [reconcile_wait].
  eapply ensures_bind; [exact _|apply ensures_keeps, keeps_io, law_queryIDs|]. intros q _. cbv zeta.
  match goal with |- context [bind clock_now ?k] => set (again := bind clock_now k) end.
  assert (Ha : ensures same (fun r => forall actual, r = Ok actual -> NoDup actual /\ forall id, id ∈ actual <-> id ∈ ids) again).
  { eapply ensures_bind; [exact _|apply ensures_keeps, keeps_gets; exact _|]. intros t _.
    eapply ensures_bind; [exact _|apply ensures_keeps, keeps_io, law_timer|]. intros [] _; [|exact IH].
    eapply ensures_bind; [exact _|apply ensures_keeps, keeps_gets; exact _|]. intros t' _. by apply ensures_ret; [exact _|]. }
  destruct q as [[actual [e|]]|e]; [exact Ha| |exact Ha]. destruct (reconcileIDs ids actual) eqn:E; [exact Ha|].
  apply ensures_ret; [exact _|]. intros ? [= <-]. by apply reconcileIDs_exact.
Qed.

(** The wait ends with its window. *)
Lemma reconcile_wait_total fuel ctx t0 ids w :
  t0 + 30 * Second - now w < Z.of_nat fuel * (100 * Millisecond) ->
  exists a w', reconcile_wait (S fuel) (WithTimeout ctx t0 (30 * Second)) ids w = Some (a, w').
Proof.
  set (wait := WithTimeout ctx t0 (30 * Second)). revert w. induction fuel as [|fuel IH]; intros w Hf.
  all: cbn [reconcile_wait]; unfold bind at 1, io at 1; pose proof (law_query_forward wait w) as H1;
    destruct (d_queryIDs wait w) as [q w1]; cbn [snd] in H1; cbv zeta;
    match goal with |- context [bind clock_now ?k] => set (again := bind clock_now k) end.
  all: enough (Ha : exists a w', again w1 = Some (a, w')) by (destruct q as [[actual [e|]]|e]; [exact Ha| |exact Ha];
    destruct (reconcileIDs ids actual); [exact Ha|by eexists _, _]).
  all: unfold again, bind at 1, clock_now, gets; unfold bind at 1, io at 1;
    destruct (select_timer wait (now w1 + 100 * Millisecond) w1) as [[] w2] eqn:Es; [by eexists _, _|].
  - exfalso. assert (Hx : ctx_Err wait (now w1) <> None).
    { destruct (WithTimeout_expires ctx t0 (30 * Second) (now w1)) as [e E]; [lia|]. unfold wait. by rewrite E. }
    pose proof (timer_ready wait (now w1 + 100 * Millisecond) w1 Hx) as Ht. rewrite Es in Ht. unfold Millisecond in Ht. by specialize (Ht ltac:(lia)).
  - apply timer_fired in Es. apply IH. unfold Millisecond in *. lia.
Qed.

(** ** RunDemo *)

Lemma demo_reconcile_spec ctx ids d :
  (exists raw inputs, DecodeBatch raw = Ok inputs /\ ids = map EventID inputs) -> rp_Accepted (ds_report d) = ids ->
  ensures same (fun r => fst r = None -> good_report (ds_report (snd r))) (demo_reconcile ctx ids d).
Proof.
  intros Hi Ha. unfold demo_reconcile. eapply ensures_bind; [exact _|apply ensures_keeps, keeps_gets; exact _|]. intros t _.
  eapply ensures_bind; [exact _|apply reconcile_wait_spec|]. intros [actual|e] Hr; [|by apply ensures_ret; [exact _|]].
  eapply ensures_bind; [exact _|apply ensures_keeps, keeps_io, law_queryFunnel|]. intros [[rows err]|e] _; [|by apply ensures_ret; [exact _|]].
  apply ensures_ret; [exact _|]. cbn [fst snd]. intros ->. destruct (Hr actual eq_refl) as [Hn Hs].
  destruct d as [[]]. cbn in *. subst ids. by split.
Qed.

Lemma demo_reconcile_total ctx ids d : total (demo_reconcile ctx ids d).
Proof.
  unfold demo_reconcile, clock_now. intros w. unfold bind at 1, gets.
  destruct (reconcile_wait_total 301 ctx (now w) ids w) as (a & w1 & E); [unfold Second, Millisecond; lia|].
  unfold bind at 1. change reconcile_fuel with 302%nat. rewrite E. revert w1 E. intros w1 _. revert w1.
  change (total (match a with
    | Ok actual => let d := set_report (set_stored actual) d in
        let! q := io (d_queryFunnel ctx) in
        match q with
        | Ok (rows, err) => ret (err, set_report (set_funnel (Some (foldl (fun m nk => <[fst nk := snd nk]> m) ∅ rows))) d)
        | Err e => ret (Some e, d)
        end
    | Err e => ret (Some e, d) end)). returns fail.
Qed.

(** The hooks of the tests do not use Docker. *)
Definition hooks_quiet (o : DemoOptions) : Prop := forall f stage s w, do_OnStage o = Some f -> same w (f stage s w).

Lemma on_stage_same o stage s : hooks_quiet o -> keeps same (on_stage o stage s).
Proof.
  intros Hq. unfold on_stage. destruct (do_OnStage o) as [f|] eqn:E; [|walk fail]. apply keeps_io. intros w. by eapply Hq.
Qed.

Lemma SetService_outside s ctx name b : keeps (outside (Project s)) (SetServiceRunning s ctx name b).
Proof. by apply (run_operation_spares s (ctx, OpSetService name b)). Qed.

(** What is unchanged outside the project, from what is unchanged at all. *)
Lemma ensures_outside {A} p (P : A -> Prop) (m : M W A) : ensures same P m -> ensures (outside p) P m.
Proof. intros Hm w a w' E. apply Hm in E as [? ?]. by split; [apply same_outside|]. Qed.

Lemma demo_send_spec ctx o s inputs d :
  (exists raw, DecodeBatch raw = Ok inputs) ->
  ensures (outside (Project s)) (fun r => fst r = None -> good_report (ds_report (snd r))) (demo_send ctx o s inputs d).
Proof.
  intros [raw Hraw]. unfold demo_send. eapply ensures_bind; [exact _|apply ensures_outside, SendInputs_spec|].
  intros [ids|e] Hids; [|by apply ensures_ret; [exact _|]]. specialize (Hids ids eq_refl). cbv zeta.
  assert (Hr : forall b, ensures (outside (Project s)) (fun r => fst r = None -> good_report (ds_report (snd r)))
    (demo_reconcile ctx ids (mkDemoState (set_accepted ids (ds_report d)) b (ds_pool d)))).
  { intros b. apply ensures_outside, demo_reconcile_spec; [|done]. by exists raw, inputs. }
  destruct (do_Recovery o); [|apply Hr].
  eapply ensures_bind; [exact _|by apply ensures_keeps, Compose_outside|]. intros _ _.
  eapply ensures_bind; [exact _|apply ensures_keeps, SetService_outside|]. intros [e|] _; [by apply ensures_ret; [exact _|]|]. apply Hr.
Qed.

Lemma demo_body_spec ctx o s d :
  hooks_quiet o -> ensures (outside (Project s)) (fun r => fst r = None -> good_report (ds_report (snd r))) (demo_body ctx o s d).
Proof.
  intros Hq. unfold demo_body. eapply ensures_bind; [exact _|apply ensures_outside, ensures_keeps, keeps_io, law_newPool|].
  intros [e|] _; [by apply ensures_ret; [exact _|]|]. eapply ensures_bind; [exact _|apply ensures_keeps, keeps_gets; exact _|].
  intros [raw|e] _; [|by apply ensures_ret; [exact _|]]. destruct (DecodeBatch raw) as [inputs|e] eqn:Ei; [|by apply ensures_ret; [exact _|]].
  eapply ensures_bind; [exact _|apply ensures_outside, ensures_keeps; by apply on_stage_same|]. intros _ _.
  destruct (do_Recovery o); [|apply demo_send_spec; by exists raw].
  eapply ensures_bind; [exact _|apply ensures_keeps, SetService_outside|]. intros [e|] _; [by apply ensures_ret; [exact _|]|].
  eapply ensures_bind; [exact _|apply ensures_outside, ensures_keeps; by apply on_stage_same|]. intros _ _. apply demo_send_spec. by exists raw.
Qed.

Lemma demo_body_total ctx o s d : total (demo_body ctx o s d).
Proof.
  unfold demo_body, demo_send, SendInputs, on_stage, clock_now, SetServiceRunning.
  returns ltac:(first [apply demo_reconcile_total | apply Compose_total | apply as_owner_total]).
Qed.

(** Errors only accumulate. *)
Lemma join_err_none result err : join_err result err = None -> result = None /\ err = None.
Proof. destruct err; cbn; [|done]. unfold join2. rewrite errors_Join_nil. intros F. by apply Forall_cons in F as [_ [? _]%Forall_cons]. Qed.

Lemma demo_cleanup_spec o s result d w result' report w' :
  demo_cleanup errtext o s result d w = Some ((result', report), w') ->
  outside (Project s) w w' /\
  (result' = None -> result = None /\ rp_Completed report = true /\
     rp_Accepted report = rp_Accepted (ds_report d) /\ rp_Stored report = rp_Stored (ds_report d) /\
     (do_Cleanup o = true -> forall k id r, resources k w' !! id = Some r -> r_project r <> Project s)).
Proof.
  unfold demo_cleanup. intros (t & w0 & [= <- <-] & E)%bind_Some. cbv zeta in E.
  apply bind_Some in E as (e1 & w1 & E1 & E). assert (O1 : outside (Project s) w w1).
  { destruct (ds_dbStopped d); [by eapply SetService_outside | injection E1 as <- <-; reflexivity]. }
  apply bind_Some in E as (u & w2 & E2 & E). assert (S2 : same w1 w2).
  { destruct (ds_pool d); [|by injection E2 as <- <-]. eapply (keeps_io same); [|exact E2]. apply law_closePool. }
  apply bind_Some in E as (e3 & w3 & E3 & E). apply CollectEvidence_same in E3.
  apply bind_Some in E as (e4 & w4 & E4 & E). assert (O4 : outside (Project s) w3 w4).
  { destruct (do_Cleanup o); by apply as_owner_spec in E4 as [? _]. }
  apply bind_Some in E as (e5 & w5 & E5 & [= <- <- <-]). assert (S5 : same w4 w5) by (eapply (keeps_io same); [apply law_writeFile|exact E5]).
  split.
  { transitivity w1; [done|]. transitivity w2; [by apply same_outside|]. transitivity w3; [by apply same_outside|].
    transitivity w4; [done|by apply same_outside]. }
  intros [Hn ->]%join_err_none. pose proof Hn as Hn'. apply join_err_none in Hn' as [Hn' ->].
  apply join_err_none in Hn' as [Hn' ->]. apply join_err_none in Hn' as [-> ->].
  split; [done|]. split; [reflexivity|]. split; [done|]. split; [done|]. intros Hc k id r. rewrite Hc in E4. rewrite S5.
  by eapply Destroy_spec.
Qed.

Lemma demo_cleanup_total o s result d : total (demo_cleanup errtext o s result d).
Proof.
  unfold demo_cleanup, clock_now, SetServiceRunning, Destroy, Stop.
  returns ltac:(first [apply as_owner_total | apply CollectEvidence_total]).
Qed.

(** C17: the demonstration tells the truth.  It always returns; the projects
    of others are as they were; and when it reports success, the report it
    wrote is marked completed, the acknowledged identifiers are those of the
    example's events, the stored ones are exactly those, once each, and with
    cleanup nothing of the run is left in Docker. *)
Theorem RunDemo_truthful ctx o w :
  hooks_quiet o ->
  exists result report w', RunDemo errtext ctx o w = Some ((result, report), w') /\ others w w' /\
  (result = None -> exists r, report = Some r /\ rp_Completed r = true /\ good_report r /\ (do_Cleanup o = true -> no_new w w')).
Proof.
  intros Hq. unfold RunDemo. cbv zeta. destruct (Start_total errtext ctx
    (mkOptions (if do_Recovery o then lit "recovery" else lit "demo") (do_OutputDirectory o) [] false) w) as (r & w1 & E1).
  unfold bind at 1. rewrite E1. apply Start_spec in E1 as [X1 H1]. destruct r as [s|e]; [|by eexists _, _, _].
  destruct H1 as [Hs N1]. set (d0 := mkDemoState _ _ _). destruct (demo_body_total ctx o s d0 w1) as ([result d] & w2 & E2).
  unfold bind at 1. rewrite E2. apply demo_body_spec in E2 as [O2 G2]; [|done]. cbn [fst snd] in G2.
  destruct (demo_cleanup_total o s result d w2) as ([result' report] & w3 & E3). unfold bind at 1. rewrite E3.
  apply demo_cleanup_spec in E3 as [O3 G3]. exists result', (Some report), w3. split; [done|].
  assert (O : outside (Project s) w1 w3) by (by transitivity w2). assert (Hp : HasPrefix (Project s) (lit "ingestkit-") = true) by apply Hs.
  split; [intros k id r Hr; rewrite (X1 k id r Hr); by apply (outside_others _ _ _ Hp O)|].
  intros Hn. destruct (G3 Hn) as (-> & Hc & Ha & Hst & Hgone). exists report. split; [done|]. split; [done|]. split.
  - destruct (G2 eq_refl) as (Hi & Hnd & Hiff). unfold good_report. by rewrite Ha, Hst.
  - intros Hcl k. apply map_subseteq_spec. intros id r Hr. pose proof (Hgone Hcl k id r Hr) as Hne.
    apply O in Hr; [|done]. by destruct (N1 k id r Hr).
Qed.
End DemoProps.
