(* ===== verification/BenchMain.v ===== *)
(** * The benchmark program: [cmd/bench]

    Its command line, with the part of Go's [flag] package it uses, and the
    run of a single measurement on a stack of its own.  The functions of
    [internal/benchmark], which other files model, are parameters here, about
    which nothing is assumed, not even that they return; and so is [float64]
    with its parser: one flag has that type, which is only passed on to
    them. *)
From S2P Require Import Prelude GoBytes GoNumber GoTime GoJson GoEncode GoPath Event RuntimeInfo Runtime Persistence Telemetry Publisher Reader RateLimit Config Service Api Deployment RunEnv RunEnvProps RunEnvStart.

(** ** The command line *)

Class FlagLib := {
  float64 : Type;
  float_tenth : float64;  (** [.1] *)
  ParseFloat64 : bytes -> option float64  (** [strconv.ParseFloat(s, 64)] *)
}.

Section Flags.
Context {F : FlagLib}.

(** The flags, and the names of those that were set. *)
Record Flags := mkFlags {
  f_mode : bytes; f_pattern : bytes; f_count : Z; f_payload : Z; f_batch : Z; f_seed : Z; f_duplicates : float64;
  f_rate : Z; f_concurrency : Z; f_duration : Z; f_warmup : Z; f_out : bytes; f_smoke : bool; f_resume : bool;
  f_suite : bytes; f_activeCap : Z; f_idleCap : Z; f_set : gset bytes
}.

Definition default_flags : Flags :=
  mkFlags (lit "database") (lit "steady") 10000 256 100 42 float_tenth 1000 8 (10 * Second) (2 * Second) [] false false
    (lit "core") 0 128 ∅.

(** [flag.Set]: [None] for an unknown name, [Some None] for an invalid
    value. *)
Definition set_flag (name value : bytes) (f : Flags) : option (option Flags) :=
  let '(mkFlags mode pattern count payload batch seed duplicates rate concurrency duration warmup out smoke resume suite activeCap idleCap set) := f in
  let set := {[name]} ∪ set in
  let named n := bool_decide (name = lit n) in
  let int (k : Z -> Flags) := Some (option_map k (ParseInt0 value)) in
  if named "mode"%string then Some (Some (mkFlags value pattern count payload batch seed duplicates rate concurrency duration warmup out smoke resume suite activeCap idleCap set))
  else if named "pattern"%string then Some (Some (mkFlags mode value count payload batch seed duplicates rate concurrency duration warmup out smoke resume suite activeCap idleCap set))
  else if named "count"%string then int (fun v => mkFlags mode pattern v payload batch seed duplicates rate concurrency duration warmup out smoke resume suite activeCap idleCap set)
  else if named "payload"%string then int (fun v => mkFlags mode pattern count v batch seed duplicates rate concurrency duration warmup out smoke resume suite activeCap idleCap set)
  else if named "batch"%string then int (fun v => mkFlags mode pattern count payload v seed duplicates rate concurrency duration warmup out smoke resume suite activeCap idleCap set)
  else if named "seed"%string then int (fun v => mkFlags mode pattern count payload batch v duplicates rate concurrency duration warmup out smoke resume suite activeCap idleCap set)
  else if named "duplicates"%string then Some (option_map (fun v => mkFlags mode pattern count payload batch seed v rate concurrency duration warmup out smoke resume suite activeCap idleCap set) (ParseFloat64 value))
  else if named "rate"%string then int (fun v => mkFlags mode pattern count payload batch seed duplicates v concurrency duration warmup out smoke resume suite activeCap idleCap set)
  else if named "concurrency"%string then int (fun v => mkFlags mode pattern count payload batch seed duplicates rate v duration warmup out smoke resume suite activeCap idleCap set)
  else if named "duration"%string then Some (option_map (fun v => mkFlags mode pattern count payload batch seed duplicates rate concurrency v warmup out smoke resume suite activeCap idleCap set) (ParseDuration value))
  else if named "warmup"%string then Some (option_map (fun v => mkFlags mode pattern count payload batch seed duplicates rate concurrency duration v out smoke resume suite activeCap idleCap set) (ParseDuration value))
  else if named "out"%string then Some (Some (mkFlags mode pattern count payload batch seed duplicates rate concurrency duration warmup value smoke resume suite activeCap idleCap set))
  else if named "smoke"%string then Some (option_map (fun v => mkFlags mode pattern count payload batch seed duplicates rate concurrency duration warmup out v resume suite activeCap idleCap set) (ParseBool value))
  else if named "resume"%string then Some (option_map (fun v => mkFlags mode pattern count payload batch seed duplicates rate concurrency duration warmup out smoke v suite activeCap idleCap set) (ParseBool value))
  else if named "suite"%string then Some (Some (mkFlags mode pattern count payload batch seed duplicates rate concurrency duration warmup out smoke resume value activeCap idleCap set))
  else if named "max-conns"%string then int (fun v => mkFlags mode pattern count payload batch seed duplicates rate concurrency duration warmup out smoke resume suite v idleCap set)
  else if named "max-idle-conns"%string then int (fun v => mkFlags mode pattern count payload batch seed duplicates rate concurrency duration warmup out smoke resume suite activeCap v set)
  else None.

Definition is_bool_flag (name : bytes) : bool := in_lits name ["smoke"; "resume"].

Definition apply_flag (name value : bytes) (f : Flags) : res Flags :=
  match set_flag name value f with
  | None => Err (ENew "flag provided but not defined")
  | Some None => Err (ENew "invalid value for flag")
  | Some (Some f) => Ok f
  end.

Definition DASH : Z := 45.
Definition EQUALS : Z := 61.

(** The name after the dashes of an argument; [None] when it is not a flag. *)
Definition flag_name (s : bytes) : option bytes :=
  match s with
  | c :: r => if (c =? DASH) && negb (bool_decide (r = []))
              then Some (match r with d :: r' => if d =? DASH then r' else r | [] => [] end) else None
  | [] => None
  end.

(** The name up to the first "=" that is not its first character, and the
    value after it. *)
Definition split_flag (name : bytes) : bytes * option bytes :=
  match name with
  | [] => ([], None)
  | c :: r => match Deployment.Cut r EQUALS with
              | Some (a, v) => (c :: a, Some v)
              | None => (name, None)
              end
  end.

(** [FlagSet.Parse]: the flags and the arguments left. *)
Fixpoint Parse (args : list bytes) (f : Flags) : res (Flags * list bytes) :=
  match args with
  | [] => Ok (f, [])
  | s :: rest =>
      match flag_name s with
      | None => Ok (f, args)
      | Some text =>
          if bool_decide (s = lit "--") then Ok (f, rest)
          else match text with
               | [] => Err (ENew "bad flag syntax")
               | c :: _ =>
                   if (c =? DASH) || (c =? EQUALS) then Err (ENew "bad flag syntax")
                   else
                     let '(name, value) := split_flag text in
                     match value with
                     | Some v => let? f := apply_flag name v f in Parse rest f
                     | None =>
                         if is_bool_flag name then let? f := apply_flag name (lit "true") f in Parse rest f
                         else match set_flag name [] f with
                              | None => Err (ENew "flag provided but not defined")
                              | Some _ =>
                                  match rest with
                                  | [] => Err (ENew "flag needs an argument")
                                  | v :: rest => let? f := apply_flag name v f in Parse rest f
                                  end
                              end
                     end
               end
      end
  end.

(** ** What a command line asks for *)

Record StudyConfig := mkStudyConfig { sc_Suite : bytes; sc_OutputDirectory : bytes; sc_Smoke : bool; sc_Resume : bool; sc_Seed : Z }.

Inductive Plan :=
  | PStudy (c : StudyConfig)
  | PCalibrate (f : Flags)
  | PMeasure (f : Flags).

Definition study_flags : list string := ["mode"; "smoke"; "resume"; "out"; "seed"; "suite"].

(** [ValidatePipelineWorkload] on rate, duration, batch and payload. *)
Variable ValidatePipelineWorkload : Z -> Z -> Z -> Z -> goerr.

(** The tests of [runArgs] before anything is started.  The flag a study
    does not support that is named is the last in order. *)
Definition bench_plan (args : list bytes) : res Plan :=
  let? (f, positional) := Parse args default_flags in
  if negb (bool_decide (positional = [])) then Err (ENew "unexpected positional arguments")
  else if negb (in_lits (f_mode f) ["database"; "pipeline"; "study"; "calibrate"]) then Err (ENew "mode must be database, pipeline, study or calibrate")
  else if bool_decide (f_mode f = lit "study") then
    match filter (fun n => in_lits n study_flags = false) (sort_strings (elements (f_set f))) with
    | _ :: _ as unsupported => Err (ENew (text (lit "study uses registered controls; -" ++ List.last unsupported [] ++ lit " is only for single-run modes")))
    | [] => if f_resume f && bool_decide (f_out f = []) then Err (ENew "resume requires the original -out directory")
            else Ok (PStudy (mkStudyConfig (f_suite f) (f_out f) (f_smoke f) (f_resume f) (f_seed f)))
    end
  else if bool_decide (lit "suite" ∈ f_set f) then Err (ENew "suite applies only to study mode")
  else if f_smoke f || f_resume f then Err (ENew "smoke/resume flags require study mode")
  else if (f_activeCap f <? 0) || (f_idleCap f <? 0) then Err (ENew "connection caps must be nonnegative")
  else
    let workload := if in_lits (f_mode f) ["pipeline"; "calibrate"]
                    then ValidatePipelineWorkload (f_rate f) (f_duration f) (f_batch f) (f_payload f) else None in
    match workload with
    | Some err => Err err
    | None =>
        if bool_decide (f_mode f = lit "calibrate") then
          if bool_decide (f_out f = []) then Err (ENew "calibration requires -out directory") else Ok (PCalibrate f)
        else Ok (PMeasure f)
    end.

Definition measuredOptions (mode : bytes) : Options := mkOptions (lit "bench-" ++ mode) [] selfhost true.

(** ** A measurement *)

Record DatabaseConfig := mkDatabaseConfig {
  dbc_Seed : Z; dbc_Count : Z; dbc_PayloadBytes : Z; dbc_DuplicateFraction : float64; dbc_BatchSize : Z; dbc_Repetitions : Z
}.

Record PipelineConfig := mkPipelineConfig {
  pc_Client : option Client; pc_MaxConns : Z; pc_MaxIdle : Z; pc_APIURL : bytes; pc_APIKey : bytes; pc_Tenant : bytes; pc_Pattern : bytes;
  pc_Seed : Z; pc_Rate : Z; pc_Concurrency : Z; pc_Duration : Z; pc_Warmup : Z; pc_DrainDeadline : Z; pc_PollInterval : Z;
  pc_BatchSize : Z; pc_PayloadBytes : Z; pc_Repetitions : Z
}.

Definition database_config (f : Flags) : DatabaseConfig :=
  mkDatabaseConfig (f_seed f) (f_count f) (f_payload f) (f_duplicates f) (f_batch f) 3.

Definition pipeline_config (f : Flags) (client : Client) (url key : bytes) : PipelineConfig :=
  mkPipelineConfig (Some client) (f_activeCap f) (f_idleCap f) url key (lit "default") (f_pattern f) (f_seed f) (f_rate f) (f_concurrency f)
    (f_duration f) (f_warmup f) (30 * Second) (50 * Millisecond) (f_batch f) (f_payload f) 3.

Definition calibration_config (f : Flags) : PipelineConfig :=
  mkPipelineConfig None (f_activeCap f) (f_idleCap f) [] [] [] [] (f_seed f) (f_rate f) (f_concurrency f) (f_duration f) 0 0 0
    (f_batch f) (f_payload f) 3.

(** The functions of [internal/benchmark] that [runArgs] calls, as any
    computations at all; their reports are only passed on, but for the status
    of a calibration. *)
Class Bench {Wd : World} := {
  Manifest : Type; m_SourceDirty : Manifest -> bool;
  Samples : Type; DReport : Type; PReport : Type; CReport : Type;
  c_incomplete : CReport -> CReport;
  RunStudy : Context -> StudyConfig -> M W goerr;
  RunCalibration : Context -> PipelineConfig -> M W (CReport * goerr);
  b_newPool : Context -> bytes -> W -> goerr * W;
  b_closePool : W -> W;
  CaptureManifest : Context -> Stack -> M W (Manifest * goerr);
  b_startSamples : Context -> Stack -> W -> W;
  b_stopSamples : M W Samples;
  RunDatabase : Context -> DatabaseConfig -> M W (DReport * goerr);
  RunPipeline : Context -> Stack -> PipelineConfig -> M W (PReport * goerr);
  b_closeIdle : Client -> W -> W;
  WriteReport : bytes -> DReport + PReport -> W -> goerr * W;
  (** [WriteJSON] of what the program writes *)
  w_manifest : bytes -> Manifest -> W -> goerr * W;
  w_resources : bytes -> Samples -> W -> goerr * W;
  w_failed : bytes -> PReport -> W -> goerr * W;
  w_calibration : bytes -> CReport -> W -> goerr * W;
  w_status : bytes -> bool -> bool -> W -> goerr * W
}.

Context {Wd : World} {H : Host} {T : Timers} {B : Bench}.
Variable errtext : error -> bytes.

Definition writeCalibrationResult (out : bytes) (report : CReport) (runErr : goerr) : M W goerr :=
  let report := match runErr with Some _ => c_incomplete report | None => report end in
  let! err := io (w_calibration (Join [out; lit "calibration.json"]) report) in
  ret (join2 runErr err).

(** The measurement itself, between the start and the stop of the samples. *)
Definition measure (ctx : Context) (f : Flags) (s : Stack) (dir : bytes) : M W goerr :=
  if bool_decide (f_mode f = lit "database") then
    let! (r, e) := RunDatabase ctx (database_config f) in
    match e with
    | Some e => ret (Some e)
    | None => io (WriteReport dir (inl r))
    end
  else
    let! client := gets (HTTPClient s) in
    match client with
    | Err err => ret (Some err)
    | Ok client =>
        let! key := APIKey s in
        let! (r, e) := RunPipeline ctx s (pipeline_config f client (APIURL s) key) in
        let! result :=
          match e with
          | Some e => let! _ := io (w_failed (Join [dir; lit "failed-pipeline.json"]) r) in ret (Some e)
          | None => io (WriteReport dir (inr r))
          end in
        let! _ := io (fun w => (tt, b_closeIdle client w)) in
        ret result
    end.

(** From the manifest to the end of the samples, with an open pool. *)
Definition with_pool (ctx : Context) (f : Flags) (s : Stack) (dir : bytes) : M W goerr :=
  let! (manifest, e) := CaptureManifest ctx s in
  match e with
  | Some e => ret (Some e)
  | None =>
      let! e := io (w_manifest (Join [dir; lit "manifest.json"]) manifest) in
      match e with
      | Some e => ret (Some e)
      | None =>
          if m_SourceDirty manifest then ret (Some (ENew "commit source changes before measuring; manifest marks this run dirty"))
          else
            let! _ := io (fun w => (tt, b_startSamples ctx s w)) in
            let! result := measure ctx f s dir in
            let! samples := b_stopSamples in
            let! err := io (w_resources (Join [dir; lit "resources.json"]) samples) in
            ret (join2 result err)
      end
  end.

(** The first deferred function: evidence, removal, status. *)
Definition bench_cleanup (s : Stack) (dir : bytes) (result : goerr) : M W goerr :=
  let! t := clock_now in
  let fin := WithTimeout Background t (30 * Second) in
  let! evidenceErr := CollectEvidence s fin (Directory s) in
  let! destroyErr := Destroy s fin in
  let result := errors_Join [result; evidenceErr; destroyErr] in
  let completed := match result with None => true | Some _ => false end in
  let destroyed := match destroyErr with None => true | Some _ => false end in
  let! err := io (w_status (Join [dir; lit "status.json"]) completed destroyed) in
  ret (join2 result err).

(** The body, on a started stack. *)
Definition measurement (ctx : Context) (f : Flags) (s : Stack) (dir : bytes) : M W goerr :=
  let! e := io (b_newPool ctx (DatabaseURL s)) in
  match e with
  | Some e => ret (Some e)
  | None => let! result := with_pool ctx f s dir in
            let! _ := io (fun w => (tt, b_closePool w)) in
            ret result
  end.

Definition out_dir (f : Flags) (s : Stack) : bytes := match f_out f with [] => Directory s | out => out end.

Definition run_measurement (ctx : Context) (f : Flags) : M W goerr :=
  let! s := Start errtext ctx (measuredOptions (f_mode f)) in
  match s with
  | Err e => ret (Some e)
  | Ok s =>
      let dir := out_dir f s in
      let! result := measurement ctx f s dir in
      bench_cleanup s dir result
  end.

Definition runArgs (ctx : Context) (args : list bytes) : M W goerr :=
  match bench_plan args with
  | Err err => ret (Some err)
  | Ok (PStudy c) => RunStudy ctx c
  | Ok (PCalibrate f) =>
      let! (r, err) := RunCalibration ctx (calibration_config f) in
      writeCalibrationResult (f_out f) r err
  | Ok (PMeasure f) => run_measurement ctx f
  end.

(** [main]: its exit status. *)
Definition bench_main (ctx : Context) (args : list bytes) : M W Z :=
  let! e := runArgs ctx args in
  ret match e with Some _ => 1 | None => 0 end.
End Flags.
