(* ===== verification/BenchMainProps.v ===== *)
(** * Properties of the benchmark program *)
From S2P Require Import Prelude GoBytes GoTime GoJson GoEncode GoPath Event RuntimeInfo Runtime Persistence Telemetry Publisher Reader RateLimit Config Service Api Deployment RunEnv RunEnvProps RunEnvStart BenchMain.

Section BenchMainProps.
Context {F : FlagLib} {Wd : World} {H : Host} {T : Timers} {D : DockerState} {TL : TimersLaws T} {L : HostLaws H T D} {B : Bench}.
Variable ValidatePipelineWorkload : Z -> Z -> Z -> Z -> goerr.
Variable errtext : error -> bytes.

(** Writing the status file is nothing to Docker. *)
Class BenchLaws : Prop := { law_w_status p c d w : same w (snd (w_status p c d w)) }.
Context {BL : BenchLaws}.

(** What the deferred function of a measurement does at [w], when the body
    has returned [body]: it collects the evidence, destroys the stack and
    writes the status, which says destroyed exactly when [Destroy] returned
    nil, and completed exactly when nothing failed before. *)
Definition status_truthful (s : Stack) (dir : bytes) (body : goerr) (w : W) (result : goerr) (w' : W) : Prop :=
  let fin := WithTimeout Background (now w) (30 * Second) in
  exists evidenceErr w1 destroyErr w2 completed destroyed err,
    CollectEvidence s fin (Directory s) w = Some (evidenceErr, w1) /\ Destroy s fin w1 = Some (destroyErr, w2) /\
    w_status (Join [dir; lit "status.json"]) completed destroyed w2 = (err, w') /\
    (destroyed = true <-> destroyErr = None) /\
    (completed = true <-> body = None /\ evidenceErr = None /\ destroyErr = None) /\
    (destroyed = true -> forall k id r, resources k w' !! id = Some r -> r_project r <> Project s) /\
    (result = None <-> completed = true /\ err = None).

Lemma join2_none a b : join2 a b = None <-> a = None /\ b = None.
Proof.
  unfold join2. rewrite errors_Join_nil. split.
  - intros F1. by apply Forall_cons in F1 as [? [? _]%Forall_cons].
  - intros [-> ->]. by repeat constructor.
Qed.

Lemma bench_cleanup_spec s dir body w :
  exists result w', bench_cleanup s dir body w = Some (result, w') /\ outside (Project s) w w' /\ status_truthful s dir body w result w'.
Proof.
  unfold bench_cleanup. unfold bind at 1, clock_now, gets. cbv zeta. set (fin := WithTimeout Background (now w) (30 * Second)).
  destruct (CollectEvidence_total s fin (Directory s) w) as (e1 & w1 & E1). unfold bind at 1. rewrite E1.
  destruct (as_owner_total s fin [lit "down"; lit "-v"; lit "--remove-orphans"] w1) as (e2 & w2 & E2).
  change (as_owner s fin [lit "down"; lit "-v"; lit "--remove-orphans"]) with (Destroy s fin) in E2. unfold bind at 1. rewrite E2.
  set (joined := errors_Join [body; e1; e2]). unfold bind, io.
  pose proof (law_w_status (Join [dir; lit "status.json"]) (match joined with None => true | Some _ => false end)
    (match e2 with None => true | Some _ => false end) w2) as S3.
  destruct (w_status _ _ _ w2) as [e3 w3] eqn:E3. cbn [snd] in S3. eexists _, w3. split; [reflexivity|].
  assert (Hj : joined = None <-> body = None /\ e1 = None /\ e2 = None).
  { unfold joined. rewrite errors_Join_nil. split; [|intros (-> & -> & ->); by repeat constructor].
    intros F1. by apply Forall_cons in F1 as [? [? [? _]%Forall_cons]%Forall_cons]. }
  pose proof E2 as O2. apply as_owner_spec in O2 as [O2 _]; [|reflexivity].
  split; [transitivity w1; [by apply same_outside; eapply CollectEvidence_same|]; transitivity w2; [done|by apply same_outside]|].
  eexists e1, w1, e2, w2, _, _, e3. split; [exact E1|]. split; [exact E2|]. split; [exact E3|]. split; [by destruct e2|]. split.
  { rewrite <- Hj. by destruct joined. }
  split.
  - destruct e2; [done|]. intros _ k id r. rewrite S3. by eapply Destroy_spec.
  - rewrite join2_none. clear Hj. clearbody joined. destruct joined; split; by intros [? ?].
Qed.

(** C18: a measurement cleans up and its status file is true.  The command
    line asks for a single measurement.  When the stack cannot be started
    that is the program's error and nothing else happens: no status is
    written.  When it was started, then whatever the measurement did and
    however it returned, the program returns too, and the last it did was to
    collect the evidence, destroy the stack and write status.json in the
    output directory: "resources_destroyed" says whether the destruction
    succeeded, and if so Docker has nothing of the run's project left;
    "completed" says whether the measurement, the evidence and the
    destruction all did; and the program succeeds exactly when it says
    completed and was written.  If the measurement itself used no Docker
    project but the stack's, the projects of others are as they were, and
    after a success Docker has nothing it did not have. *)
Theorem measurement_cleans_up ctx args f w :
  bench_plan ValidatePipelineWorkload args = Ok (PMeasure f) ->
  exists started w1, Start errtext ctx (measuredOptions (f_mode f)) w = Some (started, w1) /\
  match started with
  | Err e => runArgs ValidatePipelineWorkload errtext ctx args w = Some (Some e, w1)
  | Ok s => forall body w2, measurement ctx f s (out_dir f s) w1 = Some (body, w2) ->
      exists result w', runArgs ValidatePipelineWorkload errtext ctx args w = Some (result, w') /\
        status_truthful s (out_dir f s) body w2 result w' /\
        (outside (Project s) w1 w2 -> others w w' /\ (result = None -> no_new w w'))
  end.
Proof.
  intros Hp. destruct (Start_total errtext ctx (measuredOptions (f_mode f)) w) as (r & w1 & E1). exists r, w1. split; [done|].
  pose proof E1 as Est. apply Start_spec in E1 as [X1 H1].
  destruct r as [s|e]; [|unfold runArgs; rewrite Hp; unfold run_measurement, bind; by rewrite Est].
  intros body w2 Hb. destruct (bench_cleanup_spec s (out_dir f s) body w2) as (result & w' & Hc & O & St). exists result, w'.
  split; [unfold runArgs; rewrite Hp; unfold run_measurement, bind; by rewrite Est, Hb|]. split; [exact St|].
  destruct H1 as [Hs N1]. intros O2. assert (O4 : outside (Project s) w1 w') by (by transitivity w2).
  assert (Hpre : HasPrefix (Project s) (lit "ingestkit-") = true) by apply Hs.
  split; [intros k id r Hr; rewrite (X1 k id r Hr); by apply (outside_others _ _ _ Hpre O4)|].
  intros Hr k. apply map_subseteq_spec. intros id r Hres.
  destruct St as (e1 & wa & e2 & wb & completed & destroyed & err & _ & _ & _ & Hd & Hcm & Hnone & Hiff).
  destruct Hiff as [Hiff _]. destruct (Hiff Hr) as [Hcomp _]. apply Hcm in Hcomp as (_ & _ & He2).
  pose proof (Hnone (proj2 Hd He2) k id r Hres) as Hne. apply O4 in Hres; [|done]. by destruct (N1 k id r Hres).
Qed.
End BenchMainProps.
