(* ===== verification/BenchStudy.v ===== *)
(** * Studies: [internal/benchmark/study.go], [cases.go], [journal.go], [results.go]

    The cases of the suites, the reports of a case and how they are
    validated, the outcome of a case, and the journal a study is resumed
    from. *)
From S2P Require Import Prelude GoBytes GoTime GoJson GoEncode Event Runtime GoFloat BenchAccounting.

(** ** cases.go, connections_cases.go *)

Record Case := mkCase {
  HTTPMaxConnsPerHost : Z;
  HTTPMaxIdleConnsPerHost : Z;
  ID : bytes;
  Kind : string;
  Recovery : string;
  Pattern : string;
  PayloadProfile : string;
  Count : Z;
  BatchSize : Z;
  PayloadBytes : Z;
  Rate : Z;
  Concurrency : Z;
  Repetitions : Z;
  DuplicateFraction : Q;
  Window : Z;
  Warmup : Z;
  DrainTime : Z;
  Poll : Z;
  FaultAt : Z;
  RestoreAt : Z
}.

Definition db_case (id : bytes) (batch payload : Z) (duplicates : Q) : Case :=
  mkCase 0 0 id "database" "" "" "varied" 5000 batch payload 0 0 3 duplicates 0 0 0 0 0 0.

(** A pipeline case with the base values of the core suite. *)
Definition base_case (id : bytes) (pattern : string) (count batch payload rate concurrency : Z) : Case :=
  mkCase 0 0 id "pipeline" "" pattern "varied" count batch payload rate concurrency 3 0
    (10 * Second) (2 * Second) (30 * Second) (50 * Millisecond) 0 0.

Definition named (prefix : string) (n : Z) : bytes := lit prefix ++ itoa n.

Definition recovery_case (recovery : string) : Case :=
  mkCase 0 0 (lit "recovery-" ++ lit recovery) "recovery" recovery "steady" "varied" 7500 100 256 500 32 3 0
    (15 * Second) (2 * Second) (30 * Second) (50 * Millisecond) (3 * Second)
    (if String.eqb recovery "consumer" then 5 * Second else 8 * Second).

Definition StudyCases : list Case :=
  map (fun batch => db_case (named "db-batch-" batch) batch 256 0) [1; 10; 50; 100; 500; 1000] ++
  map (fun payload => db_case (named "db-payload-" payload) 100 payload 0) [1024; 16384] ++
  map (fun duplicate => db_case (named "db-duplicates-" duplicate) 100 256 (fdiv (float_of_int duplicate) (inject_Z 100))) [10; 50; 90] ++
  map (fun batch => base_case (named "pipeline-batch-" batch) "steady" 10000 batch 256 1000 32) [1; 10; 100] ++
  map (fun rate => base_case (named "pipeline-rate-" rate) "steady" (rate * 10) 100 256 rate 32) [100; 5000; 10000] ++
  map (fun payload => base_case (named "pipeline-payload-" payload) "steady" 10000 10 payload 1000 32) [1024; 16384] ++
  [base_case (lit "pipeline-burst") "burst" 10000 100 256 1000 32] ++
  map (fun concurrency => base_case (named "pipeline-concurrency-" concurrency) "steady" 10000 1 256 1000 concurrency) [8; 64] ++
  map recovery_case ["database"; "consumer"]%string ++
  [mkCase 0 0 (lit "recovery-outbox") "recovery" "outbox" "" "varied" 100 100 256 0 0 3 0 0 0 (30 * Second)
     (50 * Millisecond) 0 (8 * Second)].

Definition smokeCases : list Case :=
  [mkCase 0 0 (lit "smoke-database") "database" "" "" "varied" 100 10 256 0 0 3 0 0 0 0 0 0 0;
   mkCase 0 0 (lit "smoke-pipeline") "pipeline" "" "steady" "varied" 10 2 256 20 2 3 0 (500 * Millisecond)
     (100 * Millisecond) (5 * Second) (25 * Millisecond) 0 0].

Definition connection_case (id : bytes) (cap count batch payload rate : Z) : Case :=
  mkCase cap 128 id "pipeline" "" "steady" "varied" count batch payload rate 128 3 0 (10 * Second) (2 * Second)
    (30 * Second) Second 0 0.

Definition ConnectionCases : list Case :=
  map (fun cap => connection_case (named "connections-cap-" cap) cap 150000 100 1024 15000) [4; 8; 16; 32; 64; 128; 0] ++
  map (fun rate => connection_case (named "connections-rate-" rate) 128 (rate * 10) 100 1024 rate) [30000; 50000] ++
  map (fun payload => connection_case (named "connections-payload-" payload) 128 10000 10 payload 1000) [256; 1024; 16384].

(** The bounds of [ValidatePipelineWorkload] on a case: the number of events
    of the window, in floating point, and the batch. *)
Definition workload_bounds (c : Case) : bool :=
  let count := fmul (float_of_int (Rate c)) (Seconds (Window c)) in
  (0 <? Rate c) && (0 <? Window c) && Qle_bool 1 count && Qle_bool count (inject_Z 1000000) &&
  (1 <=? BatchSize c) && (BatchSize c <=? 100).

(** ** Reports *)

Definition methods : list string := ["insert"; "batch-insert"; "copy-merge"]%string.

Record DatabaseRun := mkDatabaseRun {
  dr_Method : string; dr_Repetition : Z; dr_Submitted : Z; dr_Inserted : Z; dr_Duplicates : Z;
  dr_ElapsedNS : Z; dr_BatchNS : list Z; dr_Correct : bool
}.

Record DatabaseReport := mkDatabaseReport { db_Repetitions : Z; db_Runs : list DatabaseRun }.

(** [Validate] of results.go; [seen] holds method and repetition, which the
    key of the code determines. *)
Fixpoint validate_runs (repetitions : Z) (runs : list DatabaseRun) (seen : list (string * Z)) : bool :=
  match runs with
  | [] => true
  | v :: rest =>
      let key := (dr_Method v, dr_Repetition v) in
      if negb (bool_decide (dr_Method v ∈ methods)) || (dr_Repetition v <? 1) || (repetitions <? dr_Repetition v) ||
         bool_decide (key ∈ seen) || negb (dr_Correct v) || (dr_ElapsedNS v <=? 0) || (dr_Submitted v <=? 0) ||
         (dr_Inserted v <? 0) || (dr_Duplicates v <? 0) || negb (dr_Inserted v + dr_Duplicates v =? dr_Submitted v)
      then false
      else validate_runs repetitions rest (key :: seen)
  end.

Definition DatabaseReport_Validate (r : DatabaseReport) : goerr :=
  if (db_Repetitions r <? 3) || negb (Z.of_nat (length (db_Runs r)) =? 3 * db_Repetitions r)
  then Some (ENew "report requires every method/repetition")
  else if validate_runs (db_Repetitions r) (db_Runs r) [] then None
       else Some (ENew "incorrect or incomplete database run").

Record FaultEvent := mkFault { fe_Action : string; fe_ElapsedNS : Z; fe_PlannedNS : Z }.

Section Study.
Context {U : UUIDLib}.

Record RecoveryRun := mkRecoveryRun {
  rr_Repetition : Z; rr_Correct : bool; rr_Faults : list FaultEvent; rr_Pipeline : option PipelineRun
}.

(** The dynamic types a report can have. *)
Inductive report :=
  | RDatabase (r : DatabaseReport)
  | RPipeline (runs : list PipelineRun)
  | RRecovery (runs : list RecoveryRun)
  | ROther.

Definition doneCase (status : string) : bool :=
  bool_decide (status = "complete"%string) || bool_decide (status = "limited"%string).

(** One loop over the (correct, repetition) pairs of either kind of run: the
    repetitions seen, or a failure. *)
Fixpoint check_repetitions (n : Z) (runs : list (bool * Z)) (seen : list Z) : option (list Z) :=
  match runs with
  | [] => Some seen
  | (correct, rep) :: rest =>
      if negb correct || (rep <? 1) || (n <? rep) || bool_decide (rep ∈ seen) then None
      else check_repetitions n rest (rep :: seen)
  end.

Definition pipeline_pairs (runs : list PipelineRun) : list (bool * Z) := map (fun r => (Correct r, Repetition (facts r))) runs.
Definition recovery_pairs (runs : list RecoveryRun) : list (bool * Z) := map (fun r => (rr_Correct r, rr_Repetition r)) runs.

Definition retained (c : Case) (pairs : list (bool * Z)) (message : string) : goerr :=
  match check_repetitions (Repetitions c) pairs [] with
  | None => Some (ENew message)
  | Some seen => if negb (Z.of_nat (length seen) =? Repetitions c)
                 then Some (ENew "not every measured repetition was retained") else None
  end.

Definition validateStudyRepetitions (c : Case) (value : report) : goerr :=
  match value with
  | RDatabase r =>
      match DatabaseReport_Validate r with
      | Some err => Some err
      | None => if negb (db_Repetitions r =? Repetitions c) then Some (ENew "database repetition controls differ") else None
      end
  | RPipeline runs => retained c (pipeline_pairs runs) "missing, duplicate or incorrect pipeline repetition"
  | RRecovery runs => retained c (recovery_pairs runs) "missing, duplicate or incorrect recovery repetition"
  | ROther => Some (ENew "unknown study report type")
  end.

Definition has_suffix (s suffix : string) : bool :=
  HasPrefix (reverse (lit s)) (reverse (lit suffix)).

Definition studyOutcome (value : report) : string :=
  match value with
  | RPipeline runs =>
      if existsb (fun run => bool_decide (Outcome run = "limited"%string)) runs then "limited" else "complete"
  | RRecovery runs =>
      if existsb (fun run =>
           match rr_Pipeline run with Some p => bool_decide (Outcome p = "limited"%string) | None => false end ||
           existsb (fun fault => has_suffix (fe_Action fault) "_requested" &&
                                 (250 * Millisecond <? fe_ElapsedNS fault - fe_PlannedNS fault)) (rr_Faults run)) runs
      then "limited" else "complete"
  | _ => "complete"
  end.

Definition verifiedObservationOnly (c : Case) (value : report) (err : goerr) : bool :=
  match value with
  | RPipeline runs =>
      observationOnly err && (Z.of_nat (length runs) =? Repetitions c) &&
      forallb (fun run => Correct run && bool_decide (DeliveryStatus run = "passed"%string)) runs
  | _ => false
  end.

(** [completedRepetitions]; the counts of the code are the numbers of
    occurrences. *)
Definition completedRepetitions (value : report) : list Z :=
  match value with
  | RDatabase r =>
      let reps := map dr_Repetition (filter (fun v => dr_Correct v = true) (db_Runs r)) in
      ZSort.sort (filter (fun rep => Z.of_nat (length (filter (fun x => x = rep) reps)) = 3) (remove_dups reps))
  | RPipeline runs => ZSort.sort (map snd (filter (fun p => fst p = true) (pipeline_pairs runs)))
  | RRecovery runs => ZSort.sort (map snd (filter (fun p => fst p = true) (recovery_pairs runs)))
  | ROther => []
  end.

(** ** journal.go *)

Record ArtifactRef := mkArtifactRef { ar_Codec : bytes; ar_Path : bytes; ar_SHA256 : bytes; ar_Size : Z; ar_RawBytes : Z }.

Record CaseAttempt := mkCaseAttempt { ca_Attempt : Z; ca_Status : string; ca_ErrorClass : string; ca_Artifact : ArtifactRef }.

(** The summary of the report is written with the capture and not read. *)
Record CaseProgress := mkProgress {
  cp_Status : string; cp_Attempt : Z; cp_CompletedRepetitions : list Z; cp_Artifact : ArtifactRef;
  cp_History : list CaseAttempt; cp_ErrorClass : string
}.

Definition no_artifact : ArtifactRef := mkArtifactRef [] [] [] 0 0.
Definition zero_progress : CaseProgress := mkProgress "" 0 [] no_artifact [] "".

Record StudyIdentity := mkIdentity {
  SourceSHA : bytes; SourceFingerprint : bytes; ControlsFingerprint : bytes; ImagesFingerprint : bytes;
  ConfigFingerprint : bytes; Mode : bytes; Seed : Z; SourceDirty : bool
}.

(** The fields of the journal that resuming and the loop over the cases use. *)
Record StudyJournal := mkJournal {
  j_Status : string; j_Schema : Z; j_Identity : StudyIdentity; j_Cases : gmap bytes CaseProgress;
  j_Resources : list ArtifactRef; j_MetadataArtifacts : list ArtifactRef
}.

(** The names of the fields in which two identities differ. *)
Definition identity_differences (a b : StudyIdentity) : list string :=
  omap (fun '(name, same) => if (same : bool) then None else Some name)
    [("revision", bool_decide (SourceSHA a = SourceSHA b)); ("source", bool_decide (SourceFingerprint a = SourceFingerprint b));
     ("controls", bool_decide (ControlsFingerprint a = ControlsFingerprint b)); ("images", bool_decide (ImagesFingerprint a = ImagesFingerprint b));
     ("runtime", bool_decide (ConfigFingerprint a = ConfigFingerprint b)); ("seed", bool_decide (Seed a = Seed b));
     ("mode", bool_decide (Mode a = Mode b)); ("dirty status", bool_decide (SourceDirty a = SourceDirty b))]%string.

Definition Compatible (j : StudyJournal) (identity : StudyIdentity) : goerr :=
  if negb (j_Schema j =? 2) then Some (ENew "unsupported study journal schema")
  else match identity_differences (j_Identity j) identity with
       | [] => None
       | _ => Some (ENew "study identity differs")
       end.

(** ** RunStudy: resuming *)

Variable VerifyArtifact : ArtifactRef -> goerr.

Fixpoint resume_cases (j : StudyJournal) (cases : list Case) (allDone : bool) : res bool :=
  match cases with
  | [] => Ok allDone
  | c :: rest =>
      let p := default zero_progress (j_Cases j !! ID c) in
      if negb (doneCase (cp_Status p)) then resume_cases j rest false
      else match VerifyArtifact (cp_Artifact p) with
           | Some err => Err err
           | None => resume_cases j rest allDone
           end
  end.

Fixpoint verify_all (refs : list ArtifactRef) : goerr :=
  match refs with
  | [] => None
  | r :: rest => match VerifyArtifact r with Some err => Some err | None => verify_all rest end
  end.

(** The checks of a resumed study: [Ok true] when there is nothing to do. *)
Definition resume_check (j : StudyJournal) (identity : StudyIdentity) (cases : list Case) : res bool :=
  let preflight := mkIdentity (SourceSHA identity) (SourceFingerprint identity) (ControlsFingerprint identity)
                     (ImagesFingerprint (j_Identity j)) (ConfigFingerprint (j_Identity j)) (Mode identity)
                     (Seed identity) (SourceDirty identity) in
  match Compatible j preflight with
  | Some err => Err err
  | None =>
      let? allDone := resume_cases j cases true in
      if negb (bool_decide (map_Forall (fun id _ => id ∈ map ID cases) (j_Cases j)))
      then Err (ENew "journal contains an unknown case")
      else match verify_all (j_Resources j ++ j_MetadataArtifacts j) with
           | Some err => Err err
           | None =>
               if allDone then
                 if negb (bool_decide (j_Status j = "complete"%string))
                 then Err (ENew "case captures exist but prior finalization was not verified; inspect private evidence")
                 else Ok true
               else Ok false
           end
  end.

(** ** RunStudy: the outcome of one case

    [measurement] is what the case's runner returned, [interrupted] whether
    the study's context is done.  The result is the final error, the status
    and the error class, and whether only observation failed. *)
Definition case_outcome (c : Case) (value : report) (measurement : goerr) (interrupted : bool)
    : goerr * string * string * bool :=
  let err :=
    match measurement with
    | None => errors_Join [None; validateStudyRepetitions c value]
    | Some _ => if verifiedObservationOnly c value measurement
                then errors_Join [measurement; validateStudyRepetitions c value] else measurement
    end in
  let observationLimited := verifiedObservationOnly c value err in
  match err with
  | None => (err, studyOutcome value, ""%string, observationLimited)
  | Some _ =>
      let '(status, class) :=
        if observationLimited then ("limited", "observation_failed")%string else ("failed", "measurement_failed")%string in
      let '(status, class) :=
        if interrupted then ("incomplete", "interrupted")%string else (status, class) in
      (err, status, class, observationLimited)
  end.

(** ** RunStudy: the loop over the cases

    The effects of the loop on the world: whether the study's context is
    done, the atomic write of the journal, the measurement of a case, the
    capture file (with the summary before it), and the index. *)
Record StudyOps (W : Type) := mkStudyOps {
  so_interrupted : W -> bool;
  so_save : StudyJournal -> W -> goerr * W;
  so_measure : Case -> W -> report * goerr * W;
  so_capture : Case -> CaseProgress -> report -> W -> res ArtifactRef * W;
  so_index : StudyJournal -> W -> goerr * W
}.
#[global] Arguments so_interrupted {W} s w.
#[global] Arguments so_save {W} s j w.
#[global] Arguments so_measure {W} s c w.
#[global] Arguments so_capture {W} s c p r w.
#[global] Arguments so_index {W} s j w.

Definition set_case (id : bytes) (p : CaseProgress) (j : StudyJournal) : StudyJournal :=
  mkJournal (j_Status j) (j_Schema j) (j_Identity j) (<[id := p]> (j_Cases j)) (j_Resources j) (j_MetadataArtifacts j).

Fixpoint study_loop {W} (o : StudyOps W) (cases : list Case) (j : StudyJournal) (w : W) : goerr * StudyJournal * W :=
  match cases with
  | [] => (None, j, w)
  | c :: rest =>
      let progress := default zero_progress (j_Cases j !! ID c) in
      if doneCase (cp_Status progress) then study_loop o rest j w
      else if so_interrupted o w then (Some context_Canceled, j, w)
      else
        let progress := mkProgress "running" (cp_Attempt progress + 1) (cp_CompletedRepetitions progress)
                          (cp_Artifact progress) (cp_History progress) "" in
        let j := set_case (ID c) progress j in
        match so_save o j w with
        | (Some err, w) => (Some err, j, w)
        | (None, w) =>
            let '(value, measurement, w) := so_measure o c w in
            let '(err, status, class, observationLimited) := case_outcome c value measurement (so_interrupted o w) in
            let progress := mkProgress status (cp_Attempt progress) (completedRepetitions value) (cp_Artifact progress)
                              (cp_History progress) class in
            match so_capture o c progress value w with
            | (Err e, w) => (Some e, j, w)
            | (Ok ref, w) =>
                let progress := mkProgress status (cp_Attempt progress) (cp_CompletedRepetitions progress) ref
                                  (cp_History progress ++ [mkCaseAttempt (cp_Attempt progress) status class ref]) class in
                let j := set_case (ID c) progress j in
                match so_save o j w with
                | (Some e, w) => (Some e, j, w)
                | (None, w) =>
                    match so_index o j w with
                    | (Some e, w) => (Some e, j, w)
                    | (None, w) =>
                        match err with
                        | Some _ => if negb observationLimited then (Some (ENew "case failed; retained capture and private evidence"), j, w)
                                    else study_loop o rest j w
                        | None => study_loop o rest j w
                        end
                    end
                end
            end
        end
  end.

(** ** Validated reports are complete *)

Definition all_keys (n : Z) : list (string * Z) := m ← methods; rep ← seqZ 1 n; [(m, rep)].

Lemma all_keys_in n m rep : (m, rep) ∈ all_keys n <-> m ∈ methods /\ 1 <= rep <= n.
Proof.
  unfold all_keys. rewrite list_elem_of_bind. split.
  - intros (m' & (rep' & Hin & Hr)%list_elem_of_bind & Hm). apply list_elem_of_singleton in Hin as [= -> ->].
    apply elem_of_seqZ in Hr. split; [done|lia].
  - intros [Hm Hr]. exists m. split; [|done]. apply list_elem_of_bind. exists rep. split; [set_solver|].
    apply elem_of_seqZ. lia.
Qed.

Lemma all_keys_length n : 0 <= n -> Z.of_nat (length (all_keys n)) = 3 * n.
Proof.
  intros Hn. unfold all_keys, methods. cbn [mbind list_bind]. rewrite !length_app. cbn [length].
  assert (H : forall m : string, length (seqZ 1 n ≫= fun rep => [(m, rep)]) = Z.to_nat n).
  { intros m. rewrite <- (length_seqZ 1 n). induction (seqZ 1 n) as [|x l IH]; [done|]. cbn. by rewrite IH. }
  rewrite !H. lia.
Qed.

(** What [Validate] asks of one run. *)
Definition good_run (repetitions : Z) (v : DatabaseRun) : Prop :=
  dr_Method v ∈ methods /\ 1 <= dr_Repetition v <= repetitions /\ dr_Correct v = true /\ 0 < dr_ElapsedNS v /\
  0 < dr_Submitted v /\ 0 <= dr_Inserted v /\ 0 <= dr_Duplicates v /\ dr_Inserted v + dr_Duplicates v = dr_Submitted v.

Definition run_key (v : DatabaseRun) : string * Z := (dr_Method v, dr_Repetition v).

Lemma validate_runs_spec n runs seen :
  validate_runs n runs seen = true <->
  Forall (good_run n) runs /\ NoDup (map run_key runs) /\ forall k, k ∈ map run_key runs -> k ∉ seen.
Proof.
  revert seen. induction runs as [|v runs IH]; intros seen; cbn [validate_runs map].
  { split; [|done]. intros _. split; [constructor|]. split; [constructor|]. set_solver. }
  cbv zeta. fold (run_key v). destruct (_ || _) eqn:E.
  - split; [done|]. intros (Hg & _ & Hs). exfalso. apply Forall_cons in Hg as [(H1 & H2 & H3 & H4 & H5 & H6 & H7 & H8) _].
    rewrite bool_decide_true in E by done. rewrite H3 in E. rewrite (bool_decide_false (run_key v ∈ seen)) in E by (apply Hs; by left).
    cbn in E. lia.
  - bool_to_prop. rewrite IH, Forall_cons, NoDup_cons. unfold good_run at 2. split.
    + intros (Hg & Hn & Hs). split; [split; [|done]|]; [split_and!; lia || done|]. split; [split; [|done]|].
      * intros Hin. apply (Hs _ Hin). by left.
      * intros k [->|Hk]%elem_of_cons; [done|]. intros Hk'. apply (Hs k Hk). by right.
    + intros ((_ & Hg) & (Hk & Hn) & Hs). split; [done|]. split; [done|]. intros k Hin [->|Hk']%elem_of_cons; [done|].
      apply (Hs k); [by right | done].
Qed.

(** A database report is valid exactly when it is complete: at least
    three repetitions, and each method measured in each repetition exactly
    once, correctly, with every submitted event counted as inserted or
    duplicate. *)
Theorem Validate_exact r :
  DatabaseReport_Validate r = None <->
  3 <= db_Repetitions r /\ Forall (good_run (db_Repetitions r)) (db_Runs r) /\
  Permutation (map run_key (db_Runs r)) (all_keys (db_Repetitions r)).
Proof.
  unfold DatabaseReport_Validate. destruct (_ || _) eqn:E.
  - split; [done|]. intros (H3 & _ & Hp). exfalso. apply Permutation_length in Hp. rewrite length_map in Hp.
    pose proof (all_keys_length (db_Repetitions r)). lia.
  - bool_to_prop. destruct (validate_runs _ _ _) eqn:Ev.
    + split; [|done]. intros _. apply validate_runs_spec in Ev as (Hg & Hn & _). split; [lia|]. split; [done|].
      pose proof (all_keys_length (db_Repetitions r)) as Hl.
      apply submseteq_length_Permutation; [|rewrite length_map; lia]. apply NoDup_submseteq; [done|].
      intros k [v [-> Hv]]%list_elem_of_fmap. eapply Forall_forall in Hg; [|exact Hv]. destruct Hg as (Hm & Hr & _).
      unfold run_key. by apply all_keys_in.
    + split; [done|]. intros (_ & Hg & Hp). exfalso. assert (Ht : validate_runs (db_Repetitions r) (db_Runs r) [] = true).
      { apply validate_runs_spec. split; [done|]. split; [|set_solver]. rewrite Hp. clear.
        unfold all_keys. apply NoDup_bind.
        - intros m1 m2 k _ _ (x & Hx & _)%list_elem_of_bind (y & Hy & _)%list_elem_of_bind. set_solver.
        - intros m _. apply NoDup_bind; [|intros; apply NoDup_singleton|apply NoDup_seqZ].
          intros x y k _ _ Hx Hy. set_solver.
        - unfold methods. repeat constructor; set_solver. }
      congruence.
Qed.
End Study.
