(* ===== verification/BenchStudyProps.v ===== *)
(** * Properties of studies *)
From S2P Require Import Prelude GoBytes GoTime GoJson GoEncode Event Runtime GoFloat BenchAccounting BenchProps BenchStudy.

Section Study.
Context {U : UUIDLib}.

(** ** Repetitions *)

Lemma check_repetitions_spec n runs : forall seen out,
  check_repetitions n runs seen = Some out ->
  Forall (fun p => fst p = true /\ 1 <= snd p <= n) runs /\ out = reverse (map snd runs) ++ seen /\
  (NoDup seen -> NoDup out).
Proof.
  induction runs as [|[correct rep] runs IH]; intros seen out; cbn [check_repetitions].
  { intros [= <-]. split; [constructor|]. done. }
  destruct (negb correct || (rep <? 1) || (n <? rep) || bool_decide (rep ∈ seen)) eqn:E; [done|]. bool_to_prop.
  intros (Hf & -> & Hn)%IH. split; [constructor; [cbn; split; [by destruct correct|lia]|done]|].
  split.
  - cbn [map snd]. rewrite reverse_cons, <- app_assoc. done.
  - intros Hs. apply Hn. constructor; [done|done].
Qed.

(** Every repetition from 1 to [n], once, correctly. *)
Definition every_repetition (n : Z) (pairs : list (bool * Z)) : Prop :=
  Forall (fun p => fst p = true) pairs /\ Permutation (map snd pairs) (seqZ 1 n).

Lemma retained_spec c pairs message :
  0 <= Repetitions c -> retained c pairs message = None -> every_repetition (Repetitions c) pairs.
Proof.
  intros H0. unfold retained. destruct (check_repetitions _ _ _) as [seen|] eqn:E; [|done].
  destruct (negb _) eqn:El; [done|]. intros _. bool_to_prop. apply check_repetitions_spec in E as (Hf & -> & Hn).
  rewrite app_nil_r in *. split.
  - eapply Forall_impl; [exact Hf|]. by intros p [? _].
  - rewrite <- reverse_Permutation. apply submseteq_length_Permutation; [|rewrite length_seqZ; lia].
    apply NoDup_submseteq; [apply Hn; constructor|]. intros x Hx. rewrite elem_of_reverse in Hx.
    apply list_elem_of_fmap in Hx as (p & -> & Hp). eapply Forall_forall in Hf; [|exact Hp]. apply elem_of_seqZ. lia.
Qed.

(** What the report of a finished case holds. *)
Definition verified_report (c : Case) (value : report) : Prop :=
  match value with
  | RDatabase r =>
      db_Repetitions r = Repetitions c /\ Forall (good_run (Repetitions c)) (db_Runs r) /\
      Permutation (map run_key (db_Runs r)) (all_keys (Repetitions c))
  | RPipeline runs => every_repetition (Repetitions c) (pipeline_pairs runs)
  | RRecovery runs => every_repetition (Repetitions c) (recovery_pairs runs)
  | ROther => False
  end.

Lemma database_valid r :
  DatabaseReport_Validate r = None ->
  Forall (good_run (db_Repetitions r)) (db_Runs r) /\ Permutation (map run_key (db_Runs r)) (all_keys (db_Repetitions r)).
Proof.
  unfold DatabaseReport_Validate. destruct (_ || _) eqn:E; [done|]. bool_to_prop.
  destruct (validate_runs _ _ _) eqn:Ev; [|done]. intros _. apply validate_runs_spec in Ev as (Hg & Hn & _).
  split; [done|]. pose proof (all_keys_length (db_Repetitions r)) as Hl.
  apply submseteq_length_Permutation; [|rewrite length_map; lia]. apply NoDup_submseteq; [done|].
  intros k [v [-> Hv]]%list_elem_of_fmap. eapply Forall_forall in Hg; [|exact Hv]. destruct Hg as (Hm & Hr & _).
  unfold run_key. by apply all_keys_in.
Qed.

Lemma validateStudyRepetitions_spec c value :
  0 <= Repetitions c -> validateStudyRepetitions c value = None -> verified_report c value.
Proof.
  intros H0. destruct value as [r|runs|runs|]; cbn [validateStudyRepetitions verified_report].
  - destruct (DatabaseReport_Validate r) eqn:E; [done|]. destruct (negb _) eqn:En; [done|]. bool_to_prop. intros _.
    apply database_valid in E. rewrite <- En. split; [lia|done].
  - by apply retained_spec.
  - by apply retained_spec.
  - done.
Qed.

(** Validation never fails with an observation error. *)
Lemma validate_not_observation c value e : validateStudyRepetitions c value = Some e -> exists m, e = ENew m.
Proof.
  destruct value; cbn [validateStudyRepetitions]; unfold retained, DatabaseReport_Validate; intros H;
    repeat case_match; simplify_eq; eauto.
Qed.

Lemma observation_join a b :
  observationOnly (errors_Join [Some a; b]) = true -> forall e, b = Some e -> observationOnly_err e = true.
Proof.
  intros H e ->. unfold observationOnly, errors_Join in H. cbn in H. apply andb_true_iff in H as [_ H].
  by apply andb_true_iff in H as [H _].
Qed.

(** C40: a case counts as done only on a verified report.  Whatever the
    measurement returned, when the status is one a resumed study skips, the
    report has every repetition of the case exactly once and correct; and
    when an error was set aside, it was an observation error and the
    delivery of every run had been independently passed. *)
Theorem done_case_is_verified c value measurement interrupted :
  0 <= Repetitions c ->
  let '(err, status, class, observationLimited) := case_outcome c value measurement interrupted in
  doneCase status = true ->
  verified_report c value /\
  (err <> None -> observationLimited = true /\ interrupted = false /\
     exists runs, value = RPipeline runs /\ Forall (fun r => Correct r = true /\ DeliveryStatus r = "passed"%string) runs).
Proof.
  intros H0. unfold case_outcome. set (err := match measurement with None => _ | Some _ => _ end). cbv zeta.
  assert (Hver : err = None \/ verifiedObservationOnly c value err = true -> verified_report c value).
  { intros H. apply validateStudyRepetitions_spec; [done|]. destruct (validateStudyRepetitions c value) as [e|] eqn:Ev; [|done].
    exfalso. pose proof Ev as [m ->]%validate_not_observation. unfold err in H. destruct measurement as [me|].
    - destruct (verifiedObservationOnly c value (Some me)) eqn:Eo; [|destruct H; congruence].
      destruct H as [H|H]; [done|]. destruct value as [r|runs|runs|]; try done. cbn [verifiedObservationOnly] in H.
      apply andb_true_iff in H as [H _]. apply andb_true_iff in H as [H _].
      by pose proof (observation_join _ _ H _ eq_refl).
    - destruct H as [H|H]; [done|]. by destruct value. }
  destruct err as [e|] eqn:Ee.
  - destruct (verifiedObservationOnly c value (Some e)) eqn:Eo, interrupted; cbn; try done.
    intros _. split; [by apply Hver; right|]. intros _. split; [done|]. split; [done|].
    destruct value as [r|runs|runs|]; try done. exists runs. split; [done|]. cbn [verifiedObservationOnly] in Eo.
    apply andb_true_iff in Eo as [_ Eo]. apply Forall_forall. intros r Hr%list_elem_of_In.
    eapply forallb_forall in Eo; [|exact Hr]. apply andb_true_iff in Eo as [? ?]. bool_to_prop. done.
  - intros _. split; [by apply Hver; left|done].
Qed.

(** ** The journal *)

(** A done case stays as it is; otherwise attempts and history only grow. *)
Definition progressed (p p' : CaseProgress) : Prop :=
  cp_Attempt p <= cp_Attempt p' /\ (exists new, cp_History p' = cp_History p ++ new) /\
  (doneCase (cp_Status p) = true -> p' = p).

Definition progress_of (j : StudyJournal) (id : bytes) : CaseProgress := default zero_progress (j_Cases j !! id).

Lemma progressed_refl p : progressed p p.
Proof. split; [lia|]. split; [exists []; by rewrite app_nil_r|done]. Qed.

Lemma progressed_trans p q r : progressed p q -> progressed q r -> progressed p r.
Proof.
  intros (H1 & [n1 E1] & D1) (H2 & [n2 E2] & D2). split; [lia|]. split.
  - exists (n1 ++ n2). by rewrite E2, E1, app_assoc.
  - intros H. specialize (D1 H). subst q. by apply D2.
Qed.

Lemma progress_of_set id p j k : progress_of (set_case id p j) k = if bool_decide (id = k) then p else progress_of j k.
Proof.
  unfold progress_of, set_case. cbn [j_Cases]. case_bool_decide as E; [subst; by rewrite lookup_insert_eq|].
  by rewrite lookup_insert_ne.
Qed.

(** Two updates of one unfinished case. *)
Lemma progressed_set j id p id' :
  doneCase (cp_Status (progress_of j id)) = false -> cp_Attempt (progress_of j id) <= cp_Attempt p ->
  (exists new, cp_History p = cp_History (progress_of j id) ++ new) ->
  progressed (progress_of j id') (progress_of (set_case id p j) id').
Proof.
  intros Hd Ha Hh. rewrite progress_of_set. case_bool_decide; [subst|apply progressed_refl].
  split; [done|]. split; [done|]. by rewrite Hd.
Qed.

(** A study never touches finished work.  Through the loop over the
    cases, on every way out of it, a case that was done keeps its record and
    capture, and the attempts and the history of every case only grow. *)
Theorem study_keeps_finished_work {W} (o : StudyOps W) cases j w :
  let '(_, j', _) := study_loop o cases j w in forall id, progressed (progress_of j id) (progress_of j' id).
Proof.
  revert j w. induction cases as [|c cases IH]; intros j w; cbn [study_loop]; [intros; apply progressed_refl|].
  fold (progress_of j (ID c)). destruct (doneCase (cp_Status (progress_of j (ID c)))) eqn:Ed; [apply IH|].
  destruct (so_interrupted o w); [intros; apply progressed_refl|]. cbv zeta.
  set (p1 := mkProgress "running" _ _ _ _ _). set (j1 := set_case (ID c) p1 j).
  assert (Hp1 : forall id, progressed (progress_of j id) (progress_of j1 id)).
  { intros id. apply progressed_set; [done|cbn; lia|]. exists []. by rewrite app_nil_r. }
  destruct (so_save o j1 w) as [[e|] w1]; [exact Hp1|]. destruct (so_measure o c w1) as [[value me] w2].
  destruct (case_outcome _ _ _ _) as [[[err status] class] limited].
  set (p2 := mkProgress status _ _ _ _ _). destruct (so_capture o c p2 value w2) as [[ref|e] w3]; [|exact Hp1].
  set (p3 := mkProgress status _ _ _ _ _). set (j2 := set_case (ID c) p3 j1).
  assert (Hp2 : forall id, progressed (progress_of j1 id) (progress_of j2 id)).
  { intros id. apply progressed_set.
    - unfold j1. rewrite progress_of_set, bool_decide_true by done. reflexivity.
    - unfold j1. rewrite progress_of_set, bool_decide_true by done. cbn. lia.
    - unfold j1. rewrite progress_of_set, bool_decide_true by done. by eexists. }
  assert (Hp : forall id, progressed (progress_of j id) (progress_of j2 id)) by (intros id; exact (progressed_trans _ _ _ (Hp1 id) (Hp2 id))).
  destruct (so_save o j2 w3) as [[e|] w4]; [exact Hp|]. destruct (so_index o j2 w4) as [[e|] w5]; [exact Hp|].
  assert (Hr : let '(_, j', _) := study_loop o cases j2 w5 in forall id, progressed (progress_of j id) (progress_of j' id)).
  { specialize (IH j2 w5). destruct (study_loop o cases j2 w5) as [[e j'] w']. intros id. exact (progressed_trans _ _ _ (Hp id) (IH id)). }
  destruct err; [destruct limited; cbn [negb]; [exact Hr|exact Hp] | exact Hr].
Qed.

(** ** Resuming *)

Variable VerifyArtifact : ArtifactRef -> goerr.

Lemma resume_cases_spec j cases b allDone :
  resume_cases VerifyArtifact j cases b = Ok allDone ->
  Forall (fun c => doneCase (cp_Status (progress_of j (ID c))) = true ->
                   VerifyArtifact (cp_Artifact (progress_of j (ID c))) = None) cases /\
  (allDone = true -> b = true /\ Forall (fun c => doneCase (cp_Status (progress_of j (ID c))) = true) cases).
Proof.
  revert b. induction cases as [|c cases IH]; intros b; cbn [resume_cases].
  { intros [= <-]. split; [constructor|]. intros ->. split; [done|constructor]. }
  fold (progress_of j (ID c)). destruct (doneCase (cp_Status (progress_of j (ID c)))) eqn:Ed; cbn [negb].
  - destruct (VerifyArtifact _) eqn:Ev; [done|]. intros (H1 & H2)%IH. split; [by constructor|].
    intros H. apply H2 in H as [-> H]. split; [done|]. by constructor.
  - intros (H1 & H2)%IH. split; [constructor; [congruence|done]|]. intros H. by apply H2 in H as [? _].
Qed.

Lemma verify_all_spec refs : verify_all VerifyArtifact refs = None -> Forall (fun r => VerifyArtifact r = None) refs.
Proof.
  induction refs as [|r refs IH]; cbn [verify_all]; [by constructor|].
  destruct (VerifyArtifact r) eqn:E; [done|]. intros H. constructor; [done|by apply IH].
Qed.

(** A study is resumed only on its own evidence: the journal has the
    schema and the identity of the inputs (revision, sources, controls,
    seed, mode, cleanliness), every finished case's capture and every other
    artifact verifies, there are no unknown cases; and it is reported as
    already complete only when every case is done and the previous session
    had finished. *)
Theorem resume_on_evidence j identity cases done_ :
  resume_check VerifyArtifact j identity cases = Ok done_ ->
  j_Schema j = 2 /\
  (SourceSHA identity = SourceSHA (j_Identity j) /\ SourceFingerprint identity = SourceFingerprint (j_Identity j) /\
   ControlsFingerprint identity = ControlsFingerprint (j_Identity j) /\ Seed identity = Seed (j_Identity j) /\
   Mode identity = Mode (j_Identity j) /\ SourceDirty identity = SourceDirty (j_Identity j)) /\
  map_Forall (fun id _ => id ∈ map ID cases) (j_Cases j) /\
  Forall (fun c => doneCase (cp_Status (progress_of j (ID c))) = true ->
                   VerifyArtifact (cp_Artifact (progress_of j (ID c))) = None) cases /\
  Forall (fun r => VerifyArtifact r = None) (j_Resources j ++ j_MetadataArtifacts j) /\
  (done_ = true -> j_Status j = "complete"%string /\ Forall (fun c => doneCase (cp_Status (progress_of j (ID c))) = true) cases).
Proof.
  unfold resume_check. cbv zeta. set (preflight := mkIdentity _ _ _ _ _ _ _ _).
  unfold Compatible. destruct (negb (j_Schema j =? 2)) eqn:Es; [done|]. bool_to_prop.
  destruct (identity_differences (j_Identity j) preflight) eqn:Ed; [|done].
  assert (Hid : SourceSHA identity = SourceSHA (j_Identity j) /\ SourceFingerprint identity = SourceFingerprint (j_Identity j) /\
   ControlsFingerprint identity = ControlsFingerprint (j_Identity j) /\ Seed identity = Seed (j_Identity j) /\
   Mode identity = Mode (j_Identity j) /\ SourceDirty identity = SourceDirty (j_Identity j)).
  { unfold identity_differences, preflight in Ed. cbn in Ed. repeat case_bool_decide; try done. }
  clear Ed. destruct (resume_cases _ _ _ _) as [allDone|] eqn:Er; [|done]. cbn [res_bind].
  apply resume_cases_spec in Er as [Hart Hall].
  destruct (negb (bool_decide _)) eqn:Eu; [done|]. bool_to_prop.
  destruct (verify_all _ _) eqn:Ev; [done|]. apply verify_all_spec in Ev. intros H.
  split; [lia|]. split; [done|]. split; [done|]. split; [done|]. split; [done|].
  destruct allDone; [|injection H as <-; done]. destruct (negb (bool_decide (j_Status j = _))) eqn:Ec; [done|].
  bool_to_prop. intros _. split; [done|]. by apply Hall.
Qed.
End Study.

(** The suites can be run and resumed: within a suite case identifiers
    are distinct, every case has three repetitions, and every pipeline case
    passes the workload bounds and offers exactly its rate over its
    window. *)
Theorem suites_well_formed suite :
  suite ∈ [StudyCases; ConnectionCases; smokeCases] ->
  NoDup (map ID suite) /\
  Forall (fun c => Repetitions c = 3 /\
            (Kind c = "pipeline"%string -> workload_bounds c = true /\ Count c * Second = Rate c * Window c)) suite.
Proof.
  set (ok := fun s => bool_decide (NoDup (map ID s)) && forallb (fun c => (Repetitions c =? 3) &&
    (negb (bool_decide (Kind c = "pipeline"%string)) || (workload_bounds c && (Count c * Second =? Rate c * Window c)))) s).
  intros Hin. assert (H : ok suite = true).
  { repeat (apply elem_of_cons in Hin as [->|Hin]; [vm_compute; reflexivity|]). by apply not_elem_of_nil in Hin. }
  unfold ok in H. apply andb_true_iff in H as [H1 H2]. split; [by bool_to_prop|].
  apply Forall_forall. intros c Hc%list_elem_of_In. eapply forallb_forall in H2; [|exact Hc].
  apply andb_true_iff in H2 as [H2 H3]. split; [lia|]. intros Hk. rewrite bool_decide_true in H3 by done. cbn [negb orb] in H3.
  apply andb_true_iff in H3 as [? ?]. split; [done|lia].
Qed.

Lemma suites_well_formed_witness : NoDup (map ID StudyCases).
Proof. apply (suites_well_formed StudyCases). set_solver. Defined.
