(* ===== verification/BenchDatabase.v ===== *)
(** * The database benchmark: [internal/benchmark/database.go] and
    [copy_reference.go]

    Three ways of writing the same events: single inserts, multi-row inserts
    and a COPY into a temporary table that is merged.  PostgreSQL's
    transactions and the two other statements are a parameter ([BenchPool])
    beside the [Database] of the deployed writer. *)
From S2P Require Import Prelude GoBytes GoTime GoJson Event EventFacts Runtime Persistence PersistenceProps GoFloat BenchAccounting BenchStudy Workload.

(** A row of the SELECT of [verifyDatabase]. *)
Record SelectedRow {U : UUIDLib} := mkSelectedRow {
  sel_id : uuid; sel_type : bytes; sel_occurred : Time; sel_received : Time; sel_payload : bytes
}.

(** pgx: a transaction with the temporary table, the DELETE and the SELECT of
    one tenant.  A SELECT yields what [Scan] makes of each row and the error
    that ended the rows.  [staged] and [view] are what the transaction sees
    of the temporary table and of the events. *)
Class BenchPool {U : UUIDLib} {Wd : World} := {
  Tx : Type;
  Begin : Context -> W -> res Tx * W;
  CreateStage : Context -> Tx -> W -> goerr * W;
  CopyFrom : Context -> Tx -> list Row -> W -> goerr * W;
  MergeStage : Context -> Tx -> W -> res Z * W;
  Commit : Context -> Tx -> W -> goerr * W;
  Rollback : Tx -> W -> W;
  DeleteTenant : Context -> bytes -> W -> goerr * W;
  SelectTenant : Context -> bytes -> W -> res (list (res SelectedRow) * goerr) * W;
  staged : W -> Tx -> list Row;
  view : W -> Tx -> Table
}.

Definition without (tenant : bytes) (db : Table) : Table := filter (fun kv => fst (fst kv) <> tenant) db.

(** Nobody else writes to the events.  Until it commits a transaction changes
    only what it sees; the merge inserts the rows of the temporary table, in
    the order the server chooses; a failed commit may have been applied. *)
Class BenchPoolLaws {U : UUIDLib} {Wd : World} {D : Database} (B : BenchPool) := {
  Begin_ok ctx w tx w' : Begin ctx w = (Ok tx, w') -> table w' = table w /\ view w' tx = table w /\ staged w' tx = [];
  Begin_err ctx w e w' : Begin ctx w = (Err e, w') -> table w' = table w;
  CreateStage_frame ctx tx w e w' : CreateStage ctx tx w = (e, w') ->
    table w' = table w /\ view w' tx = view w tx /\ staged w' tx = staged w tx;
  CopyFrom_frame ctx tx rows w e w' : CopyFrom ctx tx rows w = (e, w') -> table w' = table w /\ view w' tx = view w tx;
  CopyFrom_ok ctx tx rows w w' : CopyFrom ctx tx rows w = (None, w') -> staged w' tx = staged w tx ++ rows;
  MergeStage_frame ctx tx w r w' : MergeStage ctx tx w = (r, w') -> table w' = table w;
  MergeStage_ok ctx tx w n w' : MergeStage ctx tx w = (Ok n, w') ->
    exists rows, rows ≡ₚ staged w tx /\ insert_rows (view w tx) rows = (view w' tx, n);
  Commit_ok ctx tx w w' : Commit ctx tx w = (None, w') -> table w' = view w tx;
  Commit_err ctx tx w e w' : Commit ctx tx w = (Some e, w') -> table w' = table w \/ table w' = view w tx;
  Rollback_frame tx w : table (Rollback tx w) = table w;
  DeleteTenant_ok ctx tenant w w' : DeleteTenant ctx tenant w = (None, w') -> table w' = without tenant (table w);
  DeleteTenant_err ctx tenant w e w' :
    DeleteTenant ctx tenant w = (Some e, w') -> table w' = table w \/ table w' = without tenant (table w);
  SelectTenant_frame ctx tenant w : table (snd (SelectTenant ctx tenant w)) = table w
}.

Section Database.
Context {U : UUIDLib} {Wd : World} {D : Database} {B : BenchPool}.

(** ** copy_reference.go *)

Definition writeCopyMerge (ctx : Context) (events : list Envelope) (w : W) : res WriteResult * W :=
  match events with
  | [] => (Ok (mkWriteResult 0 0), w)
  | _ =>
      match Begin ctx w with
      | (Err err, w) => (Err err, w)
      | (Ok tx, w) =>
          let '(r, w) :=
            match CreateStage ctx tx w with
            | (Some err, w) => (Err err, w)
            | (None, w) =>
                match CopyFrom ctx tx (map event_args events) w with
                | (Some err, w) => (Err (EWrap "stage events" err), w)
                | (None, w) =>
                    match MergeStage ctx tx w with
                    | (Err err, w) => (Err err, w)
                    | (Ok affected, w) =>
                        match Commit ctx tx w with
                        | (Some err, w) => (Err err, w)
                        | (None, w) => (Ok (mkWriteResult affected (Z.of_nat (length events) - affected)), w)
                        end
                    end
                end
            end in
          (r, Rollback tx w)
      end
  end.

(** ** [writeMethod]

    The count and the error it returns. *)
Definition batch_insert (ctx : Context) (es : list Envelope) (w : W) : Z * goerr * W :=
  let '(values, args) := build 0 es in
  match Exec ctx values args w with
  | (Ok n, w) => (n, None, w)
  | (Err e, w) => (0, Some e, w)
  end.

Fixpoint single_inserts (ctx : Context) (es : list Envelope) (total : Z) (w : W) : Z * goerr * W :=
  match es with
  | [] => (total, None, w)
  | v :: rest =>
      match batch_insert ctx [v] w with
      | (_, Some e, w) => (total, Some e, w)
      | (n, None, w) => single_inserts ctx rest (total + n) w
      end
  end.

Definition writeMethod (ctx : Context) (method : string) (es : list Envelope) (w : W) : Z * goerr * W :=
  if bool_decide (method = "copy-merge"%string) then
    match writeCopyMerge ctx es w with
    | (Ok r, w) => (Inserted r, None, w)
    | (Err e, w) => (0, Some e, w)
    end
  else if bool_decide (method = "insert"%string) then single_inserts ctx es 0 w
  else if negb (bool_decide (method = "batch-insert"%string)) then (0, Some (ENew "unknown database method"), w)
  else batch_insert ctx es w.

(** ** [verifyDatabase]

    [json.Unmarshal] into [any] and [reflect.DeepEqual]. *)
Context {Any : Type} (Unmarshal : bytes -> res Any) (DeepEqual : Any -> Any -> bool).

Fixpoint verify_rows (want : gmap uuid Envelope) (seen : gset uuid) (rows : list (res SelectedRow)) : res (gset uuid) :=
  match rows with
  | [] => Ok seen
  | Err e :: _ => Err e
  | Ok row :: rest =>
      match want !! sel_id row with
      | None => Err (ENew "unexpected or repeated stored ID")
      | Some e =>
          if bool_decide (sel_id row ∈ seen) then Err (ENew "unexpected or repeated stored ID")
          else
            let? a := Unmarshal (Payload (env_Input e)) in
            let? b := Unmarshal (sel_payload row) in
            if negb (bool_decide (sel_type row = EventType (env_Input e))) || negb (Equal (sel_occurred row) (OccurredAt (env_Input e))) ||
               negb (Equal (sel_received row) (ReceivedAt e)) || negb (DeepEqual a b)
            then Err (ENew "stored event differs from generated event")
            else verify_rows want ({[sel_id row]} ∪ seen) rest
      end
  end.

Definition verifyDatabase (ctx : Context) (tenant : bytes) (es : list Envelope) (w : W) : goerr * W :=
  let want := expectedEvents es in
  match SelectTenant ctx tenant w with
  | (Err e, w) => (Some e, w)
  | (Ok (rows, rerr), w) =>
      match verify_rows want ∅ rows with
      | Err e => (Some e, w)
      | Ok seen =>
          match rerr with
          | Some e => (Some e, w)
          | None => (if negb (size seen =? size want)%nat then Some (ENew "missing stored IDs") else None, w)
          end
      end
  end.

(** ** [measure]

    [work] also yields what it recorded on the way. *)
Definition measure {X} (x : X) (setup : W -> goerr * W) (work : W -> Z * goerr * X * W) (w : W) : Z * Z * goerr * X * W :=
  match setup w with
  | (Some e, w) => (0, 0, Some e, x, w)
  | (None, w) => let '(n, e, x, w') := work w in (now w' - now w, n, e, x, w')
  end.

(** ** [RunDatabase] *)

Record DatabaseConfig := mkDatabaseConfig { dc_Pool : bool; dc_Workload : WorkloadConfig; dc_BatchSize : Z; dc_Repetitions : Z }.

(** The loop over the batches of a run. *)
Fixpoint write_batches (fuel : nat) (ctx : Context) (m : string) (size : nat) (es : list Envelope) (n : Z) (batchNS : list Z) (w : W)
    : Z * goerr * list Z * W :=
  match fuel, es with
  | S fuel, _ :: _ =>
      match writeMethod ctx m (firstn size es) w with
      | (_, Some e, w') => (n, Some e, batchNS ++ [now w' - now w], w')
      | (k, None, w') => write_batches fuel ctx m size (skipn size es) (n + k) (batchNS ++ [now w' - now w]) w'
      end
  | _, _ => (n, None, batchNS, w)
  end.

Fixpoint warm_up (ctx : Context) (tenant : bytes) (es : list Envelope) (ms : list string) (w : W) : goerr * W :=
  match ms with
  | [] => (None, w)
  | m :: rest =>
      match DeleteTenant ctx tenant w with
      | (Some e, w) => (Some e, w)
      | (None, w) =>
          match writeMethod ctx m es w with
          | (_, Some e, w) => (Some e, w)
          | (_, None, w) => warm_up ctx tenant es rest w
          end
      end
  end.

Definition method_at (rep order : nat) : string := nth ((rep + order) mod length methods) methods ""%string.

(** One measured run. *)
Definition database_run (ctx : Context) (batchSize : nat) (tenant : bytes) (es : list Envelope) (rep order : nat) (w : W)
    : res DatabaseRun * W :=
  let m := method_at rep order in
  let size := if bool_decide (m = "insert"%string) then 1%nat else batchSize in
  match measure [] (DeleteTenant ctx tenant) (write_batches (length es) ctx m size es 0 []) w with
  | (_, _, Some e, _, w) => (Err (EWrap m e), w)
  | (elapsed, n, None, batchNS, w) =>
      match verifyDatabase ctx tenant es w with
      | (Some e, w) => (Err e, w)
      | (None, w) =>
          (Ok (mkDatabaseRun m (Z.of_nat rep + 1) (Z.of_nat (length es)) n (Z.of_nat (length es) - n) elapsed batchNS
                 (n =? Z.of_nat (stdpp.base.size (expectedEvents es)))), w)
      end
  end.

(** The two loops over repetitions and methods. *)
Fixpoint database_runs (ctx : Context) (batchSize : nat) (tenant : bytes) (es : list Envelope) (plan : list (nat * nat))
    (runs : list DatabaseRun) (w : W) : list DatabaseRun * goerr * W :=
  match plan with
  | [] => (runs, None, w)
  | (rep, order) :: rest =>
      match database_run ctx batchSize tenant es rep order w with
      | (Err e, w) => (runs, Some e, w)
      | (Ok run, w) => database_runs ctx batchSize tenant es rest (runs ++ [run]) w
      end
  end.

Definition database_plan (repetitions : nat) : list (nat * nat) :=
  rep ← seq 0 repetitions; order ← seq 0 (length methods); [(rep, order)].

Definition set_tenant (tenant : bytes) (e : Envelope) : Envelope := mkEnvelope (env_Input e) tenant (ReceivedAt e).

Definition database_body (ctx : Context) (c : DatabaseConfig) (tenant : bytes) (es : list Envelope) (w : W)
    : DatabaseReport * goerr * W :=
  let report := mkDatabaseReport (dc_Repetitions c) in
  match warm_up ctx tenant (firstn (Z.to_nat (dc_BatchSize c)) es) methods w with
  | (Some e, w) => (report [], Some e, w)
  | (None, w) =>
      match database_runs ctx (Z.to_nat (dc_BatchSize c)) tenant es (database_plan (Z.to_nat (dc_Repetitions c))) [] w with
      | (runs, Some e, w) => (report runs, Some e, w)
      | (runs, None, w) => (report runs, DatabaseReport_Validate (report runs), w)
      end
  end.

(** [id] is the identifier [uuid.NewString] returned. *)
Definition RunDatabase (NewSHA1 : bytes -> uuid) (ctx : Context) (c : DatabaseConfig) (id : bytes) (w : W) : DatabaseReport * goerr * W :=
  let report := mkDatabaseReport (dc_Repetitions c) [] in
  if negb (dc_Pool c) || (dc_BatchSize c <=? 0) || (1000 <? dc_BatchSize c) || (dc_Repetitions c <? 3) then
    (report, Some (ENew "pool, batch size 1..1000 and at least three repetitions required"), w)
  else
    match Workload NewSHA1 (dc_Workload c) with
    | Err e => (report, Some e, w)
    | Ok es =>
        let tenant := lit "bench-" ++ id in
        let '(r, e, w) := database_body ctx c tenant (map (set_tenant tenant) es) w in
        (r, e, snd (DeleteTenant (WithTimeout Background (now w) (5 * Second)) tenant w))
    end.
End Database.
