(* ===== verification/BenchDatabaseProps.v ===== *)
(** * Properties of the database benchmark

    The three methods leave the same table and count the same rows, and a run
    of the benchmark reports what it did and touches no row but its own. *)
From S2P Require Import Prelude GoBytes GoTime GoJson Event EventFacts Runtime Persistence PersistenceProps GoFloat BenchAccounting BenchProps BenchStudy Workload BenchDatabase.

Section Tables.
Context {U : UUIDLib}.

(** Events of the same key have the same row. *)
Definition consistent (es : list Envelope) : Prop :=
  forall e e', e ∈ es -> e' ∈ es -> event_key e = event_key e' -> event_args e = event_args e'.

Lemma dom_store_events db es : dom (store_events db es) = dom db ∪ list_to_set (map event_key es).
Proof.
  apply set_eq. intros k. rewrite elem_of_union, elem_of_list_to_set, !elem_of_dom, store_events_lookup.
  destruct (db !! k) as [r|] eqn:E; [by split; [left|]|]. rewrite list_elem_of_fmap. split.
  - intros [r Hr]. right. destruct (list_find _ es) as [[i e]|] eqn:Ef; [|done]. apply list_find_Some in Ef as (Hi & Hk & _).
    exists e. split; [done|]. by eapply list_elem_of_lookup_2.
  - intros [[r Hr]|(e & -> & He)]; [done|]. destruct (list_find _ es) as [[i x]|] eqn:Ef; [by eexists|].
    apply list_find_None in Ef. rewrite Forall_forall in Ef. by destruct (Ef e He).
Qed.

Lemma size_store_perm db es es' : es' ≡ₚ es -> size (store_events db es') = size (store_events db es).
Proof. intros H. rewrite <- !size_dom, !dom_store_events. by rewrite H. Qed.

(** Of consistent events the order does not matter. *)
Lemma store_events_perm db es es' : consistent es -> es' ≡ₚ es -> store_events db es' = store_events db es.
Proof.
  intros Hc Hp. apply map_eq. intros k. rewrite !store_events_lookup. destruct (db !! k); [done|].
  destruct (list_find (fun e => event_key e = k) es') as [[i x]|] eqn:E1, (list_find (fun e => event_key e = k) es) as [[j y]|] eqn:E2; cbn; [| | |done].
  - apply list_find_Some in E1 as (H1%list_elem_of_lookup_2 & K1 & _). apply list_find_Some in E2 as (H2%list_elem_of_lookup_2 & K2 & _).
    f_equal. apply Hc; [by rewrite <- Hp|done|congruence].
  - apply list_find_Some in E1 as (H1%list_elem_of_lookup_2 & K1 & _). rewrite Hp in H1. apply list_find_None in E2.
    rewrite Forall_forall in E2. by destruct (E2 x H1).
  - apply list_find_Some in E2 as (H2%list_elem_of_lookup_2 & K2 & _). rewrite <- Hp in H2. apply list_find_None in E1.
    rewrite Forall_forall in E1. by destruct (E1 y H2).
Qed.

(** The merge of a temporary table. *)
Lemma merge_rows db es rows : rows ≡ₚ map event_args es ->
  exists es', es' ≡ₚ es /\ insert_rows db rows = (store_events db es', Z.of_nat (size (store_events db es')) - Z.of_nat (size db)).
Proof.
  intros H. apply Permutation_map_inv in H as (es' & -> & Hp). exists es'. split; [by symmetry|].
  unfold insert_rows. by rewrite insert_rows_events.
Qed.

Lemma without_idem tenant db : without tenant (without tenant db) = without tenant db.
Proof. unfold without. apply map_filter_id. intros i x H. by apply map_lookup_filter_Some in H as [_ H]. Qed.

Lemma without_none tenant db id : without tenant db !! (tenant, id) = None.
Proof. apply map_lookup_filter_None. right. intros x _ H. by apply H. Qed.

(** Rows of other tenants are not touched by events of this one. *)
Lemma without_store tenant db es : Forall (fun e => TenantID e = tenant) es -> without tenant (store_events db es) = without tenant db.
Proof.
  intros H. revert db. induction H as [|e es He _ IH]; intros db; [done|].
  change (store_events db (e :: es)) with (store_events (store_event db e) es). rewrite IH. unfold store_event.
  destruct (db !! event_key e); [done|]. unfold without. apply map_filter_insert_not. intros ?. unfold event_key. rewrite He. cbn. by intros Hn; apply Hn.
Qed.

(** The number of rows events add to a table without their tenant is that of
    their identifiers. *)
Lemma uuid_String_inj {UL : UUIDLaws U} u v : uuid_String u = uuid_String v -> u = v.
Proof. intros H. apply (f_equal uuid_ParseBytes) in H. rewrite !uuid_parse_string in H. by injection H. Qed.

Lemma count_expected {UL : UUIDLaws U} tenant es : Forall (fun e => TenantID e = tenant) es -> forall db (m : gmap uuid Envelope),
  (forall id, m !! id = None <-> db !! (tenant, uuid_String id) = None) ->
  Z.of_nat (size (store_events db es)) - Z.of_nat (size db) =
  Z.of_nat (size (foldl (fun m e => let id := EventID (env_Input e) in match m !! id with Some _ => m | None => <[id := e]> m end) m es)) - Z.of_nat (size m).
Proof.
  induction 1 as [|e es He _ IH]; intros db m Hm; [cbn; lia|].
  change (store_events db (e :: es)) with (store_events (store_event db e) es). cbn [foldl]. cbv zeta. unfold store_event.
  assert (Hk : event_key e = (tenant, uuid_String (EventID (env_Input e)))) by (unfold event_key; by rewrite He).
  specialize (Hm (EventID (env_Input e))) as Hid. rewrite <- Hk in Hid.
  destruct (db !! event_key e) as [r|] eqn:Ed, (m !! EventID (env_Input e)) as [x|] eqn:Em; [by apply (IH db m)|by destruct Hid as [Hid _]; specialize (Hid eq_refl)|
    by destruct Hid as [_ Hid]; specialize (Hid eq_refl)|].
  specialize (IH (<[event_key e := event_args e]> db) (<[EventID (env_Input e) := e]> m)).
  rewrite !map_size_insert_None in IH by done. cbv zeta in IH. enough (Hn : forall id,
    <[EventID (env_Input e) := e]> m !! id = None <-> <[event_key e := event_args e]> db !! (tenant, uuid_String id) = None) by (specialize (IH Hn); lia).
  intros id. rewrite Hk. destruct (decide (id = EventID (env_Input e))) as [->|Hne]; [by rewrite !lookup_insert_eq|].
  rewrite !lookup_insert_ne; [apply Hm| |by apply not_eq_sym]. intros [= H%uuid_String_inj]. by symmetry in H.
Qed.

Lemma expected_tenant tenant es : expectedEvents (map (set_tenant tenant) es) = set_tenant tenant <$> expectedEvents es.
Proof.
  unfold expectedEvents. rewrite <- (fmap_empty (set_tenant tenant)) at 1. generalize (∅ : gmap uuid Envelope).
  induction es as [|e es IH]; intros m; [done|]. cbn [map foldl]. cbv zeta. cbn [env_Input set_tenant]. rewrite lookup_fmap.
  destruct (m !! EventID (env_Input e)) eqn:E; cbn; [apply IH|]. rewrite <- IH. by rewrite fmap_insert.
Qed.
End Tables.

Section Methods.
Context {U : UUIDLib} {Wd : World} {D : Database} {DL : DatabaseLaws D} {B : BenchPool} {BL : BenchPoolLaws B}.

Definition growth (w w' : W) : Z := Z.of_nat (size (table w')) - Z.of_nat (size (table w)).

Lemma batch_insert_spec ctx es w n err w' : batch_insert ctx es w = (n, err, w') ->
  match err with
  | None => table w' = store_events (table w) es /\ n = growth w w'
  | Some _ => table w' = table w \/ table w' = store_events (table w) es
  end.
Proof.
  unfold batch_insert, growth. pose proof (build_rows [] 0 es eq_refl) as Hb. destruct (build 0 es) as [values args]. cbn [fst snd app] in Hb.
  destruct (Exec _ _ _ w) as [[k|e] w1] eqn:Ex; intros [= <- <- <-].
  - apply Exec_ok in Ex. rewrite Hb in Ex. unfold insert_rows in Ex. rewrite insert_rows_events in Ex. injection Ex as Ht Hn.
    rewrite <- Ht. split; [done|]. lia.
  - apply Exec_err in Ex. rewrite Hb in Ex. unfold insert_rows in Ex. by rewrite insert_rows_events in Ex.
Qed.

Lemma single_inserts_spec ctx es : forall total w n err w', single_inserts ctx es total w = (n, err, w') ->
  match err with
  | None => table w' = store_events (table w) es /\ n = total + growth w w'
  | Some _ => exists k, table w' = store_events (table w) (firstn k es)
  end.
Proof.
  induction es as [|e es IH]; intros total w n err w'; cbn [single_inserts].
  { intros [= <- <- <-]. split; [done|]. unfold growth. lia. }
  destruct (batch_insert ctx [e] w) as [[k [er|]] w1] eqn:Eb; apply batch_insert_spec in Eb.
  - intros [= <- <- <-]. destruct Eb as [Eb|Eb]; [by exists 0%nat|by exists 1%nat].
  - destruct Eb as [Ht Hk]. intros H%IH. destruct err as [er|].
    + destruct H as [j Hj]. exists (S j). cbn [firstn]. rewrite Hj, Ht. done.
    + destruct H as [Ht' ->]. rewrite Ht', Ht. split; [done|]. unfold growth in *. lia.
Qed.

(** A transaction is applied whole or not at all. *)
Lemma writeCopyMerge_spec ctx es w r w' : writeCopyMerge ctx es w = (r, w') ->
  exists es', es' ≡ₚ es /\
  match r with
  | Ok res => table w' = store_events (table w) es' /\ Inserted res = growth w w' /\ Inserted res + Duplicates res = Z.of_nat (length es)
  | Err _ => table w' = table w \/ table w' = store_events (table w) es'
  end.
Proof.
  unfold writeCopyMerge, growth. destruct es as [|e0 es0]; [intros [= <- <-]; exists []; cbn; split; [done|split; [done|lia]]|].
  set (es := e0 :: es0). clearbody es. clear e0 es0.
  destruct (Begin ctx w) as [[tx|e] w1] eqn:E1; [|intros [= <- <-]; apply Begin_err in E1; exists es; split; [done|by left]].
  apply Begin_ok in E1 as (T1 & V1 & S1). destruct (CreateStage ctx tx w1) as [[e|] w2] eqn:E2; apply CreateStage_frame in E2 as (T2 & V2 & S2).
  { intros [= <- <-]. rewrite Rollback_frame. exists es. split; [done|]. left. congruence. }
  destruct (CopyFrom ctx tx (map event_args es) w2) as [[e|] w3] eqn:E3.
  { apply CopyFrom_frame in E3 as [T3 V3]. intros [= <- <-]. rewrite Rollback_frame. exists es. split; [done|]. left. congruence. }
  pose proof (CopyFrom_ok _ _ _ _ _ E3) as S3. apply CopyFrom_frame in E3 as [T3 V3]. rewrite S2, S1 in S3. cbn [app] in S3.
  destruct (MergeStage ctx tx w3) as [[n|e] w4] eqn:E4.
  2: { apply MergeStage_frame in E4. intros [= <- <-]. rewrite Rollback_frame. exists es. split; [done|]. left. congruence. }
  pose proof (MergeStage_ok _ _ _ _ _ E4) as (rows & Hr & Hi). apply MergeStage_frame in E4 as T4. rewrite S3 in Hr.
  destruct (merge_rows (view w3 tx) es rows Hr) as (es' & Hp & Hm). rewrite Hm in Hi. injection Hi as Hv Hn.
  assert (HV : view w3 tx = table w) by congruence. rewrite HV in Hv, Hn.
  destruct (Commit ctx tx w4) as [[e|] w5] eqn:E5; intros [= <- <-]; rewrite Rollback_frame; exists es'; (split; [done|]).
  - apply Commit_err in E5 as [E5|E5]; [left; congruence|right; congruence].
  - apply Commit_ok in E5. cbn [Inserted Duplicates]. rewrite E5, <- Hv. split; [done|]. split; [|lia]. rewrite <- Hn. done.
Qed.

(** What is known of a method whatever the events. *)
Lemma writeMethod_spec ctx m es w n err w' : writeMethod ctx m es w = (n, err, w') ->
  exists es', match err with
  | None => es' ≡ₚ es /\ table w' = store_events (table w) es' /\ n = growth w w'
  | Some _ => es' ⊆ es /\ table w' = store_events (table w) es'
  end.
Proof.
  unfold writeMethod. assert (Hsub : forall es' : list Envelope, es' ≡ₚ es -> es' ⊆ es) by (intros es' Hp x; by rewrite Hp).
  case_bool_decide as Hc; [|case_bool_decide as Hi; [|case_bool_decide as Hb; cbn [negb]]].
  - destruct (writeCopyMerge ctx es w) as [[r|e] w1] eqn:E; apply writeCopyMerge_spec in E as (es' & Hp & H); intros [= <- <- <-].
    + exists es'. by destruct H as (Ht & Hn & _).
    + destruct H as [Ht|Ht]; [exists []; split; [set_solver|done]|exists es'; split; [by apply Hsub|done]].
  - intros H%single_inserts_spec. destruct err as [e|].
    + destruct H as [k Hk]. exists (firstn k es). split; [|done]. intros x Hx. by apply elem_of_take in Hx as (i & Hx%list_elem_of_lookup_2 & _).
    + exists es. destruct H as [Ht Hn]. split; [done|]. split; [done|]. lia.
  - intros H%batch_insert_spec. destruct err as [e|]; [|by exists es].
    destruct H as [Ht|Ht]; [exists []; split; [set_solver|done]|by exists es].
  - intros [= <- <- <-]. exists []. split; [set_solver|done].
Qed.

(** C34: the methods the benchmark compares do the same work as the deployed
    writer.  For events whose duplicates are copies, each of the three
    methods that succeeds leaves the table [EventStore.WriteBatch] would
    leave and reports the number of rows it added, although the merge inserts
    its rows in whatever order the server chooses; one that fails has written
    a prefix of the events, and the two that write a batch at a time all or
    nothing. *)
Theorem methods_agree ctx m es w n err w' :
  m ∈ methods -> consistent es -> writeMethod ctx m es w = (n, err, w') ->
  match err with
  | None =>
      table w' = store_events (table w) es /\ n = growth w w' /\
      (forall ctx' w0 r w0', table w0 = table w -> EventStore_WriteBatch ctx' es w0 = (Ok r, w0') -> table w0' = table w' /\ Inserted r = n)
  | Some _ =>
      exists k, table w' = store_events (table w) (firstn k es) /\ (m <> "insert"%string -> k = 0%nat \/ k = length es)
  end.
Proof.
  intros Hm Hc H. assert (Hstore : forall t, t = store_events (table w) es -> forall ctx' w0 r w0', table w0 = table w ->
    EventStore_WriteBatch ctx' es w0 = (Ok r, w0') -> table w0' = t /\ Inserted r = Z.of_nat (size t) - Z.of_nat (size (table w))).
  { intros t -> ctx' w0 r w0' Hw0 He. apply (WriteBatch_ok (B := EventStore)) in He as (Ht & Hi & _). cbn [rows EventStore] in *.
    rewrite Hi, Ht, Hw0. done. }
  destruct err as [e|].
  - unfold writeMethod in H. case_bool_decide as H1; [|case_bool_decide as H2; [|case_bool_decide as H3; cbn [negb] in H]].
    + destruct (writeCopyMerge ctx es w) as [[r|e'] w1] eqn:E; [done|]. apply writeCopyMerge_spec in E as (es' & Hp & Ht). injection H as _ _ <-.
      destruct Ht as [Ht|Ht]; [exists 0%nat; split; [done|by left]|]. exists (length es). rewrite firstn_all. split; [|by right].
      rewrite Ht. by apply store_events_perm.
    + apply single_inserts_spec in H as [k Hk]. by exists k.
    + apply batch_insert_spec in H as [Ht|Ht]; [exists 0%nat; split; [done|by left]|]. exists (length es). rewrite firstn_all. split; [done|by right].
    + unfold methods in Hm. set_solver.
  - apply writeMethod_spec in H as (es' & Hp & Ht & Hn). rewrite (store_events_perm _ es es' Hc Hp) in Ht. split; [done|]. split; [done|].
    intros ctx' w0 r w0' Hw0 He. destruct (Hstore _ Ht ctx' w0 r w0' Hw0 He) as [E1 E2]. split; [done|]. rewrite E2, Hn. done.
Qed.
End Methods.

Section Runs.
Context {U : UUIDLib} {UL : UUIDLaws U} {Wd : World} {D : Database} {DL : DatabaseLaws D} {B : BenchPool} {BL : BenchPoolLaws B}.
Context {Any : Type} (Unmarshal : bytes -> res Any) (DeepEqual : Any -> Any -> bool).
Variables (ctx : Context) (tenant : bytes).

(** The events of one tenant, and what stays of the table. *)
Abbreviation ours es := (Forall (fun e => TenantID e = tenant) es).
Definition spares (w w' : W) : Prop := without tenant (table w') = without tenant (table w).

Lemma spares_trans w1 w2 w3 : spares w1 w2 -> spares w2 w3 -> spares w1 w3.
Proof. unfold spares. congruence. Qed.

Lemma spares_same w w' : table w' = table w -> spares w w'.
Proof. unfold spares. congruence. Qed.

Lemma spares_delete ctx' w e w' : DeleteTenant ctx' tenant w = (e, w') -> spares w w' /\ (e = None -> table w' = without tenant (table w)).
Proof.
  intros H. unfold spares. destruct e as [e|].
  - split; [|done]. apply DeleteTenant_err in H as [-> | ->]; [done|apply without_idem].
  - apply DeleteTenant_ok in H as ->. split; [apply without_idem|done].
Qed.

Lemma spares_write m es w n e w' : ours es -> writeMethod ctx m es w = (n, e, w') -> spares w w'.
Proof.
  intros Ho H. apply writeMethod_spec in H as (es' & H). unfold spares.
  assert (Hsub : es' ⊆ es -> ours es') by (intros Hs; rewrite Forall_forall in Ho |- *; intros x Hx; by apply Ho, Hs).
  destruct e as [e|]; [destruct H as [Hs ->]|destruct H as (Hp & -> & _)]; apply without_store; [by apply Hsub|by rewrite Hp].
Qed.

Definition batches (n size : nat) : nat := ((n + size - 1) / size)%nat.

Lemma batches_step n size : (1 <= size)%nat -> (1 <= n)%nat -> batches n size = S (batches (n - size) size).
Proof.
  intros Hs Hn. unfold batches. destruct (decide (size <= n)%nat) as [H|H].
  - replace (n + size - 1)%nat with ((n - size + size - 1) + 1 * size)%nat by lia. rewrite Nat.div_add by lia. lia.
  - replace (n - size)%nat with 0%nat by lia. rewrite (Nat.div_small (0 + size - 1)) by lia.
    replace (n + size - 1)%nat with ((n - 1) + 1 * size)%nat by lia. rewrite Nat.div_add, Nat.div_small by lia. done.
Qed.

(** The batches of a run write all its events, in some order. *)
Lemma write_batches_spec m size : (1 <= size)%nat -> forall fuel es n bs w n' e bs' w', (length es <= fuel)%nat -> ours es ->
  write_batches fuel ctx m size es n bs w = (n', e, bs', w') ->
  spares w w' /\
  (e = None -> exists es', es' ≡ₚ es /\ table w' = store_events (table w) es' /\ n' = n + growth w w' /\
     length bs' = (length bs + batches (length es) size)%nat).
Proof.
  intros Hs. induction fuel as [|fuel IH]; intros es n bs w n' e bs' w' Hf Ho; cbn [write_batches];
    (destruct es as [|x es]; [intros [= <- <- <- <-]; split; [by apply spares_same|]; intros _; exists []; split; [done|]; split; [done|];
      unfold growth, batches; cbn [length]; rewrite Nat.div_small by lia; split; lia|]).
  { cbn [length] in Hf. lia. }
  set (all := x :: es) in *. assert (Hlen : (1 <= length all)%nat) by (cbn; lia).
  assert (Ho1 : ours (firstn size all)) by (by apply Forall_take). assert (Ho2 : ours (skipn size all)) by (by apply Forall_drop).
  destruct (writeMethod ctx m (firstn size all) w) as [[k [er|]] w1] eqn:Ew; pose proof (spares_write _ _ _ _ _ _ Ho1 Ew) as Hsp.
  { intros [= <- <- <- <-]. by split. }
  apply writeMethod_spec in Ew as (es1 & Hp1 & Ht1 & ->). intros H. apply IH in H as [Hsp2 H]; [|rewrite length_skipn; cbn [length] in *; lia|exact Ho2].
  split; [by eapply spares_trans|]. intros He. destruct (H He) as (es2 & Hp2 & Ht2 & -> & Hl). exists (es1 ++ es2). split; [|split; [|split]].
  - by rewrite Hp1, Hp2, take_drop.
  - rewrite Ht2, Ht1. symmetry. apply store_events_app.
  - unfold growth. lia.
  - rewrite Hl, length_app, length_skipn. cbn [length]. rewrite (batches_step (length all)) by done. lia.
Qed.

Lemma warm_up_spares es ms : ours es -> forall w e w', warm_up ctx tenant es ms w = (e, w') -> spares w w'.
Proof.
  intros Ho. induction ms as [|m ms IH]; intros w e w'; cbn [warm_up]; [by intros [= <- <-]|].
  destruct (DeleteTenant ctx tenant w) as [[er|] w1] eqn:Ed; apply spares_delete in Ed as [Hd _]; [by intros [= <- <-]|].
  destruct (writeMethod ctx m es w1) as [[n [er|]] w2] eqn:Ew; apply (spares_write _ _ _ _ _ _ Ho) in Ew; [intros [= <- <-]; by eapply spares_trans|].
  intros H%IH. eapply spares_trans; [|exact H]. by eapply spares_trans.
Qed.

Lemma verify_same es w e w' : verifyDatabase Unmarshal DeepEqual ctx tenant es w = (e, w') -> table w' = table w.
Proof.
  unfold verifyDatabase. pose proof (SelectTenant_frame ctx tenant w) as H. destruct (SelectTenant ctx tenant w) as [[[rows rerr]|er] w1]; cbn [snd] in H.
  - destruct (verify_rows _ _ _ _ _) as [seen|er]; [destruct rerr|]; by intros [= _ <-].
  - by intros [= _ <-].
Qed.

(** What a measured run says. *)
Definition true_run (batchSize : nat) (es : list Envelope) (v : DatabaseRun) : Prop :=
  dr_Submitted v = Z.of_nat (length es) /\ dr_Inserted v = Z.of_nat (size (expectedEvents es)) /\
  dr_Inserted v + dr_Duplicates v = dr_Submitted v /\ dr_Correct v = true /\
  length (dr_BatchNS v) = batches (length es) (if bool_decide (dr_Method v = "insert"%string) then 1 else batchSize).

Lemma database_run_spec batchSize es rep order w r w' : (1 <= batchSize)%nat -> ours es ->
  database_run Unmarshal DeepEqual ctx batchSize tenant es rep order w = (r, w') ->
  spares w w' /\
  match r with
  | Ok v => true_run batchSize es v /\ dr_Method v = method_at rep order /\ dr_Repetition v = Z.of_nat rep + 1
  | Err _ => True
  end.
Proof.
  intros Hb Ho. unfold database_run, measure. cbv zeta. set (size := if bool_decide _ then 1%nat else batchSize).
  assert (Hs : (1 <= size)%nat) by (unfold size; by case_bool_decide).
  destruct (DeleteTenant ctx tenant w) as [[e|] w1] eqn:Ed; apply spares_delete in Ed as [Hd Ht].
  { intros [= <- <-]. by split. }
  specialize (Ht eq_refl). destruct (write_batches (length es) ctx _ size es 0 [] w1) as [[[n [e|]] bs] w2] eqn:Ew;
    (apply write_batches_spec in Ew as [Hsp Hw]; [|done|done|done]).
  { intros [= <- <-]. split; [by eapply spares_trans|done]. }
  destruct (Hw eq_refl) as (es' & Hp & Ht2 & -> & Hl). assert (H02 : spares w w2) by (by eapply spares_trans).
  destruct (verifyDatabase _ _ _ _ _ w2) as [[e|] w3] eqn:Ev; apply verify_same in Ev; intros [= <- <-];
    (split; [eapply spares_trans; [exact H02|by apply spares_same]|]); [done|].
  assert (Hn : growth w1 w2 = Z.of_nat (stdpp.base.size (expectedEvents es))).
  { unfold growth. rewrite Ht2, (size_store_perm _ es es' Hp).
    rewrite (count_expected tenant es Ho (table w1) ∅); [unfold expectedEvents; rewrite map_size_empty; lia|].
    intros id. rewrite lookup_empty, Ht, without_none. done. }
  unfold true_run. cbn [dr_Submitted dr_Inserted dr_Duplicates dr_Correct dr_BatchNS dr_Method dr_Repetition]. rewrite Z.add_0_l, Hn.
  split; [|done]. split; [done|]. split; [done|]. split; [lia|]. split; [by apply Z.eqb_eq|exact Hl].
Qed.

Lemma database_runs_spec batchSize es plan : (1 <= batchSize)%nat -> ours es -> forall runs w runs' e w',
  database_runs Unmarshal DeepEqual ctx batchSize tenant es plan runs w = (runs', e, w') ->
  Forall (true_run batchSize es) runs -> spares w w' /\ Forall (true_run batchSize es) runs'.
Proof.
  intros Hb Ho. induction plan as [|[rep order] plan IH]; intros runs w runs' e w'; cbn [database_runs]; [by intros [= <- <- <-]|].
  destruct (database_run _ _ _ _ _ _ _ _ w) as [[v|er] w1] eqn:E; apply database_run_spec in E as [Hs Hv]; [|done|done| |done|done].
  - intros H Hr. apply IH in H as [H1 H2]; [split; [by eapply spares_trans|done]|]. apply Forall_app_2; [done|]. by constructor; [apply Hv|].
  - by intros [= <- <- <-].
Qed.

Lemma database_body_spec c es w r e w' : 1 <= dc_BatchSize c -> ours es -> database_body Unmarshal DeepEqual ctx c tenant es w = (r, e, w') ->
  spares w w' /\ Forall (true_run (Z.to_nat (dc_BatchSize c)) es) (db_Runs r) /\ db_Repetitions r = dc_Repetitions c /\
  (e = None -> DatabaseReport_Validate r = None).
Proof.
  intros Hb Ho. unfold database_body. cbv zeta.
  destruct (warm_up ctx tenant _ methods w) as [[er|] w1] eqn:Ew; apply warm_up_spares in Ew; [|by apply Forall_take| |by apply Forall_take].
  { intros [= <- <- <-]. split; [done|]. split; [constructor|]. by split. }
  destruct (database_runs _ _ _ _ _ _ _ [] w1) as [[runs [er|]] w2] eqn:Er; apply database_runs_spec in Er as [Hs Hr]; try done; try lia;
    intros [= <- <- <-]; (split; [by eapply spares_trans|]); (split; [done|]); by split.
Qed.
End Runs.

Section Report.
Context {U : UUIDLib} {UL : UUIDLaws U} {Wd : World} {D : Database} {DL : DatabaseLaws D} {B : BenchPool} {BL : BenchPoolLaws B}.
Context {Any : Type} (Unmarshal : bytes -> res Any) (DeepEqual : Any -> Any -> bool) (NewSHA1 : bytes -> uuid).

Lemma true_run_tenant tenant batchSize es v : true_run batchSize (map (set_tenant tenant) es) v -> true_run batchSize es v.
Proof. unfold true_run. by rewrite length_map, expected_tenant, map_size_fmap. Qed.

(** C35: the database benchmark is exact and confined.  However its statements
    fail, and with every order in which a merge inserts its rows, it leaves
    the rows of other tenants as they were.  Each run it reports wrote all
    the events of the workload, in as many calls as there are batches of its
    method, and counts one row for each identifier; and when the benchmark
    ends without an error, it has such a run for each method and
    repetition. *)
Theorem RunDatabase_exact ctx c id w r err w' :
  RunDatabase Unmarshal DeepEqual NewSHA1 ctx c id w = (r, err, w') ->
  without (lit "bench-" ++ id) (table w') = without (lit "bench-" ++ id) (table w) /\
  (forall es, Workload NewSHA1 (dc_Workload c) = Ok es -> Forall (true_run (Z.to_nat (dc_BatchSize c)) es) (db_Runs r)) /\
  (err = None -> is_ok (Workload NewSHA1 (dc_Workload c)) = true /\ 3 <= dc_Repetitions c /\
     Permutation (map run_key (db_Runs r)) (all_keys (dc_Repetitions c))).
Proof.
  unfold RunDatabase. cbv zeta. destruct (_ || _) eqn:Eg.
  { intros [= <- <- <-]. split; [done|]. by split; [constructor|]. }
  bool_to_prop. destruct (Workload NewSHA1 (dc_Workload c)) as [es|e] eqn:Ew; [|intros [= <- <- <-]; split; [done|]; by split; [constructor|]].
  set (tenant := lit "bench-" ++ id). destruct (database_body _ _ _ _ _ _ w) as [[r1 e1] w1] eqn:Eb. intros [= <- <- <-].
  apply (database_body_spec _ _ _ tenant) in Eb as (Hs & Hr & Hrep & Hv); [|lia|apply Forall_map, Forall_true; done].
  destruct (DeleteTenant _ tenant w1) as [e2 w2] eqn:Ed. apply spares_delete in Ed as [Hd _]. split; [exact (spares_trans _ _ _ _ Hs Hd)|]. split.
  - intros es' [= <-]. eapply Forall_impl; [exact Hr|]. intros v. apply true_run_tenant.
  - intros He. specialize (Hv He). apply Validate_exact in Hv as (_ & _ & Hp). rewrite Hrep in Hp. split; [done|]. split; [lia|exact Hp].
Qed.
End Report.
