(* ===== verification/SimDatabase.v ===== *)
(** * A database for the benchmark

    A clock, the events, one transaction at a time, and a script of the calls
    that fail; the merge inserts the staged rows last first. *)
From S2P Require Import Prelude GoBytes GoTime GoJson Event Runtime Instances Persistence PersistenceProps GoFloat BenchAccounting BenchStudy Workload BenchDatabase BenchDatabaseProps.

Record DbWorld := mkDb { db_clock : Z; db_table : Table; db_stage : list Row; db_view : Table; db_script : list bool }.

#[local] Arguments insert_rows : simpl never.
#[local] Instance DbW : World := {| W := DbWorld; now := db_clock |}.

(** The next call, which takes a microsecond, fails or has its effect. *)
Definition db_call {A} (effect : DbWorld -> A * DbWorld) (w : DbWorld) : res A * DbWorld :=
  let w := mkDb (db_clock w + 1000) (db_table w) (db_stage w) (db_view w) (db_script w) in
  match db_script w with
  | true :: rest => (Err (ENet true), mkDb (db_clock w) (db_table w) (db_stage w) (db_view w) rest)
  | script => let '(a, w) := effect w in (Ok a, mkDb (db_clock w) (db_table w) (db_stage w) (db_view w) (tl script))
  end.
Definition db_step (effect : DbWorld -> DbWorld) (w : DbWorld) : goerr * DbWorld :=
  let '(r, w) := db_call (fun w => (tt, effect w)) w in (res_err r, w).

#[local] Instance DbDatabase : Database :=
  {| table := db_table;
     Exec _ values args := db_call (fun w => let '(t, n) := insert_rows (db_table w) (map (row_args args) values) in
                                             (n, mkDb (db_clock w) t (db_stage w) (db_view w) (db_script w))) |}.

#[local] Instance DbLaws : DatabaseLaws DbDatabase.
Proof.
  constructor; cbn; unfold db_call; cbn.
  - intros ctx values args w. destruct (db_script w) as [|[] l]; cbn; try destruct (insert_rows _ _); cbn; lia.
  - intros ctx values args w n w'. destruct (db_script w) as [|[] l]; cbn; [| done |]; destruct (insert_rows _ _); cbn; by intros [= <- <-].
  - intros ctx values args w e w'. destruct (db_script w) as [|[] l]; cbn; [destruct (insert_rows _ _); done| |destruct (insert_rows _ _); done].
    intros [= _ <-]. by left.
Qed.

Definition read_row (kr : Key * Row) : res SelectedRow :=
  match snd kr with
  | [AText _; AText id; AText typ; ATime occurred; ATime received; ABytes payload] =>
      match uuid_ParseBytes id with
      | Some u => Ok (mkSelectedRow _ u typ occurred received payload)
      | None => Err (ENew "scan")
      end
  | _ => Err (ENew "scan")
  end.

#[local] Instance DbPool : BenchPool :=
  {| Tx := unit;
     Begin _ := db_call (fun w => (tt, mkDb (db_clock w) (db_table w) [] (db_table w) (db_script w)));
     CreateStage _ _ := db_step (fun w => w);
     CopyFrom _ _ rows := db_step (fun w => mkDb (db_clock w) (db_table w) (db_stage w ++ rows) (db_view w) (db_script w));
     MergeStage _ _ := db_call (fun w => let '(t, n) := insert_rows (db_view w) (rev (db_stage w)) in
                                         (n, mkDb (db_clock w) (db_table w) (db_stage w) t (db_script w)));
     Commit _ _ := db_step (fun w => mkDb (db_clock w) (db_view w) [] (db_view w) (db_script w));
     Rollback _ w := w;
     DeleteTenant _ tenant := db_step (fun w => mkDb (db_clock w) (without tenant (db_table w)) (db_stage w) (db_view w) (db_script w));
     SelectTenant _ tenant := db_call (fun w => ((map read_row (map_to_list (filter (fun kv => fst (fst kv) = tenant) (db_table w))), None), w));
     staged w _ := db_stage w;
     view w _ := db_view w |}.

#[local] Instance DbPoolLaws : BenchPoolLaws DbPool.
Proof.
  constructor; cbn; unfold db_step, db_call; cbn.
  - intros ctx w [] w'. destruct (db_script w) as [|[] l]; cbn; try done; by intros [= <-].
  - intros ctx w e w'. destruct (db_script w) as [|[] l]; cbn; try done; by intros [= _ <-].
  - intros ctx tx w e w'. destruct (db_script w) as [|[] l]; cbn; by intros [= _ <-].
  - intros ctx tx rows w e w'. destruct (db_script w) as [|[] l]; cbn; by intros [= _ <-].
  - intros ctx tx rows w w'. destruct (db_script w) as [|[] l]; cbn; try done; by intros [= <-].
  - intros ctx tx w r w'. destruct (db_script w) as [|[] l]; cbn; try destruct (insert_rows _ _); cbn; by intros [= _ <-].
  - intros ctx tx w n w' H. exists (rev (db_stage w)). split; [symmetry; apply Permutation_rev|]. revert H.
    destruct (db_script w) as [|[] l]; cbn; [|done|]; destruct (insert_rows _ _); cbn; by intros [= <- <-].
  - intros ctx tx w w'. destruct (db_script w) as [|[] l]; cbn; try done; by intros [= <-].
  - intros ctx tx w e w'. destruct (db_script w) as [|[] l]; cbn; try done; intros [= _ <-]; by left.
  - done.
  - intros ctx tenant w w'. destruct (db_script w) as [|[] l]; cbn; try done; by intros [= <-].
  - intros ctx tenant w e w'. destruct (db_script w) as [|[] l]; cbn; try done; intros [= _ <-]; by left.
  - intros ctx tenant w. by destruct (db_script w) as [|[] l].
Qed.

(** ** The benchmark on it *)

(** In place of google/uuid's hash: one that tells the events apart. *)
Definition db_hash (s : bytes) : uuid := uid (1 + foldl (fun a c => (a * 31 + c) mod 9973) 0 s).
Definition db_config : DatabaseConfig := mkDatabaseConfig true (mkWorkloadConfig (lit "n") (lit "fixed") 7 6 40 (Some (1 # 3)%Q)) 4 3.
Definition db_start : DbWorld := mkDb 0 {[ (lit "other", lit "x") := [AText (lit "other"); AText (lit "x")] ]} [] ∅ [].
Definition db_result : DatabaseReport * goerr * DbWorld :=
  RunDatabase (Any := bytes) Ok (fun a b => bool_decide (a = b)) db_hash Background db_config (lit "7") db_start.

(** Nine runs in rotation, each with four rows of six events. *)
Example database_benchmark :
  (map (fun v => (dr_Method v, dr_Repetition v, dr_Inserted v, dr_Duplicates v, length (dr_BatchNS v))) (db_Runs (fst (fst db_result))), snd (fst db_result),
   size (db_table (snd db_result))) =
  ([("insert", 1, 4, 2, 6%nat); ("batch-insert", 1, 4, 2, 2%nat); ("copy-merge", 1, 4, 2, 2%nat); ("batch-insert", 2, 4, 2, 2%nat); ("copy-merge", 2, 4, 2, 2%nat);
    ("insert", 2, 4, 2, 6%nat); ("copy-merge", 3, 4, 2, 2%nat); ("insert", 3, 4, 2, 6%nat); ("batch-insert", 3, 4, 2, 2%nat)]%string, None, 1%nat).
Proof. vm_compute. reflexivity. Qed.

Lemma RunDatabase_exact_witness :
  exists r w', db_result = (r, None, w') /\ without (lit "bench-7") (table w') = without (lit "bench-7") (table db_start) /\
    Permutation (map run_key (db_Runs r)) (all_keys 3).
Proof.
  pose proof database_benchmark as H. destruct db_result as [[r err] w'] eqn:E. cbn [fst snd] in H.
  assert (He : err = None) by (injection H as _ H _; exact H). subst err. exists r, w'. split; [reflexivity|]. unfold db_result in E.
  destruct (RunDatabase_exact (Wd := DbW) (D := DbDatabase) (B := DbPool) (Any := bytes) Ok (fun a b => bool_decide (a = b)) db_hash Background db_config (lit "7") db_start r None w' E)
    as (H1 & _ & H2). split; [exact H1|]. exact (proj2 (proj2 (H2 eq_refl))).
Defined.

(** A batch with a copy, merged last row first. *)
Definition db_event (n : Z) : Envelope := mkEnvelope (mkInput (uid n) (lit "t") (mkTime 5 0 0) (lit "{}")) (lit "a") (mkTime 6 0 0).
Definition db_batch : list Envelope := [db_event 1; db_event 2; db_event 1].

Definition db_merge : Z * goerr * DbWorld := writeMethod (Wd := DbW) Background "copy-merge" db_batch db_start.

Lemma db_merge_ok : snd (fst db_merge) = None.
Proof. vm_compute. reflexivity. Qed.

Lemma db_batch_consistent : consistent db_batch.
Proof.
  assert (H : bool_decide (Forall (fun e => Forall (fun e' => event_key e = event_key e' -> event_args e = event_args e') db_batch) db_batch) = true)
    by (vm_compute; reflexivity).
  apply bool_decide_eq_true in H. rewrite Forall_forall in H. intros e e' H1 H2. specialize (H e H1). rewrite Forall_forall in H. by apply H.
Qed.

Lemma copy_merge_method : "copy-merge"%string ∈ methods.
Proof. apply list_elem_of_In. by right; right; left. Qed.

Lemma methods_agree_witness :
  exists n w', db_merge = (n, None, w') /\
    table w' = store_events (table db_start) db_batch /\ n = growth (Wd := DbW) db_start w'.
Proof.
  pose proof db_merge_ok as H. destruct db_merge as [[n err] w'] eqn:E. cbn [fst snd] in H. subst err. exists n, w'. split; [reflexivity|].
  unfold db_merge in E.
  destruct (methods_agree (Wd := DbW) (D := DbDatabase) (B := DbPool) Background "copy-merge" db_batch db_start n None w'
              copy_merge_method db_batch_consistent E) as (H1 & H2 & _).
  split; [exact H1|exact H2].
Defined.
