(* ===== verification/ProgressProbe.v ===== *)
(** * Waiting for the consumer: [internal/benchmark/progress.go]

    Before the benchmark deletes its rows it waits until the consumer has
    committed all of the topic, so that no record is replayed onto rows that
    are gone.  The broker's administration requests are a parameter
    ([OffsetProbe]); while they run, the consumer does. *)
From S2P Require Import Prelude GoBytes GoTime GoJson Event Runtime Persistence PersistenceProps Telemetry Publisher Reader ReaderFacts ReaderProps Delivery.

(** [kmsg]: one partition of a response. *)
Record PartitionOffset := mkPartitionOffset { po_Partition : Z; po_ErrorCode : Z; po_Offset : Z }.

Abbreviation TopicOffsets := (list PartitionOffset).

(** franz-go's client and the select of [waitUntil], which yields [true] when
    the context is done. *)
Class OffsetProbe {Wd : World} := {
  NewClient : bytes -> W -> goerr * W;
  CloseClient : W -> W;
  ListOffsets : Context -> bytes -> list Z -> W -> res (list TopicOffsets) * W;
  OffsetFetch : Context -> bytes -> bytes -> list Z -> W -> res (list (list TopicOffsets) * list TopicOffsets) * W;
  probe_wait : Context -> Z -> W -> bool * W;
  (** the end of the topic, partition by partition *)
  log_end : W -> Z -> Z
}.

Section Probe.
Context {Wd : World} {P : OffsetProbe}.

(** The loop over a map, in whatever order. *)
Definition offsetsCaughtUp (ends committed : gmap Z Z) : bool :=
  if bool_decide (ends = ∅) then false
  else
    forallb (fun '(partition, end_) =>
      if end_ <? 0 then false
      else
        let offset := committed !! partition in
        if (end_ =? 0) && match offset with None => true | Some o => o =? -1 end then true
        else match offset with None => false | Some o => o =? end_ end) (map_to_list ends).

Definition record_partitions (m : gmap Z Z) (ps : TopicOffsets) : gmap Z Z :=
  foldl (fun m p => if po_ErrorCode p =? 0 then <[po_Partition p := po_Offset p]> m else m) m ps.
Definition record_topics (m : gmap Z Z) (topics : list TopicOffsets) : gmap Z Z := foldl record_partitions m topics.

Record OffsetProgress := mkOffsetProgress { op_available : bool; op_At : Z; op_End : gmap Z Z; op_Committed : gmap Z Z }.

Definition probe_topic : bytes := lit "ingestkit.events".
Definition probe_group : bytes := lit "ingestkit-consumer".
Definition probe_partitions : list Z := [0; 1; 2].

Definition readOffsetProgress (ctx : Context) (w : W) : OffsetProgress * W :=
  let '(response, w) := ListOffsets ctx probe_topic probe_partitions w in
  let ends := match response with Ok topics => record_topics ∅ topics | Err _ => ∅ end in
  let '(response, w) := OffsetFetch ctx probe_group probe_topic probe_partitions w in
  let committed := match response with Ok (groups, topics) => record_topics (foldl record_topics ∅ groups) topics | Err _ => ∅ end in
  (mkOffsetProgress ((size ends =? length probe_partitions)%nat && (size committed =? length probe_partitions)%nat) (now w) ends committed, w).

Definition CaptureOffsetProgress (ctx : Context) (brokers : bytes) (w : W) : OffsetProgress * W :=
  if bool_decide (brokers = []) then (mkOffsetProgress false (now w) ∅ ∅, w)
  else
    match NewClient brokers w with
    | (Some _, w) => (mkOffsetProgress false (now w) ∅ ∅, w)
    | (None, w) => let '(progress, w) := readOffsetProgress ctx w in (progress, CloseClient w)
    end.

Definition waitUntil (ctx : Context) (at_ : Z) (w : W) : goerr * W :=
  let '(done, w) := probe_wait ctx (Z.max (now w) at_) w in
  (if done then ctx_Err ctx (now w) else None, w).

Fixpoint wait_loop (fuel : nat) (probe : Context) (w : W) : option (goerr * W) :=
  match fuel with
  | O => None
  | S fuel =>
      let '(progress, w) := readOffsetProgress probe w in
      if op_available progress && offsetsCaughtUp (op_End progress) (op_Committed progress) then Some (None, w)
      else
        match waitUntil probe (now w + 50 * Millisecond) w with
        | (Some _, w) => Some (Some (ENew "consumer progress did not catch up before cleanup"), w)
        | (None, w) => wait_loop fuel probe w
        end
  end.

(** Rounds of 50 ms in 30 s, the one that sees them pass, and the last. *)
Definition wait_fuel : nat := 603.

Definition WaitConsumerCaughtUp (ctx : Context) (brokers : bytes) (w : W) : option (goerr * W) :=
  if bool_decide (brokers = []) then Some (Some (ENew "owned broker probe is required for progress verification"), w)
  else
    let probe := WithTimeout ctx (now w) (30 * Second) in
    match NewClient brokers w with
    | (Some err, w) => Some (Some err, w)
    | (None, w) =>
        match wait_loop wait_fuel probe w with
        | Some (err, w) => Some (err, CloseClient w)
        | None => None
        end
    end.
End Probe.

(** Every call of the client answers within [d], and a select comes back at
    most [d] after its timer fires. *)
Record prompt {Wd : World} {P : OffsetProbe} (d : Z) : Prop := {
  prompt_positive : 0 <= d;
  prompt_client brokers w : now (snd (NewClient brokers w)) <= now w + d;
  prompt_close w : now (CloseClient w) <= now w + d;
  prompt_ends ctx topic partitions w : now (snd (ListOffsets ctx topic partitions w)) <= now w + d;
  prompt_committed ctx group topic partitions w : now (snd (OffsetFetch ctx group topic partitions w)) <= now w + d;
  prompt_wait c fire w : now (snd (probe_wait c fire w)) <= Z.max fire (now w) + d
}.

(** ** The wait ends *)

(** The clock of the calls: it does not run backwards, and a select takes a
    branch that is ready. *)
Class ProbeClock {Wd : World} (P : OffsetProbe) := {
  client_forward brokers : forward (NewClient brokers);
  ends_forward ctx partitions : forward (ListOffsets ctx probe_topic partitions);
  committed_forward ctx partitions : forward (OffsetFetch ctx probe_group probe_topic partitions);
  clock_wait_done c fire w w' : probe_wait c fire w = (true, w') -> ctx_Err c (now w') <> None;
  clock_wait_fired c fire w w' : probe_wait c fire w = (false, w') -> fire <= now w';
  clock_wait_ready c fire w : ctx_Err c (now w) <> None -> now w < fire -> fst (probe_wait c fire w) = true
}.

Section Ends.
Context {Wd : World} {P : OffsetProbe} {PC : ProbeClock P}.

Lemma waitUntil_spec ctx d w : 0 <= d -> let '(err, w') := waitUntil ctx (now w + d) w in err = None -> now w + d <= now w'.
Proof.
  intros Hd. unfold waitUntil. rewrite Z.max_r by lia. destruct (probe_wait ctx (now w + d) w) as [[] w1] eqn:E.
  - apply clock_wait_done in E. by destruct (ctx_Err ctx (now w1)).
  - by intros _; apply clock_wait_fired in E.
Qed.

(** A wait that begins when its context is done says so. *)
Lemma waitUntil_over ctx d w : 0 < d -> ctx_Err ctx (now w) <> None -> fst (waitUntil ctx (now w + d) w) <> None.
Proof.
  intros Hd Hc. unfold waitUntil. rewrite Z.max_r by lia. pose proof (clock_wait_ready ctx (now w + d) w Hc ltac:(lia)) as Hr.
  destruct (probe_wait ctx (now w + d) w) as [[] w1] eqn:E; [|done]. by apply clock_wait_done in E.
Qed.

Lemma read_forward ctx w : now w <= now (snd (readOffsetProgress ctx w)).
Proof.
  unfold readOffsetProgress. pose proof (ends_forward ctx probe_partitions w) as F1. destruct (ListOffsets _ _ _ w) as [r1 w1]. cbn [snd] in F1.
  pose proof (committed_forward ctx probe_partitions w1) as F2. destruct (OffsetFetch _ _ _ _ w1) as [r2 w2]. cbn [snd] in *. lia.
Qed.

Lemma wait_loop_returns probe deadline : ctx_Err probe deadline <> None -> forall fuel w,
  deadline - now w < Z.of_nat fuel * (50 * Millisecond) -> is_Some (wait_loop (S fuel) probe w).
Proof.
  intros Hd. induction fuel as [|fuel IH]; intros w Hf; cbn [wait_loop]; pose proof (read_forward probe w) as F;
    destruct (readOffsetProgress probe w) as [progress w1]; cbn [snd] in F; (destruct (_ && _); [by eexists|]).
  - assert (Hp : ctx_Err probe (now w1) <> None) by (eapply ctx_Err_mono; [|exact Hd]; lia).
    pose proof (waitUntil_over probe (50 * Millisecond) w1 ltac:(unfold Millisecond; lia) Hp) as Ho.
    destruct (waitUntil _ _ w1) as [[e|] w2]; [by eexists|done].
  - pose proof (waitUntil_spec probe (50 * Millisecond) w1 ltac:(unfold Millisecond; lia)) as Hw.
    destruct (waitUntil _ _ w1) as [[e|] w2]; [by eexists|]. apply IH. specialize (Hw eq_refl). unfold Millisecond in *. lia.
Qed.

(** The last look begins at most one wait after the deadline, and is followed
    by one wait at most. *)
Lemma wait_loop_prompt probe deadline d : prompt d -> ctx_Err probe deadline <> None -> forall fuel w err w',
  wait_loop fuel probe w = Some (err, w') -> now w' <= Z.max (now w) (deadline + 50 * Millisecond + d) + 3 * d + 50 * Millisecond.
Proof.
  intros Hp Hd. pose proof (prompt_positive _ Hp) as H0. induction fuel as [|fuel IH]; intros w err w'; cbn [wait_loop]; [done|].
  assert (Hl : now (snd (readOffsetProgress probe w)) <= now w + 2 * d).
  { unfold readOffsetProgress. pose proof (prompt_ends _ Hp probe probe_topic probe_partitions w) as F1. destruct (ListOffsets _ _ _ w) as [r1 w1].
    pose proof (prompt_committed _ Hp probe probe_group probe_topic probe_partitions w1) as F2. destruct (OffsetFetch _ _ _ _ w1) as [r2 w2].
    cbn [snd] in *. lia. }
  destruct (readOffsetProgress probe w) as [progress w1]. cbn [snd] in Hl.
  destruct (_ && _); [intros [= <- <-]; unfold Millisecond; lia|].
  assert (Hw : now (snd (waitUntil probe (now w1 + 50 * Millisecond) w1)) <= now w1 + 50 * Millisecond + d).
  { unfold waitUntil. rewrite Z.max_r by (unfold Millisecond; lia). pose proof (prompt_wait _ Hp probe (now w1 + 50 * Millisecond) w1) as H.
    destruct (probe_wait _ _ w1) as [b w2]. cbn [snd] in *. unfold Millisecond in *. lia. }
  pose proof (waitUntil_over probe (50 * Millisecond) w1 ltac:(unfold Millisecond; lia)) as Ho.
  destruct (waitUntil _ _ w1) as [[e|] w2]; cbn [snd fst] in *; [intros [= <- <-]; unfold Millisecond in *; lia|].
  intros H%IH. destruct (decide (deadline <= now w1)) as [Hl1|Hl1].
  - by destruct Ho; [eapply ctx_Err_mono; [exact Hl1|exact Hd]|].
  - unfold Millisecond in *. lia.
Qed.

(** The whole call, whatever the client finds. *)
Lemma WaitConsumerCaughtUp_prompt d ctx brokers w err w' : prompt d -> WaitConsumerCaughtUp ctx brokers w = Some (err, w') ->
  now w' <= now w + 30 * Second + 100 * Millisecond + 5 * d.
Proof.
  intros Hp. pose proof (prompt_positive _ Hp) as H0. unfold WaitConsumerCaughtUp.
  case_bool_decide; [intros [= <- <-]; unfold Second, Millisecond; lia|]. pose proof (prompt_client _ Hp brokers w) as F.
  destruct (NewClient brokers w) as [[e|] w1]; cbn [snd] in F; [intros [= <- <-]; unfold Second, Millisecond; lia|].
  destruct (WithTimeout_expires ctx (now w) (30 * Second) (now w + 30 * Second) ltac:(lia)) as [e He].
  destruct (wait_loop _ _ w1) as [[err2 w2]|] eqn:El; [|done]. intros [= <- <-].
  eapply (wait_loop_prompt _ (now w + 30 * Second) d Hp) in El; [|by rewrite He]. pose proof (prompt_close _ Hp w2). unfold Second, Millisecond in *. lia.
Qed.

Lemma WaitConsumerCaughtUp_returns ctx brokers w : is_Some (WaitConsumerCaughtUp ctx brokers w).
Proof.
  unfold WaitConsumerCaughtUp. case_bool_decide; [by eexists|]. pose proof (client_forward brokers w) as F.
  destruct (NewClient brokers w) as [[e|] w1]; cbn [snd] in F; [by eexists|].
  destruct (WithTimeout_expires ctx (now w) (30 * Second) (now w + 30 * Second) ltac:(lia)) as [e He].
  destruct (wait_loop_returns (WithTimeout ctx (now w) (30 * Second)) (now w + 30 * Second) ltac:(by rewrite He) 602 w1) as [[err w2] Hl];
    [unfold Second, Millisecond; lia|]. change wait_fuel with 603%nat. rewrite Hl. by eexists.
Qed.
End Ends.

(** ** What is relied on *)
Section Laws.
Context {U : UUIDLib} {Wd : World} {BS : BatchStore} {T : Timers} {C : Cluster} {P : OffsetProbe}.
Variables (good : Reader -> Prop) (L : Z -> Z -> option Rec).

(** What happens while a call runs: the consumer lives on, the topic does not
    get shorter, the clock does not run backwards. *)
Record during (w w' : W) : Prop := {
  during_life : life good w w';
  during_log p : log_end w p <= log_end w' p;
  during_clock : now w <= now w'
}.

(** A response lists requested partitions only; a partition without an error
    has the value of some moment of the call, and a group that has committed
    nothing there has -1. *)
Class OffsetProbeLaws := {
  client_during brokers w : during w (snd (NewClient brokers w));
  close_during w : during w (CloseClient w);
  ends_read ctx partitions w : exists w1, during w w1 /\ during w1 (snd (ListOffsets ctx probe_topic partitions w)) /\
    forall topics, fst (ListOffsets ctx probe_topic partitions w) = Ok topics -> Forall (fun p =>
      po_Partition p ∈ partitions /\ (po_ErrorCode p = 0 -> po_Offset p = log_end w1 (po_Partition p))) (concat topics);
  committed_read ctx partitions w : exists w1, during w w1 /\ during w1 (snd (OffsetFetch ctx probe_group probe_topic partitions w)) /\
    forall groups topics, fst (OffsetFetch ctx probe_group probe_topic partitions w) = Ok (groups, topics) -> Forall (fun p =>
      po_Partition p ∈ partitions /\ (po_ErrorCode p = 0 -> po_Offset p = offset w1 (po_Partition p) \/ po_Offset p = -1))
      (concat (concat groups) ++ concat topics);
  wait_during c fire w : during w (snd (probe_wait c fire w));
  wait_done c fire w w' : probe_wait c fire w = (true, w') -> ctx_Err c (now w') <> None;
  wait_fired c fire w w' : probe_wait c fire w = (false, w') -> fire <= now w';
  wait_ready c fire w : ctx_Err c (now w) <> None -> now w < fire -> fst (probe_wait c fire w) = true
}.

#[global] Instance during_preorder : PreOrder during.
Proof.
  split.
  - intros w. split; [apply life_refl|done|done].
  - intros w1 w2 w3 [L1 G1 C1] [L2 G2 C2]. split; [by eapply life_trans|intros p; transitivity (log_end w2 p); [apply G1|apply G2]|lia].
Qed.

(** ** The maps that are read *)

Definition reads (Q : Z -> Z -> Prop) (m : gmap Z Z) : Prop := forall p v, m !! p = Some v -> Q p v.

Lemma record_partitions_reads Q ps : Forall (fun p => po_ErrorCode p = 0 -> Q (po_Partition p) (po_Offset p)) ps ->
  forall m, reads Q m -> reads Q (record_partitions m ps).
Proof.
  unfold record_partitions. induction 1 as [|x ps Hx _ IH]; intros m Hm; [done|]. cbn [foldl]. apply IH. destruct (_ =? 0) eqn:E; [|done].
  intros p v. rewrite lookup_insert_Some. intros [[<- <-]|[_ H]]; [apply Hx; lia|by apply Hm].
Qed.

Lemma record_topics_reads Q topics : Forall (fun p => po_ErrorCode p = 0 -> Q (po_Partition p) (po_Offset p)) (concat topics) ->
  forall m, reads Q m -> reads Q (record_topics m topics).
Proof.
  unfold record_topics. induction topics as [|t topics IH]; intros H m Hm; [done|]. cbn [concat foldl] in *. apply Forall_app in H as [H1 H2].
  apply IH; [done|]. by apply record_partitions_reads.
Qed.

Lemma record_groups_reads Q groups : Forall (fun p => po_ErrorCode p = 0 -> Q (po_Partition p) (po_Offset p)) (concat (concat groups)) ->
  forall m, reads Q m -> reads Q (foldl record_topics m groups).
Proof.
  induction groups as [|g groups IH]; intros H m Hm; [done|]. cbn [concat foldl] in *. rewrite concat_app in H. apply Forall_app in H as [H1 H2].
  apply IH; [done|]. by apply record_topics_reads.
Qed.

Lemma reads_empty Q : reads Q ∅.
Proof. intros p v. by rewrite lookup_empty. Qed.

(** A map of three of the partitions has them all. *)
Lemma reads_all (m : gmap Z Z) Q : reads (fun p v => p ∈ probe_partitions /\ Q p v) m -> size m = length probe_partitions ->
  forall p, p ∈ probe_partitions -> exists v, m !! p = Some v /\ Q p v.
Proof.
  intros Hm Hs p Hp. assert (Hd : dom m ⊆ list_to_set probe_partitions).
  { intros q [v Hv]%elem_of_dom. apply elem_of_list_to_set. by apply (Hm q v). }
  assert (He : dom m = list_to_set probe_partitions).
  { apply set_subseteq_size_eq; [done|]. rewrite size_dom, Hs. done. }
  assert (Hin : p ∈ dom m) by (rewrite He; by apply elem_of_list_to_set). apply elem_of_dom in Hin as [v Hv]. exists v. split; [done|]. by apply (Hm p v).
Qed.

Lemma offsetsCaughtUp_spec ends committed : offsetsCaughtUp ends committed = true ->
  forall p e, ends !! p = Some e -> 0 <= e /\ (committed !! p = Some e \/ e = 0).
Proof.
  unfold offsetsCaughtUp. case_bool_decide as Hne; [done|]. rewrite forallb_forall. intros H p e He.
  specialize (H (p, e) (proj1 (list_elem_of_In _ _) (proj2 (elem_of_map_to_list _ _ _) He))). cbn beta iota zeta in H.
  destruct (e <? 0) eqn:E0; [done|]. bool_to_prop. split; [lia|]. destruct (e =? 0) eqn:E1; [right; lia|]. cbn [andb] in H.
  destruct (committed !! p) as [o|]; [|done]. left. f_equal. lia.
Qed.

(** ** Reading the progress *)

Context {PL : OffsetProbeLaws}.

Lemma read_progress ctx w : exists w1 w2, let '(progress, w') := readOffsetProgress ctx w in
  during w w1 /\ during w1 w2 /\ during w2 w' /\
  (op_available progress && offsetsCaughtUp (op_End progress) (op_Committed progress) = true ->
   forall p, p ∈ probe_partitions -> log_end w p <= 0 \/ log_end w p <= offset w2 p).
Proof.
  unfold readOffsetProgress. destruct (ends_read ctx probe_partitions w) as (w1 & D1 & D1' & H1).
  destruct (ListOffsets ctx probe_topic probe_partitions w) as [r1 wa]. cbn [fst snd] in *.
  destruct (committed_read ctx probe_partitions wa) as (w2 & D2 & D2' & H2).
  destruct (OffsetFetch ctx probe_group probe_topic probe_partitions wa) as [r2 wb]. cbn [fst snd] in *. exists w1, w2.
  split; [done|]. split; [by transitivity wa|]. split; [done|]. cbn [op_available op_End op_Committed].
  intros Hc p Hp. apply andb_true_iff in Hc as [Hs Hc]. apply andb_true_iff in Hs as [Hs1 Hs2]. apply Nat.eqb_eq in Hs1, Hs2.
  destruct r1 as [topics1|e1]; [|by rewrite map_size_empty in Hs1]. destruct r2 as [[groups topics2]|e2]; [|by rewrite map_size_empty in Hs2].
  specialize (H1 _ eq_refl). specialize (H2 _ _ eq_refl). apply Forall_app in H2 as [H2g H2t].
  destruct (reads_all _ (fun p v => v = log_end w1 p) (record_topics_reads _ _ (Forall_impl _ _ _ H1 (fun x Hx E => conj (proj1 Hx) (proj2 Hx E))) ∅ (reads_empty _)) Hs1 p Hp)
    as (e & He & Hend).
  set (Q := fun q v => v = offset w2 q \/ v = -1) in *.
  destruct (reads_all _ Q (record_topics_reads _ _ (Forall_impl _ _ _ H2t (fun x Hx E => conj (proj1 Hx) (proj2 Hx E))) _
    (record_groups_reads _ _ (Forall_impl _ _ _ H2g (fun x Hx E => conj (proj1 Hx) (proj2 Hx E))) ∅ (reads_empty _))) Hs2 p Hp) as (o & Ho & Hoff).
  destruct (offsetsCaughtUp_spec _ _ Hc p e He) as [He0 [Heq|Hz]]; pose proof (during_log _ _ D1 p) as Hlog; [right|left; lia].
  rewrite Ho in Heq. injection Heq as ->. destruct Hoff as [->|Hm]; [lia|]. lia.
Qed.

Context {BL : BatchStoreLaws BS} {TL : TimersLaws T}.
Hypothesis good_ok : forall rd, good rd -> ClusterLaws C rd L /\ valid_config (config rd) /\ no_overflow (config rd).

(** All that was in the topic at [w] is done at [w']. *)
Definition topic_done (w w' : W) : Prop :=
  forall p i r, p ∈ probe_partitions -> 0 <= i < log_end w p -> L p i = Some r -> processed (obs w') r.

Lemma during_safe w w' : during w w' -> Inv L (obs w) -> Inv L (obs w') /\ grows (obs w) (obs w').
Proof. intros [Hl _ _]. by apply (life_safe good L good_ok). Qed.

Lemma read_done ctx w : Inv L (obs w) -> let '(progress, w') := readOffsetProgress ctx w in
  during w w' /\ Inv L (obs w') /\
  (op_available progress && offsetsCaughtUp (op_End progress) (op_Committed progress) = true -> topic_done w w').
Proof.
  intros HI. destruct (read_progress ctx w) as (w1 & w2 & H). destruct (readOffsetProgress ctx w) as [progress w'].
  destruct H as (D1 & D2 & D3 & Hc). assert (D : during w w') by (transitivity w2; [by transitivity w1|done]).
  split; [done|]. split; [by apply (during_safe w w')|]. intros Hp p i r Hin Hi Hr.
  destruct (during_safe w w2) as [HI2 _]; [by transitivity w1|done|]. destruct (during_safe w2 w' D3 HI2) as [_ Hg].
  eapply processed_mono; [exact Hg|]. apply (HI2 p i r); [|done]. cbn [o_offset obs]. destruct (Hc Hp p Hin); lia.
Qed.

Lemma wait_loop_spec probe deadline w0 : ctx_Err probe deadline <> None -> forall fuel n w, n = S fuel ->
  deadline - now w < Z.of_nat fuel * (50 * Millisecond) -> Inv L (obs w) -> during w0 w ->
  exists err w', wait_loop (S n) probe w = Some (err, w') /\ during w w' /\ (err = None -> topic_done w0 w').
Proof.
  intros Hd. induction fuel as [|fuel IH]; intros n w En Hf HI H0; cbn [wait_loop];
    pose proof (read_done probe w HI) as Hr; destruct (readOffsetProgress probe w) as [progress w1]; destruct Hr as (D1 & HI1 & Hc);
    (assert (H0d : topic_done w w1 -> topic_done w0 w1) by (intros Ht p i r Hp Hi; apply Ht; [done|]; pose proof (during_log _ _ H0 p); lia));
    (destruct (_ && _); [eexists _, _; split; [done|]; split; [done|by auto]|]); unfold waitUntil;
    rewrite Z.max_r by (unfold Millisecond; lia);
    pose proof (wait_during probe (now w1 + 50 * Millisecond) w1) as Dw;
    pose proof (wait_ready probe (now w1 + 50 * Millisecond) w1) as Hrdy;
    destruct (probe_wait probe (now w1 + 50 * Millisecond) w1) as [fin w2] eqn:Ew; cbn [fst snd] in Dw, Hrdy.
  - assert (Hp : ctx_Err probe (now w1) <> None).
    { eapply ctx_Err_mono; [|exact Hd]. pose proof (during_clock _ _ D1). lia. }
    rewrite (Hrdy Hp ltac:(unfold Millisecond; lia)) in *. apply wait_done in Ew. destruct (ctx_Err probe (now w2)); [|done].
    eexists _, _. split; [done|]. split; [by transitivity w1|done].
  - assert (D2 : during w w2) by (by transitivity w1). destruct fin.
    { apply wait_done in Ew. destruct (ctx_Err probe (now w2)); [|done]. eexists _, _. split; [done|]. split; [done|done]. }
    apply wait_fired in Ew. subst n. destruct (IH (S fuel) w2 eq_refl) as (err & w' & Hl & D3 & Ht).
    + pose proof (during_clock _ _ D1). unfold Millisecond in *. lia.
    + by apply (during_safe w1 w2).
    + by transitivity w.
    + exists err, w'. split; [exact Hl|]. split; [by transitivity w2|done].
Qed.

(** The clock of a client with these laws. *)
#[local] Instance laws_clock : ProbeClock P.
Proof.
  constructor; [intros brokers w; apply during_clock, client_during| | |apply wait_done|apply wait_fired|apply wait_ready].
  - intros ctx ps w. destruct (ends_read ctx ps w) as (w1 & D1 & D2 & _). apply during_clock. by transitivity w1.
  - intros ctx ps w. destruct (committed_read ctx ps w) as (w1 & D1 & D2 & _). apply during_clock. by transitivity w1.
Qed.

Lemma WaitConsumerCaughtUp_spec ctx brokers w : Inv L (obs w) ->
  exists err w', WaitConsumerCaughtUp ctx brokers w = Some (err, w') /\ life good w w' /\ (err = None -> topic_done w w').
Proof.
  intros HI. unfold WaitConsumerCaughtUp. case_bool_decide; [eexists _, _; split; [done|]; split; [apply life_refl|done]|].
  pose proof (client_during brokers w) as D1. destruct (NewClient brokers w) as [[e|] w1]; cbn [snd] in D1.
  { eexists _, _. split; [done|]. split; [apply D1|done]. }
  destruct (WithTimeout_expires ctx (now w) (30 * Second) (now w + 30 * Second) ltac:(lia)) as [e He].
  destruct (wait_loop_spec (WithTimeout ctx (now w) (30 * Second)) (now w + 30 * Second) w ltac:(by rewrite He) 601 602 w1 eq_refl)
    as (err & w2 & Hl & D2 & Ht); [pose proof (during_clock _ _ D1); unfold Second, Millisecond; lia|by apply (during_safe w w1)|done|].
  change wait_fuel with 603%nat. rewrite Hl. pose proof (close_during w2) as D3. assert (D : during w (CloseClient w2)) by (transitivity w2; [by transitivity w1|done]).
  eexists _, _. split; [done|]. split; [apply D|]. intros Hn p i r Hp Hi Hr. destruct (during_safe w w2) as [HI2 _]; [by transitivity w1|done|].
  destruct (during_safe w2 _ D3 HI2) as [_ Hg]. eapply processed_mono; [exact Hg|]. by eapply (Ht Hn).
Qed.

(** C6: the wait before the cleanup.  [WaitConsumerCaughtUp] returns, after at
    most 603 looks at the offsets, while the consumer goes on; if every call
    of the broker's client answers within [d], it is back 30.1 seconds and
    [5 * d] after it was called.  When it returns nil, every record that was
    in the topic when it was called has been stored or quarantined, so that
    none can be replayed onto rows the benchmark deletes. *)
Theorem caught_up_means_done ctx brokers w :
  Inv L (obs w) ->
  exists err w', WaitConsumerCaughtUp ctx brokers w = Some (err, w') /\ life good w w' /\
    (forall d, prompt d -> now w' <= now w + 30 * Second + 100 * Millisecond + 5 * d) /\
    (err = None -> forall p i r, p ∈ probe_partitions -> 0 <= i < log_end w p -> L p i = Some r -> processed (obs w') r).
Proof.
  intros HI. destruct (WaitConsumerCaughtUp_spec ctx brokers w HI) as (err & w' & E & Hl & Hd). exists err, w'.
  split; [exact E|]. split; [exact Hl|]. split; [|exact Hd]. intros d Hp. by eapply (WaitConsumerCaughtUp_prompt (PC := laws_clock)).
Qed.
End Laws.
