(* ===== verification/SimProbe.v ===== *)
(** * Waiting for a concrete consumer *)
From S2P Require Import Prelude GoBytes GoTime GoJson Event EventProps Runtime Persistence Telemetry PersistenceProps Publisher Reader ReaderFacts ReaderProps Delivery Progress Config Instances Sim ProgressProbe.

(** Between two looks at the offsets the consumer runs a cycle, with a new
    client. *)
Definition probe_cycle (w : SimWorld) : SimWorld :=
  match Run_for sim_forever 1 Background (mkSys (sim_client w) None [] []) with Some (_, s) => s_world s | None => w end.

Definition set_clock (t : Z) (w : SimWorld) : SimWorld := mkSim t (sim_table w) (sim_dlq w) (sim_offset w) (sim_position w) (sim_broker w) (sim_script w).

Definition probe_end (w : SimWorld) (p : Z) : Z := if p =? 0 then Z.of_nat (length sim_topic) else 0.

(** What the consumer does between two looks is [between]. *)
Section SimProbe.
Variable between : SimWorld -> SimWorld.

Definition sim_probe : OffsetProbe :=
  {| NewClient _ w := (None, w);
     CloseClient w := w;
     ListOffsets _ _ ps w := (Ok [map (fun p => mkPartitionOffset p 0 (probe_end w p)) ps], w);
     OffsetFetch _ _ _ ps w :=
       (Ok ([[map (fun p => mkPartitionOffset p 0 (if 0 <? sim_offset w p then sim_offset w p else -1)) ps]], []), w);
     probe_wait c fire w :=
       match ctx_Err c (sim_clock w) with
       | Some _ => (true, w)
       | None => (false, set_clock (Z.max fire (sim_clock w)) (between w))
       end;
     log_end := probe_end |}.

Definition only_forever (rd : Reader) : Prop := rd = sim_forever.

Hypothesis between_life : forall w, life only_forever w (between w).

Lemma probe_cycle_life w : life only_forever w (probe_cycle w).
Proof.
  unfold probe_cycle. case_match eqn:E; [|apply life_refl]. case_match.
  apply (life_idle _ w (sim_client w)); [reflexivity|].
  eapply (life_run _ _ 1 Background (mkSys (sim_client w : @W SimW) None [] [])); [reflexivity|discriminate|exact E|apply life_refl].
Qed.

Lemma sim_probe_laws : OffsetProbeLaws (P := sim_probe) only_forever.
Proof.
  constructor.
  - intros brokers w. reflexivity.
  - intros w. reflexivity.
  - intros ctx ps w. exists w. split; [reflexivity|]. split; [reflexivity|]. intros topics [= <-]. cbn [concat]. rewrite app_nil_r.
    apply Forall_forall. intros x (p & -> & Hp)%list_elem_of_fmap. done.
  - intros ctx ps w. exists w. split; [reflexivity|]. split; [reflexivity|]. intros groups topics [= <- <-]. cbn [concat app]. rewrite !app_nil_r.
    apply Forall_forall. intros x (p & -> & Hp)%list_elem_of_fmap. cbn. split; [done|]. intros _. destruct (0 <? sim_offset w p); auto.
  - intros c fire w. cbn. destruct (ctx_Err c (sim_clock w)); [reflexivity|]. split; [|done|cbn; lia].
    eapply life_trans; [apply between_life|]. by apply life_frame.
  - intros c fire w w'. cbn. destruct (ctx_Err c (sim_clock w)) eqn:E; [|done]. intros [= <-]. cbn. by rewrite E.
  - intros c fire w w'. cbn. destruct (ctx_Err c (sim_clock w)); [done|]. intros [= <-]. cbn. lia.
  - intros c fire w Hc _. cbn in *. by destruct (ctx_Err c (sim_clock w)).
Qed.
End SimProbe.

(** A client that answers at once, of a consumer that is down. *)
Lemma sim_probe_prompt : prompt (P := sim_probe id) 0.
Proof.
  split; [done|..]; intros; cbn; try lia. destruct (ctx_Err _ _); cbn; lia.
Qed.

Lemma only_forever_ok rd : only_forever rd -> ClusterLaws SimCluster rd (sim_log sim_topic) /\ valid_config (config rd) /\ no_overflow (config rd).
Proof. intros ->. split; [apply SimUntilLaws, sim_topic_wf|apply sim_config_valid]. Qed.

#[local] Instance SimProbeLaws : OffsetProbeLaws (P := sim_probe probe_cycle) only_forever := sim_probe_laws probe_cycle probe_cycle_life.
#[local] Instance SimDownLaws : OffsetProbeLaws (P := sim_probe id) only_forever := sim_probe_laws id (life_refl only_forever).

(** The first cycle ends with a failed commit; all is done after the next
    ones. *)
Definition probe_run : option (goerr * SimWorld) := WaitConsumerCaughtUp (P := sim_probe probe_cycle) Background (lit "b") (sim_start [Succeeds; FailsBefore]).

Lemma probe_run_nil : match probe_run with Some (None, w) => sim_offset w 0 =? Z.of_nat (length sim_topic) | _ => false end = true.
Proof. vm_compute. reflexivity. Qed.

(** While the consumer is down the wait is back after at most 30.1 seconds. *)
Lemma caught_up_means_done_witness :
  (exists w', probe_run = Some (None, w') /\ forall p i r, p ∈ probe_partitions -> 0 <= i < probe_end w' p -> sim_log sim_topic p i = Some r ->
    processed (obs w') r) /\
  exists err w', WaitConsumerCaughtUp (P := sim_probe id) Background (lit "b") (sim_start []) = Some (err, w') /\ sim_clock w' <= sim_clock (sim_start []) + 30100 * Millisecond.
Proof.
  assert (HI : forall script, Inv (sim_log sim_topic) (obs (sim_start script))).
  { intros script p i r Hi Hr. unfold sim_log in Hr. cbn in Hi. destruct ((p =? 0) && (0 <=? i)) eqn:Ei; [|discriminate Hr]. bool_to_prop. lia. }
  split.
  - pose proof probe_run_nil as H.
    destruct (caught_up_means_done only_forever (sim_log sim_topic) (PL := SimProbeLaws) only_forever_ok Background (lit "b") (sim_start [Succeeds; FailsBefore]))
      as (err & w' & Hr & _ & _ & Hd); [apply HI|].
    unfold probe_run in *. rewrite Hr in H. destruct err as [e|]; [discriminate H|]. exists w'. split; [exact Hr|]. exact (Hd eq_refl).
  - destruct (caught_up_means_done only_forever (sim_log sim_topic) (PL := SimDownLaws) only_forever_ok Background (lit "b") (sim_start []))
      as (err & w' & Hr & _ & Hp & _); [apply HI|].
    exists err, w'. split; [exact Hr|]. specialize (Hp 0 sim_probe_prompt). unfold Second in Hp. unfold Millisecond in *. cbn in *. lia.
Defined.
