(* ===== verification/Observer.v ===== *)
(** * The pending observer: [internal/benchmark/observer.go], and the [observe]
    of [RunPipeline]

    The observer keeps the identifiers it has not seen in a temporary table of
    its own session and removes, in one transaction, those that have a row.
    [RunPipeline] makes a new observer when a session failed and it may
    reconnect.  The session is a parameter ([ObserverSession]). *)
From S2P Require Import Prelude GoBytes GoTime GoJson Event EventFacts Runtime Persistence BenchAccounting LoadGen.

(** pgx: a connection with the temporary table.  [DeleteStored] is the DELETE
    ... USING ... RETURNING: what [Scan] makes of each row and the error that
    ended them.  [waiting] is the committed content of the temporary table,
    [taken] what the open transaction has removed from it. *)
Class ObserverSession {U : UUIDLib} {Wd : World} := {
  Conn : Type;
  Acquire : Context -> W -> res Conn * W;
  CreatePending : Context -> Conn -> W -> goerr * W;
  CopyPending : Context -> Conn -> list uuid -> W -> goerr * W;
  HijackClose : Context -> Conn -> W -> goerr * W;
  BeginObserve : Context -> Conn -> W -> goerr * W;
  DeleteStored : Context -> Conn -> bytes -> W -> res (list (res StoredObservation) * goerr) * W;
  clock_timestamp : Context -> Conn -> W -> res Z * W;
  CommitObserve : Context -> Conn -> W -> goerr * W;
  RollbackObserve : Context -> Conn -> W -> W;
  DropPending : Context -> Conn -> W -> goerr * W;
  ReleaseConn : Conn -> W -> W;
  waiting : W -> Conn -> gset uuid;
  taken : W -> Conn -> gset uuid
}.

Section Observer.
Context {U : UUIDLib} {Wd : World} {S : ObserverSession}.

(** [ob_conn] is [None] when the observer is closed. *)
Record PendingObserver := mkObserver { ob_conn : option Conn; ob_tenant : bytes; ob_queries : Z; ob_queryNS : Z }.

(** The first occurrences, in order. *)
Fixpoint unique_ids (ids : list uuid) (seen : gset uuid) : list uuid :=
  match ids with
  | [] => []
  | id :: rest => if bool_decide (id ∈ seen) then unique_ids rest seen else id :: unique_ids rest ({[id]} ∪ seen)
  end.

Definition NewPendingObserver (ctx : Context) (tenant : bytes) (ids : list uuid) (w : W) : res PendingObserver * W :=
  let fail conn err w :=
    let '(cerr, w) := HijackClose (WithTimeout Background (now w) (2 * Second)) conn w in
    (match errors_Join [Some err; cerr] with Some e => Err e | None => Err err end, w) in
  match Acquire ctx w with
  | (Err err, w) => (Err err, w)
  | (Ok conn, w) =>
      match CreatePending ctx conn w with
      | (Some err, w) => fail conn err w
      | (None, w) =>
          match CopyPending ctx conn (unique_ids ids ∅) w with
          | (Some err, w) => fail conn err w
          | (None, w) => (Ok (mkObserver (Some conn) tenant 0 0), w)
          end
      end
  end.

(** The rows that were read, or the error of a [Scan]. *)
Fixpoint scan_rows (rows : list (res StoredObservation)) : res (list StoredObservation) :=
  match rows with
  | [] => Ok []
  | Err e :: _ => Err e
  | Ok v :: rest => let? out := scan_rows rest in Ok (v :: out)
  end.

(** The transaction of [Observe], with the number of queries it made. *)
Definition observe_tx (ctx : Context) (conn : Conn) (tenant : bytes) (w : W) : res (list StoredObservation) * Z * W :=
  match DeleteStored ctx conn tenant w with
  | (Err err, w) => (Err err, 1, w)
  | (Ok (rows, rerr), w) =>
      match scan_rows rows, rerr with
      | Err err, _ => (Err err, 1, w)
      | Ok _, Some err => (Err err, 1, w)
      | Ok [], None =>
          match CommitObserve ctx conn w with
          | (Some err, w) => (Err err, 2, w)
          | (None, w) => (Ok [], 2, w)
          end
      | Ok out, None =>
          match clock_timestamp ctx conn w with
          | (Err err, w) => (Err err, 2, w)
          | (Ok clock, w) =>
              match CommitObserve ctx conn w with
              | (Some err, w) => (Err err, 3, w)
              | (None, w) => (Ok (map (fun v => mkStoredObservation (so_ID v) (so_ReceivedAt v) (Some clock)) out), 3, w)
              end
          end
      end
  end.

Definition Observe (o : PendingObserver) (ctx : Context) (w : W) : res (list StoredObservation) * PendingObserver * W :=
  match ob_conn o with
  | None => (Err (ENew "observer is closed"), o, w)
  | Some conn =>
      let start := now w in
      match BeginObserve ctx conn w with
      | (Some err, w) => (Err err, mkObserver (Some conn) (ob_tenant o) (ob_queries o + 1) (ob_queryNS o + (now w - start)), w)
      | (None, w) =>
          let '(r, queries, w) := observe_tx ctx conn (ob_tenant o) w in
          let w := RollbackObserve (WithTimeout Background (now w) Second) conn w in
          (r, mkObserver (Some conn) (ob_tenant o) (ob_queries o + 1 + queries) (ob_queryNS o + (now w - start)), w)
      end
  end.

Definition Stats (o : PendingObserver) : Z * Z := (ob_queries o, ob_queryNS o).

Definition Observer_Close (o : PendingObserver) (ctx : Context) (w : W) : goerr * PendingObserver * W :=
  match ob_conn o with
  | None => (None, o, w)
  | Some conn =>
      let closed := mkObserver None (ob_tenant o) (ob_queries o) (ob_queryNS o) in
      match DropPending ctx conn w with
      | (Some _, w) => let '(err, w) := HijackClose (WithTimeout Background (now w) (2 * Second)) conn w in (err, closed, w)
      | (None, w) => (None, closed, ReleaseConn conn w)
      end
  end.

(** ** [closeObserver] and [observe] of [RunPipeline] *)

Record Watch := mkWatch { wa_pending : option PendingObserver; wa_already : gset uuid; wa_queries : Z }.

Definition closeObserver (s : Watch) (w : W) : goerr * Watch * W :=
  match wa_pending s with
  | None => (None, s, w)
  | Some o =>
      let '(err, _, w) := Observer_Close o (WithTimeout Background (now w) (3 * Second)) w in
      (err, mkWatch None (wa_already s) (wa_queries s + fst (Stats o)), w)
  end.

Definition remaining (ids : list uuid) (already : gset uuid) : list uuid := filter (fun id => id ∉ already) ids.

Definition observe (reconnect : bool) (tenant : bytes) (ids : list uuid) (ctx : Context) (s : Watch) (w : W)
    : res (list StoredObservation) * Watch * W :=
  let probeCtx := WithTimeout ctx (now w) (2 * Second) in
  let alive w := reconnect && bool_decide (ctx_Err ctx (now w) = None) in
  let observe_with o s w :=
    match Observe o probeCtx w with
    | (Err err, o, w) =>
        let s := mkWatch (Some o) (wa_already s) (wa_queries s) in
        if alive w then let '(_, s, w) := closeObserver s w in (Err errObserverUnavailable, s, w) else (Err err, s, w)
    | (Ok rows, o, w) => (Ok rows, mkWatch (Some o) (list_to_set (map so_ID rows) ∪ wa_already s) (wa_queries s), w)
    end in
  match wa_pending s with
  | Some o => observe_with o s w
  | None =>
      match NewPendingObserver probeCtx tenant (remaining ids (wa_already s)) w with
      | (Err err, w) => (Err (if alive w then errObserverUnavailable else err), s, w)
      | (Ok o, w) => observe_with o (mkWatch (Some o) (wa_already s) (wa_queries s + 2)) w
      end
  end.
End Observer.
