(* ===== verification/ObserverProps.v ===== *)
(** * Properties of the pending observer

    Every event is observed once, through failed transactions, commits whose
    outcome is not known and reconnections. *)
From S2P Require Import Prelude GoBytes GoTime GoJson Event EventFacts Runtime Persistence BenchAccounting LoadGen Observer.

(** Rows are not removed while the observer is at work.  The DELETE takes the
    identifiers of the temporary table that have a row at some moment of the
    statement; a transaction changes the temporary table when it commits, and
    a failed commit may have been applied. *)
Class ObserverLaws {U : UUIDLib} {Wd : World} {D : Database} (S : ObserverSession) := {
  Acquire_grows ctx w : table w ⊆ table (snd (Acquire ctx w));
  CreatePending_grows ctx conn w : table w ⊆ table (snd (CreatePending ctx conn w));
  CopyPending_grows ctx conn ids w : table w ⊆ table (snd (CopyPending ctx conn ids w));
  CopyPending_ok ctx conn ids w w' : CopyPending ctx conn ids w = (None, w') -> waiting w' conn = list_to_set ids;
  HijackClose_grows ctx conn w : table w ⊆ table (snd (HijackClose ctx conn w));
  BeginObserve_frame ctx conn w : let w' := snd (BeginObserve ctx conn w) in table w ⊆ table w' /\ waiting w' conn = waiting w conn;
  DeleteStored_frame ctx conn tenant w :
    let w' := snd (DeleteStored ctx conn tenant w) in table w ⊆ table w' /\ waiting w' conn = waiting w conn;
  DeleteStored_ok ctx conn tenant w rows w' out :
    DeleteStored ctx conn tenant w = (Ok (rows, None), w') -> scan_rows rows = Ok out ->
    taken w' conn = list_to_set (map so_ID out) /\ NoDup (map so_ID out) /\
    exists w1, table w ⊆ table w1 /\ table w1 ⊆ table w' /\
      forall id, id ∈ map so_ID out <-> id ∈ waiting w conn /\ is_Some (table w1 !! (tenant, uuid_String id));
  clock_frame ctx conn w : let w' := snd (clock_timestamp ctx conn w) in
    table w ⊆ table w' /\ waiting w' conn = waiting w conn /\ taken w' conn = taken w conn;
  CommitObserve_grows ctx conn w : table w ⊆ table (snd (CommitObserve ctx conn w));
  CommitObserve_ok ctx conn w w' : CommitObserve ctx conn w = (None, w') -> waiting w' conn = waiting w conn ∖ taken w conn;
  CommitObserve_err ctx conn w e w' : CommitObserve ctx conn w = (Some e, w') ->
    waiting w' conn = waiting w conn \/ waiting w' conn = waiting w conn ∖ taken w conn;
  RollbackObserve_frame ctx conn w : let w' := RollbackObserve ctx conn w in table w ⊆ table w' /\ waiting w' conn = waiting w conn;
  DropPending_grows ctx conn w : table w ⊆ table (snd (DropPending ctx conn w));
  ReleaseConn_grows conn w : table w ⊆ table (ReleaseConn conn w)
}.

Section Facts.
Context {U : UUIDLib} {Wd : World} {D : Database} {S : ObserverSession} {SL : ObserverLaws S}.

Definition has_row (tenant : bytes) (w : W) (id : uuid) : Prop := is_Some (table w !! (tenant, uuid_String id)).

Lemma has_row_mono tenant w w' id : table w ⊆ table w' -> has_row tenant w id -> has_row tenant w' id.
Proof. intros Hs [r Hr]. exists r. by eapply lookup_weaken. Qed.

Lemma elem_of_unique_ids ids seen x : x ∈ unique_ids ids seen <-> x ∈ ids /\ x ∉ seen.
Proof.
  revert seen. induction ids as [|id ids IH]; intros seen; cbn [unique_ids]; [set_solver|]. case_bool_decide as Hs.
  - rewrite IH, elem_of_cons. split; [tauto|]. intros [[->|Hx] Hn]; [done|done].
  - rewrite !elem_of_cons, IH, elem_of_union, elem_of_singleton. destruct (decide (x = id)) as [->|Hne]; tauto.
Qed.

Lemma new_observer_spec ctx tenant ids w : let '(r, w') := NewPendingObserver ctx tenant ids w in
  table w ⊆ table w' /\
  match r with
  | Ok o => exists conn, ob_conn o = Some conn /\ ob_tenant o = tenant /\ waiting w' conn = list_to_set ids
  | Err _ => True
  end.
Proof.
  unfold NewPendingObserver. pose proof (Acquire_grows ctx w) as G1. destruct (Acquire ctx w) as [[conn|e] w1]; [|done]. cbn [snd] in G1.
  assert (Hfail : forall err w2, table w ⊆ table w2 -> let '(r, w') :=
    (let '(cerr, w3) := HijackClose (WithTimeout Background (now w2) (2 * Second)) conn w2 in
     (match errors_Join [Some err; cerr] with Some e => @Err PendingObserver e | None => Err err end, w3)) in
    table w ⊆ table w' /\ match r with
    | Ok o => exists conn, ob_conn o = Some conn /\ ob_tenant o = tenant /\ waiting w' conn = list_to_set ids | Err _ => True end).
  { intros err w2 Hs. pose proof (HijackClose_grows (WithTimeout Background (now w2) (2 * Second)) conn w2) as G. destruct (HijackClose _ _ _) as [cerr w3].
    cbn [snd] in G. split; [by etransitivity|by destruct (errors_Join _)]. }
  pose proof (CreatePending_grows ctx conn w1) as G2. destruct (CreatePending ctx conn w1) as [[e|] w2]; cbn [snd] in G2; [apply Hfail; by etransitivity|].
  pose proof (CopyPending_grows ctx conn (unique_ids ids ∅) w2) as G3. destruct (CopyPending ctx conn _ w2) as [[e|] w3] eqn:Ec; cbn [snd] in G3.
  { apply Hfail. etransitivity; [exact G1|]. by etransitivity. }
  split; [etransitivity; [exact G1|]; by etransitivity|]. exists conn. split; [done|]. split; [done|].
  rewrite (CopyPending_ok _ _ _ _ _ Ec). apply set_eq. intros x. rewrite !elem_of_list_to_set, elem_of_unique_ids. set_solver.
Qed.

(** What a call of [Observe] does to the temporary table and what it
    reports. *)
Definition observed (tenant : bytes) (conn : Conn) (w w' : W) (r : res (list StoredObservation)) : Prop :=
  table w ⊆ table w' /\ waiting w' conn ⊆ waiting w conn /\
  match r with
  | Ok rows =>
      NoDup (map so_ID rows) /\ waiting w' conn = waiting w conn ∖ list_to_set (map so_ID rows) /\
      (forall id, id ∈ map so_ID rows -> id ∈ waiting w conn /\ has_row tenant w' id) /\
      (forall id, id ∈ waiting w conn -> has_row tenant w id -> id ∈ map so_ID rows)
  | Err _ => True
  end.

Lemma commit_spec ctx conn w : let '(err, w') := CommitObserve ctx conn w in
  table w ⊆ table w' /\ waiting w' conn ⊆ waiting w conn /\ (err = None -> waiting w' conn = waiting w conn ∖ taken w conn).
Proof.
  pose proof (CommitObserve_grows ctx conn w) as G. destruct (CommitObserve ctx conn w) as [[e|] w'] eqn:E; cbn [snd] in G; (split; [done|]).
  - apply CommitObserve_err in E as [-> | ->]; (split; [set_solver|done]).
  - apply CommitObserve_ok in E as ->. split; [set_solver|done].
Qed.

Lemma observe_tx_spec ctx conn tenant w : let '(r, _, w') := observe_tx ctx conn tenant w in observed tenant conn w w' r.
Proof.
  unfold observe_tx, observed. pose proof (DeleteStored_frame ctx conn tenant w) as F. cbv zeta in F.
  destruct (DeleteStored ctx conn tenant w) as [[[rows [rerr|]]|err] w1] eqn:Ed; cbn [snd] in F; destruct F as [G1 W1].
  1: by destruct (scan_rows rows) as [[|v out]|e]; (split; [done|]; split; [set_solver|]).
  2: by split; [done|]; split; [set_solver|].
  destruct (scan_rows rows) as [out|e] eqn:Es; [|by split; [done|]; split; [set_solver|]].
  destruct (DeleteStored_ok _ _ _ _ _ _ _ Ed Es) as (Ht & Hnd & w0 & G0 & G0' & Hiff). clear Ed Es rows.
  assert (Hdone : forall w2 w3 ids, ids = map so_ID out -> table w1 ⊆ table w3 -> waiting w2 conn = waiting w conn -> taken w2 conn = taken w1 conn ->
    waiting w3 conn = waiting w2 conn ∖ taken w2 conn ->
    NoDup ids /\ waiting w3 conn = waiting w conn ∖ list_to_set ids /\
    (forall id, id ∈ ids -> id ∈ waiting w conn /\ has_row tenant w3 id) /\ (forall id, id ∈ waiting w conn -> has_row tenant w id -> id ∈ ids)).
  { intros w2 w3 ids -> G3 W2 T2 W3. split; [done|]. split; [by rewrite W3, W2, T2, Ht|]. split; intros id Hid.
    - apply Hiff in Hid as [Hw Hr]. split; [done|]. eapply has_row_mono; [|exact Hr]. by transitivity (table w1).
    - intros Hr. apply Hiff. split; [done|]. by eapply has_row_mono. }
  destruct out as [|v out'] eqn:Eo.
  - pose proof (commit_spec ctx conn w1) as Hc. rewrite W1 in Hc. destruct (CommitObserve ctx conn w1) as [[e|] w2]; destruct Hc as (G2 & S2 & C2);
      (split; [by transitivity (table w1)|]; split; [exact S2|]); [done|].
    apply (Hdone w1); [done|done|done|done|]. rewrite W1. by apply C2.
  - rewrite <- Eo in *. pose proof (clock_frame ctx conn w1) as Fc. cbv zeta in Fc. destruct (clock_timestamp ctx conn w1) as [[clock|e] w2]; cbn [snd] in Fc;
      destruct Fc as (G2 & W2 & T2); rewrite W1 in W2; [|split; [by transitivity (table w1)|]; split; [by rewrite W2|done]].
    pose proof (commit_spec ctx conn w2) as Hc. destruct (CommitObserve ctx conn w2) as [[e|] w3]; destruct Hc as (G3 & S3 & C3);
      (split; [transitivity (table w1); [done|]; by transitivity (table w2)|]); (split; [rewrite <- W2; exact S3|]); [done|].
    apply (Hdone w2); [by rewrite map_map|by transitivity (table w2)|done|done|by apply C3].
Qed.

Lemma Observe_spec o conn ctx w : ob_conn o = Some conn -> let '(r, o', w') := Observe o ctx w in
  ob_conn o' = Some conn /\ ob_tenant o' = ob_tenant o /\ observed (ob_tenant o) conn w w' r.
Proof.
  intros Hc. unfold Observe. rewrite Hc. cbv zeta. pose proof (BeginObserve_frame ctx conn w) as F. cbv zeta in F.
  destruct (BeginObserve ctx conn w) as [[e|] w1]; cbn [snd] in F; destruct F as [G1 W1].
  { split; [done|]. split; [done|]. split; [done|]. split; [set_solver|done]. }
  pose proof (observe_tx_spec ctx conn (ob_tenant o) w1) as Ht. destruct (observe_tx ctx conn (ob_tenant o) w1) as [[r q] w2].
  pose proof (RollbackObserve_frame (WithTimeout Background (now w2) Second) conn w2) as F2. cbv zeta in F2.
  set (w3 := RollbackObserve _ conn w2) in *. destruct F2 as [G3 W3]. split; [done|]. split; [done|].
  destruct Ht as (G2 & S2 & Hr). split; [transitivity (table w1); [done|]; by transitivity (table w2)|]. split; [set_solver|].
  destruct r as [rows|e]; [|done]. destruct Hr as (H1 & H2 & H3 & H4). rewrite W1 in H2, H3, H4. rewrite <- W3 in H2. split; [done|]. split; [done|]. split.
  - intros id Hid. destruct (H3 id Hid) as [Ha Hb]. split; [done|]. by eapply has_row_mono.
  - intros id Hid Hr. apply H4; [done|]. by eapply has_row_mono.
Qed.

Lemma close_grows o ctx w : let '(_, _, w') := Observer_Close o ctx w in table w ⊆ table w'.
Proof.
  unfold Observer_Close. destruct (ob_conn o) as [conn|]; [|done]. cbv zeta. pose proof (DropPending_grows ctx conn w) as G1.
  destruct (DropPending ctx conn w) as [[e|] w1]; cbn [snd] in G1.
  - pose proof (HijackClose_grows (WithTimeout Background (now w1) (2 * Second)) conn w1) as G2. destruct (HijackClose _ _ _) as [e2 w2]. by etransitivity.
  - etransitivity; [exact G1|]. apply ReleaseConn_grows.
Qed.

(** ** A case being watched

    What [RunPipeline] knows of its identifiers: those reported so far, and
    whether none has got lost in a transaction whose outcome is not known. *)
Variables (reconnect : bool) (tenant : bytes) (ids : list uuid).

Definition reported_ids (r : res (list StoredObservation)) : list uuid := match r with Ok rows => map so_ID rows | Err _ => [] end.

Inductive watching : bool -> Watch -> list uuid -> W -> Prop :=
  | watch_start ctx w o w' : NewPendingObserver ctx tenant ids w = (Ok o, w') -> watching true (mkWatch (Some o) ∅ 0) [] w'
  (** rows are stored between two calls *)
  | watch_idle clean s reported w w' :
      watching clean s reported w -> table w ⊆ table w' -> (forall conn, waiting w' conn = waiting w conn) -> watching clean s reported w'
  | watch_look clean s reported w ctx r s' w' :
      watching clean s reported w -> observe reconnect tenant ids ctx s w = (r, s', w') ->
      watching (bool_decide (wa_pending s' = None) || clean && is_ok r) s' (reported ++ reported_ids r) w'.

Record watched (clean : bool) (s : Watch) (reported : list uuid) (w : W) : Prop := {
  watched_already : wa_already s = list_to_set reported;
  watched_nodup : NoDup reported;
  watched_rows : Forall (fun id => id ∈ ids /\ has_row tenant w id) reported;
  watched_pending o : wa_pending s = Some o -> exists conn, ob_conn o = Some conn /\ ob_tenant o = tenant /\
    (forall id, id ∈ waiting w conn -> id ∈ ids /\ id ∉ reported) /\
    (clean = true -> forall id, id ∈ ids -> id ∈ waiting w conn \/ id ∈ reported)
}.

Lemma rows_mono w w' l : table w ⊆ table w' -> Forall (fun id => id ∈ ids /\ has_row tenant w id) l -> Forall (fun id => id ∈ ids /\ has_row tenant w' id) l.
Proof. intros G H. eapply Forall_impl; [exact H|]. intros id [H1 H2]. split; [done|]. by eapply has_row_mono. Qed.

(** The step of [observe] that is left when there is an observer. *)
Definition looked (clean : bool) (reported : list uuid) (w : W) (r : res (list StoredObservation)) (s' : Watch) (w' : W) : Prop :=
  table w ⊆ table w' /\ watched (bool_decide (wa_pending s' = None) || clean && is_ok r) s' (reported ++ reported_ids r) w' /\
  (clean = true -> is_ok r = true -> forall id, id ∈ ids -> has_row tenant w id -> id ∈ reported ++ reported_ids r).

Lemma look_with clean s reported w o probe alive : watched clean s reported w -> wa_pending s = Some o ->
  let '(r, s', w') :=
    match Observe o probe w with
    | (Err err, o, w) =>
        let s := mkWatch (Some o) (wa_already s) (wa_queries s) in
        if alive w : bool then let '(_, s, w) := closeObserver s w in (Err errObserverUnavailable, s, w) else (Err err, s, w)
    | (Ok rows, o, w) => (Ok rows, mkWatch (Some o) (list_to_set (map so_ID rows) ∪ wa_already s) (wa_queries s), w)
    end in looked clean reported w r s' w'.
Proof.
  intros [A N R P] Hp. destruct (P o Hp) as (conn & Hconn & Ht & Hw & Hcl). pose proof (Observe_spec o conn probe w Hconn) as H.
  destruct (Observe o probe w) as [[[rows|err] o'] w1]; destruct H as (Hc' & Ht' & G & S1 & Hr); rewrite Ht in *.
  - destruct Hr as (Hnd & Hwait & Hin & Hall). split; [done|]. split; [split|].
    + cbn [wa_already reported_ids]. rewrite A, list_to_set_app_L. apply (comm_L (∪)).
    + cbn [reported_ids]. apply NoDup_app. split; [done|]. split; [|done]. intros id H1 H2. destruct (Hin id H2) as [H3 _]. by apply Hw in H3 as [_ H3].
    + apply Forall_app_2; [by eapply rows_mono|]. apply Forall_forall. intros id Hid. destruct (Hin id Hid) as [H1 H2]. split; [by apply Hw|done].
    + intros o2 [= <-]. exists conn. split; [done|]. split; [congruence|]. cbn [reported_ids]. split.
      * intros id Hid. rewrite Hwait in Hid. apply elem_of_difference in Hid as [H1 H2]. rewrite elem_of_list_to_set in H2.
        destruct (Hw id H1) as [H3 H4]. split; [done|]. rewrite elem_of_app. tauto.
      * cbn [wa_pending is_ok]. rewrite bool_decide_false by done. rewrite andb_true_r. intros Hclean id Hid. rewrite elem_of_app.
        destruct (Hcl Hclean id Hid) as [H1|H1]; [|tauto]. rewrite Hwait, elem_of_difference, elem_of_list_to_set.
        destruct (decide (id ∈ map so_ID rows)); tauto.
    + intros Hclean _ id Hid Hrow. cbn [reported_ids]. rewrite elem_of_app. destruct (Hcl Hclean id Hid) as [H1|H1]; [|tauto]. right. by apply Hall.
  - cbv zeta. destruct (alive w1).
    + unfold closeObserver. cbn [wa_pending]. pose proof (close_grows o' (WithTimeout Background (now w1) (3 * Second)) w1) as G2.
      destruct (Observer_Close _ _ w1) as [[e o2] w2]. assert (G3 : table w ⊆ table w2) by (by transitivity (table w1)).
      split; [done|]. split; [|done]. cbn [reported_ids]. rewrite app_nil_r. split; [done|done|by eapply rows_mono|done].
    + split; [done|]. split; [|done]. cbn [reported_ids]. rewrite app_nil_r. split; [done|done|by eapply rows_mono|].
      intros o2 [= <-]. exists conn. split; [done|]. split; [congruence|]. split; [intros id Hid; by apply Hw, S1|].
      cbn [wa_pending is_ok]. rewrite bool_decide_false, andb_false_r by done. done.
Qed.

Lemma observe_looked clean s reported w ctx : watched clean s reported w ->
  let '(r, s', w') := observe reconnect tenant ids ctx s w in looked (clean || bool_decide (wa_pending s = None)) reported w r s' w'.
Proof.
  intros Hs. unfold observe. cbv zeta. destruct (wa_pending s) as [o|] eqn:Ep.
  { rewrite bool_decide_false, orb_false_r by done. by apply (look_with clean s reported w o). }
  rewrite bool_decide_true, orb_true_r by done. destruct Hs as [A N R _].
  pose proof (new_observer_spec (WithTimeout ctx (now w) (2 * Second)) tenant (remaining ids (wa_already s)) w) as Hn.
  destruct (NewPendingObserver _ _ _ w) as [[o|err] w1]; destruct Hn as [G Ho].
  2: { split; [done|]. split; [|done]. cbn [reported_ids]. rewrite app_nil_r. split; [done|done|by eapply rows_mono|by rewrite Ep]. }
  assert (Hw1 : watched true (mkWatch (Some o) (wa_already s) (wa_queries s + 2)) reported w1).
  { split; [done|done|by eapply rows_mono|]. intros o2 [= <-]. destruct Ho as (conn & H1 & H2 & H3). exists conn. split; [done|]. split; [done|].
    rewrite A in H3. unfold remaining in H3. split.
    - intros id Hid. rewrite H3, elem_of_list_to_set, list_elem_of_filter, elem_of_list_to_set in Hid. tauto.
    - intros _ id Hid. rewrite H3, elem_of_list_to_set, list_elem_of_filter, elem_of_list_to_set. destruct (decide (id ∈ reported)); tauto. }
  assert (Hback : forall t, (let '(r, s', w') := t in looked true reported w1 r s' w') -> let '(r, s', w') := t in looked true reported w r s' w').
  { intros [[r s'] w'] (G2 & H2 & H3). split; [by transitivity (table w1)|]. split; [done|]. intros Hc Hr id Hid Hrow.
    apply (H3 eq_refl Hr id Hid). by eapply has_row_mono. }
  apply Hback. exact (look_with true (mkWatch (Some o) (wa_already s) (wa_queries s + 2)) reported w1 o (WithTimeout ctx (now w) (2 * Second))
    (fun w => reconnect && bool_decide (ctx_Err ctx (now w) = None)) Hw1 eq_refl).
Qed.

Lemma watching_watched clean s reported w : watching clean s reported w -> watched clean s reported w.
Proof.
  induction 1 as [ctx w o w' Hn|clean s reported w w' _ IH G Hw|clean s reported w ctx r s' w' _ IH Ho].
  - pose proof (new_observer_spec ctx tenant ids w) as H. rewrite Hn in H. destruct H as (_ & conn & H1 & H2 & H3).
    split; [done|constructor|constructor|]. intros o2 [= <-]. exists conn. split; [done|]. split; [done|]. rewrite H3. split.
    + intros id Hid%elem_of_list_to_set. split; [done|set_solver].
    + intros _ id Hid. left. by apply elem_of_list_to_set.
  - destruct IH as [A N R P]. split; [done|done|by eapply rows_mono|]. intros o Ho. destruct (P o Ho) as (conn & H). exists conn. by rewrite Hw.
  - pose proof (observe_looked clean s reported w ctx IH) as H. rewrite Ho in H. destruct H as (_ & H & _).
    destruct H as [A N R P]. split; [done|done|done|]. intros o2 Hp. destruct (P o2 Hp) as (conn & H1 & H2 & H3 & H4). exists conn. do 3 (split; [done|]).
    intros Hc. apply H4. rewrite bool_decide_false in Hc |- * by congruence. cbn [orb] in *. apply andb_true_iff in Hc as [-> ->]. done.
Qed.

(** C29: an event is observed once.  Over a whole case, with transactions that
    fail, commits that may or may not have been applied, and sessions that
    are given up and made again, no identifier is reported twice, and each
    that is reported belongs to the case and has a row.  A call that succeeds
    leaves none behind (every identifier that had a row when the call began
    has been reported) if every earlier call on the present session has
    succeeded too, which [clean] says, or if there is none because the last
    was given up.  After a call that failed on a session that is kept, which
    is what happens without [reconnect], this is not claimed: the failed
    commit may have been applied, and what it took is then reported by none. *)
Theorem observed_once clean s reported w ctx r s' w' :
  watching clean s reported w -> observe reconnect tenant ids ctx s w = (r, s', w') ->
  NoDup (reported ++ reported_ids r) /\
  Forall (fun id => id ∈ ids /\ is_Some (table w' !! (tenant, uuid_String id))) (reported ++ reported_ids r) /\
  (clean = true \/ wa_pending s = None -> is_ok r = true ->
   forall id, id ∈ ids -> is_Some (table w !! (tenant, uuid_String id)) -> id ∈ reported ++ reported_ids r).
Proof.
  intros Hw Ho. apply watching_watched in Hw. pose proof (observe_looked clean s reported w ctx Hw) as H. rewrite Ho in H.
  destruct H as (_ & [A N R P] & Hall). split; [done|]. split; [done|]. intros Hc. apply Hall.
  apply orb_true_iff. destruct Hc as [->|Hp]; [by left|right; by apply bool_decide_eq_true].
Qed.
End Facts.
