(* ===== verification/Pipeline.v ===== *)
(** * The pipeline benchmark: [RunPipeline] of [internal/benchmark/pipeline.go]

    A case is checked, sampled by the load generator of LoadGen, verified in
    the database and removed again.  What [send] and [observe] do, they do in
    the world, in the order of the events of the sample; the order is given
    by an oracle ([sample_schedule], with what the hook [SampleStarted] does).  The HTTP exchange and the statements on
    the rows of a case are parameters too ([PipelineHost]). *)
From S2P Require Import Prelude GoBytes GoTime GoJson GoEncode Event EventFacts Runtime Persistence GoFloat BenchAccounting Demo Workload LoadGen Observer.

(** The hooks are arguments where they are called; the two limits of the HTTP
    transport, which shape connections and no result, are left out. *)
Record PipelineConfig := mkPipelineConfig {
  pl_ReconnectObserver : bool;
  pl_Namespace : bytes;
  pl_PayloadProfile : bytes;
  pl_Pool : bool;                (** not nil *)
  pl_Transport : bool;           (** nil or an [*http.Transport] *)
  pl_APIURL : bytes;
  pl_APIKey : bytes;
  pl_Tenant : bytes;
  pl_Pattern : bytes;
  pl_Seed : Z;
  pl_Rate : Z;
  pl_Concurrency : Z;
  pl_BatchSize : Z;
  pl_PayloadBytes : Z;
  pl_Repetitions : Z;
  pl_Duration : Z;
  pl_Warmup : Z;
  pl_DrainDeadline : Z;
  pl_PollInterval : Z
}.

(** What the goroutines of a sample did and when: its start, its events in
    order, the instant of [cancelObservation] and the sample's end. *)
Record Schedule {U : UUIDLib} := mkSchedule { sc_started : Z; sc_events : list LoadGen.event; sc_cancelled : Z; sc_end : Z }.

(** [request_ok] tells whether [http.NewRequestWithContext] takes the URL; a
    POST of a batch yields a status and a body. *)
Class PipelineHost {U : UUIDLib} {Wd : World} := {
  request_ok : bytes -> bool;
  post_batch : Context -> bytes -> bytes -> bytes -> W -> res (Z * bytes) * W;
  SelectCase : Context -> bytes -> bytes -> list uuid -> W -> res (list StoredRow * goerr) * W;
  DeleteCase : Context -> bytes -> list uuid -> bytes -> W -> W;
  sample_schedule : SampleConfig -> list uuid -> W -> Schedule * W
}.

Section Pipeline.
Context {U : UUIDLib} {Wd : World} {S : ObserverSession} {H : PipelineHost}.
Context (NewSHA1 : bytes -> uuid) (same_json : bytes -> bytes -> bool).

(** ** [send] *)

(** What the answer says of the batch [ids]. *)
Definition send_outcome (ids : list uuid) (response : res (Z * bytes)) : sendResult :=
  match response with
  | Err _ => mkSendResult 0 [] false true 0 0 0
  | Ok (status, body) =>
      if negb (status =? 202) then mkSendResult status [] false (500 <=? status) 0 0 0
      else match decode_ack body with
           | Some acked => if bool_decide (ids = acked) then mkSendResult status [] true false 0 0 0 else mkSendResult status [] false true 0 0 0
           | None => mkSendResult status [] false true 0 0 0
           end
  end.

Definition send (c : PipelineConfig) (byID : gmap uuid Input) (ctx : Context) (ids : list uuid) (w : W) : sendResult * W :=
  let zero := mkInput uuid_Nil [] zero_Time [] in
  match batch_json (map (fun id => default zero (byID !! id)) ids) with
  | None => (mkSendResult 0 [] false false 0 0 0, w)
  | Some raw =>
      let requestCtx := WithTimeout ctx (now w) (8 * Second) in
      let url := pl_APIURL c ++ lit "/v1/events/batch" in
      if negb (request_ok url) then (mkSendResult 0 [] false false 0 0 0, w)
      else let '(response, w) := post_batch requestCtx url (lit "Bearer " ++ pl_APIKey c) raw w in (send_outcome ids response, w)
  end.

(** ** A sample in the world *)

Definition sample_config (c : PipelineConfig) : SampleConfig :=
  mkSampleConfig (Z.to_nat (pl_Concurrency c)) (Z.to_nat (pl_BatchSize c)) (pl_Duration c) (pl_DrainDeadline c) (pl_PollInterval c) (pl_Pattern c)
    (pl_ReconnectObserver c).

(** [context.WithCancel], cancelled at an instant. *)
Definition WithCancel (parent : Context) (at_ : Z) : Context :=
  match done_at parent with
  | Some (t, _) => if t <=? at_ then parent else mkContext (Some (at_, context_Canceled))
  | None => mkContext (Some (at_, context_Canceled))
  end.

(** The events with what [send] and [observe] really return. *)
Definition drive_event (c : PipelineConfig) (byID : gmap uuid Input) (ids : list uuid) (ctx observeCtx : Context) (e : LoadGen.event) (s : Sample) (wa : Watch) (w : W)
    : option (LoadGen.event * Watch * W) :=
  match e with
  | EFinish k _ t =>
      match g_workers (s_gen s) !! k with
      | Some (Sending job _) => let '(v, w) := send c byID ctx job w in Some (EFinish k v t, wa, w)
      | _ => None
      end
  | EProbed _ _ t =>
      match observe (pl_ReconnectObserver c) (pl_Tenant c) ids observeCtx wa w with
      | (Ok rows, wa, w) => Some (EProbed rows None t, wa, w)
      | (Err err, wa, w) => Some (EProbed [] (Some err) t, wa, w)
      end
  | _ => Some (e, wa, w)
  end.

Fixpoint drive_sample (c : PipelineConfig) (byID : gmap uuid Input) (ids : list uuid) (ctx observeCtx : Context) (started : Z) (es : list LoadGen.event)
    (s : Sample) (wa : Watch) (w : W) : option (Sample * Watch * W) :=
  match es with
  | [] => Some (s, wa, w)
  | e :: rest =>
      match drive_event c byID ids ctx observeCtx e s wa w with
      | None => None
      | Some (e, wa, w) =>
          match step_sample (sample_config c) ids started s e with
          | None => None
          | Some s => drive_sample c byID ids ctx observeCtx started rest s wa w
          end
      end
  end.

(** [runPipelineSample] with these two functions. *)
Definition run_sample_in (c : PipelineConfig) (rep : Z) (byID : gmap uuid Input) (ids : list uuid) (ctx : Context) (wa : Watch) (w : W)
    : option (SampleReport * goerr * Z * Watch * W) :=
  let '(sc, w) := sample_schedule (sample_config c) ids w in
  let started := sc_started sc in
  match drive_sample c byID ids ctx (WithCancel ctx (sc_cancelled sc)) started (sc_events sc) (new_sample (sample_config c) started) wa w with
  | None => None
  | Some (s, wa, w) =>
      match finish_sample (sample_config c) ids started rep s (sc_end sc) with
      | None => None
      | Some (r, err) => Some (r, err, started, wa, w)
      end
  end.

(** ** One case *)

(** What is known of a repetition. *)
Record MeasuredRun := mkMeasured {
  mr_run : PipelineRun;
  mr_Backlog : list BacklogSample;
  mr_DrainNS : Z;
  mr_VerificationNS : Z;
  mr_ObserverQueries : Z
}.

Definition zero_run : PipelineRun :=
  mkRun (mkFacts 0 [] [] [] 0 0 0 0 0 0 0 0 0 0 0 0 []) [] 0 ∅ 0 0 0 0 0 0 0 0 0 0 None false [] "" "" "" "".
Definition zero_measured : MeasuredRun := mkMeasured zero_run [] 0 0 0.

Definition set_TotalNS (total : Z) (r : PipelineRun) : PipelineRun :=
  let f := facts r in
  mkRun (mkFacts (Repetition f) (AttemptedIDs f) (AcceptedIDs f) (AmbiguousIDs f) (GeneratorMissed f) (LateSchedules f) (Rejected f) (Ambiguous f)
           (AttemptedAfterWindow f) (AcceptedAfterWindow f) (AcceptedInWindow f) (ObserverLatePolls f) (ObserverOutages f) (ObserverSlowQueries f)
           total (WindowNS f) (VisibilityNS f))
    (StoredIDs r) (ContentMismatch r) (IDSetSHA256 r) (Missing r) (Unexpected r) (DuplicateRows r) (AmbiguousPersisted r) (AmbiguousUnobserved r)
    (Accepted r) (Persisted r) (VerifiedCompletionEPS r) (AcceptedEPS r) (VisibilitySampleCount r) (VisibilityMetric r) (Correct r) (LimitReasons r)
    (LoadStatus r) (DeliveryStatus r) (ObservationStatus r) (Outcome r).

Definition set_observation (metric : option Latency) (status outcome : string) (r : PipelineRun) : PipelineRun :=
  mkRun (facts r) (StoredIDs r) (ContentMismatch r) (IDSetSHA256 r) (Missing r) (Unexpected r) (DuplicateRows r) (AmbiguousPersisted r)
    (AmbiguousUnobserved r) (Accepted r) (Persisted r) (VerifiedCompletionEPS r) (AcceptedEPS r) (VisibilitySampleCount r) metric (Correct r)
    (LimitReasons r) (LoadStatus r) (DeliveryStatus r) status outcome.

Definition VerifyPipelineRows (ctx : Context) (tenant : bytes) (expected : list Envelope) (required : list uuid) (w : W)
    : goerr * PipelineVerification * W :=
  match expected with
  | [] => (Some (ENew "no expected pipeline dataset"), mkVerification [] 0 0 0, w)
  | e :: _ =>
      let '(query, w) := SelectCase ctx tenant (EventType (env_Input e)) (map (fun e => EventID (env_Input e)) expected) w in
      let '(err, v) := verifySelectedRows same_json expected required query in (err, v, w)
  end.

(** From the sample to the verdict. *)
Definition measure_case (ctx : Context) (c : PipelineConfig) (rep : Z) (es : list Envelope) (ids : list uuid) (pending : PendingObserver) (w : W)
    : option (MeasuredRun * goerr * W) :=
  let byID : gmap uuid Input := foldl (fun m e => <[EventID (env_Input e) := env_Input e]> m) ∅ es in
  match run_sample_in c rep byID ids ctx (mkWatch (Some pending) ∅ 0) w with
  | None => None
  | Some (sample, sampleErr, started, wa, w) =>
      let '(closeErr, wa, w) := closeObserver wa w in
      let verificationStarted := now w in
      let '(verifyErr, verified, w) :=
        VerifyPipelineRows (WithTimeout ctx (now w) (pl_DrainDeadline c)) (pl_Tenant c) es (AcceptedIDs (facts (sp_run sample))) w in
      let total := now w - started in
      let '(reconcileErr, run) := finalizePipelineVerification (set_TotalNS total (sp_run sample)) verified verifyErr in
      let backlog := sp_Backlog sample ++
        [mkBacklogSample (Missing run) (bool_decide (verifyErr = None)) true total (Accepted run) (Persisted run)] in
      let closeErr := option_map EObservation closeErr in
      let run := match closeErr with Some _ => set_observation None "failed" "limited" run | None => run end in
      let result := errors_Join [sampleErr; closeErr; reconcileErr] in
      let run := if bool_decide (result <> None) && negb (observationOnly result)
                 then set_observation (VisibilityMetric run) (ObservationStatus run) "failed" run else run in
      Some (mkMeasured run backlog (Z.max 0 (total - WindowNS (facts run))) (now w - verificationStarted) (wa_queries wa), result, w)
  end.

(** [cfg.SampleFinished], when there is one. *)
Variable sampleFinished : option (Z -> W -> goerr * W).

Definition run_case (ctx : Context) (c : PipelineConfig) (rep : Z) (w : W) : option (MeasuredRun * goerr * W) :=
  let count := int_of_float (fmul (float_of_int (pl_Rate c)) (Seconds (pl_Duration c))) in
  match Workload NewSHA1 (mkWorkloadConfig (pl_Namespace c) (pl_PayloadProfile c) (pl_Seed c + rep) count (pl_PayloadBytes c) (Some 0%Q)) with
  | Err e => Some (zero_measured, Some e, w)
  | Ok es =>
      let ids := map (fun e => EventID (env_Input e)) es in
      let '(e, existing, w) := VerifyPipelineRows ctx (pl_Tenant c) es [] w in
      match v_StoredIDs existing, e with
      | [], Some e => Some (zero_measured, Some e, w)
      | _ :: _, _ =>
          Some (zero_measured, Some (ENew "case namespace or event IDs already exist; choose a new namespace or an isolated stack"), w)
      | [], None =>
          let finish run err w :=
            let '(err, w) := match sampleFinished with
                             | Some f => let '(ferr, w) := f rep w in (errors_Join [err; ferr], w)
                             | None => (err, w)
                             end in
            let typ := match es with e :: _ => EventType (env_Input e) | [] => [] end in
            Some (run, err, DeleteCase (WithTimeout Background (now w) (5 * Second)) (pl_Tenant c) ids typ w) in
          match NewPendingObserver ctx (pl_Tenant c) ids w with
          | (Err e, w) => finish zero_measured (Some e) w
          | (Ok pending, w) =>
              match measure_case ctx c rep es ids pending w with
              | None => None
              | Some (run, err, w) => finish run err w
              end
          end
      end
  end.

(** ** [RunPipeline] *)

Definition pipeline_ok (c : PipelineConfig) : bool :=
  negb (negb (pl_Pool c) || (pl_Rate c <=? 0) || (pl_Concurrency c <=? 0) || (1000 <? pl_Concurrency c) || (pl_Duration c <=? 0) ||
        (pl_DrainDeadline c <=? 0) || (pl_PollInterval c <=? 0) || (pl_BatchSize c <=? 0) || (100 <? pl_BatchSize c) || (pl_Repetitions c <? 3) ||
        bool_decide (pl_Tenant c = []) || (negb (bool_decide (pl_Pattern c = lit "steady")) && negb (bool_decide (pl_Pattern c = lit "burst")))).

Fixpoint run_repetitions (ctx : Context) (c : PipelineConfig) (reps : list Z) (runs : list MeasuredRun) (observationErrors : goerr) (w : W)
    : option (list MeasuredRun * goerr * W) :=
  match reps with
  | [] => Some (runs, observationErrors, w)
  | i :: rest =>
      match run_case ctx c i w with
      | None => None
      | Some (v, None, w) => run_repetitions ctx c rest (runs ++ [v]) observationErrors w
      | Some (v, Some e, w) =>
          if negb (observationOnly (Some e)) then Some (runs ++ [v], Some e, w)
          else run_repetitions ctx c rest (runs ++ [v]) (errors_Join [observationErrors; Some e]) w
      end
  end.

Definition set_warm (c : PipelineConfig) : PipelineConfig :=
  mkPipelineConfig (pl_ReconnectObserver c) (pl_Namespace c) (pl_PayloadProfile c) (pl_Pool c) (pl_Transport c) (pl_APIURL c) (pl_APIKey c) (pl_Tenant c)
    (pl_Pattern c) (pl_Seed c - 1000000) (pl_Rate c) (pl_Concurrency c) (pl_BatchSize c) (pl_PayloadBytes c) (pl_Repetitions c) (pl_Warmup c) (pl_Warmup c)
    (pl_DrainDeadline c) (pl_PollInterval c).

(** [namespace] is the identifier [uuid.NewString] returned. *)
Definition with_defaults (namespace : bytes) (c : PipelineConfig) : PipelineConfig :=
  mkPipelineConfig (pl_ReconnectObserver c) (if bool_decide (pl_Namespace c = []) then namespace else pl_Namespace c)
    (if bool_decide (pl_PayloadProfile c = []) then lit "varied" else pl_PayloadProfile c) (pl_Pool c) (pl_Transport c) (pl_APIURL c) (pl_APIKey c)
    (pl_Tenant c) (pl_Pattern c) (pl_Seed c) (pl_Rate c) (pl_Concurrency c) (pl_BatchSize c) (pl_PayloadBytes c) (pl_Repetitions c) (pl_Duration c)
    (pl_Warmup c) (pl_DrainDeadline c) (pl_PollInterval c).

Definition RunPipeline (ctx : Context) (namespace : bytes) (c : PipelineConfig) (w : W) : option (list MeasuredRun * goerr * W) :=
  let c := with_defaults namespace c in
  if negb (pipeline_ok c) then Some ([], Some (ENew "invalid pipeline configuration"), w)
  else
    match ValidatePipelineWorkload NewSHA1 (mkPipelineWindow (pl_Namespace c) (pl_Rate c) (pl_Duration c) (pl_BatchSize c) (pl_PayloadBytes c)) with
    | Some err => Some ([], Some err, w)
    | None =>
        if negb (pl_Transport c) then Some ([], Some (ENew "pipeline instrumentation requires an HTTP transport"), w)
        else
          let measured w := run_repetitions ctx c (seqZ 1 (pl_Repetitions c)) [] None w in
          if 0 <? pl_Warmup c then
            match run_case ctx (set_warm c) 0 w with
            | None => None
            | Some (_, Some e, w) => if negb (observationOnly (Some e)) then Some ([], Some (EWrap "warm-up" e), w) else measured w
            | Some (_, None, w) => measured w
            end
          else measured w
    end.
End Pipeline.
