(* ===== verification/PipelineProps.v ===== *)
(** * Properties of the pipeline benchmark

    What a report of [RunPipeline] is evidence of, and that a benchmark leaves
    the rows it found alone. *)
From S2P Require Import Prelude GoBytes GoTime GoJson GoEncode Event EventFacts Runtime Persistence GoFloat Demo Workload BenchAccounting BenchProps BenchStudyProps LoadGen LoadGenProps Observer ObserverProps Pipeline.

(** Nobody else removes rows during a benchmark.  A selection without error
    lists every row of the case that was there when it began, the DELETE
    removes rows of the case only, and an error of the pool is not one of the
    benchmark's own observation errors. *)
Class PipelineLaws {U : UUIDLib} {Wd : World} {D : Database} (S : ObserverSession) (H : PipelineHost) := {
  post_grows ctx url auth raw w : table w ⊆ table (snd (post_batch ctx url auth raw w));
  schedule_grows c ids w : table w ⊆ table (snd (sample_schedule c ids w));
  SelectCase_grows ctx tenant typ ids w : table w ⊆ table (snd (SelectCase ctx tenant typ ids w));
  SelectCase_complete ctx tenant typ ids w rows w' :
    SelectCase ctx tenant typ ids w = (Ok (rows, None), w') ->
    forall id, id ∈ ids -> is_Some (table w !! (tenant, uuid_String id)) -> id ∈ map row_id rows;
  SelectCase_err ctx tenant typ ids w : match fst (SelectCase ctx tenant typ ids w) with
    | Err e | Ok (_, Some e) => observationOnly_err e = false | _ => True end;
  DeleteCase_frame ctx tenant ids typ w k r :
    table w !! k = Some r -> (forall id, id ∈ ids -> k <> (tenant, uuid_String id)) -> table (DeleteCase ctx tenant ids typ w) !! k = Some r;
  Acquire_err ctx w e w' : Acquire ctx w = (Err e, w') -> observationOnly_err e = false;
  CreatePending_err ctx conn w e w' : CreatePending ctx conn w = (Some e, w') -> observationOnly_err e = false;
  CopyPending_err ctx conn ids w e w' : CopyPending ctx conn ids w = (Some e, w') -> observationOnly_err e = false
}.

(** Errors a run may have: none, or observation errors only. *)
Definition tolerable (err : goerr) : Prop := err = None \/ observationOnly err = true.

Lemma tolerable_join es : tolerable (errors_Join es) <-> Forall tolerable es.
Proof.
  unfold tolerable. rewrite errors_Join_nil. split.
  - intros [H|H]; [eapply Forall_impl; [exact H|by left]|]. unfold errors_Join in H. apply Forall_forall. intros [e|] He; [right|by left].
    assert (Hin : e ∈ omap id es) by (apply list_elem_of_omap; by exists (Some e)).
    destruct (omap id es) as [|x l]; [done|]. cbn [observationOnly observationOnly_err] in H. apply andb_true_iff in H as [_ H].
    eapply forallb_forall in H; [exact H|by apply list_elem_of_In].
  - intros H. destruct (errors_Join es) as [e|] eqn:E; [right|left; by apply errors_Join_nil].
    unfold errors_Join in E. destruct (omap id es) as [|x l] eqn:El; [done|]. injection E as <-. cbn [observationOnly observationOnly_err negb andb].
    apply forallb_forall. intros y Hy%list_elem_of_In. rewrite <- El in Hy. apply list_elem_of_omap in Hy as ([z|] & Hz & Heq); [|done].
    cbn in Heq. injection Heq as ->. eapply Forall_forall in H as [H|H]; [| |exact Hz]; done.
Qed.

Section Facts.
Context {U : UUIDLib} {Wd : World} {D : Database} {S : ObserverSession} {SL : ObserverLaws S} {H : PipelineHost} {PL : PipelineLaws S H}.
Context (NewSHA1 : bytes -> uuid) (same_json : bytes -> bytes -> bool) (sampleFinished : option (Z -> W -> goerr * W)).
Hypothesis hook_grows : forall f rep w, sampleFinished = Some f -> table w ⊆ table (snd (f rep w)).

(** ** A sample in the world *)

Lemma send_grows c byID ctx ids w : table w ⊆ table (snd (send c byID ctx ids w)).
Proof.
  unfold send. cbv zeta. destruct (batch_json _) as [raw|]; [|done]. destruct (request_ok _); [|done]. cbn [negb].
  pose proof (post_grows (WithTimeout ctx (now w) (8 * Second)) (pl_APIURL c ++ lit "/v1/events/batch") (lit "Bearer " ++ pl_APIKey c) raw w) as G.
  by destruct (post_batch _ _ _ _ w) as [r w1].
Qed.

(** [observe] never removes a row, whatever the state of the observer. *)
Lemma Observe_grows o ctx w : let '(_, _, w') := Observe o ctx w in table w ⊆ table w'.
Proof.
  destruct (ob_conn o) as [conn|] eqn:Ec; [|unfold Observe; by rewrite Ec]. pose proof (Observe_spec o conn ctx w Ec) as Hs.
  destruct (Observe o ctx w) as [[r o'] w']. apply Hs.
Qed.

Lemma closeObserver_grows s w : let '(_, _, w') := closeObserver s w in table w ⊆ table w'.
Proof.
  unfold closeObserver. destruct (wa_pending s) as [o|]; [|done]. pose proof (close_grows o (WithTimeout Background (now w) (3 * Second)) w) as G.
  by destruct (Observer_Close _ _ w) as [[e o'] w'].
Qed.

Lemma observe_grows reconnect tenant ids ctx s w : let '(_, _, w') := observe reconnect tenant ids ctx s w in table w ⊆ table w'.
Proof.
  unfold observe. cbv zeta.
  assert (Hwith : forall o s w1, table w ⊆ table w1 -> let '(_, _, w') :=
    match Observe o (WithTimeout ctx (now w) (2 * Second)) w1 with
    | (Err err, o, w) =>
        let s := mkWatch (Some o) (wa_already s) (wa_queries s) in
        if reconnect && bool_decide (ctx_Err ctx (now w) = None) then let '(_, s, w) := closeObserver s w in (Err errObserverUnavailable, s, w)
        else (Err err, s, w)
    | (Ok rows, o, w) => (Ok rows, mkWatch (Some o) (list_to_set (map so_ID rows) ∪ wa_already s) (wa_queries s), w)
    end in table w ⊆ table w').
  { intros o s1 w1 G. pose proof (Observe_grows o (WithTimeout ctx (now w) (2 * Second)) w1) as G1.
    destruct (Observe o _ w1) as [[[rows|err] o'] w2]; [by transitivity (table w1)|]. cbv zeta.
    destruct (reconnect && _); [|by transitivity (table w1)]. pose proof (closeObserver_grows (mkWatch (Some o') (wa_already s1) (wa_queries s1)) w2) as G2.
    destruct (closeObserver _ w2) as [[e s2] w3]. transitivity (table w1); [done|]. by transitivity (table w2). }
  destruct (wa_pending s) as [o|]; [by apply (Hwith o s w)|].
  pose proof (new_observer_spec (WithTimeout ctx (now w) (2 * Second)) tenant (remaining ids (wa_already s)) w) as Hn.
  destruct (NewPendingObserver _ _ _ w) as [[o|err] w1]; destruct Hn as [G _]; [|done].
  exact (Hwith o (mkWatch (Some o) (wa_already s) (wa_queries s + 2)) w1 G).
Qed.

Lemma drive_event_grows c byID ids ctx octx e s wa w e' wa' w' :
  drive_event c byID ids ctx octx e s wa w = Some (e', wa', w') -> table w ⊆ table w'.
Proof.
  destruct e; cbn [drive_event]; try (by intros [= <- <- <-]).
  - destruct (g_workers (s_gen s) !! k) as [[| job at_ |]|]; [done| |done|done]. pose proof (send_grows c byID ctx job w) as G.
    destruct (send c byID ctx job w) as [v1 w1]. by intros [= <- <- <-].
  - pose proof (observe_grows (pl_ReconnectObserver c) (pl_Tenant c) ids octx wa w) as G.
    destruct (observe _ _ _ _ _ w) as [[[r|err1] s1] w1]; by intros [= <- <- <-].
Qed.

(** A sample driven in the world is a run of the load generator, with the
    answers [send] and [observe] gave. *)
Lemma drive_sample_runs c byID ids ctx octx started es : forall s wa w s' wa' w',
  drive_sample c byID ids ctx octx started es s wa w = Some (s', wa', w') ->
  table w ⊆ table w' /\ exists es', length es' = length es /\ run_sample (sample_config c) ids started s es' = Some s'.
Proof.
  induction es as [|e es IH]; intros s wa w s' wa' w'; cbn [drive_sample]; [intros [= <- <- <-]; split; [done|]; by exists []|].
  destruct (drive_event _ _ _ _ _ e s wa w) as [[[e1 wa1] w1]|] eqn:Ee; [|done]. apply drive_event_grows in Ee.
  destruct (step_sample _ _ _ s e1) as [s1|] eqn:Es; [|done]. intros Hd. destruct (IH _ _ _ _ _ _ Hd) as (G & es' & Hl & Hr).
  split; [by transitivity (table w1)|]. exists (e1 :: es'). split; [cbn [length]; congruence|]. cbn [run_sample]. by rewrite Es.
Qed.

Lemma run_sample_in_spec c rep byID ids ctx wa w r err started wa' w' : 0 < pl_Concurrency c -> 0 < pl_BatchSize c ->
  run_sample_in c rep byID ids ctx wa w = Some (r, err, started, wa', w') ->
  table w ⊆ table w' /\ Repetition (facts (sp_run r)) = rep /\
  (exists skipped, AttemptedIDs (facts (sp_run r)) ++ skipped ≡ₚ ids) /\
  (exists rejected, AttemptedIDs (facts (sp_run r)) ≡ₚ AcceptedIDs (facts (sp_run r)) ++ AmbiguousIDs (facts (sp_run r)) ++ rejected).
Proof.
  intros Hcc Hcb. assert (Hc' : (0 < g_Concurrency (sample_config c))%nat) by (cbn; lia).
  assert (Hb' : (0 < g_BatchSize (sample_config c))%nat) by (cbn; lia). unfold run_sample_in. pose proof (schedule_grows (sample_config c) ids w) as G. destruct (sample_schedule _ _ w) as [sc w1]. cbv zeta.
  destruct (drive_sample _ _ _ _ _ _ _ _ _ w1) as [[[s wa1] w2]|] eqn:Ed; [|done]. apply drive_sample_runs in Ed as (G2 & es' & _ & Hrun).
  destruct (finish_sample _ _ _ rep s _) as [[r1 err1]|] eqn:Ef; [|done]. intros [= <- <- <- <- <-].
  split; [by transitivity (table w1)|]. pose proof (run_sample_ok (sample_config c) ids _ Hc' Hb' _ _ _ Hrun (sample_ok_new _ _ _ Hc' Hb')) as Sok. unfold finish_sample in Ef.
  destruct (s_phase s) eqn:Ep; [done|done|]. destruct (p_exited _); [|done]. cbv zeta in Ef. unfold Reconcile in Ef. injection Ef as <- _.
  destruct (books_balance _ _ Hc' Hb' s Sok ltac:(congruence)) as (sk & rej & _ & _ & H3 & H4). split; [done|]. split; [by exists sk|by exists rej].
Qed.

(** ** The verdict on a repetition *)

Definition case_workload (c : PipelineConfig) (rep : Z) : res (list Envelope) :=
  Workload NewSHA1 (mkWorkloadConfig (pl_Namespace c) (pl_PayloadProfile c) (pl_Seed c + rep)
    (int_of_float (fmul (float_of_int (pl_Rate c)) (Seconds (pl_Duration c)))) (pl_PayloadBytes c) (Some 0%Q)).

Definition event_ids (es : list Envelope) : list uuid := map (fun e => EventID (env_Input e)) es.

(** A repetition passed: what its report says is what a selection of the rows
    of the case answered, after the sample and from a table that still held
    the rows of [t0]. *)
Definition passed_case (t0 : Table) (c : PipelineConfig) (rep : Z) (run : PipelineRun) : Prop :=
  let f := facts run in
  Repetition f = rep /\ Correct run = true /\ DeliveryStatus run = "passed"%string /\
  exists es rows typ ctx w1 w2,
    case_workload c rep = Ok es /\ t0 ⊆ table w1 /\ SelectCase ctx (pl_Tenant c) typ (event_ids es) w1 = (Ok (rows, None), w2) /\
    StoredIDs run = map row_id rows /\ NoDup (map row_id rows) /\
    (forall id, id ∈ AcceptedIDs f -> id ∈ map row_id rows) /\
    (exists skipped rejected, AttemptedIDs f ++ skipped ≡ₚ event_ids es /\ AttemptedIDs f ≡ₚ AcceptedIDs f ++ AmbiguousIDs f ++ rejected) /\
    Forall (fun row => row_id row ∈ AttemptedIDs f /\
      exists e, e ∈ es /\ EventID (env_Input e) = row_id row /\ row_matches same_json row e = true) rows.

Lemma passed_case_weaken t0 t0' c rep run : t0' ⊆ t0 -> passed_case t0 c rep run -> passed_case t0' c rep run.
Proof.
  intros G (H1 & H2 & H3 & es & rows & typ & ctx & w1 & w2 & H4 & H5 & H6). do 3 (split; [done|]). exists es, rows, typ, ctx, w1, w2.
  split; [done|]. split; [by transitivity t0|done].
Qed.

Lemma verify_grows ctx tenant es required w : let '(_, _, w') := VerifyPipelineRows same_json ctx tenant es required w in table w ⊆ table w'.
Proof.
  unfold VerifyPipelineRows. destruct es as [|e es]; [done|]. pose proof (SelectCase_grows ctx tenant (EventType (env_Input e)) (event_ids (e :: es)) w) as G.
  unfold event_ids in G. destruct (SelectCase _ _ _ _ w) as [q w1]. by destruct (verifySelectedRows _ _ _ _).
Qed.

(** An error of the verification is never an observation error. *)
Lemma verify_error ctx tenant es required w : let '(err, _, _) := VerifyPipelineRows same_json ctx tenant es required w in tolerable err -> err = None.
Proof.
  unfold VerifyPipelineRows. destruct es as [|e es]; [by intros [?|?]|].
  pose proof (SelectCase_err ctx tenant (EventType (env_Input e)) (map (fun e => EventID (env_Input e)) (e :: es)) w) as He.
  destruct (SelectCase _ _ _ _ w) as [q w1]. cbn [fst] in He. unfold verifySelectedRows, tolerable, observationOnly.
  destruct q as [[rows [err|]]|err]; cbv zeta; [by intros [?|?]; [|congruence]| |by intros [?|?]; [|congruence]].
  destruct (0 <? _); [|done]. by intros [?|?].
Qed.

Lemma reconcile_error r v verifyErr : (tolerable verifyErr -> verifyErr = None) ->
  tolerable (fst (finalizePipelineVerification r v verifyErr)) -> fst (finalizePipelineVerification r v verifyErr) = None.
Proof.
  intros Hv. unfold finalizePipelineVerification. pose proof (Reconcile_correct (set_stored (v_StoredIDs v) (v_ContentMismatch v) r)) as Hr.
  assert (He : let '(e, _) := Reconcile (set_stored (v_StoredIDs v) (v_ContentMismatch v) r) in tolerable e -> e = None).
  { unfold Reconcile. cbv zeta. destruct (negb _); [by intros [?|?]|done]. }
  destruct (Reconcile _) as [e r2]. cbn [fst]. rewrite tolerable_join, errors_Join_nil. intros [H1 [H2 _]%Forall_cons]%Forall_cons.
  constructor; [by apply Hv|]. constructor; [by apply He|constructor].
Qed.

(** The verification of a case and its verdict on the run [r]. *)
Lemma verdict_spec ctx tenant es total r w :
  let '(verifyErr, v, w') := VerifyPipelineRows same_json ctx tenant es (AcceptedIDs (facts r)) w in
  let '(err, r') := finalizePipelineVerification (set_TotalNS total r) v verifyErr in
  table w ⊆ table w' /\ facts r' = facts (set_TotalNS total r) /\ (tolerable err -> err = None) /\
  (err = None -> Correct r' = true /\ DeliveryStatus r' = "passed"%string /\
   exists typ rows, SelectCase ctx tenant typ (event_ids es) w = (Ok (rows, None), w') /\ StoredIDs r' = map row_id rows /\ NoDup (map row_id rows) /\
     (forall id, id ∈ AcceptedIDs (facts r) -> id ∈ map row_id rows) /\
     Forall (fun row => (row_id row ∈ AttemptedIDs (facts r) \/ row_id row ∈ AcceptedIDs (facts r)) /\
       exists e, e ∈ es /\ EventID (env_Input e) = row_id row /\ row_matches same_json row e = true) rows).
Proof.
  pose proof (verify_grows ctx tenant es (AcceptedIDs (facts r)) w) as G. pose proof (verify_error ctx tenant es (AcceptedIDs (facts r)) w) as Ve.
  unfold VerifyPipelineRows in *. destruct es as [|e0 es0].
  - pose proof (reconcile_error (set_TotalNS total r) (mkVerification [] 0 0 0) (Some (ENew "no expected pipeline dataset")) Ve) as Hre.
    destruct (finalizePipelineVerification _ _ _) as [err r'] eqn:Ef. split; [done|]. unfold finalizePipelineVerification in Ef.
    destruct (Reconcile _) as [e3 r3] eqn:Er. unfold Reconcile in Er. injection Er as _ <-. injection Ef as <- <-. done.
  - fold (event_ids (e0 :: es0)) in *. destruct (SelectCase _ _ _ (event_ids (e0 :: es0)) w) as [q w'] eqn:Eq.
    pose proof (passed_run_is_exact same_json (set_TotalNS total r) (e0 :: es0) q) as Hp. cbn [set_TotalNS facts AcceptedIDs AttemptedIDs] in Hp.
    destruct (verifySelectedRows _ _ _ _) as [verifyErr v]. pose proof (reconcile_error (set_TotalNS total r) v verifyErr Ve) as Hre.
    destruct (finalizePipelineVerification _ _ _) as [err r']. destruct Hp as (Hf & _ & Hok). do 3 (split; [done|]). intros ->.
    destruct (Hok eq_refl) as (H1 & H2 & rows & -> & H3). do 2 (split; [done|]). by exists (EventType (env_Input e0)), rows.
Qed.

Lemma measure_case_spec ctx c rep es pending w run err w' :
  0 < pl_Concurrency c -> 0 < pl_BatchSize c -> case_workload c rep = Ok es -> measure_case same_json ctx c rep es (event_ids es) pending w = Some (run, err, w') ->
  table w ⊆ table w' /\ (tolerable err -> passed_case (table w) c rep (mr_run run)).
Proof.
  intros Hcc Hcb Hes. unfold measure_case. cbv zeta.
  destruct (run_sample_in _ _ _ _ _ _ w) as [[[[[sample sampleErr] started] wa] w1]|] eqn:Es; [|done].
  apply run_sample_in_spec in Es as (G1 & Hrep & [skipped Hsk] & [rejected Hrej]); [|done|done].
  pose proof (closeObserver_grows wa w1) as G2. destruct (closeObserver wa w1) as [[closeErr wa1] w2].
  assert (G : table w ⊆ table w2) by (by transitivity (table w1)). set (vctx := WithTimeout ctx (now w2) (pl_DrainDeadline c)).
  pose proof (fun total => verdict_spec vctx (pl_Tenant c) es total (sp_run sample) w2) as Hv.
  destruct (VerifyPipelineRows _ vctx _ es _ w2) as [[verifyErr v] w3]. specialize (Hv (now w3 - started)).
  destruct (finalizePipelineVerification _ v verifyErr) as [reconcileErr run2]. destruct Hv as (G3 & Hf & Htol & Hok).
  intros [= <- <- <-]. split; [by transitivity (table w2)|]. cbn [mr_run]. rewrite tolerable_join.
  intros [_ [_ [Ht%Htol _]%Forall_cons]%Forall_cons]%Forall_cons. destruct (Hok Ht) as (H1 & H2 & typ & rows & Hsel & H3 & H4 & H5 & H6).
  match goal with |- passed_case _ _ _ ?x => assert (Hsame : facts x = facts run2 /\ Correct x = Correct run2 /\
    DeliveryStatus x = DeliveryStatus run2 /\ StoredIDs x = StoredIDs run2) by (by destruct closeErr; destruct (_ && _)); set (final := x) in * end.
  destruct Hsame as (S1 & S2 & S3 & S4). clearbody final.
  assert (Hfacts : Repetition (facts final) = rep /\ AttemptedIDs (facts final) = AttemptedIDs (facts (sp_run sample)) /\
    AcceptedIDs (facts final) = AcceptedIDs (facts (sp_run sample)) /\ AmbiguousIDs (facts final) = AmbiguousIDs (facts (sp_run sample)))
    by (by rewrite S1, Hf).
  destruct Hfacts as (F1 & F2 & F3 & F4). unfold passed_case. rewrite F1, F2, F3, F4, S2, S3, S4. do 3 (split; [done|]).
  exists es, rows, typ, vctx, w2, w3. do 6 (split; [done|]). split; [by exists skipped, rejected|].
  eapply Forall_impl; [exact H6|]. intros row [[Ha|Ha] He]; (split; [|done]); [done|]. rewrite Hrej. apply elem_of_app. by left.
Qed.

(** ** A case and a benchmark *)

Lemma new_observer_error ctx tenant ids w e w' : NewPendingObserver ctx tenant ids w = (Err e, w') -> ~ tolerable (Some e).
Proof.
  unfold NewPendingObserver. destruct (Acquire ctx w) as [[conn|e1] w1] eqn:Ea; cbv zeta.
  2: { intros [= <- <-] [?|Ht]; [done|]. apply Acquire_err in Ea. cbn in Ht. congruence. }
  assert (Hfail : forall err w2, observationOnly_err err = false ->
    (let '(cerr, w3) := HijackClose (WithTimeout Background (now w2) (2 * Second)) conn w2 in
     (match errors_Join [Some err; cerr] with Some e => @Err PendingObserver e | None => Err err end, w3)) = (Err e, w') -> ~ tolerable (Some e)).
  { intros err w2 He. destruct (HijackClose _ _ w2) as [cerr w3]. destruct (errors_Join _) as [j|] eqn:Ej; intros [= <- <-].
    - rewrite <- Ej, tolerable_join. intros [[?|Ht] _]%Forall_cons; [done|]. cbn in Ht. congruence.
    - intros [?|Ht]; [done|]. cbn in Ht. congruence. }
  destruct (CreatePending ctx conn w1) as [[e2|] w2] eqn:Ec; [apply Hfail; by eapply CreatePending_err|].
  destruct (CopyPending ctx conn _ w2) as [[e3|] w3] eqn:Ep; [|done]. apply Hfail. by eapply CopyPending_err.
Qed.

(** The check before a case: it goes on only when none of its events has a
    row. *)
Lemma existing_none ctx tenant es w w' v : VerifyPipelineRows same_json ctx tenant es [] w = (None, v, w') -> v_StoredIDs v = [] ->
  forall id, id ∈ event_ids es -> table w !! (tenant, uuid_String id) = None.
Proof.
  unfold VerifyPipelineRows. destruct es as [|e es]; [done|]. fold (event_ids (e :: es)).
  destruct (SelectCase _ _ _ (event_ids (e :: es)) w) as [q w1] eqn:Eq. destruct (verifySelectedRows _ _ _ q) as [err v1] eqn:Ev. intros [= -> -> ->] Hs id Hid.
  apply verifySelectedRows_ok in Ev as (rows & -> & Hst & _). rewrite Hs in Hst. destruct (table w !! _) as [row|] eqn:Er; [|done]. exfalso.
  pose proof (SelectCase_complete _ _ _ _ _ _ _ Eq id Hid ltac:(by exists row)) as Hin. rewrite <- Hst in Hin. by apply not_elem_of_nil in Hin.
Qed.

Lemma run_case_spec ctx c rep w run err w' : 0 < pl_Concurrency c -> 0 < pl_BatchSize c ->
  run_case NewSHA1 same_json sampleFinished ctx c rep w = Some (run, err, w') ->
  table w ⊆ table w' /\ (tolerable err -> passed_case (table w) c rep (mr_run run)).
Proof.
  intros Hcc Hcb. unfold run_case. cbv zeta. fold (case_workload c rep). destruct (case_workload c rep) as [es|e] eqn:Hes.
  2: { intros [= <- <- <-]. split; [done|]. unfold case_workload, Workload in Hes. destruct (negb _); [|done]. injection Hes as <-. by intros [?|?]. }
  fold (event_ids es). pose proof (verify_grows ctx (pl_Tenant c) es [] w) as G. pose proof (verify_error ctx (pl_Tenant c) es [] w) as Ve.
  pose proof (existing_none ctx (pl_Tenant c) es w) as Hex. destruct (VerifyPipelineRows _ _ _ es [] w) as [[e v] w1].
  destruct (v_StoredIDs v) as [|id0 ids0] eqn:Esv; [|intros [= <- <- <-]; split; [done|]; by intros [?|?]].
  destruct e as [e|]; [intros [= <- <- <-]; split; [done|]; intros Ht; by specialize (Ve Ht)|].
  specialize (Hex _ _ eq_refl Esv).
  assert (Hfinish : forall run1 err1 w2, table w1 ⊆ table w2 -> (tolerable err1 -> passed_case (table w) c rep (mr_run run1)) ->
    (let '(err, w) := match sampleFinished with Some f => let '(ferr, w) := f rep w2 in (errors_Join [err1; ferr], w) | None => (err1, w2) end in
     Some (run1, err, DeleteCase (WithTimeout Background (now w) (5 * Second)) (pl_Tenant c) (event_ids es)
       match es with e :: _ => EventType (env_Input e) | [] => [] end w)) = Some (run, err, w') ->
    table w ⊆ table w' /\ (tolerable err -> passed_case (table w) c rep (mr_run run))).
  { intros run1 err1 w2 G2 Hp. set (hook := match sampleFinished with Some _ => _ | None => _ end).
    assert (Hhook : table w2 ⊆ table (snd hook) /\ (tolerable (fst hook) -> tolerable err1)).
    { subst hook. destruct sampleFinished as [f|]; [|done]. pose proof (hook_grows f rep w2 eq_refl) as Gh. destruct (f rep w2) as [ferr w3].
      split; [done|]. cbn [fst]. rewrite tolerable_join. by intros [? _]%Forall_cons. }
    destruct hook as [err2 w3]. destruct Hhook as [G3 Ht]. intros [= <- <- <-]. split; [|by intros H1%Ht; apply Hp].
    apply map_subseteq_spec. intros k r Hr. apply DeleteCase_frame.
    - eapply lookup_weaken; [exact Hr|]. transitivity (table w1); [done|]. by transitivity (table w2).
    - intros id Hid ->. rewrite (Hex id Hid) in Hr. done. }
  pose proof (new_observer_spec ctx (pl_Tenant c) (event_ids es) w1) as Hn.
  destruct (NewPendingObserver ctx _ _ w1) as [[pending|e1] w2] eqn:Ep; destruct Hn as [G2 _].
  2: apply Hfinish; [done|]; intros Ht; by apply new_observer_error in Ep.
  destruct (measure_case _ _ _ _ _ _ pending w2) as [[[run1 err1] w3]|] eqn:Em; [|done]. apply measure_case_spec in Em as [G3 Hp]; [|done|done|done].
  apply Hfinish; [by transitivity (table w2)|]. intros Ht. eapply passed_case_weaken; [|by apply Hp]. by transitivity (table w1).
Qed.

Lemma run_repetitions_spec ctx c reps : 0 < pl_Concurrency c -> 0 < pl_BatchSize c -> forall runs oe w out err w',
  run_repetitions NewSHA1 same_json sampleFinished ctx c reps runs oe w = Some (out, err, w') ->
  table w ⊆ table w' /\ exists more, out = runs ++ more /\
    (tolerable err -> Forall2 (fun rep run => passed_case (table w) c rep (mr_run run)) reps more).
Proof.
  intros Hcc Hcb. induction reps as [|rep reps IH]; intros runs oe w out err w'; cbn [run_repetitions].
  { intros [= <- <- <-]. split; [done|]. exists []. rewrite app_nil_r. split; [done|constructor]. }
  destruct (run_case _ _ _ ctx c rep w) as [[[v e] w1]|] eqn:Er; [|done]. apply run_case_spec in Er as [G Hp]; [|done|done].
  assert (Hnext : forall oe', tolerable e -> run_repetitions NewSHA1 same_json sampleFinished ctx c reps (runs ++ [v]) oe' w1 = Some (out, err, w') ->
    table w ⊆ table w' /\ exists more, out = runs ++ more /\
      (tolerable err -> Forall2 (fun rep run => passed_case (table w) c rep (mr_run run)) (rep :: reps) more)).
  { intros oe' Ht Hr. apply IH in Hr as (G2 & more & -> & Hf). split; [by transitivity (table w1)|]. exists (v :: more). rewrite <- app_assoc. split; [done|].
    intros Hte. constructor; [by apply Hp|]. eapply Forall2_impl; [by apply Hf|]. intros rep' run' H1. by eapply passed_case_weaken. }
  destruct e as [e|]; [|apply Hnext; by left]. destruct (observationOnly (Some e)) eqn:Eo; cbn [negb].
  - apply Hnext. by right.
  - intros [= <- <- <-]. split; [done|]. exists [v]. split; [done|]. intros [?|?]; congruence.
Qed.

Lemma workload_refused c e :
  ValidatePipelineWorkload NewSHA1 (mkPipelineWindow (pl_Namespace c) (pl_Rate c) (pl_Duration c) (pl_BatchSize c) (pl_PayloadBytes c)) = Some e ->
  ~ tolerable (Some e).
Proof.
  unfold ValidatePipelineWorkload, Workload. cbv zeta. intros He.
  assert (exists msg, e = ENew msg) as [msg ->] by (repeat case_match; simplify_eq; eauto). by intros [?|?].
Qed.

(** C28: a pipeline benchmark reports what the database answered and destroys
    nothing.  On every path, errors included, each row that was there at the
    start is there at the end with the same content, although every case
    removes its own rows.  When [RunPipeline] returns no error, or nothing
    worse than observation errors, there is one run for each repetition, in
    order, marked correct and passed; every event of its workload was
    attempted or skipped, once; every acknowledged event had exactly one row
    in the final selection, and every row of that selection is of an attempted
    event of the workload, with its type, time and payload. *)
Theorem RunPipeline_truthful ctx namespace c w runs err w' :
  RunPipeline NewSHA1 same_json sampleFinished ctx namespace c w = Some (runs, err, w') ->
  table w ⊆ table w' /\
  (err = None \/ observationOnly err = true ->
   Forall2 (fun rep run => passed_case (table w) (with_defaults namespace c) rep (mr_run run)) (seqZ 1 (pl_Repetitions c)) runs).
Proof.
  unfold RunPipeline. set (c' := with_defaults namespace c). destruct (pipeline_ok c') eqn:Eok; cbn [negb].
  2: { intros [= <- <- <-]. split; [done|]. by intros [?|?]. }
  unfold pipeline_ok in Eok. bool_to_prop.
  assert (Hmeas : forall w1, table w ⊆ table w1 ->
    run_repetitions NewSHA1 same_json sampleFinished ctx c' (seqZ 1 (pl_Repetitions c')) [] None w1 = Some (runs, err, w') ->
    table w ⊆ table w' /\ (tolerable err -> Forall2 (fun rep run => passed_case (table w) c' rep (mr_run run)) (seqZ 1 (pl_Repetitions c)) runs)).
  { intros w1 G Hr. apply run_repetitions_spec in Hr as (G2 & more & -> & Hf); [|lia|lia]. split; [by transitivity (table w1)|]. intros Ht.
    eapply Forall2_impl; [by apply Hf|]. intros rep run Hpc. by eapply passed_case_weaken. }
  pose proof (workload_refused c') as Hval.
  destruct (ValidatePipelineWorkload _ _) as [e|]; [intros [= <- <- <-]; split; [done|]; intros Ht; by destruct (Hval e eq_refl)|].
  destruct (pl_Transport c'); cbn [negb]; [|intros [= <- <- <-]; split; [done|]; by intros [?|?]].
  destruct (0 <? pl_Warmup c'); [|by apply Hmeas].
  destruct (run_case _ _ _ ctx (set_warm c') 0 w) as [[[v e] w1]|] eqn:Er; [|done]. apply run_case_spec in Er as [G _]; [|done|done].
  destruct e as [e|]; [|by apply Hmeas]. destruct (observationOnly (Some e)); cbn [negb]; [by apply Hmeas|].
  intros [= <- <- <-]. split; [done|]. by intros [?|?].
Qed.
End Facts.
