(* ===== verification/Calibration.v ===== *)
(** * The calibration of the load driver: [RunCalibration] of
    [internal/benchmark/calibration.go]

    The driver is run against a TLS sink of its own that acknowledges what it
    can decode.  What the selects of the scheduling loop took, the order in
    which workers finish and the answers they get are an oracle. *)
From S2P Require Import Prelude GoBytes GoTime GoJson GoEncode Event Runtime GoFloat BenchAccounting BenchProps LoadGen Demo Workload Pipeline.

Section Calibration.
Context {U : UUIDLib} (NewSHA1 : bytes -> uuid).

(** ** The sink *)

(** Decoding the body is a parameter: the identifiers of its events. *)
Definition sink_handle (decoded : option (list Input)) (received : gset uuid) : Z * list uuid * gset uuid :=
  match decoded with
  | None => (400, [], received)
  | Some events => let ids := map EventID events in (202, ids, list_to_set ids ∪ received)
  end.

(** ** The scheduling loop *)

(** An iteration: whether its first select took the end of the context, the
    time since the start, and whether [jobs] had room. *)
Record tick := mkTick { tk_cancelled : bool; tk_since : Z; tk_room : bool }.

(** The jobs that were queued and the events that were missed; [None] when the
    iterations are not as many as the loop makes. *)
Fixpoint calibration_jobs (batch : nat) (duration : Z) (ticks : list tick) (rest : list uuid) : option (list (list uuid) * Z) :=
  match rest, ticks with
  | [], [] => Some ([], 0)
  | _ :: _, t :: ticks =>
      if tk_cancelled t then match ticks with [] => Some ([], Z.of_nat (length rest)) | _ => None end
      else if duration <=? tk_since t then match ticks with [] => Some ([], Z.of_nat (length rest)) | _ => None end
      else
        let job := take batch rest in
        match calibration_jobs batch duration ticks (drop batch rest) with
        | None => None
        | Some (jobs, missed) => Some (if tk_room t then (job :: jobs, missed) else (jobs, missed + Z.of_nat (length job)))
        end
  | _, _ => None
  end.

(** ** The workers *)

(** The answer to a request: none when the request could not be made or the
    call failed; its start and end since the start of the window. *)
Record Answer := mkAnswer { an_response : option (Z * option (list uuid)); an_StartedNS : Z; an_FinishedNS : Z }.

Definition worker_result (ids : list uuid) (a : Answer) : RequestObservation :=
  let '(status, accepted) := match an_response a with
                             | None => (0, false)
                             | Some (status, ack) => (status, (status =? 202) && bool_decide (ack = Some ids))
                             end in
  mkRequestObservation (an_StartedNS a) (an_FinishedNS a) (an_FinishedNS a - an_StartedNS a) (Z.of_nat (length ids)) status accepted false.

(** ** The account of a run *)

Record CalibrationRun := mkCalibration {
  cr_Planned : Z; cr_Attempted : Z; cr_Accepted : Z; cr_AcceptedInWindow : Z; cr_GeneratorMissed : Z; cr_WindowNS : Z; cr_TotalNS : Z;
  cr_AcceptedEPS : Q; cr_RequestSamples : list RequestObservation; cr_IDSetSHA256 : gmap string bytes; cr_Correct : bool
}.

Definition count_ids (keep : RequestObservation -> bool) (results : list (list uuid * RequestObservation)) : list uuid :=
  concat (map (fun r => if keep (snd r) then fst r else []) results).

Definition calibration_run (duration total : Z) (planned : nat) (missed : Z) (results : list (list uuid * RequestObservation)) (received : gset uuid)
    : CalibrationRun :=
  let attempted := count_ids (fun _ => true) results in
  let accepted := count_ids ro_Accepted results in
  let inWindow := Z.of_nat (length (count_ids (fun v => ro_Accepted v && (ro_FinishedNS v <=? duration)) results)) in
  let sinkIDs := elements received in
  let a := Z.of_nat (length attempted) in
  let n := Z.of_nat (length accepted) in
  mkCalibration (Z.of_nat planned) a n inWindow missed duration total (fdiv (float_of_int inWindow) (Seconds duration)) (map snd results)
    (<["attempted"%string := IDSetHash attempted]> (<["accepted"%string := IDSetHash accepted]> {[ "sink_received"%string := IDSetHash sinkIDs ]}))
    ((Z.of_nat planned =? a + missed) && (n =? a) && bool_decide (IDSetHash accepted = IDSetHash sinkIDs)).

(** ** The repetitions *)

(** What happened in one: the iterations of the loop, the requests in the
    order of their results, what the sink received, the duration, and the
    error of the context at the end. *)
Record Observed := mkObserved {
  ov_ticks : list tick; ov_answers : list (list uuid * Answer); ov_received : gset uuid; ov_total : Z; ov_err : goerr
}.

Definition calibration_once (c : PipelineConfig) (rep : Z) (o : Observed) : option (res CalibrationRun) :=
  match Workload NewSHA1 (mkWorkloadConfig (lit "calibration") (lit "varied") (pl_Seed c + rep)
          (int_of_float (fmul (float_of_int (pl_Rate c)) (Seconds (pl_Duration c)))) (pl_PayloadBytes c) (Some 0%Q)) with
  | Err e => Some (Err e)
  | Ok es =>
      match calibration_jobs (Z.to_nat (pl_BatchSize c)) (pl_Duration c) (ov_ticks o) (map (fun e => EventID (env_Input e)) es) with
      | None => None
      | Some (jobs, missed) =>
          (* every queued job has one result *)
          if bool_decide (map fst (ov_answers o) ≡ₚ jobs) then
            Some (Ok (calibration_run (pl_Duration c) (ov_total o) (length es) missed
              (map (fun r => (fst r, worker_result (fst r) (snd r))) (ov_answers o)) (ov_received o)))
          else None
      end
  end.

Fixpoint calibration_loop (c : PipelineConfig) (reps : list Z) (seen : list Observed) (runs : list CalibrationRun) : option (list CalibrationRun * goerr) :=
  match reps, seen with
  | [], _ => Some (runs, None)
  | rep :: reps, o :: seen =>
      match calibration_once c rep o with
      | None => None
      | Some (Err e) => Some (runs, Some e)
      | Some (Ok run) =>
          match ov_err o with
          | Some e => Some (runs ++ [run], Some e)
          | None => calibration_loop c reps seen (runs ++ [run])
          end
      end
  | _, [] => None
  end.

(** The status of the report, its runs and the error. *)
Definition RunCalibration (c : PipelineConfig) (maxConns maxIdle : Z) (seen : list Observed) : option (string * list CalibrationRun * goerr) :=
  match ValidatePipelineWorkload NewSHA1 (mkPipelineWindow (pl_Namespace c) (pl_Rate c) (pl_Duration c) (pl_BatchSize c) (pl_PayloadBytes c)) with
  | Some err => Some ("incomplete"%string, [], Some err)
  | None =>
      if (pl_Concurrency c <? 1) || (1000 <? pl_Concurrency c) || (pl_Repetitions c <? 1) || (maxConns <? 0) || (maxIdle <? 0)
      then Some ("incomplete"%string, [], Some (ENew "invalid calibration controls"))
      else
        match calibration_loop c (seqZ 1 (pl_Repetitions c)) seen [] with
        | None => None
        | Some (runs, err) => Some ((match err with None => "complete" | Some _ => "incomplete" end)%string, runs, err)
        end
  end.

(** ** What a run is worth *)

Lemma calibration_jobs_exact batch duration ticks : forall rest jobs missed,
  calibration_jobs batch duration ticks rest = Some (jobs, missed) -> Z.of_nat (length rest) = Z.of_nat (length (concat jobs)) + missed.
Proof.
  induction ticks as [|t ticks IH]; intros [|id rest] jobs missed; cbn [calibration_jobs]; [by intros [= <- <-]|done|done|].
  destruct (tk_cancelled t); [destruct ticks; [by intros [= <- <-]|done]|].
  destruct (duration <=? tk_since t); [destruct ticks; [by intros [= <- <-]|done]|].
  destruct (calibration_jobs batch duration ticks _) as [[jobs1 missed1]|] eqn:E; [|done]. apply IH in E.
  pose proof (take_drop batch (id :: rest)) as Htd. apply (f_equal length) in Htd. rewrite length_app in Htd.
  destruct (tk_room t); intros [= <- <-]; cbn [concat]; [rewrite length_app|]; lia.
Qed.

Lemma count_ids_le keep results : (length (count_ids keep results) <= length (count_ids (fun _ => true) results))%nat.
Proof. unfold count_ids. induction results as [|[ids v] l IH]; cbn [map concat fst snd]; [done|]. rewrite !length_app. destruct (keep v); cbn; lia. Qed.

Lemma count_ids_all (answers : list (list uuid * Answer)) :
  count_ids (fun _ => true) (map (fun r => (fst r, worker_result (fst r) (snd r))) answers) = concat (map fst answers).
Proof. unfold count_ids. rewrite map_map. done. Qed.

Lemma IDSetHash_set (a b : list uuid) : (list_to_set a : gset uuid) = list_to_set b -> IDSetHash a = IDSetHash b.
Proof. intros E. unfold IDSetHash, uniqueIDs. by rewrite E. Qed.

(** A run that attempted and missed what was planned, whose requests were all
    acknowledged and whose sink received just that, is marked correct. *)
Lemma calibration_run_correct duration total planned missed results received :
  Z.of_nat planned = Z.of_nat (length (count_ids (fun _ => true) results)) + missed -> Forall (fun r => ro_Accepted (snd r) = true) results ->
  received = list_to_set (count_ids (fun _ => true) results) -> cr_Correct (calibration_run duration total planned missed results received) = true.
Proof.
  intros Hp Ha ->. assert (E : count_ids ro_Accepted results = count_ids (fun _ => true) results).
  { unfold count_ids. f_equal. apply map_ext_Forall. eapply Forall_impl; [exact Ha|]. by intros r ->. }
  unfold calibration_run. cbv zeta. cbn [cr_Correct]. rewrite E, Z.eqb_refl, andb_true_r. apply andb_true_iff. split; [by apply Z.eqb_eq|].
  apply bool_decide_eq_true, IDSetHash_set. by rewrite list_to_set_elements_L.
Qed.

(** A run balances its books, and is marked correct only when every planned
    event was accepted or missed. *)
Definition honest (run : CalibrationRun) : Prop :=
  cr_Planned run = cr_Attempted run + cr_GeneratorMissed run /\ cr_AcceptedInWindow run <= cr_Accepted run <= cr_Attempted run /\
  (cr_Correct run = true -> cr_Planned run = cr_Accepted run + cr_GeneratorMissed run).

Lemma in_window_le duration results :
  (length (count_ids (fun v => ro_Accepted v && (ro_FinishedNS v <=? duration)%Z) results) <= length (count_ids ro_Accepted results))%nat.
Proof.
  unfold count_ids. induction results as [|[ids v] l IH]; cbn [map concat fst snd]; [done|]. rewrite !length_app. destruct (ro_Accepted v); cbn [andb]; [|done].
  destruct (_ <=? _); cbn; lia.
Qed.

Lemma calibration_once_honest c rep o run : calibration_once c rep o = Some (Ok run) -> honest run.
Proof.
  unfold calibration_once. destruct (Workload _ _) as [es|e]; [|done].
  destruct (calibration_jobs _ _ _ _) as [[jobs missed]|] eqn:Ej; [|done]. case_bool_decide as Hp; [|done]. intros [= <-].
  apply calibration_jobs_exact in Ej. rewrite length_map in Ej. unfold honest, calibration_run. cbv zeta. set (results := map _ (ov_answers o)).
  cbn [cr_Planned cr_Attempted cr_GeneratorMissed cr_AcceptedInWindow cr_Accepted cr_Correct].
  assert (Ha : length (count_ids (fun _ => true) results) = length (concat jobs)).
  { subst results. rewrite count_ids_all. apply Permutation_length. by rewrite Hp. }
  pose proof (count_ids_le ro_Accepted results). pose proof (in_window_le (pl_Duration c) results). split; [lia|]. split; [lia|].
  intros Hc. bool_to_prop. lia.
Qed.

Lemma calibration_loop_honest c reps : forall seen runs out err, calibration_loop c reps seen runs = Some (out, err) ->
  exists more, out = runs ++ more /\ Forall honest more /\ (length more <= length reps)%nat /\ (err = None -> length more = length reps).
Proof.
  induction reps as [|rep reps IH]; intros seen runs out err; cbn [calibration_loop].
  { intros [= <- <-]. exists []. rewrite app_nil_r. by repeat split. }
  destruct seen as [|o seen]; [done|]. destruct (calibration_once c rep o) as [[run|e]|] eqn:Eo; [|intros [= <- <-]|done].
  2: { exists []. rewrite app_nil_r. repeat split; [constructor|cbn; lia|done]. }
  apply calibration_once_honest in Eo. destruct (ov_err o) as [e|].
  - intros [= <- <-]. exists [run]. repeat split; [by constructor|cbn; lia|done].
  - intros E. apply IH in E as (more & -> & Hf & Hl & Hn). exists (run :: more). rewrite <- app_assoc. repeat split; [by constructor|cbn; lia|].
    intros He. cbn [length]. by rewrite Hn.
Qed.

(** C37: a calibration does not flatter the driver.  Whatever its goroutines
    and the sink did, each run of the report accounts for every planned event
    as attempted or missed, counts no acknowledgement that was not made, and
    is marked correct only when all events that were not missed were
    acknowledged; the report is complete exactly when no error is returned,
    and then there is a run for every repetition. *)
Theorem calibration_honest c maxConns maxIdle seen status runs err :
  RunCalibration c maxConns maxIdle seen = Some (status, runs, err) ->
  Forall honest runs /\ (status = "complete"%string <-> err = None) /\ (err = None -> Z.of_nat (length runs) = pl_Repetitions c).
Proof.
  unfold RunCalibration. destruct (ValidatePipelineWorkload _ _) as [e|]; [intros [= <- <- <-]; by repeat split|].
  destruct (_ || _) eqn:Eok; [intros [= <- <- <-]; by repeat split|]. bool_to_prop.
  destruct (calibration_loop _ _ _ _) as [[out err1]|] eqn:El; [|done]. intros [= <- <- <-].
  apply calibration_loop_honest in El as (more & -> & Hf & _ & Hn). split; [done|]. split; [by destruct err1|].
  intros He. specialize (Hn He). rewrite length_seqZ in Hn. cbn [app]. lia.
Qed.
End Calibration.
