(* ===== verification/SimPipeline.v ===== *)
(** * A pipeline benchmark on concrete inputs

    An API that stores what it accepts, a database with the observer's
    temporary table, and a script of the commits whose answer is lost. *)
From S2P Require Import Prelude GoBytes GoTime GoJson GoEncode Event EventFacts Runtime Instances Persistence PersistenceProps GoFloat Demo Workload BenchAccounting BenchProps LoadGen LoadGenProps Observer ObserverProps Pipeline PipelineProps Calibration.

Record PipeWorld := mkPipe { pp_clock : Z; pp_table : Table; pp_waiting : gset uuid; pp_taken : gset uuid; pp_lost : list bool }.

#[local] Instance PipeW : World := {| W := PipeWorld; now := pp_clock |}.
#[local] Instance PipeDatabase : Database := {| table := pp_table; Exec _ _ _ w := (Ok 0, w) |}.

(** A call takes a millisecond. *)
Definition pp_later (w : PipeWorld) : PipeWorld := mkPipe (pp_clock w + 1000000) (pp_table w) (pp_waiting w) (pp_taken w) (pp_lost w).
Definition pp_with (t : Table) (w : PipeWorld) : PipeWorld := mkPipe (pp_clock w) t (pp_waiting w) (pp_taken w) (pp_lost w).
Definition pp_sets (waiting taken : gset uuid) (w : PipeWorld) : PipeWorld := mkPipe (pp_clock w) (pp_table w) waiting taken (pp_lost w).

Definition pp_stored (tenant : bytes) (w : PipeWorld) : list uuid := elements (filter (fun id => is_Some (pp_table w !! (tenant, uuid_String id))) (pp_waiting w)).

#[local] Instance PipeSession : ObserverSession :=
  {| Conn := unit;
     Acquire _ w := (Ok tt, pp_later w);
     CreatePending _ _ w := (None, pp_sets ∅ ∅ w);
     CopyPending _ _ ids w := (None, pp_sets (list_to_set ids) ∅ w);
     HijackClose _ _ w := (None, w);
     BeginObserve _ _ w := (None, pp_sets (pp_waiting w) ∅ w);
     DeleteStored _ _ tenant w :=
       (Ok (map (fun id => Ok (mkStoredObservation id 0 None)) (pp_stored tenant w), None), pp_sets (pp_waiting w) (list_to_set (pp_stored tenant w)) w);
     clock_timestamp _ _ w := (Ok (pp_clock w), w);
     CommitObserve _ _ w :=
       let w1 := pp_sets (pp_waiting w ∖ pp_taken w) (pp_taken w) (pp_later w) in
       let w1 := mkPipe (pp_clock w1) (pp_table w1) (pp_waiting w1) (pp_taken w1) (tl (pp_lost w1)) in
       (if default false (head (pp_lost w)) then Some (ENet true) else None, w1);
     RollbackObserve _ _ w := w;
     DropPending _ _ w := (None, w);
     ReleaseConn _ w := w;
     waiting w _ := pp_waiting w;
     taken w _ := pp_taken w |}.

Lemma scan_all tenant w out : scan_rows (map (fun id => Ok (mkStoredObservation id 0 None)) (pp_stored tenant w)) = Ok out -> map so_ID out = pp_stored tenant w.
Proof.
  revert out. induction (pp_stored tenant w) as [|id l IH]; intros out; cbn [map scan_rows]; [by intros [= <-]|].
  destruct (scan_rows _) as [o|e]; cbn; [|done]. intros [= <-]. cbn. f_equal. exact (IH o eq_refl).
Qed.

#[local] Instance PipeSessionLaws : ObserverLaws PipeSession.
Proof.
  constructor; try (cbn; done).
  - cbn. intros ctx conn ids w w' [= <-]. done.
  - intros ctx conn tenant w rows w' out [= <- <-] Hs%scan_all. rewrite Hs. split; [done|].
    split; [apply NoDup_elements|]. exists w. split; [done|]. split; [done|]. intros id. unfold pp_stored.
    rewrite elem_of_elements, elem_of_filter. tauto.
  - cbn. intros ctx conn w w'. destruct (default false _); [done|]. by intros [= <-].
  - cbn. intros ctx conn w e w'. destruct (default false _); [|done]. intros [= _ <-]. by right.
Qed.

(** The row of an event as the final selection reads it. *)
Definition pp_row (tenant : bytes) (w : PipeWorld) (id : uuid) : option StoredRow :=
  (fun r => match r with
            | [_; _; AText typ; ATime occurred; _; ABytes payload] => mkStoredRow id typ occurred payload
            | _ => mkStoredRow id [] zero_Time []
            end) <$> pp_table w !! (tenant, uuid_String id).

Definition pp_ack (ids : list uuid) : bytes :=
  lit "{" ++ quoted (lit "event_ids") ++ lit ":[" ++ concat (map (fun id => quoted (uuid_String id)) ids) ++ lit "]}".

(** One worker and one event a request; the first look at the database is
    the one whose commit is lost. *)
Definition pp_events (s : Z) : list LoadGen.event :=
  let v := mkSendResult 0 [] false false 0 0 0 in
  let h := s + 500000000 in
  [ ESchedule false s s; ETake 0 s; EFinish 0 v (s + 1); EResult; ESchedule false h h; ETake 0 h; EFinish 0 v (h + 1); EResult; ESchedule false h h;
    EWindow; ETake 0 (h + 2); EClose; EResult; EAccounted (s + 1000000001); EProbe (s + 1000000002); EProbed [] None (s + 1000000003); ESeen;
    ETick; EProbe (s + 1000000004); EProbed [] None (s + 1000000005); ESeen; EDrained; EProbeExit ].

#[local] Instance PipeHost : PipelineHost :=
  {| request_ok _ := true;
     post_batch _ _ _ raw w :=
       match DecodeBatch raw with
       | Ok inputs =>
           let es := map (fun i => mkEnvelope i (lit "a") (mkTime 0 0 0)) inputs in
           (Ok (202, pp_ack (map EventID inputs)), pp_with (store_events (pp_table w) es) (pp_later w))
       | Err _ => (Ok (400, []), pp_later w)
       end;
     SelectCase _ tenant _ ids w := (Ok (omap (pp_row tenant w) ids, None), pp_later w);
     DeleteCase _ tenant ids _ w := pp_with (foldr (fun id t => delete (tenant, uuid_String id) t) (pp_table w) ids) w;
     sample_schedule _ _ w := (mkSchedule _ (pp_clock w) (pp_events (pp_clock w)) (pp_clock w + 2000000000) (pp_clock w + 1100000000),
                               mkPipe (pp_clock w + 1000000000) (pp_table w) (pp_waiting w) (pp_taken w) (pp_lost w)) |}.

#[local] Instance PipeLaws : PipelineLaws PipeSession PipeHost.
Proof.
  constructor; try (cbn; done).
  - cbn. intros ctx url auth raw w. destruct (DecodeBatch raw); [|done]. cbn. apply store_events_mono.
  - intros ctx tenant typ ids w rows w' [= <- <-] id Hid [r Hr]. apply list_elem_of_fmap.
    assert (exists row, pp_row tenant w id = Some row /\ row_id row = id) as (row & Hrow & Hi).
    { unfold pp_row. change (pp_table w) with (table w). rewrite Hr. cbn. eexists. split; [reflexivity|]. repeat case_match; done. }
    exists row. split; [done|]. apply list_elem_of_omap. by exists id.
  - cbn. intros ctx tenant ids typ w k r Hr Hk. induction ids as [|id ids IH]; [done|]. cbn [foldr]. rewrite lookup_delete_ne.
    + apply IH. intros x Hx. apply Hk. by right.
    + intros E. apply (Hk id); [by left|done].
Qed.

Definition pp_hash (s : bytes) : uuid := uid (1 + foldl (fun a c => (a * 31 + c) mod 9973) 0 s).
Definition pp_config : Pipeline.PipelineConfig :=
  mkPipelineConfig true (lit "n") (lit "fixed") true true (lit "u") (lit "k") (lit "a") (lit "steady") 7 2 1 1 40 3 Second 0 Second Second.
Definition pp_start : PipeWorld := mkPipe 0 {[ (lit "a", lit "x") := [AText (lit "a"); AText (lit "x")] ]} ∅ ∅ (concat (replicate 4 [true; false])).
Definition pp_same (a b : bytes) : bool := bool_decide (a = b).
Definition pp_result := RunPipeline (Wd := PipeW) pp_hash pp_same None Background [] pp_config pp_start.

(** Three repetitions, each limited by the outage of the observer only; the
    row that was there is the one that is left. *)
Example pipeline_benchmark :
  match pp_result with
  | Some (runs, err, w) => Some (map (fun r => (Repetition (facts (mr_run r)), length (StoredIDs (mr_run r)), LimitReasons (mr_run r))) runs, err, size (pp_table w))
  | None => None
  end = Some ([(1, 2%nat, ["observer_unavailable"%string]); (2, 2%nat, ["observer_unavailable"%string]); (3, 2%nat, ["observer_unavailable"%string])], None, 1%nat).
Proof. vm_compute. reflexivity. Qed.

Lemma RunPipeline_truthful_witness :
  exists runs w', pp_result = Some (runs, None, w') /\ table pp_start ⊆ table w' /\
    Forall2 (fun rep run => passed_case pp_hash pp_same (table pp_start) (with_defaults [] pp_config) rep (mr_run run)) (seqZ 1 3) runs.
Proof.
  pose proof pipeline_benchmark as Hb. destruct pp_result as [[[runs err] w']|] eqn:E; [|discriminate Hb].
  assert (He : err = None) by (injection Hb as _ He _; exact He). subst err. exists runs, w'. split; [reflexivity|]. unfold pp_result in E.
  destruct (RunPipeline_truthful (Wd := PipeW) (D := PipeDatabase) (S := PipeSession) (H := PipeHost) pp_hash pp_same None
    (fun f rep w Hf => ltac:(discriminate Hf)) Background [] pp_config pp_start runs None w' E) as [H1 H2].
  split; [exact H1|exact (H2 (or_introl eq_refl))].
Defined.

(** ** One case being watched

    The second event is stored when the commit of the first look, which was
    applied, has been reported lost. *)
Definition pw_ids : list uuid := map uid [1; 2].
Definition pw_store (n : Z) (w : PipeWorld) : PipeWorld := pp_with (<[(lit "a", uuid_String (uid n)) := []]> (pp_table w)) w.
Definition pw_new := NewPendingObserver (Wd := PipeW) Background (lit "a") pw_ids pp_start.
Definition pw_w1 : PipeWorld := pw_store 1 (snd pw_new).
Definition pw_watch0 : Watch := mkWatch (Some (mkObserver (Some tt) (lit "a") 0 0)) ∅ 0.
Definition pw_look1 := observe (Wd := PipeW) true (lit "a") pw_ids Background pw_watch0 pw_w1.
Definition pw_w2 : PipeWorld := pw_store 2 (snd pw_look1).
Definition pw_look2 := observe (Wd := PipeW) true (lit "a") pw_ids Background (snd (fst pw_look1)) pw_w2.

Lemma pw_store_grows n w : pp_table w !! (lit "a", uuid_String (uid n)) = None -> pp_table w ⊆ pp_table (pw_store n w).
Proof. intros Hn. cbn. by apply insert_subseteq. Qed.

Lemma pw_store_idle clean s reported n w : pp_table w !! (lit "a", uuid_String (uid n)) = None ->
  watching (Wd := PipeW) (D := PipeDatabase) true (lit "a") pw_ids clean s reported w ->
  watching (Wd := PipeW) (D := PipeDatabase) true (lit "a") pw_ids clean s reported (pw_store n w).
Proof. intros Hn Hw. apply (watch_idle (Wd := PipeW) (D := PipeDatabase) _ _ _ clean s reported w); [exact Hw|by apply pw_store_grows|done]. Qed.

Lemma surjective3 {A B C} (p : A * B * C) : p = (fst (fst p), snd (fst p), snd p).
Proof. by destruct p as [[a b] c]. Qed.

Lemma observed_once_witness :
  reported_ids (fst (fst pw_look1)) = [] /\ reported_ids (fst (fst pw_look2)) = pw_ids /\ NoDup (reported_ids (fst (fst pw_look2))) /\
  forall id, id ∈ pw_ids -> is_Some (table pw_w2 !! (lit "a", uuid_String id)) -> id ∈ reported_ids (fst (fst pw_look2)).
Proof.
  assert (H1 : watching (Wd := PipeW) (D := PipeDatabase) true (lit "a") pw_ids true pw_watch0 [] pw_w1).
  { apply pw_store_idle; [vm_compute; reflexivity|]. by apply (watch_start (Wd := PipeW) (D := PipeDatabase) _ _ _ Background pp_start). }
  assert (R1 : reported_ids (fst (fst pw_look1)) = []) by (vm_compute; reflexivity).
  assert (P1 : bool_decide (wa_pending (snd (fst pw_look1)) = None) = true) by (vm_compute; reflexivity).
  assert (H2 : watching (Wd := PipeW) (D := PipeDatabase) true (lit "a") pw_ids true (snd (fst pw_look1)) [] pw_w2).
  { apply pw_store_idle; [vm_compute; reflexivity|].
    pose proof (watch_look (Wd := PipeW) (D := PipeDatabase) _ _ _ true pw_watch0 [] pw_w1 Background _ _ _ H1 (surjective3 pw_look1)) as H.
    rewrite P1, R1 in H. exact H. }
  assert (R2 : reported_ids (fst (fst pw_look2)) = pw_ids) by (vm_compute; reflexivity).
  assert (O2 : is_ok (fst (fst pw_look2)) = true) by (vm_compute; reflexivity).
  destruct (observed_once (Wd := PipeW) (D := PipeDatabase) true (lit "a") pw_ids true (snd (fst pw_look1)) [] pw_w2 Background _ _ _ H2 (surjective3 pw_look2))
    as (N & _ & A).
  split; [exact R1|]. split; [exact R2|]. split; [exact N|]. exact (A (or_introl eq_refl) O2).
Defined.

(** ** A calibration

    In the second repetition the queue is full once. *)
Definition cal_ids (rep : Z) : list uuid :=
  match Workload pp_hash (mkWorkloadConfig (lit "calibration") (lit "varied") (7 + rep) 2 40 (Some 0%Q)) with
  | Ok es => map (fun e => EventID (env_Input e)) es
  | Err _ => []
  end.
Definition cal_seen (room : bool) (rep : Z) : Observed :=
  let ids := cal_ids rep in
  let sent := if room then ids else take 1 ids in
  let events := map (fun id => mkInput id [] zero_Time []) sent in
  let '(status, acked, received) := sink_handle (Some events) ∅ in
  mkObserved [mkTick false 0 true; mkTick false 500000000 room] (map (fun id => ([id], mkAnswer (Some (status, Some [id])) 0 1)) acked) received 1000000000 None.
Definition cal_result := RunCalibration pp_hash pp_config 0 0 [cal_seen true 1; cal_seen false 2; cal_seen true 3].

Example calibration_counts :
  match cal_result with
  | Some (status, runs, err) => Some (status, map (fun r => (cr_Planned r, cr_Attempted r, cr_Accepted r, cr_GeneratorMissed r)) runs, err)
  | None => None
  end = Some ("complete"%string, [(2, 2, 2, 0); (2, 1, 1, 1); (2, 2, 2, 0)], None).
Proof. vm_compute. reflexivity. Qed.

Lemma calibration_honest_witness :
  exists runs, cal_result = Some ("complete"%string, runs, None) /\ Forall honest runs /\ Z.of_nat (length runs) = 3.
Proof.
  pose proof calibration_counts as Hb. destruct cal_result as [[[status runs] err]|] eqn:E; [|discriminate Hb].
  assert (He : err = None) by (injection Hb as _ _ He; exact He). assert (Hs : status = "complete"%string) by (injection Hb as Hs _ _; exact Hs).
  subst err status. exists runs. split; [reflexivity|]. unfold cal_result in E.
  destruct (calibration_honest pp_hash pp_config 0 0 _ _ runs None E) as (H1 & _ & H3). split; [exact H1|exact (H3 eq_refl)].
Defined.
