(* ===== verification/RuntimeMetrics.v ===== *)
(** * Runtime signals in a report: [internal/benchmark/runtime.go]

    A scrape of a service's metrics keeps numeric signals of the runtime and
    drops whatever else the service exposes.  The Prometheus text parser, the
    HTTP request and the query on pg_stat_activity are parameters: what they
    yield is an argument. *)
From S2P Require Import Prelude GoBytes GoTime GoJson Event Runtime GoFloat.

(** A 64-bit float, as far as the code tells them apart. *)
Inductive number := Finite (q : Q) | PosInf | NegInf | NaN.

Record Metric := mkMetric { m_Label : list (bytes * bytes); m_Untyped : option number; m_Gauge : option number; m_Counter : option number }.
Record MetricFamily := mkFamily { f_name : bytes; f_Metric : list Metric }.

Definition allowed_name (name : bytes) : bool :=
  HasPrefix name (lit "ingestkit_db_pool_") || HasPrefix name (lit "ingestkit_producer_") || HasPrefix name (lit "ingestkit_process_") ||
  bool_decide (name = lit "ingestkit_api_connection_limit") || bool_decide (name = lit "ingestkit_publish_failures_total") ||
  bool_decide (name = lit "ingestkit_stored_total").

(** What a label adds to the key; [None] makes the metric invalid. *)
Definition label_suffix (l : bytes * bytes) : option bytes :=
  let '(k, v) := l in
  if bool_decide (k = lit "reason") && (bool_decide (v = lit "timeout") || bool_decide (v = lit "buffer_saturated") || bool_decide (v = lit "broker_error"))
  then Some (lit "{reason=" ++ v ++ lit "}")
  else if bool_decide (k = lit "resource") && HasPrefix v (lit "process_") then Some (lit "{resource=" ++ v ++ lit "}")
  else None.

(** The loop over the labels: the key so far and [valid]. *)
Definition metric_key (name : bytes) (labels : list (bytes * bytes)) : bytes * bool :=
  foldl (fun '(key, valid) l => match label_suffix l with Some s => (key ++ s, valid) | None => (key, false) end) (name, true) labels.

Definition metric_value (m : Metric) : option number :=
  match m_Untyped m, m_Gauge m, m_Counter m with
  | Some v, _, _ => Some v
  | None, Some v, _ => Some v
  | None, None, v => v
  end.

Definition add_metric (name : bytes) (out : gmap bytes number) (m : Metric) : gmap bytes number :=
  let '(key, valid) := metric_key name (m_Label m) in
  if valid then match metric_value m with Some v => <[key := v]> out | None => out end else out.

Definition add_family (out : gmap bytes number) (f : MetricFamily) : gmap bytes number :=
  if allowed_name (f_name f) then foldl (add_metric (f_name f)) out (f_Metric f) else out.

(** [families] in the order the map is ranged over, or a parse error. *)
Definition numericRuntimeMetrics (families : res (list MetricFamily)) : res (gmap bytes number) :=
  match families with Err e => Err e | Ok fs => Ok (foldl add_family ∅ fs) end.

(** ** [runtimeScrape] *)

Inductive value := Unlimited | Number (v : number).
Inductive scrape := Unavailable | Available (metrics : gmap bytes value).

(** A comparison with the largest float: only positive infinity is above. *)
Definition json_value (v : number) : value := match v with PosInf => Unlimited | _ => Number v end.

(** [request_ok]: the request could be made; [response]: the status and the
    body, or the error that ended it. *)
Definition runtimeScrape (address : bytes) (request_ok : bool) (response : res (Z * res bytes)) (parse : bytes -> res (list MetricFamily)) : scrape :=
  if bool_decide (address = []) || negb request_ok then Unavailable
  else
    match response with
    | Err _ | Ok (_, Err _) => Unavailable
    | Ok (status, Ok raw) =>
        if negb (status =? 200) then Unavailable
        else match numericRuntimeMetrics (parse raw) with Err _ => Unavailable | Ok metrics => Available (json_value <$> metrics) end
    end.

(** ** [sessionObservation] *)

Record SessionGroup := mkGroup { g_role : bytes; g_application : bytes; g_state : option bytes; g_count : Z }.

(** The rows, each a group or the error of its [Scan], and [rows.Err()]. *)
Definition sessionObservation (rows : list (res SessionGroup)) (err : goerr) : option (list SessionGroup) :=
  match mapM (fun r => match r with Ok g => Some g | Err _ => None end) rows, err with
  | Some groups, None => Some groups
  | _, _ => None
  end.

(** ** What may enter a report *)

(** A key that may be published: an allowed name and allowed labels. *)
Definition public_key (key : bytes) : Prop :=
  exists name labels suffixes, allowed_name name = true /\ Forall2 (fun l s => label_suffix l = Some s) labels suffixes /\ key = name ++ concat suffixes.

Lemma metric_key_invalid name labels key : foldl (fun '(key, valid) l =>
  match label_suffix l with Some s => (key ++ s, valid) | None => (key, false) end) (key, false) labels = (name, true) -> False.
Proof. revert key. induction labels as [|l labels IH]; intros key; cbn; [done|]. destruct (label_suffix l); apply IH. Qed.

Lemma metric_key_valid labels : forall key0 key, foldl (fun '(key, valid) l =>
  match label_suffix l with Some s => (key ++ s, valid) | None => (key, false) end) (key0, true) labels = (key, true) ->
  exists suffixes, Forall2 (fun l s => label_suffix l = Some s) labels suffixes /\ key = key0 ++ concat suffixes.
Proof.
  induction labels as [|l labels IH]; intros key0 key; cbn [foldl].
  { intros [= <-]. exists []. split; [constructor|]. by rewrite app_nil_r. }
  destruct (label_suffix l) as [s|] eqn:El; [|by intros ?%metric_key_invalid]. intros E. apply IH in E as (ss & Hf & ->).
  exists (s :: ss). split; [by constructor|]. cbn [concat]. by rewrite app_assoc.
Qed.

Lemma add_family_public f out : map_Forall (fun k _ => public_key k) out -> map_Forall (fun k _ => public_key k) (add_family out f).
Proof.
  unfold add_family. destruct (allowed_name (f_name f)) eqn:Ea; [|done]. revert out. induction (f_Metric f) as [|m ms IH]; intros out Ho; [done|].
  cbn [foldl]. apply IH. unfold add_metric. destruct (metric_key (f_name f) (m_Label m)) as [key []] eqn:Ek; [|done]. destruct (metric_value m) as [v|]; [|done].
  apply map_Forall_insert_2; [|done]. apply metric_key_valid in Ek as (ss & Hf & ->). by exists (f_name f), (m_Label m), ss.
Qed.

(** A scrape publishes runtime signals only.  Whatever the service exposes
    and whatever the parser makes of it, every key that enters a report is a
    name of the allow list followed by labels of the allow list with their
    allowed values, and no infinity is left among its numbers. *)
Theorem scrape_is_public address request_ok response parse metrics :
  runtimeScrape address request_ok response parse = Available metrics ->
  map_Forall (fun key v => public_key key /\ v <> Number PosInf) metrics.
Proof.
  unfold runtimeScrape. destruct (_ || _); [done|]. destruct response as [[status [raw|e]]|e]; [|done|done]. destruct (status =? 200); [|done]. cbn [negb].
  unfold numericRuntimeMetrics. destruct (parse raw) as [fs|e]; [|done]. intros [= <-].
  assert (Hp : map_Forall (fun k _ => public_key k) (foldl add_family ∅ fs)).
  { assert (H0 : map_Forall (fun k (_ : number) => public_key k) (∅ : gmap bytes number)) by apply map_Forall_empty. revert H0.
    generalize (∅ : gmap bytes number). induction fs as [|f fs IH]; intros out Ho; [done|]. cbn [foldl]. by apply IH, add_family_public. }
  apply map_Forall_fmap. eapply map_Forall_impl; [exact Hp|]. intros k v Hk. split; [done|]. by destruct v.
Qed.

(** ** A scrape *)

Definition sample_families : list MetricFamily :=
  [ mkFamily (lit "ingestkit_process_limit") [mkMetric [(lit "resource", lit "process_open_files")] None (Some PosInf) None;
                                              mkMetric [(lit "resource", lit "process_open_files"); (lit "tenant", lit "a")] None (Some (Finite 1)) None];
    mkFamily (lit "http_requests") [mkMetric [(lit "tenant", lit "a")] None None (Some (Finite 3))];
    mkFamily (lit "ingestkit_stored_total") [mkMetric [] None None (Some (Finite 7))] ].
Definition sample_scrape : scrape := runtimeScrape (lit "http://a") true (Ok (200, Ok [])) (fun _ => Ok sample_families).

Lemma scrape_is_public_witness :
  exists metrics, sample_scrape = Available metrics /\
    (size metrics = 2%nat /\ metrics !! (lit "ingestkit_process_limit{resource=process_open_files}") = Some Unlimited) /\
    map_Forall (fun key v => public_key key /\ v <> Number PosInf) metrics.
Proof.
  eexists. split; [reflexivity|]. split; [vm_compute; split; reflexivity|].
  exact (scrape_is_public (lit "http://a") true (Ok (200, Ok [])) (fun _ => Ok sample_families) _ eq_refl).
Defined.
