(* ===== verification/Recovery.v ===== *)
(** * Fault scenarios: [internal/benchmark/recovery.go] and [VerifyOutboxRows]
    of [verification.go]

    The outbox scenario stops the broker under a hundred local events, has a
    first dispatch fail, restores the broker and has a second one succeed.
    The Python process, the statements on its rows and the order in which the
    calls of the two goroutines fall are parameters ([RecoveryHost]), and so
    is what encoding/json makes of their output. *)
From S2P Require Import Prelude GoBytes GoTime GoJson GoEncode GoPath Event EventFacts RuntimeInfo Runtime Persistence Telemetry Publisher Reader RateLimit Config Service Api Deployment RunEnv GoFloat BenchAccounting BenchStudy LoadGen Delivery ProgressProbe Observer.

Record FaultEvent := mkFaultEvent {
  fv_Action : string; fv_Service : bytes; fv_ErrorClass : string; fv_Repetition : Z; fv_ElapsedNS : Z; fv_PlannedNS : Z; fv_At : Z
}.
Record OutboxPoint := mkPoint { pt_ElapsedNS : Z; pt_Pending : Z; pt_Acknowledged : Z }.

Record RecoveryRun {U : UUIDLib} := mkRecovery {
  rv_FirstAttemptStatus : bytes;
  rv_FirstAttemptNS : Z;
  rv_AmbiguousIDs : list uuid;
  rv_Repetition : Z;
  rv_Correct : bool;
  rv_Faults : list FaultEvent;
  rv_Pipeline : option PipelineRun;
  rv_Outbox : list OutboxPoint;
  rv_AcceptedIDs : list uuid;
  rv_StoredIDs : list uuid
}.

(** The members of a dispatch's summary that are looked at: a string, and
    numbers. *)
Record Summary := mkSummary { sm_error : option bytes; sm_acknowledged : option Q; sm_pending : option Q }.
Definition no_summary : Summary := mkSummary None None None.

Class RecoveryHost {U : UUIDLib} {Wd : World} := {
  (** python3 in a directory and an environment: its combined output *)
  r_python : Context -> bytes -> list bytes -> list bytes -> W -> (bytes * goerr) * W;
  r_inputs : bytes -> option (list Input);
  r_summary : bytes -> option Summary;
  (** [order_id] of a payload *)
  r_order : bytes -> option bytes;
  SelectOutbox : Context -> bytes -> list uuid -> bytes -> W -> res (list StoredRow * goerr) * W;
  DeleteOutbox : Context -> list uuid -> W -> W;
  (** how many of the restoring goroutine's two calls precede the dispatch *)
  r_order_of_calls : W -> nat
}.

Section Recovery.
Context {U : UUIDLib} {Wd : World} {H : Host} {OS : ObserverSession} {P : OffsetProbe} {R : RecoveryHost}.
Context (same_json : bytes -> bytes -> bool) (s : Stack).

Definition wait_until (ctx : Context) (at_ : Z) : M W goerr := io (waitUntil ctx at_).

Definition restoreOwned (service : bytes) : M W goerr :=
  let! t := clock_now in SetServiceRunning s (WithTimeout Background t (15 * Second)) service true.

(** ** The outbox *)

Definition outboxProcess (ctx : Context) (args : list bytes) : M W (bytes * goerr) :=
  let! root := Root in
  match root with
  | Err err => ret ([], Some err)
  | Ok root =>
      let! environ := gets h_environ in
      let! key := APIKey s in
      io (r_python ctx root
        (environ ++ [assign "API_URL" (APIURL s); assign "INGESTKIT_API_KEY" key; assign "INGESTKIT_CA_FILE" (Join [Directory s; lit "root.crt"])]) args)
  end.

Definition outbox_script : bytes := lit "import json,sqlite3,sys; from examples.outbox.app import create_order; db,prefix,count=sys.argv[1],sys.argv[2],int(sys.argv[3]); [create_order(db,prefix+'/'+str(i),1000+i) for i in range(count)]; connection=sqlite3.connect(db); print('['+','.join(row[0] for row in connection.execute('SELECT body FROM outbox ORDER BY rowid'))+']'); connection.close()".

Definition makeOutbox (ctx : Context) (database prefix : bytes) (count : Z) : M W (res (list Envelope)) :=
  let! (raw, err) := outboxProcess ctx [lit "-c"; outbox_script; database; prefix; itoa count] in
  match err, r_inputs raw with
  | Some _, _ => ret (Err (ENew "outbox setup failed"))
  | None, Some inputs =>
      if Z.of_nat (length inputs) =? count then ret (Ok (map (fun input => mkEnvelope input (lit "default") zero_Time) inputs))
      else ret (Err (ENew "invalid outbox setup result"))
  | None, None => ret (Err (ENew "invalid outbox setup result"))
  end.

(** A summary that cannot be read is nil; one that can comes with the error of
    the process. *)
Definition dispatchOutbox (ctx : Context) (database : bytes) : M W (Summary * goerr) :=
  let! (raw, err) := outboxProcess ctx [lit "-m"; lit "examples.outbox"; lit "dispatch"; lit "--database"; database; lit "--max-attempts"; lit "1"] in
  match r_summary raw with
  | None => ret (no_summary, Some (ENew "invalid outbox dispatch result"))
  | Some summary => ret (summary, err)
  end.

Definition eventIDs (events : list Envelope) : list uuid := map (fun e => EventID (env_Input e)) events.

(** ** Waiting for the rows *)

Fixpoint stored_loop (fuel : nat) (ctx : Context) (n : nat) (end_ : Z) (o : PendingObserver) (found : gset uuid) (w : W)
    : option (goerr * PendingObserver * W) :=
  match fuel with
  | O => None
  | S fuel =>
      if (n <=? size found)%nat then Some (None, o, w)
      else
        match Observe o ctx w with
        | (Err e, o, w) => Some (Some e, o, w)
        | (Ok rows, o, w) =>
            let found := list_to_set (map so_ID rows) ∪ found in
            if (size found =? n)%nat then Some (None, o, w)
            else if end_ <? now w then Some (Some (ENew "acknowledged outbox events did not drain"), o, w)
            else
              match waitUntil ctx (now w + 50 * Millisecond) w with
              | (Some e, w) => Some (Some e, o, w)
              | (None, w) => stored_loop fuel ctx n end_ o found w
              end
        end
  end.

(** Rounds of 50 ms up to the deadline, and the one past it. *)
Definition stored_fuel (deadline : Z) : nat := Z.to_nat (deadline / (50 * Millisecond)) + 3.

Fixpoint drop_to_slash (s : bytes) : bytes :=
  match s with [] => [] | c :: r => if c =? 47 then s else drop_to_slash r end.
(** [OrderID[:slash+1]]; [None] without a slash. *)
Definition upto_slash (s : bytes) : option bytes :=
  match drop_to_slash (rev s) with [] => None | r => Some (rev r) end.

Definition VerifyOutboxRows (ctx : Context) (tenant prefix : bytes) (expected : list Envelope) (required : list uuid) (w : W)
    : goerr * PipelineVerification * W :=
  if bool_decide (expected = []) || bool_decide (prefix = []) then (Some (ENew "missing outbox namespace"), mkVerification [] 0 0 0, w)
  else
    let '(query, w) := SelectOutbox ctx tenant (eventIDs expected) prefix w in
    let '(err, v) := verifySelectedRows same_json expected required query in (err, v, w).

(** [None]: out of fuel, or the panic of [events[0]]. *)
Definition waitStoredInputs (ctx : Context) (events : list Envelope) (deadline : Z) : M W (list uuid * goerr) := fun w =>
  let ids := eventIDs events in
  match NewPendingObserver ctx (lit "default") ids w with
  | (Err err, w) => Some (([], Some err), w)
  | (Ok observer, w) =>
      let close o w := Observer_Close o (WithTimeout Background (now w) (3 * Second)) w in
      match stored_loop (stored_fuel deadline) ctx (length ids) (now w + deadline) observer ∅ w with
      | None => None
      | Some (Some e, o, w) => let '(_, _, w) := close o w in Some (([], Some e), w)
      | Some (None, o, w) =>
          let '(err, o, w) := close o w in
          match err with
          | Some err => Some (([], Some err), w)
          | None =>
              match events with
              | [] => None
              | e :: _ =>
                  match r_order (Payload (env_Input e)) with
                  | None => Some (([], Some (ENew "invalid outbox verification payload")), w)
                  | Some order =>
                      match upto_slash order with
                      | None => Some (([], Some (ENew "outbox verification needs a business namespace")), w)
                      | Some prefix =>
                          let '(err, v, w) := VerifyOutboxRows ctx (lit "default") prefix events ids w in Some ((v_StoredIDs v, err), w)
                      end
                  end
              end
          end
      end
  end.

Definition deleteOutboxRows (events : list Envelope) : M W unit := fun w =>
  Some (tt, DeleteOutbox (WithTimeout Background (now w) (5 * Second)) (eventIDs events) w).

Definition wait_caught_up (ctx : Context) : M W goerr := WaitConsumerCaughtUp ctx (Brokers s).

(** ** One outage *)

Definition fault_entry (service : bytes) (rep start : Z) (action : string) (planned : Z) (err : goerr) : M W FaultEvent :=
  let! t := clock_now in
  ret (mkFaultEvent action service (match err with Some _ => "control_failed" | None => "" end) rep (t - start) planned t).

Definition redpanda : bytes := lit "redpanda".

(** The restoring goroutine: its wait, and what follows it. *)
Definition restore_broker (ctx : Context) (c : Case) (rep start down : Z) : M W (goerr * list FaultEvent) :=
  let! requested := fault_entry redpanda rep start "restore_requested" (down + RestoreAt c - start) None in
  let! e := SetServiceRunning s ctx redpanda true in
  let! started := fault_entry redpanda rep start "started" 0 e in
  ret (e, [requested; started]).
Definition restore_after (ctx : Context) (c : Case) (rep start down : Z) (waited : goerr) : M W (goerr * list FaultEvent) :=
  match waited with Some e => ret (Some e, []) | None => restore_broker ctx c rep start down end.

(** The first dispatch: its result, its start ([firstStarted]) and its
    end. *)
Definition first_dispatch (ctx : Context) (database : bytes) : M W (Summary * goerr * Z * Z) :=
  let! started := clock_now in
  let! (summary, err) := dispatchOutbox ctx database in
  let! ended := clock_now in ret (summary, err, started, ended).

(** Both goroutines, up to the receive from [restoreDone]. *)
Definition dispatch_and_restore (ctx : Context) (c : Case) (database : bytes) (rep start down : Z)
    : M W (Summary * goerr * Z * Z * (goerr * list FaultEvent)) :=
  let! order := gets r_order_of_calls in
  match order with
  | 0%nat =>
      let! first := first_dispatch ctx database in
      let! waited := wait_until ctx (down + RestoreAt c) in
      let! restored := restore_after ctx c rep start down waited in ret (first, restored)
  | 1%nat =>
      let! waited := wait_until ctx (down + RestoreAt c) in
      let! first := first_dispatch ctx database in
      let! restored := restore_after ctx c rep start down waited in ret (first, restored)
  | _ =>
      let! waited := wait_until ctx (down + RestoreAt c) in
      let! restored := restore_after ctx c rep start down waited in
      let! first := first_dispatch ctx database in ret (first, restored)
  end.

Fixpoint ready_loop (fuel : nat) (ctx : Context) (client : Client) (ready : Z) : M W goerr :=
  match fuel with
  | O => diverge
  | S fuel =>
      let! response := io (h_get client (APIURL s ++ lit "/ready")) in
      if match response with Ok status => status =? 200 | Err _ => false end then ret None
      else
        let! t := clock_now in
        if ready <? t then ret (Some (ENew "broker did not restore API readiness"))
        else
          let! t := clock_now in
          let! e := wait_until ctx (t + 100 * Millisecond) in
          match e with Some e => ret (Some e) | None => ready_loop fuel ctx client ready end
  end.
Definition ready_fuel (drain : Z) : nat := Z.to_nat (drain / (100 * Millisecond)) + 3.

Definition is_number (v : option Q) (n : Z) : bool := match v with Some q => Qeq_bool q (float_of_int n) | None => false end.

(** The outage was seen: the first dispatch failed as expected and late
    enough, and nothing was lost or acknowledged. *)
Definition fault_seen (c : Case) (summary : Summary) (firstErr : goerr) (status : bytes) (firstNS : Z) : bool :=
  negb (bool_decide (firstErr = None) || bool_decide (status = []) || (firstNS <? 5 * Second) ||
        negb (is_number (sm_acknowledged summary) 0) || negb (is_number (sm_pending summary) (Count c))).

Definition first_status (summary : Summary) : bytes :=
  match sm_error summary with
  | Some code => if bool_decide (code = lit "http_503") || bool_decide (code = lit "delivery_uncertain") then code else []
  | None => []
  end.

(** After the broker was restored. *)
Definition redispatch (ctx : Context) (c : Case) (database : bytes) (events : list Envelope) (start : Z) (run : RecoveryRun) : M W (RecoveryRun * goerr) :=
  let! client := gets (HTTPClient s) in
  match client with
  | Err e => ret (run, Some e)
  | Ok client =>
      let! t := clock_now in
      let! e := ready_loop (ready_fuel (DrainTime c)) ctx client (t + DrainTime c) in
      match e with
      | Some e => ret (run, Some e)
      | None =>
          let! (summary, err) := dispatchOutbox ctx database in
          if bool_decide (err <> None) || negb (is_number (sm_acknowledged summary) (Count c))
          then ret (run, Some (ENew "restored outbox dispatch was not acknowledged"))
          else
            let! t := clock_now in
            let! (stored, err) := waitStoredInputs ctx events (DrainTime c) in
            let! err := match err with None => wait_caught_up ctx | Some e => ret (Some e) end in
            ret (mkRecovery U (rv_FirstAttemptStatus run) (rv_FirstAttemptNS run) (rv_AmbiguousIDs run) (rv_Repetition run)
                   (bool_decide (err = None) && (Z.of_nat (length stored) =? Count c)) (rv_Faults run) None
                   (rv_Outbox run ++ [mkPoint (t - start) 0 (Count c)]) (eventIDs events) stored, err)
      end
  end.

Definition stop_and_restore (ctx : Context) (c : Case) (database : bytes) (events : list Envelope) (rep : Z) : M W (RecoveryRun * goerr) :=
  let! start := clock_now in
  let! requested := fault_entry redpanda rep start "fault_requested" 0 None in
  let! err := SetServiceRunning s ctx redpanda false in
  let! stopped := fault_entry redpanda rep start "stopped" 0 err in
  match err with
  | Some err => ret (mkRecovery U [] 0 [] rep false [requested; stopped] None [] [] [], Some err)
  | None =>
      let! down := clock_now in
      let! (first, (restoreErr, restoration)) := dispatch_and_restore ctx c database rep start down in
      let '(summary, firstErr, firstStarted, ended) := first in
      let status := first_status summary in
      let run := mkRecovery U status (ended - firstStarted) (if bool_decide (status = []) then [] else eventIDs events) rep false
                   ([requested; stopped] ++ restoration) None [mkPoint (down - start) (Count c) 0; mkPoint (ended - start) (Count c) 0] [] [] in
      match restoreErr with
      | Some e => ret (run, Some e)
      | None =>
          if negb (fault_seen c summary firstErr status (ended - firstStarted)) then ret (run, Some (ENew "broker fault did not retain all pending outbox events"))
          else redispatch ctx c database events start run
      end
  end.

Definition outbox_database (rep : bytes) : bytes := Join [Directory s; lit "private"; lit "outbox-" ++ rep ++ lit ".db"].

Definition outboxRecoverySample (ctx : Context) (c : Case) (namespace : bytes) (rep : Z) : M W (RecoveryRun * goerr) :=
  let database := outbox_database (itoa rep) in
  let! events := makeOutbox ctx database (namespace ++ lit "/rep" ++ itoa rep) (Count c) in
  match events with
  | Err err => ret (mkRecovery U [] 0 [] rep false [] None [] [] [], Some err)
  | Ok events =>
      let! result := stop_and_restore ctx c database events rep in
      let! _ := deleteOutboxRows events in
      ret result
  end.

(** ** The scenario *)

Fixpoint outbox_samples (ctx : Context) (c : Case) (namespace : bytes) (reps : list Z) (runs : list RecoveryRun) : M W (list RecoveryRun * goerr) :=
  match reps with
  | [] => ret (runs, None)
  | rep :: rest =>
      let! (run, err) := outboxRecoverySample ctx c namespace rep in
      match err with
      | Some err => ret (runs ++ [run], Some err)
      | None => outbox_samples ctx c namespace rest (runs ++ [run])
      end
  end.

Definition outbox_body (ctx : Context) (c : Case) (namespace : bytes) : M W (list RecoveryRun * goerr) :=
  let warmDB := outbox_database (lit "warm") in
  let! warm := makeOutbox ctx warmDB (namespace ++ lit "/warm") 1 in
  match warm with
  | Err e => ret ([], Some e)
  | Ok warm =>
      let! (_, e) := dispatchOutbox ctx warmDB in
      match e with
      | Some _ => ret ([], Some (ENew "outbox warm-up dispatch failed"))
      | None =>
          let! (_, e) := waitStoredInputs ctx warm (DrainTime c) in
          match e with
          | Some e => ret ([], Some e)
          | None =>
              let! e := wait_caught_up ctx in
              match e with
              | Some e => ret ([], Some e)
              | None => let! _ := deleteOutboxRows warm in outbox_samples ctx c namespace (seqZ 1 (Repetitions c)) []
              end
          end
      end
  end.

Definition runOutboxRecovery (ctx : Context) (c : Case) (namespace : bytes) : M W (list RecoveryRun * goerr) :=
  let! (runs, result) := outbox_body ctx c namespace in
  let! restored := restoreOwned redpanda in
  ret (runs, errors_Join [result; restored]).

(** ** The database and consumer scenarios

    The goroutine that [SampleStarted] starts; [done] carries its error. *)
Definition fault_control (ctx : Context) (c : Case) (service : bytes) (rep start : Z) : M W (goerr * list FaultEvent) :=
  let! err := wait_until ctx (start + FaultAt c) in
  match err with
  | Some e => ret (Some e, [])
  | None =>
      let! requested := fault_entry service rep start "fault_requested" (FaultAt c) None in
      let! err := if bool_decide (service = lit "consumer") then KillConsumer s ctx else SetServiceRunning s ctx service false in
      let! stopped := fault_entry service rep start "stopped" (FaultAt c) err in
      match err with
      | Some e => ret (Some e, [requested; stopped])
      | None =>
          let! err := wait_until ctx (start + RestoreAt c) in
          match err with
          | Some e => ret (Some e, [requested; stopped])
          | None =>
              let! again := fault_entry service rep start "restore_requested" (RestoreAt c) None in
              let! err := SetServiceRunning s ctx service true in
              let! started := fault_entry service rep start "started" (RestoreAt c) err in
              ret (err, [requested; stopped; again; started])
          end
      end
  end.

(** [SampleFinished] of a repetition whose control has sent [done]; of the
    warm-up, and of one whose sample did not start, there is none. *)
Definition sample_finished (ctx : Context) (rep : Z) (done : option goerr) : M W goerr :=
  if rep =? 0 then wait_caught_up ctx
  else match done with
       | None => ret None
       | Some (Some e) => ret (Some e)
       | Some None => wait_caught_up ctx
       end.

(** The loop over the runs of [RunPipeline], with the traces and the errors
    of the controls. *)
Fixpoint recovery_runs (traces : gmap Z (list FaultEvent)) (failures : gmap Z error) (runs : list PipelineRun) (err : goerr)
    : list RecoveryRun * goerr :=
  match runs with
  | [] => ([], err)
  | sample :: rest =>
      let rep := Repetition (facts sample) in
      let faults := default [] (traces !! rep) in
      let controlErr := failures !! rep in
      let run := mkRecovery U [] 0 [] rep (Correct sample && bool_decide (controlErr = None) && (4 <=? length faults)%nat) faults (Some sample) []
                   (AcceptedIDs (facts sample)) (StoredIDs sample) in
      let '(more, err) := recovery_runs traces failures rest (errors_Join [err; controlErr]) in
      (run :: more, err)
  end.
End Recovery.
