(* ===== verification/RecoveryProps.v ===== *)
(** * Properties of the fault scenarios *)
From S2P Require Import Prelude GoBytes GoTime GoJson GoEncode GoPath Event EventFacts RuntimeInfo Runtime Persistence Telemetry Publisher Reader RateLimit Config Service Api Deployment RunEnv GoFloat BenchAccounting BenchProps BenchStudy LoadGen Delivery ProgressProbe Observer ObserverProps RunEnvProps RunEnvStart Recovery.

(** A session's temporary table does not change while the benchmark waits, an
    event has one row, the working directory is absolute, and the clock does
    not run backwards. *)
Class RecoveryLaws {U : UUIDLib} {Wd : World} {D : Database} (OS : ObserverSession) (P : OffsetProbe) (R : RecoveryHost) (H : Host) := {
  wait_waiting c fire w conn : waiting (snd (probe_wait c fire w)) conn = waiting w conn;
  outbox_rows_unique ctx tenant ids prefix w rows w' :
    SelectOutbox ctx tenant ids prefix w = (Ok (rows, None), w') -> NoDup (map row_id rows);
  outbox_getwd w p : h_getwd w = Ok p -> absolute p;
  begin_forward ctx conn : forward (BeginObserve ctx conn);
  delete_forward ctx conn tenant : forward (DeleteStored ctx conn tenant);
  clock_forward ctx conn : forward (clock_timestamp ctx conn);
  commit_forward ctx conn : forward (CommitObserve ctx conn);
  rollback_forward ctx conn w : now w <= now (RollbackObserve ctx conn w);
  get_forward client url : forward (h_get client url)
}.

Section Facts.
Context {U : UUIDLib} {Wd : World} {D : Database} {H : Host} {OS : ObserverSession} {P : OffsetProbe} {R : RecoveryHost}.
Context {SL : ObserverLaws OS} {PC : ProbeClock P} {RL : RecoveryLaws OS P R H}.
Context (same_json : bytes -> bytes -> bool) (s : Stack).

(** ** The loops end *)

Lemma Observe_forward o ctx w : let '(_, _, w') := Observe o ctx w in now w <= now w'.
Proof.
  unfold Observe. destruct (ob_conn o) as [conn|]; [|done]. cbv zeta. pose proof (begin_forward ctx conn w) as F1.
  destruct (BeginObserve ctx conn w) as [[e|] w1]; cbn [snd] in F1; [done|].
  assert (F2 : let '(_, _, w2) := observe_tx ctx conn (ob_tenant o) w1 in now w1 <= now w2).
  { unfold observe_tx. pose proof (delete_forward ctx conn (ob_tenant o) w1) as Fd. destruct (DeleteStored _ _ _ w1) as [[[rows rerr]|err] w2]; cbn [snd] in Fd; [|done].
    destruct (scan_rows rows) as [[|v out]|e]; [| |done]; (destruct rerr; [done|]).
    - pose proof (commit_forward ctx conn w2) as Fc. destruct (CommitObserve ctx conn w2) as [[e|] w3]; cbn [snd] in Fc; lia.
    - pose proof (clock_forward ctx conn w2) as Fk. destruct (clock_timestamp ctx conn w2) as [[t|e] w3]; cbn [snd] in Fk; [|lia].
      pose proof (commit_forward ctx conn w3) as Fc. destruct (CommitObserve ctx conn w3) as [[e|] w4]; cbn [snd] in Fc; lia. }
  destruct (observe_tx _ _ _ w1) as [[r q] w2]. pose proof (rollback_forward (WithTimeout Background (now w2) Second) conn w2). lia.
Qed.

Lemma stored_loop_returns ctx n end_ : forall fuel o found w, end_ - now w < Z.of_nat fuel * (50 * Millisecond) ->
  is_Some (stored_loop (S fuel) ctx n end_ o found w).
Proof.
  induction fuel as [|fuel IH]; intros o found w Hf; cbn [stored_loop]; (destruct (n <=? _)%nat; [by eexists|]);
    pose proof (Observe_forward o ctx w) as F; destruct (Observe o ctx w) as [[[rows|e] o1] w1]; try (by eexists);
    (destruct (_ =? n)%nat; [by eexists|]); (destruct (end_ <? now w1) eqn:E; [by eexists|]); bool_to_prop; [lia|].
  pose proof (waitUntil_spec ctx (50 * Millisecond) w1 ltac:(unfold Millisecond; lia)) as Hw.
  destruct (waitUntil _ _ w1) as [[e|] w2]; [by eexists|]. apply IH. specialize (Hw eq_refl). unfold Millisecond in *. lia.
Qed.

(** The wait for the rows has enough fuel for its deadline. *)
Lemma stored_fuel_enough ctx n deadline o w : 0 <= deadline -> is_Some (stored_loop (stored_fuel deadline) ctx n (now w + deadline) o ∅ w).
Proof.
  intros Hd. unfold stored_fuel. replace (Z.to_nat (deadline / (50 * Millisecond)) + 3)%nat with (S (Z.to_nat (deadline / (50 * Millisecond)) + 2)) by lia.
  apply stored_loop_returns. pose proof (Z.div_mod deadline (50 * Millisecond) ltac:(unfold Millisecond; lia)).
  pose proof (Z.mod_pos_bound deadline (50 * Millisecond) ltac:(unfold Millisecond; lia)).
  rewrite Nat2Z.inj_add, Z2Nat.id by (apply Z.div_pos; unfold Millisecond in *; lia). unfold Millisecond in *. lia.
Qed.

Lemma ready_loop_returns ctx client ready : forall fuel w, ready - now w < Z.of_nat fuel * (100 * Millisecond) ->
  is_Some (ready_loop s (S fuel) ctx client ready w).
Proof.
  induction fuel as [|fuel IH]; intros w Hf; cbn [ready_loop]; unfold bind, io, clock_now, gets;
    pose proof (get_forward client (APIURL s ++ lit "/ready") w) as F; destruct (h_get client _ w) as [r w1]; cbn [snd] in F.
  all: destruct (match r with Ok status => status =? 200 | Err _ => false end); [by eexists|]; destruct (ready <? now w1) eqn:E; [by eexists|]; bool_to_prop.
  { lia. }
  unfold wait_until, io. pose proof (waitUntil_spec ctx (100 * Millisecond) w1 ltac:(unfold Millisecond; lia)) as Hw.
  destruct (waitUntil _ _ w1) as [[e|] w2]; [by eexists|]. apply IH. specialize (Hw eq_refl). unfold Millisecond in *. lia.
Qed.

(** ** The rows *)

Lemma stored_loop_found ctx conn ids n end_ : forall fuel o found w o' w', ob_conn o = Some conn ->
  waiting w conn ⊆ list_to_set ids -> found ⊆ list_to_set ids ->
  stored_loop fuel ctx n end_ o found w = Some (None, o', w') -> (n <= size (list_to_set ids : gset uuid))%nat.
Proof.
  induction fuel as [|fuel IH]; intros o found w o' w' Hc Hw Hf; cbn [stored_loop]; [done|].
  pose proof (subseteq_size _ _ Hf) as Hs. destruct (n <=? size found)%nat eqn:E; [intros _; apply Nat.leb_le in E; lia|].
  pose proof (Observe_spec o conn ctx w Hc) as Ho. destruct (Observe o ctx w) as [[[rows|e] o1] w1]; [|done]. destruct Ho as (Hc1 & _ & _ & Hsub & Hr).
  destruct Hr as (_ & _ & Hin & _). assert (Hf1 : list_to_set (map so_ID rows) ∪ found ⊆ (list_to_set ids : gset uuid)).
  { apply union_subseteq. split; [|done]. intros id Hid. apply Hw. apply Hin. by apply elem_of_list_to_set in Hid. }
  pose proof (subseteq_size _ _ Hf1) as Hs1. cbv zeta. destruct (size _ =? n)%nat eqn:En; [intros _; apply Nat.eqb_eq in En; lia|].
  destruct (end_ <? now w1); [done|]. destruct (waitUntil _ _ w1) as [[e|] w2] eqn:Ew; [done|]. apply IH; [done| |done].
  unfold waitUntil in Ew. pose proof (fun fire => wait_waiting ctx fire w1 conn) as Hww. specialize (Hww (Z.max (now w1) (now w1 + 50 * Millisecond))).
  destruct (probe_wait _ _ w1) as [b w3]. injection Ew as _ <-. cbn [snd] in Hww. rewrite Hww. by transitivity (waiting w conn).
Qed.

(** What a wait without error has found. *)
Lemma waitStoredInputs_ok ctx events deadline w stored w' :
  waitStoredInputs same_json ctx events deadline w = Some ((stored, None), w') ->
  NoDup (eventIDs events) /\ exists rows prefix w1, SelectOutbox ctx (lit "default") (eventIDs events) prefix w1 = (Ok (rows, None), w') /\
    stored = map row_id rows /\ stored ≡ₚ eventIDs events /\
    Forall (fun row => exists e, e ∈ events /\ EventID (env_Input e) = row_id row /\ row_matches same_json row e = true) rows.
Proof.
  unfold waitStoredInputs. cbv zeta. pose proof (new_observer_spec ctx (lit "default") (eventIDs events) w) as Hn.
  destruct (NewPendingObserver ctx _ _ w) as [[o|err] w1]; [|done]. destruct Hn as (_ & conn & Hc & _ & Hw).
  destruct (stored_loop _ _ _ _ o ∅ w1) as [[[[e|] o1] w2]|] eqn:El; [by destruct (Observer_Close _ _ w2) as [[? ?] ?]| |done].
  apply (stored_loop_found ctx conn (eventIDs events)) in El; [|done|by rewrite Hw|apply empty_subseteq].
  assert (Hnd : NoDup (eventIDs events)).
  { pose proof (size_set_le (eventIDs events)) as Hle. apply size_uniqueIDs. unfold uniqueIDs. lia. }
  intros Hv. split; [done|]. destruct (Observer_Close _ _ w2) as [[[err|] o2] w3]; [done|].
  assert (exists prefix, (let '(err, v, w) := VerifyOutboxRows same_json ctx (lit "default") prefix events (eventIDs events) w3 in
    Some (v_StoredIDs v, err, w)) = Some (stored, None, w')) as [prefix Hp].
  { destruct events as [|e0 es0]; [done|]. destruct (r_order _) as [order|]; [|done]. destruct (upto_slash order) as [prefix|]; [|done]. by exists prefix. }
  clear Hv. revert Hp. unfold VerifyOutboxRows. destruct (_ || _); [done|].
  destruct (SelectOutbox _ _ _ _ w3) as [q w4] eqn:Eq. destruct (verifySelectedRows _ _ _ q) as [err v] eqn:Ev.
  intros [= <- -> <-]. apply verifySelectedRows_ok in Ev as (rows & -> & Hst & _ & Hreq & Hrows). exists rows, prefix, w3. split; [done|]. split; [done|].
  split; [|done]. rewrite Hst. apply NoDup_Permutation; [by eapply outbox_rows_unique|done|]. intros id. split; [|apply Hreq].
  intros (row & -> & Hrow)%list_elem_of_fmap. eapply Forall_forall in Hrows as (e & He & <- & _); [|exact Hrow].
  unfold eventIDs. apply list_elem_of_fmap. by exists e.
Qed.

(** ** An outage *)

Definition outage_actions : list string := ["fault_requested"; "stopped"; "restore_requested"; "started"].

(** A trace of one outage of [service]: the four actions, none failed. *)
Definition full_trace (service : bytes) (rep : Z) (faults : list FaultEvent) : Prop :=
  map fv_Action faults = outage_actions /\
  Forall (fun f => fv_Service f = service /\ fv_ErrorClass f = ""%string /\ fv_Repetition f = rep) faults.

(** A repetition that passed: the outage was seen by a dispatch that took its
    time and left all events pending; the events of the second dispatch are
    those of the first, all acknowledged, and each has one row with its
    content. *)
Definition recovered (c : Case) (rep : Z) (run : RecoveryRun) : Prop :=
  rv_Repetition run = rep /\ rv_Correct run = true /\ full_trace redpanda rep (rv_Faults run) /\
  rv_FirstAttemptStatus run ∈ [lit "http_503"; lit "delivery_uncertain"] /\
  (exists ctx database summary e w1 w2, dispatchOutbox s ctx database w1 = Some ((summary, Some e), w2) /\
     rv_FirstAttemptNS run = now w2 - now w1 /\ 5 * Second <= now w2 - now w1 /\
     is_number (sm_acknowledged summary) 0 = true /\ is_number (sm_pending summary) (Count c) = true) /\
  (exists ctx database summary w1 w2, dispatchOutbox s ctx database w1 = Some ((summary, None), w2) /\
     is_number (sm_acknowledged summary) (Count c) = true) /\
  exists events rows prefix ctx w1 w2,
    Z.of_nat (length events) = Count c /\ NoDup (eventIDs events) /\
    rv_AmbiguousIDs run = eventIDs events /\ rv_AcceptedIDs run = eventIDs events /\
    SelectOutbox ctx (lit "default") (eventIDs events) prefix w1 = (Ok (rows, None), w2) /\
    rv_StoredIDs run = map row_id rows /\ rv_StoredIDs run ≡ₚ eventIDs events /\
    Forall (fun row => exists e, e ∈ events /\ EventID (env_Input e) = row_id row /\ row_matches same_json row e = true) rows.

Lemma fault_entry_spec service rep start action planned err w f w' : fault_entry service rep start action planned err w = Some (f, w') ->
  w' = w /\ fv_Action f = action /\ fv_Service f = service /\ fv_Repetition f = rep /\ (err = None -> fv_ErrorClass f = ""%string).
Proof. unfold fault_entry, clock_now, gets, bind, ret. intros [= <- <-]. repeat (split; [done|]). by intros ->. Qed.

Ltac run_binds := repeat match goal with
  | H : bind _ _ _ = Some _ |- _ => apply bind_Some in H as (? & ? & ? & H)
  | H : ret _ _ = Some _ |- _ => unfold ret in H; simplify_eq
  | H : fault_entry _ _ _ _ _ _ _ = Some _ |- _ => apply fault_entry_spec in H as (-> & ? & ? & ? & ?)
  end.

Lemma restore_after_ok ctx c rep start down waited w faults w' :
  restore_after s ctx c rep start down waited w = Some ((None, faults), w') ->
  exists a b, faults = [a; b] /\ fv_Action a = "restore_requested"%string /\ fv_Action b = "started"%string /\
    Forall (fun f => fv_Service f = redpanda /\ fv_ErrorClass f = ""%string /\ fv_Repetition f = rep) faults.
Proof.
  unfold restore_after, restore_broker. destruct waited; intros E; run_binds.
  eexists _, _. split; [done|]. split; [done|]. split; [done|]. repeat constructor; auto.
Qed.

Lemma dispatch_and_restore_ok ctx c database rep start down w first faults w' :
  dispatch_and_restore s ctx c database rep start down w = Some ((first, (None, faults)), w') ->
  (let '(summary, err, started, ended) := first in
   exists w1 w2, dispatchOutbox s ctx database w1 = Some ((summary, err), w2) /\ started = now w1 /\ ended = now w2) /\
  exists a b, faults = [a; b] /\ fv_Action a = "restore_requested"%string /\ fv_Action b = "started"%string /\
    Forall (fun f => fv_Service f = redpanda /\ fv_ErrorClass f = ""%string /\ fv_Repetition f = rep) faults.
Proof.
  assert (Hf : forall w0 first0 w9, first_dispatch s ctx database w0 = Some (first0, w9) ->
    let '(summary, err, started, ended) := first0 in
    exists w1 w2, dispatchOutbox s ctx database w1 = Some ((summary, err), w2) /\ started = now w1 /\ ended = now w2).
  { unfold first_dispatch. intros w0 [[[summary err] started] ended] w9 E. apply bind_Some in E as (t1 & wa & Ht1 & E). unfold clock_now, gets in Ht1.
    injection Ht1 as <- <-. apply bind_Some in E as ([sm e] & wb & Hd & E). apply bind_Some in E as (t2 & wc & Ht2 & E). unfold clock_now, gets in Ht2.
    injection Ht2 as <- <-. unfold ret in E. injection E as -> -> <- <- _. by eexists _, _. }
  unfold dispatch_and_restore. intros E. run_binds. destruct x as [|[|n]]; run_binds; (split; [by eapply Hf|by eapply restore_after_ok]).
Qed.

Lemma fault_seen_spec c summary firstErr ns : fault_seen c summary firstErr (first_status summary) ns = true ->
  first_status summary ∈ [lit "http_503"; lit "delivery_uncertain"] /\ first_status summary <> [] /\ 5 * Second <= ns /\ firstErr <> None /\
  is_number (sm_acknowledged summary) 0 = true /\ is_number (sm_pending summary) (Count c) = true.
Proof.
  unfold fault_seen. intros E. bool_to_prop. split; [|done]. unfold first_status in *. destruct (sm_error summary) as [code|]; [|done].
  destruct (_ || _) eqn:Eo; [|done]. apply orb_true_iff in Eo as [Eo|Eo]; apply bool_decide_eq_true in Eo as ->; [left|right; left].
Qed.

Lemma redispatch_ok ctx c database events start run w run' w' :
  redispatch same_json s ctx c database events start run w = Some ((run', None), w') -> Z.of_nat (length events) = Count c ->
  rv_FirstAttemptStatus run' = rv_FirstAttemptStatus run /\ rv_FirstAttemptNS run' = rv_FirstAttemptNS run /\
  rv_AmbiguousIDs run' = rv_AmbiguousIDs run /\ rv_Repetition run' = rv_Repetition run /\ rv_Faults run' = rv_Faults run /\
  rv_Correct run' = true /\ rv_AcceptedIDs run' = eventIDs events /\ NoDup (eventIDs events) /\
  (exists summary w1 w2, dispatchOutbox s ctx database w1 = Some ((summary, None), w2) /\ is_number (sm_acknowledged summary) (Count c) = true) /\
  exists rows prefix w1 w2, SelectOutbox ctx (lit "default") (eventIDs events) prefix w1 = (Ok (rows, None), w2) /\
    rv_StoredIDs run' = map row_id rows /\ rv_StoredIDs run' ≡ₚ eventIDs events /\
    Forall (fun row => exists e, e ∈ events /\ EventID (env_Input e) = row_id row /\ row_matches same_json row e = true) rows.
Proof.
  unfold redispatch. intros E Hlen. apply bind_Some in E as (client & w1 & _ & E). destruct client as [client|e]; [|by run_binds].
  apply bind_Some in E as (t & w2 & _ & E). apply bind_Some in E as (ready & w3 & _ & E). destruct ready as [e|]; [by run_binds|].
  apply bind_Some in E as ([summary err] & w4 & Hdisp & E). destruct (_ || _) eqn:Eack; [by run_binds|].
  apply orb_false_iff in Eack as [Eerr Eack]. apply bool_decide_eq_false in Eerr. apply negb_false_iff in Eack.
  assert (err = None) as -> by (destruct err; [by destruct Eerr|done]).
  apply bind_Some in E as (t2 & w5 & _ & E). apply bind_Some in E as ([stored serr] & w6 & Hs & E). apply bind_Some in E as (cerr & w7 & Hc & E).
  unfold ret in E. injection E as <- -> <-. destruct serr as [e|]; [by run_binds|].
  apply waitStoredInputs_ok in Hs as (Hnd & rows & prefix & w8 & Hsel & Hst & Hperm & Hrows).
  cbn [rv_FirstAttemptStatus rv_FirstAttemptNS rv_AmbiguousIDs rv_Repetition rv_Faults rv_Correct rv_AcceptedIDs rv_StoredIDs].
  do 5 (split; [done|]). split.
  { rewrite bool_decide_true by done. cbn [andb]. apply Z.eqb_eq. rewrite (Permutation_length Hperm). unfold eventIDs. by rewrite length_map. }
  split; [done|]. split; [done|]. split; [by exists summary, w3, w4|]. by exists rows, prefix, w8, w6.
Qed.

Lemma stop_and_restore_ok ctx c database events rep w run w' :
  stop_and_restore same_json s ctx c database events rep w = Some ((run, None), w') -> Z.of_nat (length events) = Count c -> recovered c rep run.
Proof.
  unfold stop_and_restore. intros E Hlen. apply bind_Some in E as (start & w1 & _ & E). apply bind_Some in E as (f1 & w2 & F1 & E).
  apply bind_Some in E as (err & w3 & _ & E). apply bind_Some in E as (f2 & w4 & F2 & E). destruct err as [e|]; [by run_binds|].
  apply bind_Some in E as (down & w5 & _ & E). apply bind_Some in E as ([[[[summary firstErr] firstStarted] ended] [restoreErr restoration]] & w6 & Hd & E).
  cbv zeta in E. destruct restoreErr as [e|]; [by run_binds|]. apply dispatch_and_restore_ok in Hd as ((wf1 & wf2 & Hfirst & -> & ->) & f3 & f4 & -> & A3 & A4 & Hf).
  destruct (fault_seen _ _ _ _ _) eqn:Es; cbn [negb] in E; [|by run_binds]. apply fault_seen_spec in Es as (Hstatus & Hne & Hns & Herr & Hack & Hpend).
  destruct firstErr as [e1|]; [|done].
  apply redispatch_ok in E as (E1 & E2 & E3 & E4 & E5 & E6 & E7 & Hnd & (sm2 & wd1 & wd2 & Hsecond & Hacked) & rows & prefix & wa & wb & Hsel & Hst & Hperm & Hrows); [|done].
  cbn [rv_FirstAttemptStatus rv_FirstAttemptNS rv_AmbiguousIDs rv_Repetition rv_Faults] in E1, E2, E3, E4, E5. rewrite bool_decide_false in E3 by done.
  apply fault_entry_spec in F1 as (_ & A1 & S1 & R1 & C1). apply fault_entry_spec in F2 as (_ & A2 & S2 & R2 & C2).
  split; [done|]. split; [done|]. split.
  { rewrite E5. split; [cbn [map app]; by rewrite A1, A2, A3, A4|]. repeat (constructor; [by auto|]). exact Hf. }
  rewrite E1, E2. split; [done|]. split; [by exists ctx, database, summary, e1, wf1, wf2|]. split; [by exists ctx, database, sm2, wd1, wd2|].
  by exists events, rows, prefix, ctx, wa, wb.
Qed.

Lemma outbox_sample_ok ctx c namespace rep w run w' :
  outboxRecoverySample same_json s ctx c namespace rep w = Some ((run, None), w') -> recovered c rep run.
Proof.
  unfold outboxRecoverySample. cbv zeta. intros E. apply bind_Some in E as (events & w1 & Hm & E). destruct events as [events|e]; [|by run_binds].
  apply bind_Some in E as (result & w2 & Hs & E). apply bind_Some in E as ([] & w3 & _ & E). unfold ret in E. injection E as -> _.
  apply (stop_and_restore_ok _ _ _ _ _ _ _ _ Hs). unfold makeOutbox in Hm. apply bind_Some in Hm as ([raw err] & w4 & _ & Hm).
  destruct err as [e|]; [by run_binds|]. destruct (r_inputs raw) as [inputs|]; [|by run_binds].
  destruct (_ =? Count c) eqn:El; [|by run_binds]. bool_to_prop. unfold ret in Hm. injection Hm as <- _. by rewrite length_map.
Qed.

Lemma outbox_samples_ok ctx c namespace reps : forall runs w out w',
  outbox_samples same_json s ctx c namespace reps runs w = Some ((out, None), w') -> exists more, out = runs ++ more /\ Forall2 (recovered c) reps more.
Proof.
  induction reps as [|rep reps IH]; intros runs w out w'; cbn [outbox_samples].
  { unfold ret. intros [= <- _]. exists []. rewrite app_nil_r. split; [done|constructor]. }
  intros E. apply bind_Some in E as ([run err] & w1 & Hs & E). destruct err as [e|]; [by run_binds|]. apply outbox_sample_ok in Hs.
  apply IH in E as (more & -> & Hf). exists (run :: more). rewrite <- app_assoc. split; [done|by constructor].
Qed.

(** ** The scenario returns *)

Lemma recovery_root_total : total Root.
Proof.
  intros w. unfold Root. destruct (h_getwd w) as [p|e] eqn:E; [|by eexists _, _].
  destruct (find_root_total (S (length p)) p w) as [r ->]; [by eapply outbox_getwd|lia|]. by eexists _, _.
Qed.

Lemma APIKey_total : total (APIKey s).
Proof. unfold APIKey. destruct (negb _); [apply returns_ret|]. intros w. destruct (ReadDeploymentConfig _); by eexists _, _. Qed.

Lemma SetServiceRunning_total ctx name running : total (SetServiceRunning s ctx name running).
Proof. unfold SetServiceRunning. returns ltac:(apply as_owner_total). Qed.

Lemma outboxProcess_total ctx args : total (outboxProcess s ctx args).
Proof. unfold outboxProcess. returns ltac:(first [apply recovery_root_total | apply APIKey_total]). Qed.

Lemma dispatchOutbox_total ctx database : total (dispatchOutbox s ctx database).
Proof. unfold dispatchOutbox. returns ltac:(apply outboxProcess_total). Qed.

Lemma makeOutbox_total ctx database prefix count : total (makeOutbox s ctx database prefix count).
Proof. unfold makeOutbox. returns ltac:(apply outboxProcess_total). Qed.

Lemma wait_caught_up_total ctx : total (wait_caught_up s ctx).
Proof. intros w. destruct (WaitConsumerCaughtUp_returns ctx (Brokers s) w) as [[err w'] E]. by eexists _, _. Qed.

Lemma restoreOwned_total service : total (restoreOwned s service).
Proof. unfold restoreOwned, clock_now. returns ltac:(apply SetServiceRunning_total). Qed.

Lemma fault_entry_total service rep start action planned err : total (fault_entry service rep start action planned err).
Proof. unfold fault_entry, clock_now. returns fail. Qed.

Lemma restore_after_total ctx c rep start down waited : total (restore_after s ctx c rep start down waited).
Proof. unfold restore_after, restore_broker. returns ltac:(first [apply fault_entry_total | apply SetServiceRunning_total]). Qed.

Lemma dispatch_and_restore_total ctx c database rep start down : total (dispatch_and_restore s ctx c database rep start down).
Proof.
  unfold dispatch_and_restore, first_dispatch, wait_until, clock_now.
  returns ltac:(first [apply dispatchOutbox_total | apply restore_after_total]).
Qed.

Lemma waitStoredInputs_total ctx events deadline : events <> [] -> 0 <= deadline -> total (waitStoredInputs same_json ctx events deadline).
Proof.
  intros Hne Hd w. unfold waitStoredInputs. cbv zeta. destruct (NewPendingObserver _ _ _ w) as [[o|err] w1]; [|by eexists _, _].
  destruct (stored_fuel_enough ctx (length (eventIDs events)) deadline o w1 Hd) as [[[[e|] o1] w2] ->]; destruct (Observer_Close o1 _ w2) as [[[e2|] o2] w3];
    try (by eexists _, _).
  destruct events as [|e0 es]; [done|]. destruct (r_order _) as [order|]; [|by eexists _, _]. destruct (upto_slash order) as [prefix|]; [|by eexists _, _].
  destruct (VerifyOutboxRows _ _ _ _ _ _ w3) as [[err v] w4]. by eexists _, _.
Qed.

Section Returns.
(** What the scenario is given: a positive count and no negative deadline. *)
Context (c : Case) (Hcount : 1 <= Count c) (Hdrain : 0 <= DrainTime c).

Lemma ready_loop_total ctx client w : exists r w', ready_loop s (ready_fuel (DrainTime c)) ctx client (now w + DrainTime c) w = Some (r, w').
Proof.
  destruct (ready_loop_returns ctx client (now w + DrainTime c) (Z.to_nat (DrainTime c / (100 * Millisecond)) + 2) w) as [[r w'] E].
  - pose proof (Z.div_mod (DrainTime c) (100 * Millisecond) ltac:(unfold Millisecond; lia)).
    pose proof (Z.mod_pos_bound (DrainTime c) (100 * Millisecond) ltac:(unfold Millisecond; lia)).
    rewrite Nat2Z.inj_add, Z2Nat.id by (apply Z.div_pos; unfold Millisecond in *; lia). unfold Millisecond in *. lia.
  - exists r, w'. unfold ready_fuel. by replace (Z.to_nat (DrainTime c / (100 * Millisecond)) + 3)%nat
      with (S (Z.to_nat (DrainTime c / (100 * Millisecond)) + 2)) by lia.
Qed.

Lemma redispatch_total ctx database events start run : events <> [] -> total (redispatch same_json s ctx c database events start run).
Proof.
  intros Hne. unfold redispatch. apply returns_bind; [apply total_gets|]. intros [client|e]; [|apply returns_ret].
  assert (Hr : total (let! t := clock_now in ready_loop s (ready_fuel (DrainTime c)) ctx client (t + DrainTime c))).
  { intros w. unfold bind, clock_now, gets. apply ready_loop_total. }
  intros w. destruct (Hr w) as (ready & w1 & E). unfold bind at 1, clock_now, gets in E. unfold bind at 1, clock_now, gets.
  unfold bind at 1. rewrite E. clear E. revert w1. destruct ready as [e|]; [apply returns_ret|].
  returns ltac:(first [apply dispatchOutbox_total | by apply waitStoredInputs_total | apply wait_caught_up_total]).
Qed.

Lemma stop_and_restore_total ctx database events rep : events <> [] -> total (stop_and_restore same_json s ctx c database events rep).
Proof.
  intros Hne. unfold stop_and_restore, clock_now.
  returns ltac:(first [apply fault_entry_total | apply SetServiceRunning_total | apply dispatch_and_restore_total | by apply redispatch_total]).
Qed.

(** An outbox that was made has its events. *)
Lemma makeOutbox_length ctx database prefix count w events w' :
  makeOutbox s ctx database prefix count w = Some (Ok events, w') -> Z.of_nat (length events) = count.
Proof.
  unfold makeOutbox. intros Hm. apply bind_Some in Hm as ([raw err] & w4 & _ & Hm).
  destruct err as [e|]; [by run_binds|]. destruct (r_inputs raw) as [inputs|]; [|by run_binds].
  destruct (_ =? count) eqn:El; [|by run_binds]. bool_to_prop. unfold ret in Hm. injection Hm as <- _. by rewrite length_map.
Qed.

Lemma with_outbox {A} ctx database prefix count (k : res (list Envelope) -> M W A) :
  1 <= count -> (forall events, events <> [] -> total (k (Ok events))) -> (forall e, total (k (Err e))) ->
  total (bind (makeOutbox s ctx database prefix count) k).
Proof.
  intros Hc Hk He w. destruct (makeOutbox_total ctx database prefix count w) as ([events|e] & w1 & E); unfold bind; rewrite E; [|apply He].
  apply Hk. intros ->. apply makeOutbox_length in E. cbn in E. lia.
Qed.

Lemma outbox_sample_total ctx namespace rep : total (outboxRecoverySample same_json s ctx c namespace rep).
Proof.
  unfold outboxRecoverySample. cbv zeta. apply with_outbox; [done| |intros e; apply returns_ret]. intros events Hne.
  apply returns_bind; [by apply stop_and_restore_total|]. intros r. apply returns_bind; [|intros; apply returns_ret]. intros w. by eexists _, _.
Qed.

Lemma outbox_samples_total ctx namespace reps : forall runs, total (outbox_samples same_json s ctx c namespace reps runs).
Proof.
  induction reps as [|rep reps IH]; intros runs; cbn [outbox_samples]; [apply returns_ret|].
  apply returns_bind; [apply outbox_sample_total|]. intros [run [e|]]; [apply returns_ret|apply IH].
Qed.

Lemma outbox_body_total ctx namespace : total (outbox_body same_json s ctx c namespace).
Proof.
  unfold outbox_body. cbv zeta. apply with_outbox; [lia| |intros e; apply returns_ret]. intros warm Hne.
  returns ltac:(first [apply dispatchOutbox_total | by apply waitStoredInputs_total | apply wait_caught_up_total | apply outbox_samples_total
    | match goal with |- total (deleteOutboxRows _) => intros w; by eexists _, _ end]).
Qed.

(** C36: the outbox survives the outage.  The scenario returns, and on every
    path it ends by asking for the broker to run again, and the error of that
    is part of the result.  When there is none, each repetition, in order, has
    the whole trace of one outage without a failed control; a first dispatch
    that took at least five seconds from its own start, failed as undelivered
    and left every event pending; and a second one that acknowledged every
    event, after which every event of the outbox has exactly one row, with its
    type, time and payload, and nothing else has. *)
Theorem outbox_recovery ctx namespace w :
  exists runs err w', runOutboxRecovery same_json s ctx c namespace w = Some ((runs, err), w') /\
  (exists result restored w1, restoreOwned s redpanda w1 = Some (restored, w') /\ err = errors_Join [result; restored]) /\
  (err = None -> Forall2 (recovered c) (seqZ 1 (Repetitions c)) runs).
Proof.
  destruct (outbox_body_total ctx namespace w) as ([runs result] & w1 & Hb). destruct (restoreOwned_total redpanda w1) as (restored & w2 & Hr).
  exists runs, (errors_Join [result; restored]), w2. split; [unfold runOutboxRecovery, bind; by rewrite Hb, Hr|].
  split; [by exists result, restored, w1|]. intros Hn. apply errors_Join_nil in Hn.
  apply Forall_cons in Hn as [-> _]. unfold outbox_body in Hb. cbv zeta in Hb. apply bind_Some in Hb as (warm & w3 & _ & Hb).
  destruct warm as [warm|e]; [|by run_binds]. apply bind_Some in Hb as ([summary e] & w4 & _ & Hb). destruct e as [e|]; [by run_binds|].
  apply bind_Some in Hb as ([ids e] & w5 & _ & Hb). destruct e as [e|]; [by run_binds|].
  apply bind_Some in Hb as (e & w6 & _ & Hb). destruct e as [e|]; [by run_binds|]. apply bind_Some in Hb as ([] & w7 & _ & Hb).
  by apply outbox_samples_ok in Hb as (more & -> & Hf).
Qed.

End Returns.

(** ** The other scenarios *)

(** A control without error leaves the whole trace. *)
Lemma fault_control_trace ctx c service rep start w faults w' :
  fault_control s ctx c service rep start w = Some ((None, faults), w') -> full_trace service rep faults.
Proof.
  unfold fault_control. intros E. apply bind_Some in E as (e1 & w1 & _ & E). destruct e1; [by run_binds|].
  apply bind_Some in E as (f1 & w2 & F1 & E). apply bind_Some in E as (e2 & w3 & _ & E). apply bind_Some in E as (f2 & w4 & F2 & E).
  destruct e2; [by run_binds|]. apply bind_Some in E as (e3 & w5 & _ & E). destruct e3; [by run_binds|].
  apply bind_Some in E as (f3 & w6 & F3 & E). apply bind_Some in E as (e4 & w7 & _ & E). apply bind_Some in E as (f4 & w8 & F4 & E).
  unfold ret in E. injection E as -> <- _. apply fault_entry_spec in F1 as (_ & A1 & S1 & R1 & C1). apply fault_entry_spec in F2 as (_ & A2 & S2 & R2 & C2).
  apply fault_entry_spec in F3 as (_ & A3 & S3 & R3 & C3). apply fault_entry_spec in F4 as (_ & A4 & S4 & R4 & C4).
  split; [cbn [map]; by rewrite A1, A2, A3, A4|]. by repeat (constructor; [by auto|]).
Qed.

(** One run for each run of the pipeline, correct when that is, its control
    had no error and its trace is whole; no error when no control had one. *)
Lemma recovery_runs_spec traces failures runs : forall err,
  let '(out, err') := recovery_runs traces failures runs err in
  Forall2 (fun sample run => rv_Repetition run = Repetition (facts sample) /\ rv_Pipeline run = Some sample /\
    rv_AcceptedIDs run = AcceptedIDs (facts sample) /\ rv_StoredIDs run = StoredIDs sample /\
    (rv_Correct run = true <-> Correct sample = true /\ failures !! rv_Repetition run = None /\ (4 <= length (rv_Faults run))%nat)) runs out /\
  (err' = None -> err = None /\ Forall (fun sample => failures !! Repetition (facts sample) = None) runs).
Proof.
  induction runs as [|sample runs IH]; intros err; cbn [recovery_runs]; [by split|].
  specialize (IH (errors_Join [err; failures !! Repetition (facts sample)])). destruct (recovery_runs _ _ runs _) as [more err']. destruct IH as [Hf He].
  split.
  - constructor; [|exact Hf]. do 4 (split; [done|]). cbn [rv_Correct rv_Repetition rv_Faults].
    rewrite !andb_true_iff, bool_decide_eq_true, Nat.leb_le. tauto.
  - intros ->. destruct (He eq_refl) as [Hj Hall]. apply errors_Join_nil in Hj. apply Forall_cons in Hj as [-> [Hc _]%Forall_cons]. split; [done|by constructor].
Qed.
End Facts.
