(* ===== verification/SimRecovery.v ===== *)
(** * The outbox scenario on concrete inputs

    A broker that is up or down, an outbox of one or two events, a database
    that has the rows as soon as a dispatch is acknowledged. *)
From S2P Require Import Prelude GoBytes GoTime GoJson GoEncode GoPath Event EventFacts RuntimeInfo Runtime Instances Persistence Telemetry Publisher Reader RateLimit Config Service Api Deployment RunEnv GoFloat BenchAccounting BenchProps BenchStudy LoadGen Delivery ProgressProbe Observer ObserverProps RunEnvProps RunEnvStart Recovery RecoveryProps.

Record RecWorld := mkRec { rc_clock : Z; rc_table : Table; rc_waiting : gset uuid; rc_taken : gset uuid; rc_up : bool; rc_outbox : Z }.

#[local] Instance RecW : World := {| W := RecWorld; now := rc_clock |}.
#[local] Instance RecDatabase : Database := {| table := rc_table; Exec _ _ _ w := (Ok 0, w) |}.

Definition rc_at (t : Z) (w : RecWorld) : RecWorld := mkRec t (rc_table w) (rc_waiting w) (rc_taken w) (rc_up w) (rc_outbox w).
Definition rc_sets (waiting taken : gset uuid) (w : RecWorld) : RecWorld := mkRec (rc_clock w) (rc_table w) waiting taken (rc_up w) (rc_outbox w).
Definition rc_set_up (up : bool) (w : RecWorld) : RecWorld := mkRec (rc_clock w) (rc_table w) (rc_waiting w) (rc_taken w) up (rc_outbox w).
Definition rc_with (t : Table) (w : RecWorld) : RecWorld := mkRec (rc_clock w) t (rc_waiting w) (rc_taken w) (rc_up w) (rc_outbox w).
Definition rc_of (n : Z) (w : RecWorld) : RecWorld := mkRec (rc_clock w) (rc_table w) (rc_waiting w) (rc_taken w) (rc_up w) n.

Definition rc_stored (tenant : bytes) (w : RecWorld) (ids : gset uuid) : list uuid :=
  elements (filter (fun id => is_Some (rc_table w !! (tenant, uuid_String id))) ids).

#[local] Instance RecSession : ObserverSession :=
  {| Conn := unit;
     Acquire _ w := (Ok tt, w);
     CreatePending _ _ w := (None, rc_sets ∅ ∅ w);
     CopyPending _ _ ids w := (None, rc_sets (list_to_set ids) ∅ w);
     HijackClose _ _ w := (None, w);
     BeginObserve _ _ w := (None, w);
     DeleteStored _ _ tenant w :=
       let out := rc_stored tenant w (rc_waiting w) in
       (Ok (map (fun id => Ok (mkStoredObservation id 0 None)) out, None), rc_sets (rc_waiting w) (list_to_set out) w);
     clock_timestamp _ _ w := (Ok (rc_clock w), w);
     CommitObserve _ _ w := (None, rc_sets (rc_waiting w ∖ rc_taken w) (rc_taken w) w);
     RollbackObserve _ _ w := w;
     DropPending _ _ w := (None, w);
     ReleaseConn _ w := w;
     waiting w _ := rc_waiting w;
     taken w _ := rc_taken w |}.

Lemma scan_ids (ids : list uuid) out : scan_rows (map (fun id => Ok (mkStoredObservation id 0 None)) ids) = Ok out -> map so_ID out = ids.
Proof.
  revert out. induction ids as [|id l IH]; intros out; cbn [map scan_rows]; [by intros [= <-]|].
  destruct (scan_rows _) as [o|e]; cbn; [|done]. intros [= <-]. cbn. f_equal. exact (IH o eq_refl).
Qed.

#[local] Instance RecSessionLaws : ObserverLaws RecSession.
Proof.
  constructor; try (cbn; done).
  - intros ctx conn ids w w' [= <-]. done.
  - intros ctx conn tenant w rows w' out [= <- <-] Hs%scan_ids. rewrite Hs. split; [done|]. split; [apply NoDup_elements|].
    exists w. split; [done|]. split; [done|]. intros id. unfold rc_stored. rewrite elem_of_elements, elem_of_filter. tauto.
  - intros ctx conn w w' [= <-]. done.
Qed.

#[local] Instance RecProbe : OffsetProbe :=
  {| NewClient _ w := (None, w);
     CloseClient w := w;
     ListOffsets _ _ ps w := (Ok [map (fun p => mkPartitionOffset p 0 0) ps], w);
     OffsetFetch _ _ _ ps w := (Ok ([[map (fun p => mkPartitionOffset p 0 (-1)) ps]], []), w);
     probe_wait c fire w := match ctx_Err c (rc_clock w) with Some _ => (true, w) | None => (false, rc_at (Z.max fire (rc_clock w)) w) end;
     log_end _ _ := 0 |}.

(** Compose stops and starts the broker; nothing else is running. *)
#[local] Instance RecHost : Host :=
  {| h_docker _ _ _ args w :=
       (([], None), if bool_decide (lit "stop" ∈ args) then rc_set_up false w else if bool_decide (lit "start" ∈ args) then rc_set_up true w else w);
     h_sh _ _ w := (([], None), w);
     h_environ _ := [];
     h_getwd _ := Ok (lit "/r");
     h_stat _ _ := None;
     h_abs p _ := Ok p;
     h_mkdirAll _ w := (None, w);
     h_writeFile _ _ w := (None, w);
     h_readFile _ _ := Ok [];
     h_openConfig _ _ := Err (ENew "no file");
     h_listen w := (Ok 1, w);
     h_closeListener _ w := w;
     h_newUUID w := ([], w);
     h_validPEM _ := true;
     h_get _ _ w := (Ok (if rc_up w then 200 else 503), w);
     h_range _ l _ := l |}.

Definition rc_input (n : Z) : Input := mkInput (uid n) (lit "order") (mkTime 5 0 0) (lit "p").
Definition rc_events (n : Z) : list Envelope := map (fun k => mkEnvelope (rc_input (Z.of_nat k)) (lit "default") zero_Time) (seq 1 (Z.to_nat n)).

(** A dispatch to a broker that is down gives up after six seconds. *)
Definition rc_dispatch (w : RecWorld) : (bytes * goerr) * RecWorld :=
  if rc_up w then ((lit "ok", None), rc_with (store_events (rc_table w) (rc_events (rc_outbox w))) w)
  else ((lit "down", Some (ENew "exit status 1")), rc_at (rc_clock w + 6 * Second) w).

#[local] Instance RecRecovery : RecoveryHost :=
  {| r_python _ _ _ args w :=
       match args with
       | [_; _; _; _; count] => ((count, None), rc_of (if bool_decide (count = lit "1") then 1 else 2) w)
       | _ => rc_dispatch w
       end;
     r_inputs raw := Some (map rc_input (if bool_decide (raw = lit "1") then [1] else [1; 2]));
     r_summary raw := Some (if bool_decide (raw = lit "ok") then mkSummary None (Some 2%Q) (Some 0%Q) else mkSummary (Some (lit "http_503")) (Some 0%Q) (Some 2%Q));
     r_order _ := Some (lit "n/rep/1");
     SelectOutbox _ tenant ids _ w := (Ok (map (fun id => mkStoredRow id (lit "order") (mkTime 5 0 0) (lit "p")) (rc_stored tenant w (list_to_set ids)), None), w);
     DeleteOutbox _ ids w := rc_with (foldr (fun id t => delete (lit "default", uuid_String id) t) (rc_table w) ids) w;
     r_order_of_calls _ := 0%nat |}.

#[local] Instance RecClock : ProbeClock RecProbe.
Proof.
  constructor.
  - by intros brokers w.
  - by intros ctx ps w.
  - by intros ctx ps w.
  - intros c fire w w'. cbn. destruct (ctx_Err c (rc_clock w)) eqn:E; [|done]. intros [= <-]. by rewrite E.
  - intros c fire w w'. cbn. destruct (ctx_Err c (rc_clock w)); [done|]. intros [= <-]. cbn. lia.
  - intros c fire w Hc _. cbn in *. by destruct (ctx_Err c (rc_clock w)).
Qed.

#[local] Instance RecLaws : RecoveryLaws RecSession RecProbe RecRecovery RecHost.
Proof.
  constructor; try (cbn; done).
  - intros c fire w conn. cbn. by destruct (ctx_Err c (rc_clock w)).
  - intros ctx tenant ids prefix w rows w' [= <- <-]. rewrite map_map. cbn [row_id]. rewrite map_id. apply NoDup_elements.
  - intros w p [= <-]. by eexists.
  - by intros ctx conn w.
  - by intros ctx conn tenant w.
  - by intros ctx conn w.
  - by intros ctx conn w.
  - by intros client url w.
Qed.

Definition rc_stack : Stack :=
  mkStack (lit "http://a") [] [] [] (lit "b") (lit "ingestkit-r") (lit "/d") (lit "/r") (lit "t") (lit "ingestkit-r") [] true (lit "local") [] false.
Definition rc_case : Case := mkCase 0 0 (lit "r") "recovery" "outbox" "" "varied" 2 100 256 0 0 3 0 0 0 (30 * Second) 0 0 (8 * Second).
Definition rc_start : RecWorld := mkRec 0 ∅ ∅ ∅ true 0.
Definition rc_result := runOutboxRecovery (Wd := RecW) (fun a b => bool_decide (a = b)) rc_stack Background rc_case (lit "n") rc_start.

(** Three outages; the broker runs at the end and the rows are gone. *)
Example outbox_scenario :
  match rc_result with
  | Some (runs, err, w) => Some (map (fun r => (rv_Repetition r, rv_Correct r, map fv_Action (rv_Faults r), rv_FirstAttemptNS r, length (rv_StoredIDs r))) runs, err,
                                 rc_up w, size (rc_table w))
  | None => None
  end = Some (map (fun rep => (rep, true, outage_actions, 6 * Second, 2%nat)) [1; 2; 3], None, true, 0%nat).
Proof. vm_compute. reflexivity. Qed.

Lemma outbox_recovery_witness :
  exists runs w', rc_result = Some (runs, None, w') /\
    Forall2 (recovered (Wd := RecW) (fun a b => bool_decide (a = b)) rc_stack rc_case) [1; 2; 3] runs.
Proof.
  destruct (outbox_recovery (Wd := RecW) (D := RecDatabase) (H := RecHost) (OS := RecSession) (P := RecProbe) (R := RecRecovery)
    (fun a b => bool_decide (a = b)) rc_stack rc_case ltac:(cbn; lia) ltac:(cbn; unfold Second; lia) Background (lit "n") rc_start) as (runs & err & w' & E & _ & Hn).
  pose proof outbox_scenario as Hb. unfold rc_result in *. rewrite E in Hb. assert (He : err = None) by (injection Hb as _ He _ _; exact He). subst err.
  exists runs, w'. split; [exact E|]. exact (Hn eq_refl).
Defined.
