(* ===== verification/SimLoad.v ===== *)
(** * A sample of the load generator on concrete inputs *)
From S2P Require Import Prelude GoBytes GoTime GoJson GoFloat Event Runtime Instances Demo BenchAccounting BenchProps LoadGen LoadGenProps Workload.

(** Five events in batches of two, one worker: the queue takes one batch
    ahead, the last one is not sent in time. *)
Definition load_config : SampleConfig := mkSampleConfig 1 2 1000 500 100 (lit "steady") false.
Definition load_ids : list uuid := map uid [11; 12; 13; 14; 15].
Definition load_started : Z := 7000.
Definition answered (accepted ambiguous : bool) : sendResult := mkSendResult 202 [] accepted ambiguous 0 0 0.

Definition load_events : list event :=
  [ ESchedule false 7000 7000; ETake 0 7005; ESchedule false 7400 7400; ETick; EProbe 7410; EFinish 0 (answered true false) 7420;
    EProbed [mkStoredObservation (uid 11) 7010 None] None 7430; EResult; ESeen; ETake 0 7440;
    ESchedule false 8100 8100; EFinish 0 (answered false true) 8050; EWindow; ETake 0 8110; EClose; EResult; EResult;
    EAccounted 8120; EProbe 8130; EProbed [mkStoredObservation (uid 12) 7010 None; mkStoredObservation (uid 13) 7441 None] None 8140; ESeen; ETick;
    EProbe 8150; EProbed [mkStoredObservation (uid 14) 7441 (Some 8155)] None 8160; ESeen; EDrained; EProbeExit ].

Definition load_end : option Sample := run_sample load_config load_ids load_started (new_sample load_config load_started) load_events.
Definition load_report : option (SampleReport * goerr) :=
  match load_end with Some s => finish_sample load_config load_ids load_started 1 s 8200 | None => None end.

Definition load_summary : option (list Z * list (Z * Z * Z * Z) * string * goerr) :=
  match load_report with
  | Some (r, err) =>
      let f := facts (sp_run r) in
      Some ([sp_Planned r; sp_Attempted r; GeneratorMissed f; Accepted (sp_run r); Ambiguous f; Rejected f; LateSchedules f; sp_BacklogAtWindowEnd r],
            map (fun b => (b_ElapsedNS b, b_Accepted b, b_Visible b, PendingAcknowledged b)) (sp_Backlog r), Outcome (sp_run r), err)
  | None => None
  end.

(** Two events accepted, two ambiguous but stored, one missed; the second
    event was pending at the end of the first poll and of the window. *)
Example load_books :
  load_summary = Some ([5; 4; 1; 2; 2; 0; 0; 1], [(430, 2, 1, 1); (1140, 2, 3, 0); (1160, 2, 4, 0)], "limited"%string, None).
Proof. vm_compute. reflexivity. Qed.

Lemma load_runs : exists s, load_end = Some s /\ s_phase s = PDrained /\ p_exited (s_probe s) = true.
Proof.
  assert (H : match load_end with Some s => match s_phase s with PDrained => p_exited (s_probe s) | _ => false end | None => false end = true)
    by (vm_compute; reflexivity).
  destruct load_end as [s|]; [|discriminate H]. exists s. destruct (s_phase s); try discriminate H. by split; [|split].
Qed.

Lemma load_finishes s : s_phase s = PDrained -> p_exited (s_probe s) = true ->
  exists r err, finish_sample load_config load_ids load_started 1 s 8200 = Some (r, err).
Proof. intros H1 H2. unfold finish_sample. rewrite H1, H2. cbv zeta. destruct (Reconcile _) as [e r]. by eexists _, _. Qed.

Lemma load_ids_nodup : NoDup load_ids.
Proof. apply (bool_decide_unpack _). vm_compute. exact I. Qed.

Lemma sample_books_balance_witness :
  exists s r err, load_end = Some s /\ finish_sample load_config load_ids load_started 1 s 8200 = Some (r, err) /\
    sp_Planned r = sp_Attempted r + GeneratorMissed (facts (sp_run r)) /\
    sp_Attempted r = Accepted (sp_run r) + Ambiguous (facts (sp_run r)) + Rejected (facts (sp_run r)).
Proof.
  destruct load_runs as (s & Hs & H1 & H2). destruct (load_finishes s H1 H2) as (r & err & Hf). exists s, r, err.
  split; [exact Hs|]. split; [exact Hf|].
  destruct (sample_books_balance load_config load_ids load_started (le_n 1) (le_S _ _ (le_n 1)) 1 load_events s 8200 r err load_ids_nodup Hs Hf)
    as (E1 & E2 & _). split; [exact E1|exact E2].
Defined.

Lemma sample_never_blocks_witness : exists s, load_end = Some s /\ is_Some (requestObservation s).
Proof.
  destruct load_runs as (s & Hs & _). exists s. split; [exact Hs|].
  exact (proj1 (proj2 (sample_never_blocks load_config load_ids load_started (le_n 1) (le_S _ _ (le_n 1)) load_events s Hs))).
Defined.

Lemma backlog_exact_witness :
  exists s r err, load_end = Some s /\ finish_sample load_config load_ids load_started 1 s 8200 = Some (r, err) /\
    sp_Backlog r = map (counted_sample load_started (s_account s) (final_observing load_config load_started s))
                     (Backlog (final_observing load_config load_started s)).
Proof.
  destruct load_runs as (s & Hs & H1 & H2). destruct (load_finishes s H1 H2) as (r & err & Hf). exists s, r, err.
  split; [exact Hs|]. split; [exact Hf|].
  exact (backlog_exact load_config load_ids load_started 1 load_events s 8200 r err Hs Hf).
Defined.

(** ** A workload *)

(** In place of google/uuid's hash. *)
Definition sim_sha1 (s : bytes) : hex_uuid := uid (1 + blen s).

Lemma sim_sha1_nonzero s : blen s < 1000 -> sim_sha1 s <> nil_uuid.
Proof.
  intros Hs E. unfold sim_sha1 in E. pose proof (blen_nonneg s) as H0.
  assert (Hall : forallb (fun n => negb (bool_decide (uid (1 + Z.of_nat n) = nil_uuid))) (seq 0 1000) = true) by (vm_compute; reflexivity).
  rewrite forallb_forall in Hall. specialize (Hall (Z.to_nat (blen s))). rewrite Z2Nat.id in Hall by lia.
  rewrite E, bool_decide_true in Hall by done. discriminate Hall. apply in_seq. lia.
Qed.

Definition sim_hash (s : bytes) : uuid := if blen s <? 1000 then sim_sha1 s else uid 1.

Lemma sim_hash_nonzero s : sim_hash s <> uuid_Nil.
Proof.
  unfold sim_hash. destruct (blen s <? 1000) eqn:E; bool_to_prop; [by apply sim_sha1_nonzero|].
  intros H. assert (Hb : bool_decide (uid 1 = nil_uuid) = true) by (by apply bool_decide_eq_true). vm_compute in Hb. discriminate Hb.
Qed.

Definition sim_workload : WorkloadConfig := mkWorkloadConfig (lit "n") (lit "varied") 7 4 40 (Some (1 # 2)%Q).

Lemma workload_exact_witness :
  exists es, Workload sim_hash sim_workload = Ok es /\ Z.of_nat (length es) = 4 /\
    Forall (fun e => validate (env_Input e) = None /\ blen (Payload (env_Input e)) = 40 /\ exists raw, EncodeEnvelope e = Ok raw) es.
Proof.
  eexists. split; [reflexivity|].
  edestruct (workload_exact sim_hash sim_hash_nonzero sim_workload) as (H1 & H2 & _); [|reflexivity|split; [exact H1|exact H2]].
  intros d [= <-] _. vm_compute. discriminate.
Defined.

(** ** A window that validates and whose requests do not fit

    Seven events a request; in the first request the first time has no
    fraction, in the fourth every time has six digits. *)
Definition tight_window : PipelineWindow := mkPipelineWindow (lit "n") 100 (10 * 1000000000) 7 149650.
Definition tight_workload : WorkloadConfig := mkWorkloadConfig (lit "n") (lit "fixed") 1 1000 149650 (Some 0%Q).

Definition first_workload : WorkloadConfig := mkWorkloadConfig (lit "n") [] 0 7 149650 (Some 0%Q).

(** The bytes of a request of seven events. *)
Definition request_bytes (c : WorkloadConfig) (first : Z) : Z :=
  12 + foldr (fun i n => 1 + input_size sim_hash c i + n) 0 (map (fun k => first + Z.of_nat k) (seq 0 7)).

Lemma tight_sizes : request_bytes first_workload 0 = 1048570 /\ request_bytes tight_workload 21 = 1048577.
Proof. vm_compute. split; reflexivity. Qed.

Lemma tight_request c first : 16 <= wl_PayloadBytes c -> 0 <= first < MaxWorkload - 7 ->
  exists raw, batch_json (map (fun i => env_Input (workload_event sim_hash c i)) (map (fun k => first + Z.of_nat k) (seq 0 7))) = Some raw /\
    blen raw = request_bytes c first.
Proof.
  intros Hn Hf. apply request_size; [exact Hn| |discriminate]. apply Forall_forall. intros i Hi%list_elem_of_fmap.
  destruct Hi as (k & -> & Hk%list_elem_of_In%in_seq). lia.
Qed.

(** C38: the check of the request size looks at the first request only.  There
    is a window that [ValidatePipelineWorkload] accepts although the fourth
    request of the run is one byte over the limit of the API, which answers
    it as too large: the times of the first events are shorter when written
    than those of later ones. *)
Theorem validated_window_oversized_request :
  ValidatePipelineWorkload sim_hash tight_window = None /\
  exists es raw, Workload sim_hash tight_workload = Ok es /\ batch_json (map env_Input (firstn 7 (skipn 21 es))) = Some raw /\
    MaxRequestBytes < blen raw /\ DecodeBatch raw = Err (EValidation "event or request exceeds byte limit" true).
Proof.
  destruct tight_sizes as [H0 H21]. split.
  - destruct (tight_request first_workload 0) as (raw & Hraw & Hlen); [vm_compute; discriminate|vm_compute; split; [discriminate|reflexivity]|].
    unfold ValidatePipelineWorkload. cbv zeta. change (_ || _ || _ || _) with false. change (_ || _) with false.
    change (mkWorkloadConfig _ _ _ _ _ _) with first_workload. unfold Workload. change (negb (workload_ok first_workload)) with false.
    cbv zeta iota. change (unique_count first_workload) with 7. change (seq 0 (Z.to_nat (wl_Count first_workload - 7))) with (@nil nat).
    cbn [map]. rewrite app_nil_r. change (Z.to_nat 7) with 7%nat.
    match goal with |- context [batch_json ?l] => assert (E : batch_json l = Some raw) by (rewrite map_map in Hraw |- *; exact Hraw) end.
    rewrite E, Hlen, H0. reflexivity.
  - destruct (tight_request tight_workload 21) as (raw & Hraw & Hlen); [vm_compute; discriminate|vm_compute; split; [discriminate|reflexivity]|].
    rewrite H21 in Hlen. exists (map (fun i => workload_event sim_hash tight_workload (Z.of_nat i)) (seq 0 1000)), raw.
    assert (Hu : unique_count tight_workload = 1000) by (vm_compute; reflexivity).
    split; [|split; [|split]].
    + unfold Workload. change (workload_ok tight_workload) with true. cbn [negb]. rewrite Hu. cbn [wl_Count tight_workload]. cbv zeta.
      change (Z.to_nat (1000 - 1000)) with 0%nat. cbn [seq map]. rewrite app_nil_r. reflexivity.
    + rewrite skipn_map, firstn_map, map_map. rewrite map_map in Hraw. exact Hraw.
    + rewrite Hlen. vm_compute. reflexivity.
    + unfold DecodeBatch, decode. rewrite Hlen. reflexivity.
Qed.
