(* ===== verification/SimBench.v ===== *)
(** * The benchmark and the deployment on concrete inputs *)
From S2P Require Import Prelude GoBytes GoTime GoJson Event Runtime Instances Sim Config Api SimApi BenchAccounting BenchStudy BenchStudyProps Deployment.

(** ** A deployment file *)

Definition hex64 (c : Z) : bytes := replicate 64 c.

Definition dotenv_file : bytes :=
  lit "# generated" ++ [10] ++ lit "DOMAIN=events.example.com" ++ [10] ++
  lit "POSTGRES_ADMIN_PASSWORD=" ++ hex64 97 ++ [13; 10] ++ lit " POSTGRES_WRITER_PASSWORD = " ++ hex64 48 ++ [10; 10] ++
  lit "API_KEYS={" ++ [34] ++ hex64 102 ++ [34] ++ lit ":" ++ [34] ++ lit "acme" ++ [34] ++ lit "}" ++ [10].

Definition sim_deployment : DeploymentConfig :=
  mkDeployment (lit "events.example.com") {[ hex64 102 := lit "acme" ]} (hex64 97) (hex64 48).

Example dotenv_loads : ReadDeploymentConfig (Ok (true, 384, dotenv_file)) = Ok sim_deployment.
Proof. vm_compute. reflexivity. Qed.

Lemma deployment_starts_api_witness :
  exists app s, NewApp (mkConfig (dc_APIKeys sim_deployment) 10 (5 * Second)) (Some sim_ep) pub0 = Ok (app, s).
Proof.
  apply (deployment_starts_api (Ok (true, 384, dotenv_file)) sim_deployment sim_ep pub0 10 (5 * Second));
    [exact dotenv_loads | lia | vm_compute; reflexivity].
Defined.

(** A readable file is refused, and so is a repeated assignment. *)
Example dotenv_public : ReadDeploymentConfig (Ok (true, 420, dotenv_file)) = Err (ENew "deployment configuration must be a private regular file (0600)").
Proof. vm_compute. reflexivity. Qed.

(** ** A study *)

Definition sim_case : Case := default (recovery_case "database") (head smokeCases).

Definition sim_run_of (m : string) (rep : Z) : DatabaseRun := mkDatabaseRun m rep 100 100 0 1000 [1000] true.

Definition sim_database_report : DatabaseReport :=
  mkDatabaseReport 3 (rep ← [1; 2; 3]; map (fun m => sim_run_of m rep) methods).

Lemma done_case_is_verified_witness : verified_report sim_case (RDatabase sim_database_report).
Proof.
  assert (E : case_outcome sim_case (RDatabase sim_database_report) None false = (None, "complete"%string, ""%string, false))
    by (vm_compute; reflexivity).
  assert (H0 : 0 <= Repetitions sim_case) by (vm_compute; congruence).
  pose proof (done_case_is_verified sim_case (RDatabase sim_database_report) None false H0) as H.
  rewrite E in H. exact (proj1 (H eq_refl)).
Defined.

Definition sim_identity : StudyIdentity := mkIdentity (lit "abc") (lit "src") (lit "ctl") (lit "img") (lit "cfg") (lit "smoke") 7 false.
Definition sim_ref (n : Z) : ArtifactRef := mkArtifactRef (lit "gzip") (lit "raw/x") [] n n.
Definition sim_verify (r : ArtifactRef) : goerr := if 0 <? ar_Size r then None else Some (ENew "invalid artifact size/type").
Definition sim_progress (status : string) (n : Z) : CaseProgress := mkProgress status 1 [1; 2; 3] (sim_ref n) [] "".

(** One case done, one interrupted. *)
Definition sim_journal (status : string) : StudyJournal :=
  mkJournal "failed" 2 sim_identity
    (<[lit "smoke-database" := sim_progress "complete" 5]> {[ lit "smoke-pipeline" := sim_progress status 0 ]}) [sim_ref 3] [].

Lemma resume_on_evidence_witness :
  resume_check sim_verify (sim_journal "incomplete") sim_identity smokeCases = Ok false /\
  Forall (fun r => sim_verify r = None) (j_Resources (sim_journal "incomplete") ++ j_MetadataArtifacts (sim_journal "incomplete")).
Proof.
  assert (H : resume_check sim_verify (sim_journal "incomplete") sim_identity smokeCases = Ok false) by (vm_compute; reflexivity).
  split; [exact H|]. apply (resume_on_evidence sim_verify _ _ _ _ H).
Defined.

(** A case that claims to be done without its capture stops the study. *)
Example resume_needs_capture :
  resume_check sim_verify (sim_journal "complete") sim_identity smokeCases = Err (ENew "invalid artifact size/type").
Proof. vm_compute. reflexivity. Qed.
