(* ===== verification/SimRunEnv.v ===== *)
(** * A concrete Docker, and stacks on it

    A host whose Docker is two maps of resources, which satisfies what the
    development relies on; a demonstration and a measurement run on it. *)
From S2P Require Import Prelude GoBytes GoTime GoJson GoEncode GoPath Event RuntimeInfo Runtime Persistence Telemetry Publisher Reader RateLimit Config Service Api Deployment Instances RunEnv RunEnvProps RunEnvStart Demo DemoProps BenchMain BenchMainProps.

#[local] Instance Resource_eq_dec : EqDecision Resource.
Proof. solve_decision. Defined.

Record Box := mkBox { b_clock : Z; b_con : gmap bytes Resource; b_vol : gmap bytes Resource; b_ids : Z; b_broken : bool }.

#[local] Instance BoxW : World := {| W := Box; now := b_clock |}.

Definition box_map (k : kind) (b : Box) : gmap bytes Resource := match k with KContainer => b_con b | KVolume => b_vol b end.
#[local] Instance BoxD : DockerState := {| resources := box_map |}.

(** A listing of names; it fails rather than list names it cannot show. *)
Definition listing (p : bytes) (m : gmap bytes Resource) : bytes * goerr :=
  let names := map fst (map_to_list (filter (fun kr => r_project (snd kr) = p) m)) in
  let out := JoinSep [10] names in
  if bool_decide (Forall (fun n => n ∈ Fields out) names) then (out, None) else (out, Some (ENew "exit status 1")).

Definition label_of (id : bytes) (m : gmap bytes Resource) : bytes * goerr :=
  match m !! id with
  | Some r => let out := r_label r ++ [10] in
              if bool_decide (TrimSpace out = TrimSpace (r_label r)) then (out, None) else (out, Some (ENew "exit status 1"))
  | None => ([], Some (ENew "exit status 1"))
  end.

(** Create a resource of a project, unless another has the name. *)
Definition put (p name label : bytes) (m : gmap bytes Resource) : gmap bytes Resource :=
  match m !! name with
  | Some r => if bool_decide (r_project r = p) then <[name := mkResource p label 1]> m else m
  | None => <[name := mkResource p label 1]> m
  end.
Definition set_states (p : bytes) (st : Z) (m : gmap bytes Resource) : gmap bytes Resource :=
  (fun r => if bool_decide (r_project r = p) then mkResource p (r_label r) st else r) <$> m.
Definition remove (p : bytes) (m : gmap bytes Resource) : gmap bytes Resource := filter (fun kr => r_project (snd kr) <> p) m.

Definition run_id (env : list bytes) : bytes :=
  match list_find (fun e => HasPrefix e (lit "INGESTKIT_RUN_ID=") = true) env with
  | Some (_, e) => drop 17 e
  | None => []
  end.

Definition box_compose (p : bytes) (cmd env : list bytes) (b : Box) : (bytes * goerr) * Box :=
  let on con vol := mkBox (b_clock b + Second) con vol (b_ids b) (b_broken b) in
  if bool_decide (cmd = [lit "ps"; lit "-a"; lit "-q"]) then (listing p (b_con b), b)
  else match cmd with
  | c :: _ =>
      if in_lits c ["ps"; "port"; "logs"; "images"; "cp"] then ((lit "127.0.0.1:4242", if b_broken b && in_lits c ["port"] then Some (ENew "exit status 1") else None), b)
      else if in_lits c ["up"] then
        (([], None), on (put p (lit "c-" ++ p) (run_id env) (b_con b)) (put p (lit "v-" ++ p) (run_id env) (b_vol b)))
      else if in_lits c ["down"] then (([], None), on (remove p (b_con b)) (remove p (b_vol b)))
      else (([], None), on (set_states p (if in_lits c ["start"] then 1 else 0) (b_con b)) (b_vol b))
  | [] => (([], None), b)
  end.

Definition box_docker (ctx : Context) (dir : bytes) (env args : list bytes) (b : Box) : (bytes * goerr) * Box :=
  match compose_command args with
  | Some (p, cmd) => box_compose p cmd env b
  | None =>
      (match args with
       | [c; d; e; id] => if bool_decide (args = [lit "inspect"; lit "--format"; container_label; id]) then label_of id (b_con b) else ([], None)
       | [c; d; e; f; id] => if bool_decide (args = [lit "volume"; lit "inspect"; lit "--format"; volume_label; id]) then label_of id (b_vol b) else ([], None)
       | [c; d; e; f; g; h] => if bool_decide (f = lit "label=com.docker.compose.project=" ++ drop 33 f) then listing (drop 33 f) (b_vol b) else ([], None)
       | _ => ([], None)
       end, b)
  end.

Definition box_uuid (b : Box) : bytes * Box := (replicate 36 (48 + b_ids b mod 10), mkBox (b_clock b) (b_con b) (b_vol b) (b_ids b + 1) (b_broken b)).

(** The files: the example's events, and a deployment configuration. *)
Definition id1 : bytes := lit "00000000-0000-4000-8000-000000000001".
Definition example_events : bytes :=
  lit "{" ++ quoted (lit "events") ++ lit ":[{" ++ quoted (lit "event_id") ++ lit ":" ++ quoted id1 ++ lit "," ++
  quoted (lit "event_type") ++ lit ":" ++ quoted (lit "product_viewed") ++ lit "," ++ quoted (lit "occurred_at") ++ lit ":" ++
  quoted (lit "2026-11-03T00:00:00Z") ++ lit "," ++ quoted (lit "payload") ++ lit ":{" ++ quoted (lit "amount") ++ lit ":25}}]}".
Definition example_ack : bytes :=
  lit "{" ++ quoted (lit "request_id") ++ lit ":1," ++ quoted (lit "event_ids") ++ lit ":[" ++ quoted id1 ++ lit "]}".
Definition example_config : bytes :=
  lit "DOMAIN=localhost" ++ [10] ++ lit "POSTGRES_ADMIN_PASSWORD=" ++ replicate 64 97 ++ [10] ++ lit "POSTGRES_WRITER_PASSWORD=" ++
  replicate 64 98 ++ [10] ++ lit "API_KEYS={" ++ quoted (replicate 64 99) ++ lit ":" ++ quoted (lit "default") ++ lit "}".

#[local] Instance BoxH : Host := {|
  h_docker := box_docker;
  h_sh := fun _ _ b => (([], None), b);
  h_environ := fun _ => [];
  h_getwd := fun _ => Ok (lit "/repo/cmd/demo");
  h_stat := fun p _ => if in_lits p ["/repo/go.mod"; "/repo/docker-compose.yml"] then None else Some (ENew "no such file");
  h_abs := fun d _ => Ok (SLASH :: d);
  h_mkdirAll := fun _ b => (None, b);
  h_writeFile := fun _ _ b => (None, b);
  h_readFile := fun p _ => Ok (if Contains p (lit "events.json") then example_events else example_config);
  h_openConfig := fun _ _ => Ok (true, 384, example_config);
  h_listen := fun b => (Ok 40000, b);
  h_closeListener := fun _ b => b;
  h_newUUID := box_uuid;
  h_validPEM := fun _ => true;
  h_get := fun _ _ b => (Ok 200, b);
  h_range := fun A l _ => l
|}.

Definition box_select (c : Context) (fire : Z) (b : Box) : bool * Box :=
  match ctx_Err c (b_clock b) with
  | Some _ => (true, b)
  | None => (false, mkBox (Z.max fire (b_clock b)) (b_con b) (b_vol b) (b_ids b) (b_broken b))
  end.
#[local] Instance BoxT : Timers := {| select_timer := box_select |}.

#[local] Instance BoxTL : TimersLaws BoxT.
Proof.
  constructor; cbn; unfold box_select.
  - intros c fire w. cbn. destruct (ctx_Err c _); cbn; lia.
  - intros c fire w w' Hw. cbn in *. destruct (ctx_Err c (b_clock w)) eqn:E; [|done]. injection Hw as <-. by rewrite E.
  - intros c fire w w' Hw. cbn in *. destruct (ctx_Err c _); [done|]. injection Hw as <-. cbn. lia.
  - intros c fire w Hw _. by destruct (ctx_Err c _).
Qed.

(** ** The laws *)

Lemma put_other p name label m id r : r_project r <> p -> m !! id = Some r <-> put p name label m !! id = Some r.
Proof.
  intros Hr. unfold put. assert (Hi : (forall r0, m !! name = Some r0 -> r_project r0 = p) -> m !! id = Some r <-> <[name := mkResource p label 1]> m !! id = Some r).
  { intros Hn. destruct (decide (name = id)) as [->|Hne]; [|by rewrite lookup_insert_ne]. rewrite lookup_insert_eq. split.
    - intros Hm. by apply Hn in Hm.
    - by intros [= <-]. }
  destruct (m !! name) as [r0|] eqn:E; [|by apply Hi]. case_bool_decide; [|done]. apply Hi. by intros ? [= <-].
Qed.

Lemma set_states_other p st m id r : r_project r <> p -> m !! id = Some r <-> set_states p st m !! id = Some r.
Proof.
  intros Hr. unfold set_states. rewrite lookup_fmap. destruct (m !! id) as [r0|]; [|done]. cbn. split.
  - intros [= ->]. by rewrite bool_decide_false.
  - intros [= Hx]. case_bool_decide; [by subst r|by subst].
Qed.

Lemma remove_other p m id r : r_project r <> p -> m !! id = Some r <-> remove p m !! id = Some r.
Proof. intros Hr. unfold remove. rewrite map_lookup_filter_Some. cbn. by split; [|intros [? _]]. Qed.

Lemma listing_ok p m out id r : listing p m = (out, None) -> m !! id = Some r -> r_project r = p -> id ∈ Fields out.
Proof.
  unfold listing. case_bool_decide as F; [|done]. intros [= <-] Hm Hp. rewrite Forall_forall in F. apply F.
  apply list_elem_of_fmap. exists (id, r). split; [done|]. apply elem_of_map_to_list, map_lookup_filter_Some. by split.
Qed.

Lemma label_of_ok id m out r : label_of id m = (out, None) -> m !! id = Some r -> TrimSpace out = TrimSpace (r_label r).
Proof. unfold label_of. intros Hl Hm. rewrite Hm in Hl. case_bool_decide; [|done]. by injection Hl as <-. Qed.

Lemma box_scope p cmd env b : outside p b (snd (box_compose p cmd env b)).
Proof.
  unfold box_compose. repeat case_match; try (by intros k); intros k id r Hr; destruct k; cbn [snd resources BoxD box_map b_con b_vol];
    first [by apply put_other | by apply remove_other | by apply set_states_other | done].
Qed.

Lemma box_reads args env b ctx dir : reads args = true -> same b (snd (box_docker ctx dir env args b)).
Proof.
  intros Hr. unfold box_docker. destruct (compose_command args) as [[p cmd]|] eqn:E; [|done]. unfold box_compose.
  case_bool_decide; [done|]. destruct args as [|a [|a' args]]; [done..|]. cbn [reads] in Hr. rewrite E in Hr.
  unfold compose_command in E. case_bool_decide as Ea; [|done]. subst a.
  change (bool_decide (lit "compose" = lit "inspect")) with false in Hr. change (bool_decide (lit "compose" = lit "volume")) with false in Hr.
  cbn [orb andb] in Hr. destruct cmd as [|c cmd]; [done|]. by rewrite Hr.
Qed.

#[local] Instance BoxL : HostLaws BoxH BoxT BoxD.
Proof.
  constructor; try (by intros; intros k).
  - intros ctx dir env args w p cmd E. cbn [h_docker BoxH]. unfold box_docker. rewrite E. apply box_scope.
  - intros. by apply box_reads.
  - intros ctx dir env args w p out id r E. cbn [h_docker BoxH]. unfold box_docker. rewrite E. unfold box_compose.
    rewrite bool_decide_true by done. cbn [fst]. apply listing_ok.
  - intros ctx dir env w p out id r. cbn [h_docker BoxH]. unfold box_docker.
    change (compose_command _) with (@None (bytes * list bytes)). cbv iota. cbn [fst].
    assert (Hd : drop 33 (lit "label=com.docker.compose.project=" ++ p) = p) by reflexivity. rewrite Hd, bool_decide_true by done. apply listing_ok.
  - intros ctx dir env w out id r. cbn [h_docker BoxH]. unfold box_docker.
    change (compose_command _) with (@None (bytes * list bytes)). cbv iota. cbn [fst]. rewrite bool_decide_true by done. apply label_of_ok.
  - intros ctx dir env w out id r. cbn [h_docker BoxH]. unfold box_docker.
    change (compose_command _) with (@None (bytes * list bytes)). cbv iota. cbn [fst]. rewrite bool_decide_true by done. apply label_of_ok.
  - intros ctx dir env args w p out k id r E _. cbn [h_docker BoxH]. unfold box_docker. rewrite E. unfold box_compose.
    rewrite bool_decide_false by done. change (in_lits (lit "down") ["ps"; "port"; "logs"; "images"; "cp"]) with false.
    change (in_lits (lit "down") ["up"]) with false. change (in_lits (lit "down") ["down"]) with true. cbv iota.
    destruct k; cbn; unfold remove; rewrite map_lookup_filter_Some; by intros [_ ?].
  - intros c fire w k. cbn. unfold box_select. by destruct (ctx_Err c _), k.
  - intros ctx dir env args w. cbn. unfold box_docker. destruct (compose_command args) as [[p cmd]|]; [|cbn; lia].
    unfold box_compose. repeat case_match; cbn [snd b_clock]; unfold Second; lia.
  - intros w. split; [done|]. apply Forall_replicate. right. left. pose proof (Z.mod_pos_bound (b_ids w) 10). lia.
  - intros w p [= <-]. by eexists.
  - intros d w p [= <-]. by eexists.
  - done.
Qed.

(** ** Stacks *)

(** Another project's container and volume, and one of ours without a token
    that some earlier program left. *)
Definition foreign : Resource := mkResource (lit "payroll") (lit "payroll-run") 1.
Definition stale : Resource := mkResource (lit "ingestkit-demo-00000000") (lit "yesterday") 1.
Definition start_box : W :=
  mkBox 0 {[ lit "payroll-db" := foreign; lit "stale" := stale ]} {[ lit "payroll-data" := foreign ]} 0 false.

Definition demo_stack : Stack :=
  mkStack [] [] [] [] [] (lit "ingestkit-demo-00000000") (lit "/tmp/run") (lit "/repo") (lit "today")
    (lit "ingestkit-demo-00000000") [] true [] [] false.


(** Its owner does destroy it. *)
Example owner_destroys :
  exists w', run_operations (mkStack [] [] [] [] [] (lit "ingestkit-demo-00000000") (lit "/tmp/run") (lit "/repo") (lit "yesterday")
               (lit "ingestkit-demo-00000000") [] true [] [] false) [(Background, OpDestroy)] start_box = Some (tt, w') /\
  resources KContainer w' !! lit "stale" = None /\ resources KContainer w' !! lit "payroll-db" = Some foreign.
Proof. eexists. split; [vm_compute; reflexivity|]. split; vm_compute; reflexivity. Qed.

Definition plain_text (e : error) : bytes := [].
Definition smoke_options : Options := mkOptions (lit "Smoke!") [] [] false.
Definition selfhost_options : Options := mkOptions (lit "bench-database") [] selfhost true.
Definition broken_box : W := mkBox 0 (b_con start_box) (b_vol start_box) 0 true.

(** A start on a host where the ports cannot be discovered fails and leaves
    Docker as it was. *)
Lemma Start_leaks_nothing_witness :
  exists r w', Start plain_text Background smoke_options broken_box = Some (r, w') /\
  (exists e, r = Err e /\ errors_Is e errStartupCleanup = false) /\ no_new broken_box w'.
Proof.
  destruct (Start_leaks_nothing plain_text Background smoke_options broken_box) as (r & w' & E & _ & Hr).
  exists r, w'. split; [exact E|].
  assert (Hb : match Start plain_text Background smoke_options broken_box with
               | Some (Err e, _) => negb (errors_Is e errStartupCleanup) | _ => false end = true) by (vm_compute; reflexivity).
  rewrite E in Hb. destruct r as [s|e]; [discriminate Hb|]. apply negb_true_iff in Hb. split; [exists e; exact (conj eq_refl Hb)|exact (Hr Hb)].
Defined.

(** When the name is taken by a stack with another token, the cleanup refuses,
    and the error says so. *)
Example cleanup_refused :
  match Start plain_text Background (mkOptions (lit "Demo!") [] [] false) broken_box with
  | Some (Err e, b) => errors_Is e errStartupCleanup && bool_decide (b_con b !! lit "stale" = Some stale)
  | _ => false
  end = true.
Proof. vm_compute. reflexivity. Qed.

(** A self-hosted stack with its dependencies exposed. *)
Lemma started_stack_well_formed_witness :
  exists s w', Start plain_text Background selfhost_options start_box = Some (Ok s, w') /\
  started selfhost_options s /\ st_expose s = true /\ Project s = lit "ingestkit-bench-database-00000000".
Proof.
  assert (Hb : match Start plain_text Background selfhost_options start_box with
               | Some (Ok s, _) => st_expose s && bool_decide (Project s = lit "ingestkit-bench-database-00000000") | _ => false end = true)
    by (vm_compute; reflexivity).
  destruct (Start plain_text Background selfhost_options start_box) as [[[s|e] w']|] eqn:E; [|discriminate Hb|discriminate Hb].
  destruct (started_stack_well_formed plain_text Background selfhost_options start_box s w' E) as [Hs _].
  apply andb_true_iff in Hb as [Hb1 Hb2]. apply bool_decide_eq_true in Hb2. exists s, w'. exact (conj eq_refl (conj Hs (conj Hb1 Hb2))).
Defined.

(** ** The demonstration *)

Definition stored_ids : list uuid := match uuid_ParseBytes id1 with Some u => [u] | None => [] end.

#[local] Instance BoxDemo : DemoHost := {|
  d_newPool := fun _ b => (None, b);
  d_closePool := fun b => b;
  d_post := fun _ _ _ _ b => (Ok (202, example_ack), b);
  d_queryIDs := fun _ b => (Ok (stored_ids, None), b);
  d_queryFunnel := fun _ b => (Ok ([(lit "product_viewed", 1)], None), b)
|}.

#[local] Instance BoxDemoLaws : DemoLaws.
Proof. constructor; try (by intros; intros k). Qed.

Definition recovery_options : DemoOptions := mkDemoOptions _ true true [] None.

Lemma RunDemo_truthful_witness :
  exists r w', RunDemo plain_text Background recovery_options start_box = Some ((None, Some r), w') /\
  good_report r /\ rp_Stored r = stored_ids /\ no_new start_box w'.
Proof.
  destruct (RunDemo_truthful plain_text Background recovery_options start_box) as (result & report & w' & E & _ & Hr); [done|].
  assert (Hb : match RunDemo plain_text Background recovery_options start_box with
               | Some ((None, Some r), _) => bool_decide (rp_Stored r = stored_ids) | _ => false end = true) by (vm_compute; reflexivity).
  rewrite E in Hb. destruct result; [discriminate Hb|]. destruct (Hr eq_refl) as (r & -> & _ & Hg & Hn). exists r, w'.
  apply bool_decide_eq_true in Hb. split; [exact E|]. split; [exact Hg|]. split; [exact Hb|exact (Hn eq_refl)].
Defined.

(** ** A measurement *)

#[local] Instance BoxFlags : FlagLib := {|
  float64 := Z; float_tenth := 0;
  ParseFloat64 := fun s => None
|}.

#[local] Instance BoxBench : Bench := {|
  Manifest := bool; m_SourceDirty := fun b => b;
  Samples := unit; DReport := unit; PReport := unit; CReport := bool;
  c_incomplete := fun _ => false;
  RunStudy := fun _ _ b => Some (None, b);
  RunCalibration := fun _ _ b => Some ((true, None), b);
  b_newPool := fun _ _ b => (None, b);
  b_closePool := fun b => b;
  CaptureManifest := fun _ _ b => Some ((false, None), b);
  b_startSamples := fun _ _ b => b;
  b_stopSamples := fun b => Some (tt, b);
  RunDatabase := fun _ _ b => Some ((tt, None), b);
  RunPipeline := fun _ _ _ b => Some ((tt, Some (ENew "drain deadline exceeded")), b);
  b_closeIdle := fun _ b => b;
  WriteReport := fun _ _ b => (None, b);
  w_manifest := fun _ _ b => (None, b);
  w_resources := fun _ _ b => (None, b);
  w_failed := fun _ _ b => (None, b);
  w_calibration := fun _ _ b => (None, b);
  w_status := fun _ _ _ b => (None, b)
|}.

#[local] Instance BoxBenchLaws : BenchLaws.
Proof. constructor; by intros p c d w k. Qed.

Definition any_workload (rate duration batch payload : Z) : goerr := None.
Definition database_args : list bytes := [lit "-mode"; lit "database"; lit "--count=500"; lit "-out"; lit "results"].
Definition pipeline_args : list bytes := [lit "-mode=pipeline"; lit "-rate"; lit "200"].

(** These measurements leave the world alone. *)
Lemma box_measurement f s (b : W) : exists body, measurement Background f s (out_dir f s) b = Some (body, b).
Proof.
  set (stays := fun A (m : M W A) => forall b : W, exists x, m b = Some (x, b)).
  assert (Sb : forall A C (m : M W A) (k : A -> M W C), stays A m -> (forall a, stays C (k a)) -> stays C (bind m k)).
  { intros A C m k Hm Hk b0. destruct (Hm b0) as [a E]. unfold bind. rewrite E. apply Hk. }
  assert (Sr : forall A (a : A), stays A (ret a)) by (intros A a b0; by exists a).
  assert (Sm : forall dir, stays _ (measure Background f s dir)).
  { intros dir. unfold measure. case_bool_decide.
    - apply Sb; [intros b0; by eexists|]. intros [r [e|]]; [apply Sr|intros b0; by eexists].
    - apply Sb; [intros b0; by eexists|]. intros [client|e]; [|apply Sr]. apply Sb.
      { unfold APIKey. destruct (negb _); [apply Sr|]. intros b0. destruct (ReadDeploymentConfig _); by eexists. }
      intros key. apply Sb; [intros b0; by eexists|]. intros [r [e|]]; (apply Sb; [|intros x; apply Sb; [intros b0; by eexists|intros _; apply Sr]]).
      + apply Sb; [intros b0; by eexists|intros; apply Sr].
      + intros b0. by eexists. }
  revert b. change (stays _ (measurement Background f s (out_dir f s))). unfold measurement, with_pool.
  apply Sb; [intros b; by eexists|]. intros [e|]; [apply Sr|]. apply Sb; [|intros; apply Sb; [intros b; by eexists|intros; apply Sr]].
  apply Sb; [intros b; by eexists|]. intros [m [e|]]; [apply Sr|]. apply Sb; [intros b; by eexists|]. intros [e|]; [apply Sr|].
  destruct (m_SourceDirty m); [apply Sr|]. apply Sb; [intros b; by eexists|]. intros _. apply Sb; [apply Sm|]. intros r.
  apply Sb; [intros b; by eexists|]. intros x. apply Sb; [intros b; by eexists|]. intros; apply Sr.
Qed.

Lemma measurement_cleans_up_witness :
  exists w', runArgs any_workload plain_text Background database_args start_box = Some (None, w') /\ no_new start_box w'.
Proof.
  assert (Ha : match bench_plan any_workload database_args with Ok (PMeasure _) => true | _ => false end = true) by (vm_compute; reflexivity).
  destruct (bench_plan any_workload database_args) as [[c|f|f]|e] eqn:Hp; [discriminate Ha|discriminate Ha| |discriminate Ha].
  destruct (measurement_cleans_up any_workload plain_text Background database_args f start_box Hp) as (started & w1 & Hs & Hm).
  assert (Hb : match runArgs any_workload plain_text Background database_args start_box with Some (None, _) => true | _ => false end = true)
    by (vm_compute; reflexivity).
  destruct started as [s|e]; [|rewrite Hm in Hb; discriminate Hb].
  destruct (box_measurement f s w1) as [body Hbody]. destruct (Hm body w1 Hbody) as (result & w' & E & _ & Hn).
  rewrite E in Hb. destruct result; [discriminate Hb|]. exists w'. split; [exact E|]. apply Hn; reflexivity.
Defined.

(** A failed pipeline run removes its stack all the same. *)
Example failed_pipeline :
  match runArgs any_workload plain_text Background pipeline_args start_box with
  | Some (Some _, b) => bool_decide (b_con b = b_con start_box /\ b_vol b = b_vol start_box)
  | _ => false
  end = true.
Proof. vm_compute. reflexivity. Qed.

(** Flags of single measurements are refused by a study, and a study's by the
    others. *)
Definition plan_error (args : list bytes) : goerr := match bench_plan any_workload args with Err e => Some e | Ok _ => None end.

Example study_refuses : plan_error [lit "-mode=study"; lit "-rate=5"; lit "-count=2"] =
  Some (ENew "study uses registered controls; -rate is only for single-run modes").
Proof. vm_compute. reflexivity. Qed.
Example smoke_refused : plan_error [lit "-smoke"] = Some (ENew "smoke/resume flags require study mode").
Proof. vm_compute. reflexivity. Qed.
